(* ===== verification/_CoqProject ===== *)
-Q . S2P
Prelude.v
GoStrings.v
Sql.v
SqlText.v
Sqlite.v
Net.v
NetV6.v
Model.v
Crud.v
CrudSpec.v
CrudLog.v
CrudLogSpec.v
Follow.v
Gateway.v
GatewaySpec.v
GatewaySync.v
GatewaySink.v
FollowMetrics.v
Sessions.v
Expire.v
Registration.v
Effects.v
Http.v
RemoteLog.v
Stream.v
Locks.v
Cluster.v
Api.v
Server.v
Nodes.v
Tree.v
Process.v
FlagSet.v
Flags.v
Cmd.v
GatewayRun.v
Commander.v
