(* ===== verification/Prelude.v ===== *)
(** * Verification of wig, a multi-gateway Wireguard VPN control plane

    ** The program

    wig keeps the configuration of a Wireguard VPN (interfaces, peers, access
    tokens) in a SQLite datastore and replicates every change, through a
    numbered log, to read-only datastores and to gateways that configure the
    kernel.  Its parts, all under [src/]:

    - [datastore/sqlite], [datastore/migrations.go]: transactions and schema;
    - [datastore/model]: the object types and their JSON and SQL forms;
    - [datastore/crud]: typed create/read/update/delete on the tables;
    - [datastore/crudlog]: the log: a sink applies, records and announces a
      change in one transaction; a source serves snapshots and subscriptions;
      a follower pulls from a source into a sink;
    - [gateway]: a sink that keeps network devices in step with the log, and
      reports traffic statistics;
    - [datastore/sessions]: completed sessions, detected from the statistics;
    - [datastore/expire], [datastore/registration]: the periodic deletion of
      expired peers, and the assignment of addresses to new peers;
    - [datastore/crud/httptransport], [datastore/crud/httpapi], the [remote.go]
      and [client.go] files: HTTP transport, access control, the handlers and
      clients of the datastore and of the log;
    - [cmd/wig], [util], [datastore/crud/command.go]: the commands and their
      flags; [wig api] puts a datastore server together, [wig gateway] a
      gateway, [wig init] creates the first administrator.

    ** The files

    - [Prelude]: Go errors and results, the state-and-error monad [M] (a call
      returns a value or an error, panics, or never returns; the state is kept
      on every outcome), automation and generic lemmas.
    - [GoStrings]: strings, number formats ([strconv]), [strings.Split/Join].
    - [Sql]: the part of SQLite that the program uses: tables with primary
      keys, NOT NULL and cascading foreign keys, the four statements, and the
      consistency of a database.
    - [SqlText]: a reader of SQL text, the statement builders of
      [crud/sql_table.go], and what the engine reads them as.
    - [Sqlite]: [WithTx], [migrate], [OpenDB], the two migrations.
    - [Net]: addresses and networks of Go's [net], and [model/cidr.go].
    - [NetV6]: the compressed text form of an IPv6 address is read back, and the
      networks of both families survive their JSON and SQL forms.
    - [Model]: [model/peer.go], [interface.go], [token.go]; JSON by value.
    - [Crud]: [crud/sql_table.go], [crud.go], [encoding.go].
    - [CrudSpec]: an abstract store of objects, and the refinement of the
      dispatcher to it.
    - [CrudLog]: [crudlog/op.go], [sql.go], [pubsub.go], [log.go].  Channels are
      shared objects in a store of their own, so that the aliasing of a
      subscription and the subscriber list is part of the model.
    - [CrudLogSpec]: the interface to the tables ([CrudLaws], [EncodingLaws]),
      the invariant of the log, and its properties.
    - [Follow]: [crudlog/follow.go] against the classes [LogSource] and
      [LogSink]; the goroutine of a subscription; a step relation for one
      datastore and any number of followers; its invariant and convergence.
    - [Gateway]: [gateway/wireguard.go], [interface.go], [status.go] over the
      class [Kernel] (netlink and wgctrl).
    - [GatewaySpec]: the gateway in step with the abstract store, and its
      progress on a kernel that does what it is asked; [GatewaySync]: a kernel
      in memory, and the properties; [GatewaySink]: the gateway as an instance
      of the laws of a sink, so that everything proved of followers holds of it.
    - [FollowMetrics]: [crudlog/follow.go] with the metrics of replication.
    - [Sessions], [Expire], [Registration]: one file per component, its
      operations and its properties.
    - [Effects]: what calls do to the database ([respects R m] for a preorder
      [R]): which only read, and which keep it consistent; used for the server.
    - [Http]: [httptransport] and [httpapi]: requests, replies and errors as
      values, the multiplexer of [net/http], authentication, roles and the
      guard of every handler, the client.
    - [RemoteLog]: [crudlog/remote.go]: the log's handlers and the remote source,
      an instance of [LogSource] that [Follow] and a gateway run on.
    - [Stream]: the two ends of a subscription over HTTP as goroutines: the
      handler that writes lines, the scanner and the loop that receive them,
      with the channel and the connection between them.
    - [Locks]: the goroutines of one datastore inside their transactions: the
      lock of [log.go], the only connection of the pool, the lock of [pubsub.go]
      and its blocking sends, one step per acquisition, statement group or send.
    - [Cluster]: a step relation for a datastore and any number of nodes that
      follow it over HTTP, every goroutine of every subscription taking its own
      steps; its invariant and its catching up, for any kind of node with the
      laws of a sink.
    - [Api]: [crud/remote.go], [crud/client.go], [crud/command.go]: the handlers
      of the object types, the clients, what the object commands do.
    - [Server]: the handlers of [sessions/manager.go] and
      [registration/registration.go], [sessions/client.go], and the server of
      [cmd/wig/api.go] with its rules and routes.
    - [Nodes]: datastores and gateways as the nodes of a cluster.
    - [Tree]: datastores that follow datastores and serve others, and gateways
      at the leaves: the clusters of a tree, writes on its primary and restarts
      of its processes, as one step relation.
    - [Process]: the life of a server process of [api.go], [gw.go] and [main.go]:
      signals, the tasks of its [errgroup], the server and the goroutine that
      shuts it down, up to the exit status.
    - [FlagSet]: Go's package [flag]: sets of flags over the fields of a struct,
      and the parser of arguments.
    - [Flags]: [util/flags.go], [client_subcommands.go], [tls_subcommands.go].
    - [Cmd]: [cmd/wig/init.go], [api.go], [gw.go]: the structs of the commands,
      their flags and their runs.
    - [GatewayRun]: what a run of [wig gateway] does to the devices of its host.
    - [Commander]: the registry of commands (vendored [subcommands]), the object
      commands of [crud/command.go], what [cmd/wig] registers, and [main].

    ** What the theorems show

    - Replication: in every state that a deployment can reach, by any
      interleaving of writes, of the goroutines of all subscriptions, of
      failures, disconnections and restarts, each read-only datastore has
      exactly the data, log and sequence of a prefix of the history of every
      datastore above it, each gateway exactly the devices and peers of such a
      prefix; each can always catch up with the primary.  The same for followers
      in one process is in [Follow].
    - The log: [Apply] applies, records and announces a change as one and keeps
      the log the complete numbered history; subscriptions miss nothing; an
      announcement reaches every subscriber or blocks, and never panics while
      subscriptions are closed once.
    - Concurrency: however the goroutines of a datastore interleave on its locks,
      its connection and its channels, the database is that of whole calls one
      after the other; every call can return while subscribers are served.
    - The tables: the dispatcher refines the abstract store; the statement
      texts mean what is intended; migrations compose; objects, operations and
      networks survive their serializations.
    - Gateways: an accepted change, or a snapshot, leaves the devices in step
      with the store; a run touches no other devices of the host, and leaves
      none of its own behind.
    - Sessions are well formed and do not overlap, and a report is recorded as a
      whole; expiring a list of keys deletes exactly those peers; the address
      generator enumerates the hosts of a network, and the search for a free
      address terminates with the first one.
    - Over HTTP: subscribing to a remote log and writing through the API have
      the outcome of the calls on the server; the stream of a subscription
      loses nothing.
    - The command line: every registered command is selected by its name and
      given the flags and arguments that are written, in every spelling; a
      command line that creates or updates an object runs the server's writer
      on that object, and its exit status tells the outcome.
    - Processes: shutting down takes a bounded number of steps and always ends
      with the exit of the process.
    - The server: only administrators change the datastore, whatever the
      request; no request breaks the consistency of the database; [wig init]
      makes an administrator; generated secrets have their length and alphabet;
      configuration files are read as they are written.
    - What does not work, as theorems too: snapshots of a datastore, loading
      one, a change announced before a failed commit, interface updates and
      moved or unknown peers on a gateway, the expiry task, the dump of active
      sessions, retries of a failed connection, the commands that delete and
      find objects, authentication by certificates, the flag for the expiration
      of a peer, ending a subscription that still delivers, a datastore whose
      subscriber stops reading and leaves, the gauge of an ended replication, an
      end of a server process with status 0 or with its requests answered.

    ** Conventions, bounds and fuel

    - What the environment decides is an argument: whether a transaction begins
      and commits ([tx_env]), the order in which a Go map is visited ([ord]),
      the current time, the network ([net_env]), the files, the bytes of the
      random generator, what third-party packages do (classes [WgKeys],
      [Kernel], [Ranger], the geographic databases, certificates).  Every class
      has a concrete instance, used in the witnesses.
    - Instants are nanoseconds; [int] and [uint64] are [Z] with their bounds
      checked where values enter and wrapped where they overflow; bytes of
      addresses are [Z] with wrap-around.
    - [dispatcher_DeleteAll] takes fuel for a recursion that has no end, and the
      theorem holds for every fuel.  [parse_groups] has 8 steps for the 8 groups
      of an IPv6 address.  [free_loop] has one step for each of the addresses
      that its generator has left, and is proved never to run out.  The lists
      of rounds, events, attempts and random bytes are what the environment
      has given so far: at their end a call is still waiting ([Hang]).
    - [time.ParseDuration] is an argument, because the one flag that it reads is
      not used.
    - A transaction is one step of the interleavings of [Follow], [Cluster] and
      [Tree], announcements included; [Locks] takes it apart and shows that for
      the database this makes no difference.

    ** What is not modelled

    What a command writes to the terminal, and the texts of usage messages
    beside those that the commands define; log messages; the registration and
    the text form of the metrics; groups of tasks with a limit, which the program
    does not use; the test
    driver ([test/driver.go], which runs the binaries on
    virtual machines).  JSON is modelled by value, not by text, and so are
    requests and replies: their headers are reduced to the credentials and the
    content type.  SQL text is read as one of the statements that the program
    builds; anything else is a syntax error, so that the names in the query of
    a search are taken to be identifiers.  SQLite's storage, concurrency
    between processes and TLS are outside. *)

From stdpp Require Export base numbers option strings fin_maps gmap list.

(** ** Go errors

    The sentinel errors of the code, errors created from a string
    ([errors.New], [fmt.Errorf] without [%w]), errors wrapped with [%w], and
    the permanent-error wrapper of the backoff package.  [ESql] is an error
    reported by the SQL engine, [ENet] one reported by the HTTP client. *)
Inductive sqlerr : Type :=
| SqlSyntax | SqlNoTable | SqlNoColumn | SqlNotNull | SqlUnique | SqlForeignKey
| SqlBind | SqlNoRows | SqlScan | SqlIO.

Inductive err : Type :=
| ErrHorizon | ErrOutOfSequence | ErrInvalidOpType
| ErrUnknownType | ErrReadonly | ErrRollback
| ESql (e : sqlerr)
| ENet (s : string)
| EMsg (s : string)
| EWrap (s : string) (e : err)
| EPermanent (e : err).

#[global] Instance sqlerr_eq_dec : EqDecision sqlerr.
Proof. solve_decision. Defined.

#[global] Instance err_eq_dec : EqDecision err.
Proof. solve_decision. Defined.

(** [errors.Is]: the chain of wrapped errors contains the target. *)
Fixpoint errors_Is (e target : err) : bool :=
  bool_decide (e = target) ||
  match e with
  | EWrap _ e' | EPermanent e' => errors_Is e' target
  | _ => false
  end.

(** ** Results and the state-and-error monad

    A Go call returns a value, returns an error, panics, or never returns
    (it blocks, or its recursion has no end).  [M S A] threads a state of
    type [S] through such calls: the state is kept on every outcome, because
    Go code that returns an error keeps the mutations it has made. *)
Inductive res (A : Type) : Type :=
| Ok (a : A)
| Err (e : err)
| Panic (s : string)
| Hang.
Arguments Ok {A} _.
Arguments Err {A} _.
Arguments Panic {A} _.
Arguments Hang {A}.

Definition M (S A : Type) : Type := S → res A * S.

#[global] Instance M_ret S : MRet (M S) := λ A a s, (Ok a, s).

#[global] Instance M_bind S : MBind (M S) := λ A B k m s,
  match m s with
  | (Ok a, s') => k a s'
  | (Err e, s') => (Err e, s')
  | (Panic p, s') => (Panic p, s')
  | (Hang, s') => (Hang, s')
  end.

Definition fail {S A} (e : err) : M S A := λ s, (Err e, s).
Definition panic {S A} (p : string) : M S A := λ s, (Panic p, s).
Definition hang {S A} : M S A := λ s, (Hang, s).
Definition getS {S} : M S S := λ s, (Ok s, s).
Definition put {S} (s : S) : M S unit := λ _, (Ok tt, s).
Definition gets {S A} (f : S → A) : M S A := λ s, (Ok (f s), s).
Definition modify {S} (f : S → S) : M S unit := λ s, (Ok tt, f s).
Definition lift_res {S A} (r : res A) : M S A := λ s, (r, s).

(** A pure result bind, for code that only returns errors. *)
#[global] Instance res_ret : MRet res := λ A a, Ok a.
#[global] Instance res_bind : MBind res := λ A B k r,
  match r with
  | Ok a => k a
  | Err e => Err e
  | Panic p => Panic p
  | Hang => Hang
  end.

(** [for _, x := range l { if err := f(x); err != nil { return err } }] *)
Fixpoint each {S A} (f : A → M S unit) (l : list A) : M S unit :=
  match l with
  | [] => mret tt
  | x :: l => f x ≫= λ _, each f l
  end.

(** The same loop over a pure callback that returns values. *)
Fixpoint res_map {A B} (f : A → res B) (l : list A) : res (list B) :=
  match l with
  | [] => Ok []
  | x :: l => y ← f x; ys ← res_map f l; mret (y :: ys)
  end.

(** [x, err := m] where the caller inspects the error itself. *)
Definition try {S A} (m : M S A) : M S (A + err) := λ s,
  match m s with
  | (Ok a, s') => (Ok (inl a), s')
  | (Err e, s') => (Ok (inr e), s')
  | (Panic p, s') => (Panic p, s')
  | (Hang, s') => (Hang, s')
  end.

Definition is_ok {A} (r : res A) : bool := match r with Ok _ => true | _ => false end.

(** ** Machine integers *)
Definition uint64_wrap (z : Z) : Z := z mod 2 ^ 64.
Definition uint64_ok (z : Z) : bool := bool_decide (0 ≤ z < 2 ^ 64)%Z.
Definition byte_wrap (z : Z) : Z := z mod 256.

(** ** Stable sorting by a number ([ORDER BY], [sort.Slice]) *)
Fixpoint insert_by {A} (key : A → Z) (x : A) (l : list A) : list A :=
  match l with
  | [] => [x]
  | y :: l' => if bool_decide (key x ≤ key y)%Z then x :: l else y :: insert_by key x l'
  end.

Definition sort_by {A} (key : A → Z) (l : list A) : list A := foldr (insert_by key) [] l.

(** ** Automation *)
Create HintDb wig.
#[export] Hint Extern 1 => lia : wig.

(** Decomposes the equations between results and states of monadic runs. *)
Ltac inv_run := repeat (progress simplify_eq/=).

Ltac m_unfold :=
  unfold mbind, M_bind, res_bind, mret, M_ret, res_ret, fail, panic, hang, getS, put, gets,
    modify, lift_res, try in *; cbn beta iota in *.

(** ** Lemmas on errors *)
Lemma errors_Is_refl e : errors_Is e e = true.
Proof. destruct e; cbn; by rewrite bool_decide_eq_true_2. Qed.

Lemma errors_Is_wrap s e t : errors_Is e t = true → errors_Is (EWrap s e) t = true.
Proof. intros H. cbn. rewrite H. apply orb_true_r. Qed.

Lemma errors_Is_permanent e t : errors_Is e t = true → errors_Is (EPermanent e) t = true.
Proof. intros H. cbn. rewrite H. apply orb_true_r. Qed.

#[export] Hint Resolve errors_Is_refl errors_Is_wrap errors_Is_permanent : wig.

(** ** Lemmas on monadic runs *)
Lemma bind_Ok_inv {S A B} (m : M S A) (k : A → M S B) s b s' :
  (m ≫= k) s = (Ok b, s') → ∃ a s1, m s = (Ok a, s1) ∧ k a s1 = (Ok b, s').
Proof.
  m_unfold. destruct (m s) as [[a|e|p|] s1]; intros H; [by eauto|by inv_run..].
Qed.

Lemma bind_Ok {S A B} (m : M S A) (k : A → M S B) s a s1 :
  m s = (Ok a, s1) → (m ≫= k) s = k a s1.
Proof. intros H. m_unfold. by rewrite H. Qed.

Lemma bind_Err {S A B} (m : M S A) (k : A → M S B) s e s1 :
  m s = (Err e, s1) → (m ≫= k) s = (Err e, s1).
Proof. intros H. m_unfold. by rewrite H. Qed.

Lemma bind_Hang {S A B} (m : M S A) (k : A → M S B) s s1 :
  m s = (Hang, s1) → (m ≫= k) s = (Hang, s1).
Proof. intros H. m_unfold. by rewrite H. Qed.

Lemma bind_assoc {S A B C} (m : M S A) (f : A → M S B) (g : B → M S C) s :
  ((m ≫= f) ≫= g) s = (m ≫= λ a, f a ≫= g) s.
Proof. m_unfold. by destruct (m s) as [[] ?]. Qed.

Lemma each_app {S A} (f : A → M S unit) l1 l2 s :
  each f (l1 ++ l2) s = (each f l1 ≫= λ _, each f l2) s.
Proof.
  revert s. induction l1 as [|x l1 IH]; intros s; [done|].
  cbn [each app]. rewrite bind_assoc. m_unfold.
  destruct (f x s) as [[] s1]; [|done..]. apply IH.
Qed.

(** A state property kept by one step is kept by the whole loop. *)
Lemma each_inv {S A} (P : S → Prop) (f : A → M S unit) l :
  (∀ x s r s', x ∈ l → P s → f x s = (r, s') → P s') →
  ∀ s r s', P s → each f l s = (r, s') → P s'.
Proof.
  induction l as [|x l IH]; intros Hf s r s' Hs Hrun.
  - cbn [each] in Hrun. m_unfold. by inv_run.
  - cbn [each] in Hrun. m_unfold. destruct (f x s) as [r1 s1] eqn:E.
    assert (P s1) by (eapply Hf; [left|done|done]).
    destruct r1; inv_run; try done.
    eapply IH; [|done|done]. intros; eapply Hf; [by right|done..].
Qed.

Lemma res_map_Ok {A B} (f : A → res B) l ys :
  res_map f l = Ok ys ↔ Forall2 (λ x y, f x = Ok y) l ys.
Proof.
  revert ys. induction l as [|x l IH]; intros ys; cbn.
  - split; [intros H; inv_run; constructor|by inversion 1].
  - m_unfold. split.
    + destruct (f x) eqn:E; try discriminate. destruct (res_map f l) eqn:E2; try discriminate.
      intros H; inv_run. constructor; [done|]. by apply IH.
    + inversion 1 as [|? y ? ys' Hy Hys]; subst. rewrite Hy. apply IH in Hys. by rewrite Hys.
Qed.

(** ** Lemmas on lists *)
Lemma filter_all {A} (P : A → Prop) `{∀ x, Decision (P x)} (l : list A) :
  Forall P l → filter P l = l.
Proof. induction 1; [done|]. rewrite filter_cons_True by done. by f_equal. Qed.

Lemma filter_none {A} (P : A → Prop) `{∀ x, Decision (P x)} (l : list A) :
  Forall (λ x, ¬ P x) l → filter P l = [].
Proof. induction 1; [done|]. by rewrite filter_cons_False. Qed.

Lemma filter_ext_in {A} (P Q : A → Prop) `{∀ x, Decision (P x)} `{∀ x, Decision (Q x)} (l : list A) :
  Forall (λ x, P x ↔ Q x) l → filter P l = filter Q l.
Proof.
  induction 1 as [|x l HPQ Hl IH]; [done|]. destruct (decide (P x)).
  - rewrite !filter_cons_True by tauto. by f_equal.
  - by rewrite !filter_cons_False by tauto.
Qed.

(** Selecting the entries at or above a number from a list whose entries are
    numbered consecutively is dropping a prefix of it. *)
Lemma filter_ge_drop {A} (f : A → Z) (l : list A) (k : nat) (c : Z) :
  (∀ i x, l !! i = Some x → f x = c + Z.of_nat i)%Z →
  filter (λ x, c + Z.of_nat k ≤ f x)%Z l = drop k l.
Proof.
  revert k c. induction l as [|x l IH]; intros k c Hl; [by rewrite drop_nil|].
  assert (Hx : f x = c) by (rewrite (Hl 0 x eq_refl); lia).
  assert (Hl' : ∀ i y, l !! i = Some y → f y = (c + 1 + Z.of_nat i)%Z).
  { intros i y Hy. rewrite (Hl (S i) y Hy). lia. }
  destruct k as [|k].
  - apply filter_all, Forall_lookup. intros i y Hy. rewrite (Hl i y Hy). lia.
  - rewrite filter_cons_False by lia. cbn.
    rewrite <- (IH k (c + 1)%Z Hl'). apply list_filter_iff. intros y. lia.
Qed.

(** Sorting what is sorted changes nothing. *)
Lemma sort_by_sorted {A} (key : A → Z) (l : list A) (c : Z) :
  (∀ i x, l !! i = Some x → key x = c + Z.of_nat i)%Z → sort_by key l = l.
Proof.
  revert c. induction l as [|x l IH]; intros c Hl; [done|]. cbn. fold (sort_by key l).
  rewrite (IH (c + 1)%Z).
  - destruct l as [|y l]; [done|]. cbn. rewrite bool_decide_eq_true_2; [done|].
    rewrite (Hl 0 x eq_refl), (Hl 1 y eq_refl). lia.
  - intros i y Hy. rewrite (Hl (S i) y Hy). lia.
Qed.

Lemma insert_by_perm {A} (key : A → Z) x (l : list A) : insert_by key x l ≡ₚ x :: l.
Proof.
  induction l as [|y l IH]; [done|]. cbn. case_bool_decide; [done|]. rewrite IH. apply Permutation_swap.
Qed.

Lemma sort_by_perm {A} (key : A → Z) (l : list A) : sort_by key l ≡ₚ l.
Proof. induction l as [|x l IH]; [done|]. cbn. rewrite insert_by_perm. by apply Permutation_cons. Qed.

(** A function without repetitions on a list is injective on it. *)
Lemma NoDup_fmap_elem {A B} (f : A → B) (l : list A) x y :
  NoDup (f <$> l) → x ∈ l → y ∈ l → f x = f y → x = y.
Proof.
  induction l as [|z l IH]; intros Hnd Hx Hy Hf; [by apply elem_of_nil in Hx|].
  cbn in Hnd. inversion Hnd as [|?? Hz Hnd']; subst.
  apply elem_of_cons in Hx as [->|Hx]; apply elem_of_cons in Hy as [->|Hy]; [done|..|by apply IH].
  - exfalso. apply Hz. rewrite Hf. by apply list_elem_of_fmap_2.
  - exfalso. apply Hz. rewrite <- Hf. by apply list_elem_of_fmap_2.
Qed.
