(* ===== verification/GoStrings.v ===== *)
(** * Go strings and numbers in text

    What the code uses of Go's [strings] and [strconv] packages: splitting and
    joining on a one-character separator, prefixes and suffixes, cutting and
    trimming, and the conversion of unsigned integers to and from text in a
    base.  The replication log's [Sequence] text form ([crudlog/interfaces.go])
    is the first client. *)

From Stdlib Require Import Ascii.
From S2P Require Import Prelude.
Local Open Scope string_scope.
#[global] Arguments String.append !_ _ / : simpl nomatch.

(** ** Strings *)

(** [strings.Split(s, sep)] for a one-character separator: never empty. *)
Fixpoint split (sep : ascii) (s : string) : list string :=
  match s with
  | EmptyString => [""]
  | String c s' =>
      if Ascii.eqb c sep then "" :: split sep s'
      else match split sep s' with
           | w :: ws => String c w :: ws
           | [] => [String c ""]
           end
  end.

(** [strings.Join(l, sep)] *)
Fixpoint join (sep : string) (l : list string) : string :=
  match l with
  | [] => ""
  | [w] => w
  | w :: ws => w ++ sep ++ join sep ws
  end.

(** [strings.Cut(s, sep)]: the text before and after the first separator. *)
Fixpoint cut (sep : ascii) (s : string) : option (string * string) :=
  match s with
  | EmptyString => None
  | String c s' =>
      if Ascii.eqb c sep then Some ("", s')
      else match cut sep s' with
           | Some (a, b) => Some (String c a, b)
           | None => None
           end
  end.

(** [strings.SplitN(s, sep, 2)] *)
Definition splitN2 (sep : ascii) (s : string) : list string :=
  match cut sep s with Some (a, b) => [a; b] | None => [s] end.

(** [strings.HasSuffix(s, c)] and [strings.TrimPrefix(s, c)] for one character *)
Fixpoint has_suffix (c : ascii) (s : string) : bool :=
  match s with
  | EmptyString => false
  | String d EmptyString => Ascii.eqb c d
  | String _ s' => has_suffix c s'
  end.

Definition trim_prefix (c : ascii) (s : string) : string :=
  match s with
  | String d s' => if Ascii.eqb c d then s' else s
  | EmptyString => s
  end.

(** [strings.Contains(s, c)], [strings.IndexByte(s, c)] and [s[:n]] *)
Fixpoint contains (c : ascii) (s : string) : bool :=
  match s with
  | EmptyString => false
  | String d s' => Ascii.eqb c d || contains c s'
  end.

(** The text before the first [c], or all of it: [line[:n]] for
    [n := strings.IndexByte(line, c)] when [n >= 0]. *)
Definition before (c : ascii) (s : string) : string :=
  match cut c s with Some (a, _) => a | None => s end.

(** [strings.Replace(s, "a", "b", -1)] for one-character texts *)
Fixpoint replace_char (a b : ascii) (s : string) : string :=
  match s with
  | EmptyString => ""
  | String c s' => String (if Ascii.eqb c a then b else c) (replace_char a b s')
  end.

(** ** White space

    [strings.TrimSpace] removes the encodings of the Unicode spaces: the ASCII
    ones, U+0085, U+00A0, U+1680, U+2000 to U+200A, U+2028, U+2029, U+202F,
    U+205F and U+3000. *)
Definition bytes (l : list nat) : string := foldr (λ n, String (ascii_of_nat n)) "" l.

Definition spaces : list string :=
  bytes <$> app ((λ n, [n]) <$> [9; 10; 11; 12; 13; 32]%nat)
    (app [[194; 133]; [194; 160]; [225; 154; 128]; [226; 128; 168]; [226; 128; 169]; [226; 128; 175]; [226; 129; 159]; [227; 128; 128]]%nat
      ((λ n, [226; 128; n]%nat) <$> seq 128 11)).

(** [strings.HasPrefix] *)
Fixpoint has_prefix (p s : string) : bool :=
  match p, s with
  | EmptyString, _ => true
  | String c p', String d s' => Ascii.eqb c d && has_prefix p' s'
  | _, _ => false
  end.

Fixpoint drop_chars (n : nat) (s : string) : string :=
  match n, s with
  | S n, String _ s => drop_chars n s
  | _, _ => s
  end.

(** One prefix of the list off the text, as often as there is one. *)
Fixpoint trim_prefixes (fuel : nat) (ps : list string) (s : string) : string :=
  match fuel with
  | O => s
  | S fuel =>
      match List.find (λ p, has_prefix p s) ps with
      | Some p => trim_prefixes fuel ps (drop_chars (String.length p) s)
      | None => s
      end
  end.

Fixpoint reverse_string (s acc : string) : string :=
  match s with EmptyString => acc | String c s => reverse_string s (String c acc) end.

Definition rev_string (s : string) : string := reverse_string s "".

Definition trim_left (s : string) : string := trim_prefixes (String.length s) spaces s.
Definition trim_right (s : string) : string :=
  rev_string (trim_prefixes (String.length s) (rev_string <$> spaces) (rev_string s)).
Definition trim_space (s : string) : string := trim_right (trim_left s).

(** ** Paths *)

(** [path.Clean] (and [filepath.Clean]): one element of the path; the stack is
    the cleaned path in reverse. *)
Definition clean_step (rooted : bool) (st : list string) (c : string) : list string :=
  if bool_decide (c = "" ∨ c = ".") then st
  else if bool_decide (c = "..") then
    match st with
    | [] => if rooted then [] else [".."]
    | top :: rest => if bool_decide (top = "..") then ".." :: st else rest
    end
  else c :: st.

Definition path_Clean (s : string) : string :=
  let rooted := has_prefix "/" s in
  let body := join "/" (reverse (foldl (clean_step rooted) [] (split "/" s))) in
  if rooted then "/" ++ body else if bool_decide (body = "") then "." else body.

(** [filepath.Join] of two elements that are not empty *)
Definition path_Join (a b : string) : string := path_Clean (a ++ "/" ++ b).

(** ** Unsigned integers in text *)

(** The value of a digit, as in [strconv.ParseUint]. *)
Definition digit_val (c : ascii) : option Z :=
  let n := Z.of_nat (nat_of_ascii c) in
  if bool_decide (48 ≤ n ≤ 57)%Z then Some (n - 48)%Z
  else if bool_decide (97 ≤ n ≤ 122)%Z then Some (n - 87)%Z
  else if bool_decide (65 ≤ n ≤ 90)%Z then Some (n - 55)%Z
  else None.

Definition digit_char (d : Z) : ascii :=
  ascii_of_nat (Z.to_nat (if bool_decide (d < 10)%Z then d + 48 else d + 87)%Z).

(** The digit loop of [strconv.ParseUint(s, base, 64)]: it stops at the first
    bad digit or as soon as the value leaves the range. *)
Fixpoint parse_digits (base max : Z) (s : string) (n : Z) : res Z :=
  match s with
  | EmptyString => Ok n
  | String c s' =>
      match digit_val c with
      | Some d =>
          if bool_decide (base ≤ d)%Z then Err (EMsg "invalid syntax")
          else if bool_decide (max < n * base + d)%Z then Err (EMsg "value out of range")
          else parse_digits base max s' (n * base + d)
      | None => Err (EMsg "invalid syntax")
      end
  end.

Definition parse_uint (base max : Z) (s : string) : res Z :=
  match s with
  | EmptyString => Err (EMsg "invalid syntax")
  | _ => parse_digits base max s 0
  end.

(** [strconv.FormatUint(u, base)]: digits from the last one, [fuel] of them at
    most ([fuel] digits are enough for values below [base ^ fuel]). *)
Fixpoint format_digits (base : Z) (fuel : nat) (u : Z) (acc : string) : string :=
  match fuel with
  | O => acc
  | S fuel =>
      let acc := String (digit_char (u mod base)) acc in
      if bool_decide (u < base)%Z then acc else format_digits base fuel (u / base) acc
  end.

Definition max_uint64 : Z := 2 ^ 64 - 1.

(** [strconv.FormatUint(u, 16)] and [strconv.FormatUint(u, 10)]: 16 and 20
    digits are enough for 64 bits. *)
Definition format_hex (u : Z) : string := format_digits 16 16 u "".
Definition format_dec (u : Z) : string := format_digits 10 20 u "".

(** ** Lemmas: split and join *)
Lemma str_app_assoc (a b c : string) : (a ++ b) ++ c = a ++ b ++ c.
Proof. induction a as [|x a IH]; cbn; [done|]. by rewrite IH. Qed.

Lemma str_app_nil_r (a : string) : a ++ "" = a.
Proof. induction a as [|x a IH]; cbn; [done|]. by rewrite IH. Qed.

Lemma contains_app c a b : contains c (a ++ b) = contains c a || contains c b.
Proof.
  induction a as [|d a IH]; cbn [String.append contains]; [done|]. by rewrite IH, orb_assoc.
Qed.

Lemma cut_app c w s : contains c w = false → cut c (w ++ String c s) = Some (w, s).
Proof.
  induction w as [|d w IH]; cbn [String.append contains cut]; intros H.
  - by rewrite Ascii.eqb_refl.
  - apply orb_false_iff in H as [H1 H2]. by rewrite Ascii.eqb_sym, H1, IH.
Qed.

Lemma has_prefix_app a b : has_prefix a (a ++ b) = true.
Proof. induction a as [|c a IH]; [done|]. cbn. by rewrite Ascii.eqb_refl. Qed.

Lemma drop_chars_app a b : drop_chars (String.length a) (a ++ b) = b.
Proof. by induction a. Qed.

Lemma has_suffix_app c a b : b ≠ "" → has_suffix c (a ++ b) = has_suffix c b.
Proof.
  intros Hb. induction a as [|d a IH]; [done|]. cbn [String.append]. rewrite <- IH.
  destruct (a ++ b) eqn:E; [|done]. by destruct a.
Qed.

Lemma cut_None c s : contains c s = false → cut c s = None.
Proof.
  induction s as [|d s IH]; cbn; [done|]. rewrite (Ascii.eqb_sym d c). destruct (Ascii.eqb c d); cbn; [done|].
  intros Hs. by rewrite IH.
Qed.

Lemma split_not_nil sep s : split sep s ≠ [].
Proof. destruct s; cbn [split]; [done|]. case_match; [done|]. by destruct (split sep s). Qed.

Lemma join_cons sep w ws : ws ≠ [] → join sep (w :: ws) = w ++ sep ++ join sep ws.
Proof. by destruct ws. Qed.

Lemma join_split c s : join (String c "") (split c s) = s.
Proof.
  induction s as [|d s IH]; [done|]. cbn [split].
  destruct (Ascii.eqb_spec d c) as [->|Hne].
  - rewrite join_cons by apply split_not_nil. by rewrite IH.
  - destruct (split c s) as [|w ws] eqn:E; [by destruct (split_not_nil c s)|].
    rewrite <- IH. by destruct ws.
Qed.

Lemma split_app_sep c w s : contains c w = false → split c (w ++ String c s) = w :: split c s.
Proof.
  induction w as [|d w IH]; cbn [split String.append contains]; intros H.
  - by rewrite Ascii.eqb_refl.
  - apply orb_false_iff in H as [H1 H2]. rewrite Ascii.eqb_sym, H1, IH by done. done.
Qed.

Lemma split_single c w : contains c w = false → split c w = [w].
Proof.
  induction w as [|d w IH]; cbn [split String.append contains]; intros H; [done|].
  apply orb_false_iff in H as [H1 H2]. by rewrite Ascii.eqb_sym, H1, IH.
Qed.

Lemma split_join c l :
  l ≠ [] → Forall (λ w, contains c w = false) l → split c (join (String c "") l) = l.
Proof.
  intros Hne Hl. induction Hl as [|w ws Hw Hws IH]; [done|].
  destruct ws as [|w' ws]; [by apply split_single|].
  rewrite join_cons by done. cbn [String.append].
  rewrite split_app_sep by done. f_equal. by apply IH.
Qed.

(** ** Lemmas: integers in text *)
Lemma digit_val_char d : (0 ≤ d < 36)%Z → digit_val (digit_char d) = Some d.
Proof.
  intros Hd. unfold digit_val, digit_char. destruct (decide (d < 10)%Z).
  - rewrite (bool_decide_eq_true_2 (d < 10)%Z), nat_ascii_embedding, Z2Nat.id by lia.
    rewrite bool_decide_eq_true_2 by lia. f_equal; lia.
  - rewrite (bool_decide_eq_false_2 (d < 10)%Z), nat_ascii_embedding, Z2Nat.id by lia.
    rewrite bool_decide_eq_false_2, bool_decide_eq_true_2 by lia. f_equal; lia.
Qed.

(** The accumulator of the printing loop is a suffix of what it returns. *)
Lemma parse_format_digits base max fuel u s n :
  (2 ≤ base ≤ 36)%Z → (0 ≤ u < base ^ Z.of_nat fuel)%Z → (u ≤ max)%Z → n = 0%Z → fuel ≠ 0 →
  parse_digits base max (format_digits base fuel u s) n = parse_digits base max s u.
Proof.
  intros Hb. revert u s n. induction fuel as [|fuel IH]; intros u s n Hu Hmax -> Hf; [done|].
  rewrite Nat2Z.inj_succ, Z.pow_succ_r in Hu by lia. cbn [format_digits].
  assert (Hm := Z.mod_pos_bound u base ltac:(lia)).
  assert (Hq : u = (u / base * base + u mod base)%Z) by (pose proof (Z.div_mod u base); lia).
  assert (Hstep : ∀ q, q = (u / base)%Z →
    parse_digits base max (String (digit_char (u mod base)) s) q = parse_digits base max s u).
  { intros q ->. cbn [parse_digits]. rewrite digit_val_char by lia.
    rewrite bool_decide_eq_false_2 by lia. rewrite bool_decide_eq_false_2 by lia.
    by rewrite <- Hq. }
  case_bool_decide as Hlt.
  - apply Hstep. by rewrite Z.div_small by lia.
  - assert (0 ≤ u / base < base ^ Z.of_nat fuel)%Z.
    { split; [apply Z.div_pos; lia|]. apply Z.div_lt_upper_bound; lia. }
    rewrite IH; [by apply Hstep|done| |done|].
    + assert (u / base ≤ u)%Z by (apply Z.div_le_upper_bound; nia). lia.
    + intros ->. cbn in *. assert (u / base = 0)%Z by lia. apply Z.div_small_iff in H0; lia.
Qed.

Lemma format_digits_cons base fuel u s :
  fuel ≠ 0 → ∃ c t, format_digits base fuel u s = String c t.
Proof.
  revert u s. induction fuel as [|fuel IH]; intros u s Hf; [done|]. cbn.
  case_bool_decide; [eauto|]. destruct fuel; [cbn; eauto|]. apply IH; lia.
Qed.

Lemma parse_format base max fuel u :
  (2 ≤ base ≤ 36)%Z → (0 ≤ u < base ^ Z.of_nat fuel)%Z → (u ≤ max)%Z → fuel ≠ 0 →
  parse_uint base max (format_digits base fuel u "") = Ok u.
Proof.
  intros Hb Hu Hmax Hf. unfold parse_uint.
  destruct (format_digits_cons base fuel u "" Hf) as (c & t & E). rewrite E, <- E.
  by rewrite parse_format_digits.
Qed.

Lemma parse_uint_hex u : (0 ≤ u < 2 ^ 64)%Z → parse_uint 16 max_uint64 (format_hex u) = Ok u.
Proof. intros Hu. apply parse_format; unfold max_uint64 in *; lia. Qed.

Lemma parse_digits_bound base max s n r :
  (0 ≤ base)%Z → (0 ≤ n ≤ max)%Z → parse_digits base max s n = Ok r → (0 ≤ r ≤ max)%Z.
Proof.
  intros Hb. revert n. induction s as [|c s IH]; cbn; intros n Hn H; [by simplify_eq|].
  destruct (digit_val c) as [d|] eqn:Hd; [|done].
  assert (0 ≤ d)%Z by (unfold digit_val in Hd; repeat case_bool_decide; simplify_eq; lia).
  repeat case_bool_decide; try done. apply (IH (n * base + d)%Z); [nia|done].
Qed.
