(* ===== verification/Sql.v ===== *)
(** * The SQL statements of the program and the tables they act on

    The datastore keeps everything in one SQLite database: the object tables,
    the replication log, its sequence counter and the sessions.  This file has
    the values and rows of such a database, the statements the code issues
    ([INSERT], [UPDATE], [DELETE], [SELECT] with equality conditions and bound
    parameters) as a syntax, and what they do to the tables under the
    constraints the schema declares: [NOT NULL], [PRIMARY KEY] and
    [FOREIGN KEY ... ON DELETE CASCADE] (enforced: the connection is opened
    with [_foreign_keys=on]). *)

From Stdlib Require Import Ascii.
From S2P Require Import Prelude GoStrings.
Local Open Scope string_scope.

(** ** JSON documents

    A serialized document stands for the tree it denotes.  [JTime] is a text
    in the RFC 3339 form of [time.Time], [JData] a text holding the base64 form
    of the bytes of another document (a Go [[]byte] field). *)
#[warnings="-register-all"]
Inductive json : Type :=
| JNull
| JBool (b : bool)
| JNum (z : Z)
| JStr (s : string)
| JTime (t : Z)
| JData (d : json)
| JArr (l : list json)
| JObj (l : list (string * json)).

#[global] Instance json_eq_dec : EqDecision json.
Proof.
  refine (fix go (x y : json) : Decision (x = y) :=
    match x, y with
    | JNull, JNull => left eq_refl
    | JBool a, JBool b => cast_if (decide (a = b))
    | JNum a, JNum b => cast_if (decide (a = b))
    | JStr a, JStr b => cast_if (decide (a = b))
    | JTime a, JTime b => cast_if (decide (a = b))
    | JData a, JData b => cast_if (go a b)
    | JArr a, JArr b => cast_if (@list_eq_dec _ go a b)
    | JObj a, JObj b => cast_if (@list_eq_dec _ (λ p q, @prod_eq_dec _ _ _ go p q) a b)
    | _, _ => right _
    end); try (abstract congruence).
Defined.

(** ** Values, rows, tables *)

(** Go booleans are stored as integers, times as their text form (here the
    instant itself), [[]byte] values as blobs (here: a JSON document). *)
Inductive sqlval : Type :=
| SNull
| SInt (z : Z)
| SText (s : string)
| STime (t : Z)
| SBlob (j : json).

#[global] Instance sqlval_eq_dec : EqDecision sqlval.
Proof. solve_decision. Defined.

Abbreviation row := (gmap string sqlval).

Inductive affinity : Type := AText | AInt | ANum.

Record column : Type := Column { c_name : string; c_aff : affinity; c_notnull : bool }.

(** [FOREIGN KEY (fk_col) REFERENCES fk_table (fk_ref) ON DELETE CASCADE] *)
Record foreign_key : Type := ForeignKey { fk_col : string; fk_table : string; fk_ref : string }.

Record schema : Type := Schema {
  s_cols : list column;
  s_pk : option string;
  s_fks : list foreign_key }.

Record table : Type := Table { t_schema : schema; t_rows : list row }.

Record db : Type := Db { tables : gmap string table; user_version : Z }.

Definition row_get (r : row) (c : string) : sqlval := default SNull (r !! c).

Definition col_names (sc : schema) : list string := c_name <$> s_cols sc.

Definition col_aff (sc : schema) (c : string) : affinity :=
  default AText (c_aff <$> list_find (λ k, c_name k = c) (s_cols sc) ≫= λ p, Some p.2).

Definition set_rows (t : string) (rs : list row) (d : db) : db :=
  Db (alter (λ tb, Table (t_schema tb) rs) t (tables d)) (user_version d).

(** ** Comparison

    SQL equality is never true of [NULL].  A text parameter compared with a
    column of numeric affinity is converted to a number when it has the form
    of one. *)
Definition int_of_text (s : string) : option Z :=
  match s with
  | String "-" s' => match parse_uint 10 max_uint64 s' with Ok n => Some (- n)%Z | _ => None end
  | _ => match parse_uint 10 max_uint64 s with Ok n => Some n | _ => None end
  end.

Definition sql_eq (a : affinity) (stored arg : sqlval) : bool :=
  match stored, arg with
  | SInt x, SInt y => bool_decide (x = y)
  | SText x, SText y => bool_decide (x = y)
  | STime x, STime y => bool_decide (x = y)
  | SInt x, SText y =>
      match a with
      | AText => false
      | _ => match int_of_text y with Some z => bool_decide (x = z) | None => false end
      end
  | SBlob x, SBlob y => bool_decide (x = y)
  | _, _ => false
  end.

(** ** Statements *)
Inductive bind : Type := BNamed (n : string) | BPos.

Inductive stmt : Type :=
| SInsert (t : string) (cols : list string) (vals : list bind)
| SUpdate (t : string) (sets : list (string * bind)) (w : list (string * bind))
| SDelete (t : string) (w : list (string * bind))
| SSelect (t : string) (w : list (string * bind)).

(** *** Constraints *)
Definition notnull_ok (sc : schema) (r : row) : bool :=
  forallb (λ c, negb (c_notnull c) || negb (bool_decide (row_get r (c_name c) = SNull))) (s_cols sc).

(** The values of the primary key; a table without one has no such list. *)
Definition pk_vals (sc : schema) (rs : list row) : list sqlval :=
  match s_pk sc with Some k => (λ r, row_get r k) <$> rs | None => [] end.

Definition pk_fresh (sc : schema) (rs : list row) (r : row) : bool :=
  match s_pk sc with
  | Some k => bool_decide (row_get r k ∉ pk_vals sc rs)
  | None => true
  end.

Definition fk_ok (d : db) (r : row) (fk : foreign_key) : bool :=
  bool_decide (row_get r (fk_col fk) = SNull) ||
  match tables d !! fk_table fk with
  | Some p => existsb (λ q, bool_decide (row_get q (fk_ref fk) = row_get r (fk_col fk))) (t_rows p)
  | None => false
  end.

Definition fks_ok (d : db) (sc : schema) (r : row) : bool := forallb (fk_ok d r) (s_fks sc).

Definition cols_known (sc : schema) (cs : list string) : bool :=
  forallb (λ c, bool_decide (c ∈ col_names sc)) cs.

Definition get_table (t : string) : M db table :=
  d ← getS; match tables d !! t with Some tb => mret tb | None => fail (ESql SqlNoTable) end.

Definition guard_sql {S} (b : bool) (e : sqlerr) : M S unit :=
  if b then mret tt else fail (ESql e).

(** *** INSERT: columns that are not given are [NULL]. *)
Definition full_row (sc : schema) (vs : list (string * sqlval)) : row :=
  list_to_map ((λ c, (c, default SNull (list_to_map (M := row) vs !! c))) <$> col_names sc).

Definition insert_into (t : string) (vs : list (string * sqlval)) : M db unit :=
  tb ← get_table t;
  let sc := t_schema tb in
  _ ← guard_sql (cols_known sc vs.*1) SqlNoColumn;
  let r := full_row sc vs in
  _ ← guard_sql (notnull_ok sc r) SqlNotNull;
  _ ← guard_sql (pk_fresh sc (t_rows tb) r) SqlUnique;
  d ← getS;
  _ ← guard_sql (fks_ok d sc r) SqlForeignKey;
  modify (set_rows t (app (t_rows tb) [r])).

(** *** WHERE *)
Definition matches (sc : schema) (w : list (string * sqlval)) (r : row) : bool :=
  forallb (λ p, sql_eq (col_aff sc p.1) (row_get r p.1) p.2) w.

(** *** UPDATE: the statements of the program never assign a primary key. *)
Definition update_row (vs : list (string * sqlval)) (r : row) : row :=
  foldl (λ r p, <[p.1 := p.2]> r) r vs.

Definition update_where (t : string) (vs w : list (string * sqlval)) : M db unit :=
  tb ← get_table t;
  let sc := t_schema tb in
  _ ← guard_sql (cols_known sc (app (vs.*1) (w.*1))) SqlNoColumn;
  _ ← guard_sql (bool_decide (s_pk sc = None) ||
                 forallb (λ c, negb (bool_decide (s_pk sc = Some c))) vs.*1) SqlUnique;
  let upd r := if matches sc w r then update_row vs r else r in
  let changed := filter (λ r, matches sc w r = true) (t_rows tb) in
  _ ← guard_sql (forallb (λ r, notnull_ok sc (update_row vs r)) changed) SqlNotNull;
  d ← getS;
  _ ← guard_sql (forallb (λ r, fks_ok d sc (update_row vs r)) changed) SqlForeignKey;
  modify (set_rows t (upd <$> t_rows tb)).

(** *** DELETE, with its cascade: the rows of other tables that refer to a
    deleted row go with it (the schema has no reference to a table that
    itself refers to another one, so the cascade is one step deep). *)
Definition cascade_row (t : string) (gone : list row) (fks : list foreign_key) (r : row) : bool :=
  existsb (λ fk, bool_decide (fk_table fk = t) &&
    existsb (λ q, bool_decide (row_get r (fk_col fk) ≠ SNull) &&
                  bool_decide (row_get r (fk_col fk) = row_get q (fk_ref fk))) gone) fks.

Definition cascade (t : string) (gone : list row) (tb : table) : table :=
  Table (t_schema tb) (filter (λ r, cascade_row t gone (s_fks (t_schema tb)) r = false) (t_rows tb)).

Definition delete_where (t : string) (w : list (string * sqlval)) : M db unit :=
  tb ← get_table t;
  let sc := t_schema tb in
  _ ← guard_sql (cols_known sc w.*1) SqlNoColumn;
  let gone := filter (λ r, matches sc w r = true) (t_rows tb) in
  let kept := filter (λ r, matches sc w r = false) (t_rows tb) in
  modify (λ d, Db (cascade t gone <$> tables (set_rows t kept d)) (user_version d)).

(** *** SELECT star: the rows that match, in the order they were inserted. *)
Definition select_where (t : string) (w : list (string * sqlval)) : M db (list row) :=
  tb ← get_table t;
  _ ← guard_sql (cols_known (t_schema tb) w.*1) SqlNoColumn;
  mret (filter (λ r, matches (t_schema tb) w r = true) (t_rows tb)).

(** *** Bound parameters: named ones from the fields of an object
    ([sqlx.NamedExec]), positional ones from a list. *)
Definition bind_named (args : row) (p : string * bind) : res (string * sqlval) :=
  match p.2 with
  | BNamed n => match args !! n with Some v => Ok (p.1, v) | None => Err (ESql SqlBind) end
  | BPos => Err (ESql SqlBind)
  end.

Fixpoint bind_pos (ps : list (string * bind)) (args : list sqlval) : res (list (string * sqlval)) :=
  match ps, args with
  | [], [] => Ok []
  | (c, BPos) :: ps, v :: args => l ← bind_pos ps args; mret ((c, v) :: l)
  | _, _ => Err (ESql SqlBind)
  end.

Definition NamedExec (s : stmt) (args : row) : M db unit :=
  match s with
  | SInsert t cols vals =>
      if bool_decide (length cols = length vals) then
        vs ← lift_res (res_map (bind_named args) (zip cols vals)); insert_into t vs
      else fail (ESql SqlSyntax)
  | SUpdate t sets w =>
      vs ← lift_res (res_map (bind_named args) sets);
      ws ← lift_res (res_map (bind_named args) w);
      update_where t vs ws
  | SDelete t w => ws ← lift_res (res_map (bind_named args) w); delete_where t ws
  | SSelect t w => ws ← lift_res (res_map (bind_named args) w); _ ← select_where t ws; mret tt
  end.

Definition Queryx (s : stmt) (args : list sqlval) : M db (list row) :=
  match s with
  | SSelect t w => ws ← lift_res (bind_pos w args); select_where t ws
  | _ => fail (ESql SqlSyntax)
  end.

(** ** The consistency of a database

    Rows have exactly the columns of their table and respect [NOT NULL], the
    values of a primary key are distinct, and a reference has its referent.
    Foreign keys refer to the primary key of a table without foreign keys. *)
Definition row_ok (sc : schema) (r : row) : Prop :=
  dom r = list_to_set (C := gset string) (col_names sc) ∧ notnull_ok sc r = true.

Definition table_ok (d : db) (tb : table) : Prop :=
  Forall (row_ok (t_schema tb)) (t_rows tb) ∧
  NoDup (pk_vals (t_schema tb) (t_rows tb)) ∧
  Forall (λ r, fks_ok d (t_schema tb) r = true) (t_rows tb).

Definition schema_ok (d : db) : Prop :=
  ∀ t tb fk, tables d !! t = Some tb → fk ∈ s_fks (t_schema tb) →
    ∃ p, tables d !! fk_table fk = Some p ∧
      s_pk (t_schema p) = Some (fk_ref fk) ∧ s_fks (t_schema p) = [].

Definition db_ok (d : db) : Prop :=
  schema_ok d ∧ ∀ t tb, tables d !! t = Some tb → table_ok d tb.

Definition schemas (d : db) : gmap string schema := t_schema <$> tables d.

(** ** Lemmas *)
Lemma guard_sql_Ok {S} b e (s s' : S) : guard_sql b e s = (Ok tt, s') ↔ b = true ∧ s' = s.
Proof. unfold guard_sql. destruct b; m_unfold; split; intros H; [by inv_run|by destruct H as [_ ->]|by inv_run|by destruct H]. Qed.

Lemma get_table_Ok t d tb d' : get_table t d = (Ok tb, d') ↔ tables d !! t = Some tb ∧ d' = d.
Proof. unfold get_table. m_unfold. destruct (tables d !! t); split; intros H; [by inv_run|by destruct H; inv_run|by inv_run|by destruct H]. Qed.

Ltac run_step H :=
  apply bind_Ok_inv in H as (? & ? & ? & H).

Ltac run_inv :=
  repeat match goal with
  | H : (_ ≫= _) _ = (Ok _, _) |- _ =>
      let a := fresh "a" in let s := fresh "s" in let H1 := fresh "Hrun" in
      apply bind_Ok_inv in H as (a & s & H1 & H)
  | H : get_table _ _ = (Ok _, _) |- _ => apply get_table_Ok in H as [? ->]
  | a : unit |- _ => destruct a
  | H : guard_sql _ _ _ = (Ok tt, _) |- _ => apply guard_sql_Ok in H as [? ->]
  | H : getS _ = (Ok _, _) |- _ => unfold getS in H; inv_run
  | H : modify _ _ = (Ok _, _) |- _ => unfold modify in H; inv_run
  | H : lift_res _ _ = (Ok _, _) |- _ => unfold lift_res in H; inv_run
  | H : mret _ _ = (Ok _, _) |- _ => unfold mret, M_ret in H; inv_run
  end.

Lemma insert_into_Ok t vs d d' :
  insert_into t vs d = (Ok tt, d') →
  ∃ tb, tables d !! t = Some tb ∧ cols_known (t_schema tb) vs.*1 = true ∧
    notnull_ok (t_schema tb) (full_row (t_schema tb) vs) = true ∧
    pk_fresh (t_schema tb) (t_rows tb) (full_row (t_schema tb) vs) = true ∧
    fks_ok d (t_schema tb) (full_row (t_schema tb) vs) = true ∧
    d' = set_rows t (app (t_rows tb) [full_row (t_schema tb) vs]) d.
Proof. unfold insert_into. intros H. run_inv. eauto 10. Qed.

Lemma update_where_Ok t vs w d d' :
  update_where t vs w d = (Ok tt, d') →
  ∃ tb, tables d !! t = Some tb ∧ cols_known (t_schema tb) (app (vs.*1) (w.*1)) = true ∧
    (∀ k, s_pk (t_schema tb) = Some k → k ∉ vs.*1) ∧
    (∀ r, r ∈ t_rows tb → matches (t_schema tb) w r = true →
      notnull_ok (t_schema tb) (update_row vs r) = true ∧ fks_ok d (t_schema tb) (update_row vs r) = true) ∧
    d' = set_rows t ((λ r, if matches (t_schema tb) w r then update_row vs r else r) <$> t_rows tb) d.
Proof.
  unfold update_where. intros H. run_inv. eexists. split_and!; [done..| | |done].
  - match goal with H : _ || _ = true |- _ => rename H into Hor end.
    intros k Hk Hin. apply orb_true_iff in Hor as [Hor|Hor].
    + apply bool_decide_eq_true in Hor. congruence.
    + rewrite forallb_forall in Hor. specialize (Hor k ltac:(by apply list_elem_of_In)).
      apply negb_true_iff, bool_decide_eq_false in Hor. congruence.
  - intros r Hr Hm. rewrite !forallb_forall in *.
    assert (List.In r (filter (λ r, matches (t_schema a) w r = true) (t_rows a)))
      by (apply list_elem_of_In, list_elem_of_filter; done).
    split; auto.
Qed.

Lemma delete_where_Ok t w d d' :
  delete_where t w d = (Ok tt, d') →
  ∃ tb, tables d !! t = Some tb ∧ cols_known (t_schema tb) w.*1 = true ∧
    d' = Db (cascade t (filter (λ r, matches (t_schema tb) w r = true) (t_rows tb))
           <$> tables (set_rows t (filter (λ r, matches (t_schema tb) w r = false) (t_rows tb)) d))
         (user_version d).
Proof. unfold delete_where. intros H. run_inv. eauto. Qed.

(** *** Schemas are kept by the data statements *)
Lemma schemas_set_rows t rs d : schemas (set_rows t rs d) = schemas d.
Proof.
  unfold schemas, set_rows; cbn. apply map_eq. intros i. rewrite !lookup_fmap, lookup_alter.
  case_decide; subst; [|done]. by destruct (tables d !! i).
Qed.

Lemma schemas_cascade t g m :
  t_schema <$> (cascade t g <$> m) = (t_schema <$> m : gmap string schema).
Proof. rewrite <- map_fmap_compose. by apply map_fmap_ext. Qed.

Lemma schema_ok_schemas d d' : schemas d = schemas d' → schema_ok d → schema_ok d'.
Proof.
  intros Hs Hok t tb fk Ht Hfk.
  assert (Hlk : ∀ i, t_schema <$> tables d !! i = t_schema <$> tables d' !! i).
  { intros i. rewrite <- !lookup_fmap. unfold schemas in Hs. by rewrite Hs. }
  specialize (Hlk t) as Hlt. rewrite Ht in Hlt. cbn in Hlt. apply fmap_Some in Hlt as (tb0 & Ht0 & Hsc).
  destruct (Hok t tb0 fk) as (p & Hp & Hpk & Hnil); [done|congruence|].
  specialize (Hlk (fk_table fk)) as Hlp. rewrite Hp in Hlp. cbn in Hlp.
  symmetry in Hlp. apply fmap_Some in Hlp as (p' & Hp' & Hsp). exists p'. split_and!; congruence.
Qed.

Lemma lookup_set_rows t rs d i tb :
  tables d !! t = Some tb →
  tables (set_rows t rs d) !! i = if decide (t = i) then Some (Table (t_schema tb) rs) else tables d !! i.
Proof.
  intros Ht. unfold set_rows; cbn. rewrite lookup_alter. case_decide; [|done]. by simplify_map_eq.
Qed.

(** *** References are kept when referents are *)
Lemma fk_ok_mono d d' r fk :
  (∀ p q, tables d !! fk_table fk = Some p → q ∈ t_rows p →
    row_get q (fk_ref fk) = row_get r (fk_col fk) → row_get r (fk_col fk) ≠ SNull →
    ∃ p' q', tables d' !! fk_table fk = Some p' ∧ q' ∈ t_rows p' ∧
      row_get q' (fk_ref fk) = row_get q (fk_ref fk)) →
  fk_ok d r fk = true → fk_ok d' r fk = true.
Proof.
  intros Hmono. unfold fk_ok. case_bool_decide; [done|]. cbn.
  destruct (tables d !! fk_table fk) as [p|] eqn:Hp; [|done].
  rewrite existsb_exists. intros (q & Hq & Heq). apply bool_decide_eq_true in Heq.
  destruct (Hmono p q) as (p' & q' & -> & Hq' & Href); [done|by apply list_elem_of_In|done..|].
  apply existsb_exists. exists q'. split; [by apply list_elem_of_In|].
  apply bool_decide_eq_true. congruence.
Qed.

Lemma fks_ok_elem d sc r : fks_ok d sc r = true ↔ ∀ fk, fk ∈ s_fks sc → fk_ok d r fk = true.
Proof. unfold fks_ok. rewrite forallb_forall. by setoid_rewrite list_elem_of_In. Qed.

(** *** INSERT *)
Lemma full_row_dom sc vs :
  dom (full_row sc vs) = list_to_set (C := gset string) (col_names sc).
Proof.
  unfold full_row. rewrite dom_list_to_map_L. f_equal. rewrite <- list_fmap_compose.
  apply list_fmap_id.
Qed.

Lemma full_row_get sc vs c :
  c ∈ col_names sc → row_get (full_row sc vs) c = default SNull (list_to_map (M := row) vs !! c).
Proof.
  intros Hc. unfold row_get, full_row. induction (col_names sc) as [|c' cs IH]; [by apply elem_of_nil in Hc|].
  cbn. destruct (decide (c' = c)) as [->|Hne]; [by rewrite lookup_insert_eq|].
  rewrite lookup_insert_ne by done. apply IH. by inversion Hc.
Qed.

Lemma insert_into_db_ok t vs d d' : db_ok d → insert_into t vs d = (Ok tt, d') → db_ok d'.
Proof.
  intros [Hsc Htb] Hrun. apply insert_into_Ok in Hrun as (tb & Ht & _ & Hnn & Hpk & Hfk & ->).
  set (sc := t_schema tb) in *. set (r := full_row sc vs) in *.
  split. { eapply schema_ok_schemas; [|done]. by rewrite schemas_set_rows. }
  assert (Hmono : ∀ r' fk, fk_ok d r' fk = true →
                 fk_ok (set_rows t (app (t_rows tb) [r]) d) r' fk = true).
  { intros r' fk. apply fk_ok_mono. intros p q Hp Hq _ _.
    rewrite (lookup_set_rows _ _ _ _ _ Ht). case_decide; [|by eauto].
    subst. simplify_eq. do 2 eexists. split; [done|]. split; [|done]. cbn. set_solver. }
  assert (Hmonos : ∀ sc' r', fks_ok d sc' r' = true →
                  fks_ok (set_rows t (app (t_rows tb) [r]) d) sc' r' = true).
  { intros sc' r'. rewrite !fks_ok_elem. naive_solver. }
  intros i tb' Hi. rewrite (lookup_set_rows _ _ _ _ _ Ht) in Hi. case_decide; simplify_eq.
  - destruct (Htb _ _ Ht) as (Hrows & Hnd & Hfks). fold sc in Hrows, Hnd, Hfks |- *.
    split_and!; cbn [t_rows t_schema].
    + apply Forall_app_2; [done|]. apply Forall_singleton. split; [apply full_row_dom|done].
    + unfold pk_fresh, pk_vals in *. destruct (s_pk sc) as [k|] eqn:Hk; [|constructor].
      rewrite fmap_app. apply bool_decide_eq_true in Hpk. apply NoDup_app. split_and!; [done| |apply NoDup_singleton].
      intros x Hx [->|Hin]%elem_of_cons; [done|by apply elem_of_nil in Hin].
    + apply Forall_app_2; [|apply Forall_singleton; auto].
      eapply Forall_impl; [exact Hfks|]. cbn. auto.
  - destruct (Htb _ _ Hi) as (? & ? & Hfks). split_and!; [done..|].
    eapply Forall_impl; [exact Hfks|]. cbn. auto.
Qed.

(** *** UPDATE *)
Lemma update_row_get_other vs r c : c ∉ vs.*1 → row_get (update_row vs r) c = row_get r c.
Proof.
  unfold update_row. revert r. induction vs as [|[k v] vs IH]; intros r Hc; [done|]. cbn in *.
  rewrite IH by set_solver. unfold row_get. rewrite lookup_insert_ne by set_solver. done.
Qed.

Lemma update_row_dom vs r : list_to_set (vs.*1) ⊆ dom r → dom (update_row vs r) = dom r.
Proof.
  unfold update_row. revert r. induction vs as [|[k v] vs IH]; intros r Hc; [done|]. cbn in *.
  rewrite IH; rewrite dom_insert_L; set_solver.
Qed.

Lemma cols_known_elem sc cs : cols_known sc cs = true ↔ ∀ c, c ∈ cs → c ∈ col_names sc.
Proof.
  unfold cols_known. rewrite forallb_forall. setoid_rewrite bool_decide_eq_true.
  by setoid_rewrite list_elem_of_In.
Qed.

Lemma update_where_db_ok t vs w d d' : db_ok d → update_where t vs w d = (Ok tt, d') → db_ok d'.
Proof.
  intros [Hsc Htb] Hrun. apply update_where_Ok in Hrun as (tb & Ht & Hcols & Hpk & Hchk & ->).
  set (sc := t_schema tb) in *.
  set (upd := λ r, if matches sc w r then update_row vs r else r).
  split. { eapply schema_ok_schemas; [|done]. by rewrite schemas_set_rows. }
  assert (Hget : ∀ r k, s_pk sc = Some k → row_get (upd r) k = row_get r k).
  { intros r k Hk. unfold upd. case_match; [|done]. apply update_row_get_other. by apply Hpk. }
  assert (Hmono : ∀ i tb' r', tables d !! i = Some tb' → fks_ok d (t_schema tb') r' = true →
                 fks_ok (set_rows t (upd <$> t_rows tb) d) (t_schema tb') r' = true).
  { intros i tb' r' Hi. rewrite !fks_ok_elem. intros Hr fk Hfk. specialize (Hr fk Hfk). revert Hr.
    destruct (Hsc _ _ _ Hi Hfk) as (p & Hp & Hppk & _).
    apply fk_ok_mono. intros p0 q Hp0 Hq _ _. assert (p0 = p) as -> by congruence.
    rewrite (lookup_set_rows _ _ _ _ _ Ht). case_decide; [|by eauto].
    subst. rewrite Hp in Ht. simplify_eq.
    eexists _, (upd q). split; [done|]. split; [by apply list_elem_of_fmap_2|by apply Hget]. }
  intros i tb' Hi. rewrite (lookup_set_rows _ _ _ _ _ Ht) in Hi. case_decide; simplify_eq.
  - destruct (Htb _ _ Ht) as (Hrows & Hnd & Hfks). fold sc in Hrows, Hnd, Hfks.
    split_and!; cbn [t_rows t_schema]; fold sc.
    + apply Forall_fmap, Forall_forall. intros r Hr. cbn. rewrite Forall_forall in Hrows.
      destruct (Hrows r Hr) as [Hd Hn]. unfold upd. case_match eqn:Hm; [|done].
      split; [|by apply Hchk]. rewrite update_row_dom; [done|]. rewrite Hd.
      rewrite cols_known_elem in Hcols. intros c Hc. apply elem_of_list_to_set in Hc.
      apply elem_of_list_to_set. apply Hcols. set_solver.
    + unfold pk_vals in *. destruct (s_pk sc) as [k|] eqn:Hk; [|constructor].
      rewrite <- list_fmap_compose. erewrite list_fmap_ext; [exact Hnd|].
      intros _ r _. cbn. by apply Hget.
    + apply Forall_fmap, Forall_forall. intros r Hr. cbn. apply (Hmono i tb); [done|].
      unfold upd. rewrite Forall_forall in Hfks. case_match eqn:Hm; [by apply Hchk|by apply Hfks].
  - destruct (Htb _ _ Hi) as (? & ? & Hfks). split_and!; [done..|].
    eapply Forall_impl; [exact Hfks|]. cbn. intros r. by apply (Hmono i).
Qed.

(** *** DELETE *)
Lemma lookup_delete_tables t g kept d i tb tb' :
  tables d !! t = Some tb →
  (cascade t g <$> tables (set_rows t kept d)) !! i = Some tb' →
  ∃ tb0, tables d !! i = Some tb0 ∧ t_schema tb' = t_schema tb0 ∧
    t_rows tb' = filter (λ r, cascade_row t g (s_fks (t_schema tb0)) r = false)
                   (if decide (t = i) then kept else t_rows tb0).
Proof.
  intros Ht. rewrite lookup_fmap, (lookup_set_rows _ _ _ _ _ Ht). intros H.
  apply fmap_Some in H as (tb1 & H1 & ->). case_decide; simplify_eq; eauto.
Qed.

Lemma delete_rows_sub t (w : list (string * sqlval)) tb tb0 tb' d i :
  tables d !! t = Some tb → tables d !! i = Some tb0 →
  t_rows tb' = filter (λ r, cascade_row t (filter (λ r, matches (t_schema tb) w r = true) (t_rows tb))
                  (s_fks (t_schema tb0)) r = false)
                   (if decide (t = i) then filter (λ r, matches (t_schema tb) w r = false) (t_rows tb)
                    else t_rows tb0) →
  sublist (t_rows tb') (t_rows tb0).
Proof.
  intros Ht Hi ->. etrans; [apply sublist_filter|]. case_decide; simplify_eq; [|done].
  apply sublist_filter.
Qed.

Lemma cascade_row_false t gone fks r fk q :
  cascade_row t gone fks r = false → fk ∈ fks → fk_table fk = t → q ∈ gone →
  row_get r (fk_col fk) ≠ SNull → row_get q (fk_ref fk) ≠ row_get r (fk_col fk).
Proof.
  intros Hc Hfk Ht Hq Hnn Heq. apply not_true_iff_false in Hc. apply Hc.
  unfold cascade_row. apply existsb_exists. exists fk. split; [by apply list_elem_of_In|].
  rewrite bool_decide_eq_true_2 by done. cbn. apply existsb_exists. exists q.
  split; [by apply list_elem_of_In|]. by rewrite !bool_decide_eq_true_2.
Qed.

Lemma delete_where_db_ok t w d d' : db_ok d → delete_where t w d = (Ok tt, d') → db_ok d'.
Proof.
  intros [Hsc Htb] Hrun. apply delete_where_Ok in Hrun as (tb & Ht & _ & Hd').
  set (gone := filter (λ r, matches (t_schema tb) w r = true) (t_rows tb)) in *.
  set (kept := filter (λ r, matches (t_schema tb) w r = false) (t_rows tb)) in *.
  assert (Hlk : ∀ i tb', tables d' !! i = Some tb' → ∃ tb0, tables d !! i = Some tb0 ∧
    t_schema tb' = t_schema tb0 ∧ t_rows tb' = filter (λ r, cascade_row t gone (s_fks (t_schema tb0)) r = false)
                   (if decide (t = i) then kept else t_rows tb0)).
  { intros i tb' Hi. subst d'. cbn in Hi. by eapply lookup_delete_tables. }
  split.
  { eapply schema_ok_schemas; [|done]. subst d'. rewrite <- (schemas_set_rows t kept d).
    unfold schemas. cbn [tables]. by rewrite schemas_cascade. }
  intros i tb' Hi. destruct (Hlk _ _ Hi) as (tb0 & H0 & Hs & Hr).
  destruct (Htb _ _ H0) as (Hrows & Hnd & Hfks).
  assert (Hsub : sublist (t_rows tb') (t_rows tb0)) by (eapply delete_rows_sub; [exact Ht|exact H0|exact Hr]).
  unfold table_ok. rewrite Hs. split_and!.
  - rewrite Forall_forall in *. intros r Hin. eapply Hrows, elem_of_sublist; eauto.
  - unfold pk_vals in *. case_match; [|constructor]. eapply sublist_NoDup; [done|]. by apply fmap_sublist.
  - apply Forall_forall. intros r Hin. rewrite fks_ok_elem. intros fk Hfk.
    rewrite Forall_forall in Hfks. assert (Hin0 : r ∈ t_rows tb0) by (by eapply elem_of_sublist).
    specialize (Hfks r Hin0). rewrite fks_ok_elem in Hfks. specialize (Hfks fk Hfk).
    destruct (Hsc _ _ _ H0 Hfk) as (p & Hp & _ & Hpnil).
    revert Hfks. apply fk_ok_mono. intros p0 q Hp0 Hq Heq Hnn. assert (p0 = p) as -> by congruence.
    assert (Hc : cascade_row t gone (s_fks (t_schema tb0)) r = false).
    { rewrite Hr in Hin. by apply list_elem_of_filter in Hin as [? _]. }
    exists (cascade t gone (if decide (t = fk_table fk) then Table (t_schema tb) kept else p)), q.
    split; [|split; [|done]].
    + subst d'. cbn [tables]. rewrite lookup_fmap, (lookup_set_rows _ _ _ _ _ Ht).
      destruct (decide (t = fk_table fk)); [reflexivity|]. rewrite Hp. reflexivity.
    + unfold cascade; cbn [t_rows t_schema]. apply list_elem_of_filter. destruct (decide (t = fk_table fk)) as [Hdt|Hdt].
      * subst t. assert (p = tb) as -> by congruence. cbn [t_rows t_schema]. rewrite Hpnil.
        split; [done|]. apply list_elem_of_filter. split; [|done].
        destruct (matches (t_schema tb) w q) eqn:Hm; [|done]. exfalso.
        eapply (cascade_row_false (fk_table fk) gone); [exact Hc|done|done| |done|done].
        by apply list_elem_of_filter.
      * rewrite Hpnil. done.
Qed.

(** A successful [NamedExec] keeps the database consistent. *)
Lemma NamedExec_db_ok s args d d' : db_ok d → NamedExec s args d = (Ok tt, d') → db_ok d'.
Proof.
  intros Hok Hrun. destruct s; cbn [NamedExec] in Hrun.
  - case_bool_decide; [|by m_unfold]. run_inv. by eapply insert_into_db_ok.
  - run_inv. by eapply update_where_db_ok.
  - run_inv. by eapply delete_where_db_ok.
  - run_inv. unfold select_where in *. run_inv. done.
Qed.

(** A data statement that does not succeed leaves the database as it was. *)
Lemma guard_sql_state {S} b e (s : S) r s' : guard_sql b e s = (r, s') → s' = s.
Proof. unfold guard_sql. destruct b; m_unfold; intros; by inv_run. Qed.

Ltac stmt_cases :=
  unfold guard_sql, get_table; m_unfold; intros Hrun;
  repeat (case_match; inv_run; try by left); try by right.

Lemma insert_into_fail t vs d r d' : insert_into t vs d = (r, d') → d' = d ∨ r = Ok tt.
Proof. unfold insert_into. stmt_cases. Qed.

Lemma update_where_fail t vs w d r d' : update_where t vs w d = (r, d') → d' = d ∨ r = Ok tt.
Proof. unfold update_where. stmt_cases. Qed.

Lemma delete_where_fail t w d r d' : delete_where t w d = (r, d') → d' = d ∨ r = Ok tt.
Proof. unfold delete_where. stmt_cases. Qed.

Lemma insert_into_schemas t vs d d' : insert_into t vs d = (Ok tt, d') → schemas d' = schemas d.
Proof. intros (tb & _ & _ & _ & _ & _ & ->)%insert_into_Ok. apply schemas_set_rows. Qed.

Lemma update_where_schemas t vs w d d' : update_where t vs w d = (Ok tt, d') → schemas d' = schemas d.
Proof. intros (tb & _ & _ & _ & _ & ->)%update_where_Ok. apply schemas_set_rows. Qed.

Lemma delete_where_schemas t w d d' : delete_where t w d = (Ok tt, d') → schemas d' = schemas d.
Proof.
  intros (tb & Ht & _ & ->)%delete_where_Ok.
  rewrite <- (schemas_set_rows t (filter (λ r, matches (t_schema tb) w r = false) (t_rows tb)) d).
  unfold schemas. cbn [tables]. by rewrite schemas_cascade.
Qed.

Lemma NamedExec_fail s args d r d' : NamedExec s args d = (r, d') → d' = d ∨ r = Ok tt.
Proof.
  destruct s; cbn [NamedExec]; unfold select_where; stmt_cases;
    eauto using insert_into_fail, update_where_fail, delete_where_fail.
Qed.

Lemma NamedExec_schemas s args d r d' : NamedExec s args d = (r, d') → schemas d' = schemas d.
Proof.
  intros H. destruct (NamedExec_fail _ _ _ _ _ H) as [->| ->]; [done|].
  destruct s; cbn [NamedExec] in H.
  - case_bool_decide; [|by m_unfold]. run_inv. by eapply insert_into_schemas.
  - run_inv. by eapply update_where_schemas.
  - run_inv. by eapply delete_where_schemas.
  - run_inv. unfold select_where in *. by run_inv.
Qed.
