(* ===== verification/SqlText.v ===== *)
(** * The statements built as text by [datastore/crud/sql_table.go]

    The adapter that maps an object type to a table assembles its SQL
    statements from identifiers at run time.  This file has those builders,
    returning the exact text, and the reading of such a text as a statement of
    [Sql]: a lexer and a parser for the forms in question.  The theorems say
    that what is built reads as what is meant, and what becomes of a query
    without conditions. *)

From Stdlib Require Import Ascii.
From S2P Require Import Prelude GoStrings Sql.
Local Open Scope string_scope.

(** ** Builders *)
Definition buildInsertStatement (table primaryKeyField : string) (fields : list string) : string :=
  let fnames := primaryKeyField :: fields in
  let flabels := (":" ++ primaryKeyField) :: ((λ f, ":" ++ f) <$> fields) in
  "INSERT INTO `" ++ table ++ "` (" ++ join "," fnames ++ ") VALUES (" ++ join "," flabels ++ ")".

Definition buildUpdateStatement (table primaryKeyField : string) (fields : list string) : string :=
  let tmp := (λ f, f ++ "=:" ++ f) <$> fields in
  "UPDATE `" ++ table ++ "` SET " ++ join "," tmp ++ " WHERE " ++ primaryKeyField ++ "=:" ++ primaryKeyField.

Definition buildDeleteStatement (table primaryKeyField : string) : string :=
  "DELETE FROM `" ++ table ++ "` WHERE " ++ primaryKeyField ++ "=:" ++ primaryKeyField.

(** The query is a Go map: [query] lists its entries in iteration order. *)
Record queryBuilder : Type := QueryBuilder {
  q_table : string;
  q_clauses : list string;
  q_args : list sqlval }.

Definition newQueryBuilder (table : string) (query : list (string * string)) : queryBuilder :=
  QueryBuilder table ((λ p, p.1 ++ " = ?") <$> query) ((λ p, SText p.2) <$> query).

Definition queryBuilder_text (q : queryBuilder) : string :=
  "SELECT * FROM `" ++ q_table q ++ "` WHERE " ++ join " AND " (q_clauses q).

(** ** Lexer *)
Inductive keyword : Type :=
| KInsert | KInto | KValues | KUpdate | KSet | KDelete | KFrom | KSelect | KWhere | KAnd.

Inductive token : Type :=
| TKw (k : keyword)
| TWord (w : string)
| TTick (w : string)
| TNamed (w : string)
| TQmark | TComma | TEq | TLp | TRp | TStar.

Definition keywords : list (string * keyword) :=
  [("INSERT", KInsert); ("INTO", KInto); ("VALUES", KValues); ("UPDATE", KUpdate); ("SET", KSet);
   ("DELETE", KDelete); ("FROM", KFrom); ("SELECT", KSelect); ("WHERE", KWhere); ("AND", KAnd)].

Definition word_token (w : string) : token :=
  match list_find (λ p, p.1 = w) keywords with
  | Some (_, (_, k)) => TKw k
  | None => TWord w
  end.

(** Letters, digits and the underscore. *)
Definition is_ident (c : ascii) : bool :=
  let n := nat_of_ascii c in
  bool_decide ((48 ≤ n ≤ 57)%nat ∨ (65 ≤ n ≤ 90)%nat ∨ (97 ≤ n ≤ 122)%nat ∨ n = 95).
#[global] Arguments is_ident _ : simpl never.

Inductive lexmode : Type := LStart | LWord (acc : string) | LTick (acc : string) | LNamed (acc : string).

Definition snoc (s : string) (c : ascii) : string := s ++ String c "".

Definition flush (m : lexmode) : list token :=
  match m with
  | LStart | LTick _ => []
  | LWord a => [word_token a]
  | LNamed a => [TNamed a]
  end.

(** What a character does at the start of a token. *)
Definition lex_start (c : ascii) : option (list token * lexmode) :=
  if is_ident c then Some ([], LWord (String c ""))
  else match c with
  | " "%char => Some ([], LStart)
  | "`"%char => Some ([], LTick "")
  | ":"%char => Some ([], LNamed "")
  | "?"%char => Some ([TQmark], LStart)
  | ","%char => Some ([TComma], LStart)
  | "="%char => Some ([TEq], LStart)
  | "("%char => Some ([TLp], LStart)
  | ")"%char => Some ([TRp], LStart)
  | "*"%char => Some ([TStar], LStart)
  | _ => None
  end.

Definition lex_step (m : lexmode) (c : ascii) : option (list token * lexmode) :=
  match m with
  | LTick acc => if Ascii.eqb c "`" then Some ([TTick acc], LStart) else Some ([], LTick (snoc acc c))
  | LStart => lex_start c
  | LWord acc =>
      if is_ident c then Some ([], LWord (snoc acc c))
      else match lex_start c with Some (ts, m') => Some (app (flush m) ts, m') | None => None end
  | LNamed acc =>
      if is_ident c then Some ([], LNamed (snoc acc c))
      else match lex_start c with Some (ts, m') => Some (app (flush m) ts, m') | None => None end
  end.

Fixpoint lex (m : lexmode) (s : string) : option (list token) :=
  match s with
  | EmptyString => match m with LTick _ => None | _ => Some (flush m) end
  | String c s' =>
      match lex_step m c with
      | Some (ts, m') => match lex m' s' with Some ts' => Some (app ts ts') | None => None end
      | None => None
      end
  end.

(** ** Parser *)
Fixpoint parse_idents (ts : list token) : option (list string * list token) :=
  match ts with
  | TWord w :: TComma :: ts' =>
      match parse_idents ts' with Some (ws, r) => Some (w :: ws, r) | None => None end
  | TWord w :: ts' => Some ([w], ts')
  | _ => None
  end.

Definition parse_bind (t : token) : option bind :=
  match t with TNamed n => Some (BNamed n) | TQmark => Some BPos | _ => None end.

Fixpoint parse_binds (ts : list token) : option (list bind * list token) :=
  match ts with
  | t :: TComma :: ts' =>
      match parse_bind t, parse_binds ts' with
      | Some b, Some (bs, r) => Some (b :: bs, r)
      | _, _ => None
      end
  | t :: ts' => match parse_bind t with Some b => Some ([b], ts') | None => None end
  | [] => None
  end.

(** [col = bind] separated by [sep]: at least one. *)
Fixpoint parse_eqs (sep : token → bool) (ts : list token) : option (list (string * bind) * list token) :=
  match ts with
  | TWord w :: TEq :: t :: ts' =>
      match parse_bind t with
      | Some b =>
          match ts' with
          | s :: ts'' =>
              if sep s then
                match parse_eqs sep ts'' with Some (l, r) => Some ((w, b) :: l, r) | None => None end
              else Some ([(w, b)], ts')
          | [] => Some ([(w, b)], [])
          end
      | None => None
      end
  | _ => None
  end.

Definition is_comma (t : token) : bool := match t with TComma => true | _ => false end.
Definition is_and (t : token) : bool := match t with TKw KAnd => true | _ => false end.

Definition parse_where (ts : list token) : option (list (string * bind)) :=
  match parse_eqs is_and ts with Some (l, []) => Some l | _ => None end.

Definition parse_tokens (ts : list token) : option stmt :=
  match ts with
  | TKw KInsert :: TKw KInto :: TTick t :: TLp :: ts1 =>
      match parse_idents ts1 with
      | Some (cols, TRp :: TKw KValues :: TLp :: ts2) =>
          match parse_binds ts2 with
          | Some (vals, [TRp]) => Some (SInsert t cols vals)
          | _ => None
          end
      | _ => None
      end
  | TKw KUpdate :: TTick t :: TKw KSet :: ts1 =>
      match parse_eqs is_comma ts1 with
      | Some (sets, TKw KWhere :: ts2) =>
          match parse_where ts2 with Some w => Some (SUpdate t sets w) | None => None end
      | _ => None
      end
  | [TKw KDelete; TKw KFrom; TTick t] => Some (SDelete t [])
  | TKw KDelete :: TKw KFrom :: TTick t :: TKw KWhere :: ts1 =>
      match parse_where ts1 with Some w => Some (SDelete t w) | None => None end
  | TKw KSelect :: TStar :: TKw KFrom :: TTick t :: TKw KWhere :: ts1 =>
      match parse_where ts1 with Some w => Some (SSelect t w) | None => None end
  | _ => None
  end.

Definition parse_sql (s : string) : option stmt := lex LStart s ≫= parse_tokens.

(** Executing a text: what does not parse is a syntax error. *)
Definition NamedExec_text (s : string) (args : row) : M db unit :=
  match parse_sql s with Some st => NamedExec st args | None => fail (ESql SqlSyntax) end.

Definition Queryx_text (s : string) (args : list sqlval) : M db (list row) :=
  match parse_sql s with Some st => Queryx st args | None => fail (ESql SqlSyntax) end.

Definition queryBuilder_exec (q : queryBuilder) : M db (list row) :=
  Queryx_text (queryBuilder_text q) (q_args q).

(** Identifiers: non-empty words that are not keywords; a table name, being
    quoted, may be any text without a backquote. *)
Fixpoint all_chars (p : ascii → bool) (s : string) : bool :=
  match s with EmptyString => true | String c s' => p c && all_chars p s' end.

Definition ident_ok (w : string) : bool :=
  negb (bool_decide (w = "")) && all_chars is_ident w &&
  match list_find (λ p, p.1 = w) keywords with Some _ => false | None => true end.

Definition table_name_ok (w : string) : bool := all_chars (λ c, negb (Ascii.eqb c "`")) w.

(** ** Lexing in pieces *)

(** The tokens completed by a text and the mode it ends in. *)
Fixpoint lex_run (m : lexmode) (s : string) : option (list token * lexmode) :=
  match s with
  | EmptyString => Some ([], m)
  | String c s' =>
      match lex_step m c with
      | Some (ts, m') =>
          match lex_run m' s' with Some (ts', m'') => Some (app ts ts', m'') | None => None end
      | None => None
      end
  end.

Definition pre (ts : list token) (o : option (list token)) : option (list token) := app ts <$> o.

Definition boundary (s : string) : Prop := match s with EmptyString => True | String c _ => is_ident c = false end.

(** A text that reads as the tokens [ts] when no identifier character follows. *)
Definition reads (x : string) (ts : list token) : Prop :=
  ∀ s, boundary s → lex LStart (x ++ s) = pre ts (lex LStart s).

Fixpoint sepby (sep : list token) (l : list (list token)) : list token :=
  match l with
  | [] => []
  | [ts] => ts
  | ts :: l => app ts (app sep (sepby sep l))
  end.

(** ** Lemmas *)
Lemma pre_pre ts1 ts2 o : pre ts1 (pre ts2 o) = pre (app ts1 ts2) o.
Proof. destruct o; cbn; [by rewrite app_assoc|done]. Qed.

Lemma pre_nil o : pre [] o = o.
Proof. by destruct o. Qed.

Lemma lex_app m p s :
  lex m (p ++ s) = match lex_run m p with Some (ts, m') => pre ts (lex m' s) | None => None end.
Proof.
  revert m. induction p as [|c p IH]; intros m; [cbn; by rewrite pre_nil|].
  cbn [String.append lex lex_run]. destruct (lex_step m c) as [[ts m']|]; [|done].
  rewrite IH. destruct (lex_run m' p) as [[ts' m'']|]; [|done].
  rewrite <- pre_pre. by destruct (pre ts' (lex m'' s)).
Qed.

(** Reading a literal: its tokens and final mode are computed. *)
Lemma lex_lit m p s ts m' : lex_run m p = Some (ts, m') → lex m (p ++ s) = pre ts (lex m' s).
Proof. intros H. by rewrite lex_app, H. Qed.

Lemma all_chars_app p a b : all_chars p (a ++ b) = all_chars p a && all_chars p b.
Proof. induction a as [|c a IH]; cbn; [done|]. by rewrite IH, andb_assoc. Qed.

Lemma lex_run_word acc w : all_chars is_ident w = true → lex_run (LWord acc) w = Some ([], LWord (acc ++ w)).
Proof.
  revert acc. induction w as [|c w IH]; cbn [all_chars lex_run lex_step]; intros acc H.
  - by rewrite str_app_nil_r.
  - apply andb_true_iff in H as [Hc Hw]. rewrite Hc, IH by done. unfold snoc. by rewrite str_app_assoc.
Qed.

Lemma lex_run_named acc w : all_chars is_ident w = true → lex_run (LNamed acc) w = Some ([], LNamed (acc ++ w)).
Proof.
  revert acc. induction w as [|c w IH]; cbn [all_chars lex_run lex_step]; intros acc H.
  - by rewrite str_app_nil_r.
  - apply andb_true_iff in H as [Hc Hw]. rewrite Hc, IH by done. unfold snoc. by rewrite str_app_assoc.
Qed.

Lemma lex_tick acc w s :
  table_name_ok w = true → lex (LTick acc) (w ++ String "`" s) = pre [TTick (acc ++ w)] (lex LStart s).
Proof.
  unfold table_name_ok. revert acc. induction w as [|c w IH]; intros acc H.
  - cbn. rewrite str_app_nil_r. by destruct (lex LStart s).
  - cbn [all_chars] in H. apply andb_true_iff in H as [Hc%negb_true_iff Hw].
    cbn [String.append lex lex_step]. rewrite Hc, IH by done. unfold snoc. rewrite str_app_assoc.
    by destruct (lex LStart s).
Qed.

(** A pending word or parameter ends where no identifier character follows. *)
Lemma lex_flush m s :
  boundary s → (∀ a, m ≠ LTick a) → lex m s = pre (flush m) (lex LStart s).
Proof.
  intros Hb Hm. destruct s as [|c s].
  - destruct m; cbn; [done..|by destruct (Hm acc)|done].
  - cbn in Hb. destruct m; [by rewrite pre_nil| |by destruct (Hm acc)|];
      cbn [lex lex_step]; rewrite Hb; destruct (lex_start c) as [[ts m']|]; [|done| |done];
      by destruct (lex m' s).
Qed.

Lemma ident_ok_inv w :
  ident_ok w = true → ∃ c w', w = String c w' ∧ is_ident c = true ∧ all_chars is_ident w' = true ∧
    word_token w = TWord w.
Proof.
  unfold ident_ok, word_token. intros [[Hne Hall]%andb_true_iff Hkw]%andb_true_iff.
  destruct w as [|c w]; [done|]. cbn in Hall. apply andb_true_iff in Hall as [Hc Hw].
  exists c, w. split_and!; [done..|]. by destruct (list_find _ _) as [[? []]|].
Qed.

Lemma reads_ident w : ident_ok w = true → reads w [TWord w].
Proof.
  intros (c & w' & -> & Hc & Hw & Htok)%ident_ok_inv s Hb.
  rewrite (lex_lit LStart (String c w') s [] (LWord (String c w'))).
  - rewrite pre_nil, lex_flush by done. cbn [flush]. by rewrite Htok.
  - cbn [lex_run lex_step]. unfold lex_start. rewrite Hc, lex_run_word by done. done.
Qed.

Lemma reads_named w : ident_ok w = true → reads (":" ++ w) [TNamed w].
Proof.
  intros (c & w' & -> & Hc & Hw & _)%ident_ok_inv s Hb. rewrite str_app_assoc.
  rewrite (lex_lit LStart ":" _ [] (LNamed "")) by (vm_compute; reflexivity). rewrite pre_nil.
  rewrite (lex_lit (LNamed "") (String c w') s [] (LNamed (String c w'))).
  - by rewrite pre_nil, lex_flush by done.
  - cbn [lex_run lex_step]. rewrite Hc, lex_run_named by done. done.
Qed.

Lemma reads_eq_named f : ident_ok f = true → reads (f ++ "=:" ++ f) [TWord f; TEq; TNamed f].
Proof.
  intros Hf s Hb. rewrite !str_app_assoc, reads_ident by done.
  change ("=:" ++ f ++ s) with ("=" ++ (":" ++ f ++ s)).
  rewrite (lex_lit LStart "=" _ [TEq] LStart) by (vm_compute; reflexivity).
  rewrite <- (str_app_assoc ":"), reads_named by done. by rewrite !pre_pre.
Qed.

Lemma reads_eq_qmark f : ident_ok f = true → reads (f ++ " = ?") [TWord f; TEq; TQmark].
Proof.
  intros Hf s Hb. rewrite !str_app_assoc, reads_ident by done.
  rewrite (lex_lit LStart " = ?" _ [TEq; TQmark] LStart) by (vm_compute; reflexivity).
  by rewrite pre_pre.
Qed.

Lemma reads_join sep sept xs tss :
  (∀ s, boundary (sep ++ s) ∧ lex LStart (sep ++ s) = pre sept (lex LStart s)) →
  xs ≠ [] → Forall2 reads xs tss → reads (join sep xs) (sepby sept tss).
Proof.
  intros Hsep Hne Hall. induction Hall as [|x ts xs tss Hx Hall IH]; [done|].
  destruct Hall as [|x' ts' xs tss Hx' Hall]; [done|].
  intros s Hb. rewrite join_cons, !str_app_assoc by done.
  change (sepby sept (ts :: ts' :: tss)) with (app ts (app sept (sepby sept (ts' :: tss)))).
  destruct (Hsep (join sep (x' :: xs) ++ s)) as [Hbs Hls].
  rewrite Hx by done. rewrite Hls, IH by done. by rewrite !pre_pre, <- ?app_assoc.
Qed.

Lemma sep_comma s : boundary ("," ++ s) ∧ lex LStart ("," ++ s) = pre [TComma] (lex LStart s).
Proof. split; [done|]. by apply lex_lit. Qed.

Lemma sep_and s : boundary (" AND " ++ s) ∧ lex LStart (" AND " ++ s) = pre [TKw KAnd] (lex LStart s).
Proof. split; [done|]. apply lex_lit. by vm_compute. Qed.

(** ** Parsing what was built *)
Lemma parse_idents_sepby ws ts :
  ws ≠ [] → parse_idents (app (sepby [TComma] ((λ w, [TWord w]) <$> ws)) (TRp :: ts)) = Some (ws, TRp :: ts).
Proof.
  intros Hne. induction ws as [|w ws IH]; [done|]. destruct ws as [|w' ws]; [done|].
  change (app (sepby [TComma] ((λ w, [TWord w]) <$> w :: w' :: ws)) (TRp :: ts))
    with (TWord w :: TComma :: app (sepby [TComma] ((λ w, [TWord w]) <$> w' :: ws)) (TRp :: ts)).
  cbn [parse_idents]. by rewrite IH.
Qed.

Lemma parse_binds_sepby ws ts :
  ws ≠ [] →
  parse_binds (app (sepby [TComma] ((λ w, [TNamed w]) <$> ws)) (TRp :: ts)) = Some (BNamed <$> ws, TRp :: ts).
Proof.
  intros Hne. induction ws as [|w ws IH]; [done|]. destruct ws as [|w' ws]; [done|].
  change (app (sepby [TComma] ((λ w, [TNamed w]) <$> w :: w' :: ws)) (TRp :: ts))
    with (TNamed w :: TComma :: app (sepby [TComma] ((λ w, [TNamed w]) <$> w' :: ws)) (TRp :: ts)).
  cbn [parse_binds parse_bind]. by rewrite IH.
Qed.

(** [col = bind] items whose right-hand side is the token [f c]. *)
Lemma parse_eqs_sepby sep sept (f : string → token) (g : string → bind) fs ts :
  (∀ w, parse_bind (f w) = Some (g w)) → sep sept = true →
  match ts with t :: _ => sep t = false | [] => True end → fs ≠ [] →
  parse_eqs sep (app (sepby [sept] ((λ w, [TWord w; TEq; f w]) <$> fs)) ts)
  = Some ((λ w, (w, g w)) <$> fs, ts).
Proof.
  intros Hf Hsep Hts Hne. induction fs as [|w fs IH]; [done|]. destruct fs as [|w' fs].
  - cbn. rewrite Hf. destruct ts as [|t ts]; [done|]. by rewrite Hts.
  - change (app (sepby [sept] ((λ w, [TWord w; TEq; f w]) <$> w :: w' :: fs)) ts)
      with (TWord w :: TEq :: f w :: sept :: app (sepby [sept] ((λ w, [TWord w; TEq; f w]) <$> w' :: fs)) ts).
    cbn [parse_eqs]. by rewrite Hf, Hsep, IH.
Qed.

Lemma Forall2_reads (f : string → string) (g : string → list token) ws :
  (∀ w, ident_ok w = true → reads (f w) (g w)) → Forall (λ w, ident_ok w = true) ws →
  Forall2 reads (f <$> ws) (g <$> ws).
Proof. intros Hfg. induction 1; cbn; constructor; auto. Qed.

Lemma reads_idents ws :
  ws ≠ [] → Forall (λ w, ident_ok w = true) ws →
  reads (join "," ws) (sepby [TComma] ((λ w, [TWord w]) <$> ws)).
Proof.
  intros Hne Hws. apply reads_join; [apply sep_comma|done|].
  rewrite <- (list_fmap_id ws) at 1. apply (Forall2_reads id); [apply reads_ident|done].
Qed.

Lemma lex_end s : lex LStart s = lex LStart (s ++ "").
Proof. by rewrite str_app_nil_r. Qed.

Ltac lex_literal l t m :=
  rewrite (lex_lit LStart l _ t m) by (vm_compute; reflexivity).

Definition idents_ok (ws : list string) : Prop := Forall (λ w, ident_ok w = true) ws.

Lemma lex_insert t pk fs :
  table_name_ok t = true → idents_ok (pk :: fs) →
  lex LStart (buildInsertStatement t pk fs) =
  Some (app [TKw KInsert; TKw KInto; TTick t; TLp]
       (app (sepby [TComma] ((λ w, [TWord w]) <$> pk :: fs))
       (app [TRp; TKw KValues; TLp]
       (app (sepby [TComma] ((λ w, [TNamed w]) <$> pk :: fs)) [TRp])))).
Proof.
  intros Ht Hws. unfold buildInsertStatement.
  change ((":" ++ pk) :: ((λ f, ":" ++ f) <$> fs)) with ((λ f, ":" ++ f) <$> pk :: fs).
  lex_literal "INSERT INTO `" [TKw KInsert; TKw KInto] (LTick "").
  change ("` (" ++ ?x) with (String "`" (" (" ++ x)). rewrite lex_tick by done.
  lex_literal " (" [TLp] LStart. rewrite reads_idents by done.
  change (") VALUES (" ++ ?x) with (") VALUES (" ++ x).
  lex_literal ") VALUES (" [TRp; TKw KValues; TLp] LStart.
  assert (Hn : reads (join "," ((λ f, ":" ++ f) <$> pk :: fs)) (sepby [TComma] ((λ w, [TNamed w]) <$> pk :: fs))).
  { apply reads_join; [apply sep_comma|done|]. apply Forall2_reads; [apply reads_named|done]. }
  rewrite Hn by done. change (lex LStart ")") with (Some [TRp]).
  rewrite !pre_pre. unfold pre. cbn [fmap option_fmap option_map]. f_equal. by rewrite <- ?app_assoc.
Qed.

Lemma lex_update t pk fs :
  table_name_ok t = true → idents_ok (pk :: fs) → fs ≠ [] →
  lex LStart (buildUpdateStatement t pk fs) =
  Some (app [TKw KUpdate; TTick t; TKw KSet]
       (app (sepby [TComma] ((λ w, [TWord w; TEq; TNamed w]) <$> fs))
       (app [TKw KWhere] [TWord pk; TEq; TNamed pk]))).
Proof.
  intros Ht [Hpk Hfs]%Forall_cons_1 Hne. unfold buildUpdateStatement.
  lex_literal "UPDATE `" [TKw KUpdate] (LTick "").
  change ("` SET " ++ ?x) with (String "`" (" SET " ++ x)). rewrite lex_tick by done.
  lex_literal " SET " [TKw KSet] LStart.
  assert (Hn : reads (join "," ((λ f, f ++ "=:" ++ f) <$> fs))
                 (sepby [TComma] ((λ w, [TWord w; TEq; TNamed w]) <$> fs))).
  { apply reads_join; [apply sep_comma|by destruct fs|]. apply Forall2_reads; [apply reads_eq_named|done]. }
  rewrite Hn by done. lex_literal " WHERE " [TKw KWhere] LStart.
  rewrite (lex_end (pk ++ _)), (reads_eq_named pk Hpk "" I).
  rewrite !pre_pre. unfold pre. cbn [lex flush fmap option_fmap option_map]. f_equal.
  by rewrite <- ?app_assoc, app_nil_r.
Qed.

Lemma lex_delete t pk :
  table_name_ok t = true → ident_ok pk = true →
  lex LStart (buildDeleteStatement t pk) =
  Some [TKw KDelete; TKw KFrom; TTick t; TKw KWhere; TWord pk; TEq; TNamed pk].
Proof.
  intros Ht Hpk. unfold buildDeleteStatement.
  lex_literal "DELETE FROM `" [TKw KDelete; TKw KFrom] (LTick "").
  change ("` WHERE " ++ ?x) with (String "`" (" WHERE " ++ x)). rewrite lex_tick by done.
  lex_literal " WHERE " [TKw KWhere] LStart.
  by rewrite (lex_end (pk ++ _)), (reads_eq_named pk Hpk "" I).
Qed.

Lemma lex_query t q :
  table_name_ok t = true → idents_ok q.*1 → q ≠ [] →
  lex LStart (queryBuilder_text (newQueryBuilder t q)) =
  Some (app [TKw KSelect; TStar; TKw KFrom; TTick t; TKw KWhere]
         (sepby [TKw KAnd] ((λ w, [TWord w; TEq; TQmark]) <$> q.*1))).
Proof.
  intros Ht Hq Hne. unfold queryBuilder_text, newQueryBuilder; cbn [q_table q_clauses].
  lex_literal "SELECT * FROM `" [TKw KSelect; TStar; TKw KFrom] (LTick "").
  change ("` WHERE " ++ ?x) with (String "`" (" WHERE " ++ x)). rewrite lex_tick by done.
  lex_literal " WHERE " [TKw KWhere] LStart.
  replace ((λ p : string * string, p.1 ++ " = ?") <$> q) with ((λ w, w ++ " = ?") <$> q.*1)
    by (by rewrite <- list_fmap_compose).
  assert (Hn : reads (join " AND " ((λ w, w ++ " = ?") <$> q.*1))
                 (sepby [TKw KAnd] ((λ w, [TWord w; TEq; TQmark]) <$> q.*1))).
  { apply reads_join; [apply sep_and|by destruct q|]. apply Forall2_reads; [apply reads_eq_qmark|done]. }
  rewrite lex_end, (Hn "" I). rewrite !pre_pre. unfold pre. cbn [lex flush fmap option_fmap option_map].
  f_equal. by rewrite app_nil_r.
Qed.

Lemma parse_insert t pk fs :
  table_name_ok t = true → idents_ok (pk :: fs) →
  parse_sql (buildInsertStatement t pk fs) = Some (SInsert t (pk :: fs) (BNamed <$> pk :: fs)).
Proof.
  intros Ht Hws. unfold parse_sql. rewrite lex_insert by done. cbn [mbind option_bind].
  unfold parse_tokens. cbn [app].
  rewrite parse_idents_sepby by done. by rewrite parse_binds_sepby.
Qed.

Lemma parse_update t pk fs :
  table_name_ok t = true → idents_ok (pk :: fs) → fs ≠ [] →
  parse_sql (buildUpdateStatement t pk fs) =
    Some (SUpdate t ((λ f, (f, BNamed f)) <$> fs) [(pk, BNamed pk)]).
Proof.
  intros Ht Hws Hne. unfold parse_sql. rewrite lex_update by done. cbn [mbind option_bind].
  unfold parse_tokens. cbn [app]. by rewrite (parse_eqs_sepby is_comma TComma TNamed BNamed).
Qed.

Lemma parse_delete t pk :
  table_name_ok t = true → ident_ok pk = true →
  parse_sql (buildDeleteStatement t pk) = Some (SDelete t [(pk, BNamed pk)]).
Proof. intros Ht Hpk. unfold parse_sql. by rewrite lex_delete. Qed.

Lemma parse_query t q :
  table_name_ok t = true → idents_ok q.*1 → q ≠ [] →
  parse_sql (queryBuilder_text (newQueryBuilder t q)) = Some (SSelect t ((λ p, (p.1, BPos)) <$> q)).
Proof.
  intros Ht Hq Hne. unfold parse_sql. rewrite lex_query by done. cbn [mbind option_bind].
  unfold parse_tokens. cbn [app]. unfold parse_where.
  rewrite <- (app_nil_r (sepby _ _)).
  rewrite (parse_eqs_sepby is_and (TKw KAnd) (λ _, TQmark) (λ _, BPos)); [|done..|by destruct q].
  by rewrite <- list_fmap_compose.
Qed.

Lemma parse_empty_query t :
  table_name_ok t = true → parse_sql (queryBuilder_text (newQueryBuilder t [])) = None.
Proof.
  intros Ht. unfold parse_sql, queryBuilder_text, newQueryBuilder; cbn [q_table q_clauses].
  lex_literal "SELECT * FROM `" [TKw KSelect; TStar; TKw KFrom] (LTick "").
  change ("` WHERE " ++ ?x) with (String "`" (" WHERE " ++ x)). by rewrite lex_tick.
Qed.

(** ** Properties *)



(** A query with at least one condition reads back as the selection of the
    rows that satisfy all of them, its arguments in the order of the
    conditions; a query with no condition, which is what listing a whole table
    asks for, leaves an empty [WHERE] and is a syntax error on every
    database. *)
Theorem query_text_reads_back t q d :
  table_name_ok t = true → idents_ok q.*1 →
  queryBuilder_exec (newQueryBuilder t q) d =
    if bool_decide (q = []) then (Err (ESql SqlSyntax), d)
    else Queryx (SSelect t ((λ p, (p.1, BPos)) <$> q)) ((λ p, SText p.2) <$> q) d.
Proof.
  intros Ht Hq. unfold queryBuilder_exec, Queryx_text. case_bool_decide as Hne.
  - subst q. by rewrite parse_empty_query.
  - by rewrite parse_query.
Qed.

Lemma query_text_reads_back_witness :
  let d := Db ∅ 0 in
  queryBuilder_exec (newQueryBuilder "peers" []) d = (Err (ESql SqlSyntax), d).
Proof.
  exact (query_text_reads_back "peers" [] (Db ∅ 0) eq_refl (Forall_nil_2 _)).
Defined.
