(* ===== verification/Sqlite.v ===== *)
(** * Transactions, migrations and the schema

    [datastore/sqlite/sqlite.go] (transactions, schema versions) and
    [datastore/migrations.go] (the schema of the datastore).  A transaction
    runs against a state that contains a database; it may also fail to begin or
    to commit, for reasons of the engine's own ([tx_env]). *)

From Stdlib Require Import Ascii.
From S2P Require Import Prelude GoStrings Sql SqlText.
Local Open Scope string_scope.

(** ** Transactions *)

(** A state with a database in it. *)
Class HasDb (S : Type) : Type := {
  the_db : S → db;
  set_db : db → S → S;
  the_set_db : ∀ d s, the_db (set_db d s) = d;
  set_the_db : ∀ s, set_db (the_db s) s = s;
  set_set_db : ∀ d d' s, set_db d (set_db d' s) = set_db d s
}.

#[global] Program Instance db_has_db : HasDb db := {| the_db d := d; set_db d _ := d |}.
Solve All Obligations with done.

(** A database statement run on the database of a larger state. *)
Definition on_db {S A} `{HasDb S} (m : M db A) : M S A := λ s,
  match m (the_db s) with (r, d) => (r, set_db d s) end.

(** What the engine answers to [BEGIN] and to [COMMIT]. *)
Record tx_env : Type := TxEnv { begin_err : option sqlerr; commit_err : option sqlerr }.
Definition tx_ok : tx_env := TxEnv None None.

(** [WithTx]: begin, run, commit; an error rolls the database back, and so does
    a commit that fails.  The rest of the state keeps what was done to it. *)
Definition WithTx {S A} `{HasDb S} (env : tx_env) (f : M S A) : M S A := λ s,
  match begin_err env with
  | Some e => (Err (ESql e), s)
  | None =>
      match f s with
      | (Ok a, s') =>
          match commit_err env with
          | None => (Ok a, s')
          | Some e => (Err (ESql e), set_db (the_db s) s')
          end
      | (r, s') => (r, set_db (the_db s) s')
      end
  end.

(** ** Migrations *)
Inductive ddl : Type :=
| CreateTable (t : string) (sc : schema)
| CreateIndex (t c : string)
| AddColumn (t : string) (c : column)
| DropColumn (t c : string)
| InsertRow (t : string) (vs : list (string * sqlval)).

Definition add_column (c : column) (tb : table) : table :=
  let sc := t_schema tb in
  Table (Schema (app (s_cols sc) [c]) (s_pk sc) (s_fks sc)) ((λ r, <[c_name c := SNull]> r) <$> t_rows tb).

Definition drop_column (c : string) (tb : table) : table :=
  let sc := t_schema tb in
  Table (Schema (filter (λ k, c_name k ≠ c) (s_cols sc)) (s_pk sc) (s_fks sc)) (delete c <$> t_rows tb).

Definition exec_ddl (x : ddl) : M db unit :=
  match x with
  | CreateTable t sc =>
      d ← getS;
      match tables d !! t with
      | Some _ => fail (ESql SqlSyntax)
      | None => put (Db (<[t := Table sc []]> (tables d)) (user_version d))
      end
  | CreateIndex t c => tb ← get_table t; guard_sql (cols_known (t_schema tb) [c]) SqlNoColumn
  | AddColumn t c =>
      tb ← get_table t;
      _ ← guard_sql (negb (cols_known (t_schema tb) [c_name c])) SqlSyntax;
      modify (λ d, Db (<[t := add_column c tb]> (tables d)) (user_version d))
  | DropColumn t c =>
      tb ← get_table t;
      _ ← guard_sql (cols_known (t_schema tb) [c]) SqlNoColumn;
      modify (λ d, Db (<[t := drop_column c tb]> (tables d)) (user_version d))
  | InsertRow t vs => insert_into t vs
  end.

(** [Statement(idl...)]: a migration that runs its statements in order. *)
Definition Statement (idl : list ddl) : M db unit := each exec_ddl idl.

Definition wrap_migration (f : M db unit) : M db unit := λ s,
  match f s with
  | (Err e, s') => (Err (EWrap "migration failed" e), s')
  | p => p
  end.

Definition migrate_body (migrations : list (M db unit)) : M db unit :=
  idx ← gets user_version;
  let n := Z.of_nat (length migrations) in
  if bool_decide (idx = n) then mret tt
  else if bool_decide (n < idx)%Z then fail (EMsg "database is at a more recent version")
  else if bool_decide (idx < 0)%Z then panic "slice bounds out of range"
  else
    _ ← each wrap_migration (drop (Z.to_nat idx) migrations);
    if bool_decide (0 < length migrations)%nat then modify (λ d, Db (tables d) n) else mret tt.

Definition migrate (env : tx_env) (migrations : list (M db unit)) : M db unit :=
  WithTx env (migrate_body migrations).

(** The connection URI that [OpenDB] opens. *)
Definition OpenDB_uri (dburi : string) : string :=
  if contains "?"%char dburi then dburi
  else dburi ++ "?cache=shared&_busy_timeout=10000&_foreign_keys=on&_journal=WAL".

(** [OpenDB] on an existing file: the migrated database or the error. *)
Definition OpenDB (env : tx_env) (migrations : list (M db unit)) (file : db) : res db :=
  match migrate env migrations file with
  | (Ok _, d) => Ok d
  | (Err e, _) => Err e
  | (Panic p, _) => Panic p
  | (Hang, _) => Hang
  end.

(** ** The schema of the datastore *)
Definition text_col (c : string) : column := Column c AText false.
Definition int_col (c : string) : column := Column c AInt false.
Definition time_col (c : string) : column := Column c ANum false.
Definition key_col (c : string) : column := Column c AText true.

Definition log_table : ddl := CreateTable "log"
  (Schema [Column "seq" AInt true; Column "type" AInt true; text_col "value"; time_col "timestamp"]
     (Some "seq") []).

Definition interfaces_table : ddl := CreateTable "interfaces"
  (Schema [key_col "name"; int_col "port"; text_col "ip"; text_col "ip6"; int_col "fwmark";
           text_col "private_key"; text_col "public_key"] (Some "name") []).

Definition peers_table : ddl := CreateTable "peers"
  (Schema [key_col "public_key"; key_col "interface"; text_col "ip"; text_col "ip6"; time_col "expire"]
     (Some "public_key") [ForeignKey "interface" "interfaces" "name"]).

Definition sequence_table : ddl := CreateTable "sequence" (Schema [int_col "seq"] None []).

Definition active_sessions_table : ddl := CreateTable "active_sessions"
  (Schema [text_col "peer_public_key"; time_col "begin_timestamp"; time_col "end_timestamp";
           time_col "last_handshake"; time_col "active"; text_col "src_as"; text_col "src_country"] None []).

Definition sessions_table : ddl := CreateTable "sessions"
  (Schema [text_col "peer_public_key"; time_col "begin_timestamp"; time_col "end_timestamp";
           text_col "src_as"; text_col "src_country"] None []).

Definition tokens_table : ddl := CreateTable "tokens"
  (Schema [key_col "id"; key_col "secret"; text_col "roles"] (Some "id") []).

Definition migration1 : list ddl :=
  [log_table; interfaces_table; peers_table;
   CreateIndex "peers" "ip"; CreateIndex "peers" "ip6";
   sequence_table; InsertRow "sequence" [("seq", SInt 0)];
   active_sessions_table; sessions_table; CreateIndex "sessions" "peer_public_key"; tokens_table].

Definition migration2 : list ddl :=
  [AddColumn "active_sessions" (text_col "src_as_num"); AddColumn "active_sessions" (text_col "src_as_org");
   DropColumn "active_sessions" "src_as";
   AddColumn "sessions" (text_col "src_as_num"); AddColumn "sessions" (text_col "src_as_org");
   DropColumn "sessions" "src_as"].

Definition Migrations : list (M db unit) := [Statement migration1; Statement migration2].

(** A file that does not exist yet, and the datastore that opening it gives. *)
Definition empty_file : db := Db ∅ 0.

Definition initial_db : db := (migrate tx_ok Migrations empty_file).2.

(** The schemas after the migrations. *)
Definition log_schema : schema :=
  Schema [Column "seq" AInt true; Column "type" AInt true; text_col "value"; time_col "timestamp"]
    (Some "seq") [].
Definition interfaces_schema : schema :=
  Schema [key_col "name"; int_col "port"; text_col "ip"; text_col "ip6"; int_col "fwmark";
          text_col "private_key"; text_col "public_key"] (Some "name") [].
Definition peers_schema : schema :=
  Schema [key_col "public_key"; key_col "interface"; text_col "ip"; text_col "ip6"; time_col "expire"]
    (Some "public_key") [ForeignKey "interface" "interfaces" "name"].
Definition sequence_schema : schema := Schema [int_col "seq"] None [].
Definition active_sessions_schema : schema :=
  Schema [text_col "peer_public_key"; time_col "begin_timestamp"; time_col "end_timestamp";
          time_col "last_handshake"; time_col "active"; text_col "src_country";
          text_col "src_as_num"; text_col "src_as_org"] None [].
Definition sessions_schema : schema :=
  Schema [text_col "peer_public_key"; time_col "begin_timestamp"; time_col "end_timestamp";
          text_col "src_country"; text_col "src_as_num"; text_col "src_as_org"] None [].
Definition tokens_schema : schema :=
  Schema [key_col "id"; key_col "secret"; text_col "roles"] (Some "id") [].

Definition datastore_schemas : gmap string schema :=
  list_to_map [("log", log_schema); ("interfaces", interfaces_schema); ("peers", peers_schema);
    ("sequence", sequence_schema); ("active_sessions", active_sessions_schema);
    ("sessions", sessions_schema); ("tokens", tokens_schema)].

(** ** Lemmas *)
Lemma on_db_Ok {S A} `{HasDb S} (m : M db A) s a s' :
  on_db m s = (Ok a, s') ↔ ∃ d, m (the_db s) = (Ok a, d) ∧ s' = set_db d s.
Proof.
  unfold on_db. destruct (m (the_db s)) as [r d]. split; [intros; inv_run; eauto|].
  intros (d0 & ? & ->). by inv_run.
Qed.

Lemma WithTx_Ok {S A} `{HasDb S} env (f : M S A) s a s' :
  WithTx env f s = (Ok a, s') ↔ begin_err env = None ∧ commit_err env = None ∧ f s = (Ok a, s').
Proof.
  unfold WithTx. destruct (begin_err env); [split; [done|by intros [? _]]|].
  destruct (f s) as [[] s1]; destruct (commit_err env); split; intros; naive_solver.
Qed.

(** A transaction that does not return normally leaves the database alone. *)
Lemma WithTx_rollback {S A} `{HasDb S} env (f : M S A) s r s' :
  WithTx env f s = (r, s') → is_ok r = false → the_db s' = the_db s.
Proof.
  unfold WithTx. destruct (begin_err env); [intros; by inv_run|].
  destruct (f s) as [[] s1]; [destruct (commit_err env)|..]; intros ? Hr; inv_run; try done;
    by rewrite the_set_db.
Qed.

Lemma migrate_body_step ms d :
  (0 ≤ user_version d < Z.of_nat (length ms))%Z →
  migrate_body ms d =
    (each wrap_migration (drop (Z.to_nat (user_version d)) ms) ≫= λ _, modify (λ d, Db (tables d) (Z.of_nat (length ms)))) d.
Proof.
  intros Hlt. unfold migrate_body. m_unfold.
  rewrite !bool_decide_eq_false_2 by lia. by rewrite bool_decide_eq_true_2 by lia.
Qed.

(** *** Data definition does not depend on the version *)
Definition with_version (v : Z) (d : db) : db := Db (tables d) v.

Definition version_free (f : M db unit) : Prop :=
  ∀ v d, f (with_version v d) = ((f d).1, with_version v (f d).2).

Lemma version_free_bind (f : M db unit) (k : unit → M db unit) :
  version_free f → (∀ x, version_free (k x)) → version_free (f ≫= k).
Proof.
  intros Hf Hk v d. m_unfold. rewrite Hf. destruct (f d) as [[] d1]; [|done..]. cbn. by rewrite Hk.
Qed.

Lemma exec_ddl_version_free x : version_free (exec_ddl x).
Proof.
  intros v d. destruct x; cbn [exec_ddl]; unfold insert_into, get_table, guard_sql; m_unfold;
    unfold fks_ok, fk_ok; cbn [tables with_version]; repeat (case_match; inv_run; try done).
Qed.

Lemma each_version_free {A} (f : A → M db unit) l :
  (∀ x, version_free (f x)) → version_free (each f l).
Proof.
  intros Hf. induction l as [|x l IH]; [done|]. cbn [each]. by apply version_free_bind.
Qed.

Lemma Statement_version_free idl : version_free (Statement idl).
Proof. apply each_version_free, exec_ddl_version_free. Qed.

Lemma migration_loop_version_free mss : version_free (each wrap_migration (Statement <$> mss)).
Proof.
  induction mss as [|ms mss IH]; [done|]. rewrite fmap_cons. cbn [each].
  apply version_free_bind; [|done]. intros v d. unfold wrap_migration.
  rewrite Statement_version_free. by destruct (Statement ms d) as [[] ?].
Qed.

Lemma drop_split {A} (l : list A) v k : (v ≤ k)%nat → drop v l = app (drop v (take k l)) (drop k l).
Proof.
  intros Hv. destruct (decide (k ≤ length l)%nat).
  - rewrite <- (take_drop k l) at 1. rewrite drop_app_le; [done|]. rewrite length_take. lia.
  - rewrite take_ge, (drop_ge l k), app_nil_r by lia. done.
Qed.

(** ** Properties *)

(** C26: migrations compose: a database brought to a version by the first [k]
    migrations, and later opened by a binary that has all of them, ends up
    exactly as one migrated by all of them at once. *)
Theorem migrate_compose (mss : list (list ddl)) k d d1 d2 :
  (0 ≤ user_version d < Z.of_nat k)%Z → (k < length mss)%nat →
  migrate tx_ok (Statement <$> take k mss) d = (Ok tt, d1) →
  migrate tx_ok (Statement <$> mss) d = (Ok tt, d2) →
  migrate tx_ok (Statement <$> mss) d1 = (Ok tt, d2).
Proof.
  intros Hv Hk (_ & _ & H1)%WithTx_Ok (_ & _ & H2)%WithTx_Ok. apply WithTx_Ok. split_and!; [done..|].
  assert (Hlen : length (Statement <$> take k mss) = k) by (rewrite length_fmap, length_take; lia).
  rewrite migrate_body_step in H1 by (rewrite Hlen; lia). rewrite Hlen in H1.
  rewrite migrate_body_step in H2 by (rewrite length_fmap; lia). rewrite length_fmap in H2.
  apply bind_Ok_inv in H1 as ([] & s1 & He1 & Hm1). unfold modify in Hm1. inv_run.
  rewrite migrate_body_step by (cbn [user_version]; rewrite length_fmap; lia). cbn [user_version].
  rewrite Nat2Z.id, length_fmap. rewrite <- fmap_drop in He1, H2 |- *.
  rewrite (drop_split mss (Z.to_nat (user_version d)) k) in H2 by lia.
  apply bind_Ok_inv in H2 as ([] & s2 & He2 & Hm2). unfold modify in Hm2. inv_run.
  rewrite fmap_app, each_app, (bind_Ok _ _ _ _ _ He1) in He2.
  change (Db (tables s1) (Z.of_nat k)) with (with_version (Z.of_nat k) s1).
  erewrite bind_Ok; [|rewrite migration_loop_version_free, He2; cbn; reflexivity]. done.
Qed.

Lemma migrate_compose_witness :
  migrate tx_ok (Statement <$> [migration1; migration2])
    (migrate tx_ok (Statement <$> take 1 [migration1; migration2]) empty_file).2 = (Ok tt, initial_db).
Proof.
  apply (migrate_compose [migration1; migration2] 1 empty_file); [done|by cbn; lia| |];
    vm_compute; reflexivity.
Defined.

(** *** The datastore as created *)
Lemma initial_db_schemas : schemas initial_db = datastore_schemas.
Proof. vm_compute. reflexivity. Qed.

Lemma initial_db_rows t tb :
  tables initial_db !! t = Some tb →
  t_rows tb = if decide (t = "sequence") then [{["seq" := SInt 0]}] else [].
Proof.
  assert (Hall : map_Forall (λ t tb, t_rows tb = if decide (t = "sequence") then [{["seq" := SInt 0]}] else [])
                   (tables initial_db)).
  { eapply bool_decide_eq_true_1. vm_compute. reflexivity. }
  intros Ht. exact (Hall t tb Ht).
Qed.

Lemma schemas_lookup d t tb : tables d !! t = Some tb → schemas d !! t = Some (t_schema tb).
Proof. intros H. unfold schemas. by rewrite lookup_fmap, H. Qed.

Lemma lookup_schemas d t sc : schemas d !! t = Some sc → ∃ tb, tables d !! t = Some tb ∧ t_schema tb = sc.
Proof. unfold schemas. rewrite lookup_fmap. intros (tb & Ht & ->)%fmap_Some. eauto. Qed.

Lemma datastore_schemas_fks t sc fk :
  datastore_schemas !! t = Some sc → fk ∈ s_fks sc →
  t = "peers" ∧ fk = ForeignKey "interface" "interfaces" "name".
Proof.
  unfold datastore_schemas. cbn [list_to_map foldr uncurry].
  intros H Hfk. repeat (apply lookup_insert_Some in H as [[<- <-]|[_ H]]; [by set_solver|]).
  by rewrite lookup_empty in H.
Qed.

Lemma datastore_schema_ok d : schemas d = datastore_schemas → schema_ok d.
Proof.
  intros Hs t tb fk Ht Hfk. apply schemas_lookup in Ht. rewrite Hs in Ht.
  destruct (datastore_schemas_fks _ _ _ Ht Hfk) as [_ ->]. cbn.
  destruct (lookup_schemas d "interfaces" interfaces_schema) as (p & Hp & Hsc);
    [by rewrite Hs|]. exists p. by rewrite Hsc.
Qed.

Lemma initial_db_ok : db_ok initial_db.
Proof.
  split; [apply datastore_schema_ok, initial_db_schemas|].
  intros t tb Ht. unfold table_ok. rewrite (initial_db_rows _ _ Ht).
  apply schemas_lookup in Ht. rewrite initial_db_schemas in Ht. case_decide as Hseq.
  - subst t. assert (t_schema tb = sequence_schema) as -> by (by vm_compute in Ht; simplify_eq).
    split_and!; repeat constructor.
  - split_and!; [constructor| |constructor]. unfold pk_vals. case_match; constructor.
Qed.
