(* ===== verification/Net.v ===== *)
(** * IP addresses and networks

    What the code uses of Go's [net] package ([IP], [IPMask], [IPNet],
    [ParseCIDR], [IPNet.String], [CIDRMask], [IPMask.Size]), and the CIDR type
    of [datastore/model/cidr.go] with its text, JSON and SQL forms.  An address
    is the list of its bytes: 4 or 16 of them, none for a Go [nil]. *)

From Stdlib Require Import Ascii.
From S2P Require Import Prelude GoStrings Sql.
Local Open Scope string_scope.
Local Open Scope Z_scope.

(** ** net.IP *)
Definition IP : Type := list Z.

Definition v4InV6Prefix : list Z := [0; 0; 0; 0; 0; 0; 0; 0; 0; 0; 255; 255].

(** [net.IPv4]: the 16-byte form. *)
Definition IPv4 (a b c d : Z) : IP := (v4InV6Prefix ++ [a; b; c; d])%list.

Definition To4 (ip : IP) : option IP :=
  if bool_decide (length ip = 4%nat) then Some ip
  else if bool_decide (length ip = 16%nat ∧ take 12 ip = v4InV6Prefix) then Some (drop 12 ip)
  else None.

(** *** Numbers inside addresses *)

(** [dtoi]: the decimal number at the start of the text and what follows it;
    numbers from [0xFFFFFF] on are refused. *)
Fixpoint dtoi_loop (s : string) (n : Z) (seen : bool) : option (Z * string) :=
  match s with
  | String c s' =>
      let d := Z.of_nat (nat_of_ascii c) - 48 in
      if bool_decide (0 ≤ d ≤ 9) then
        if bool_decide (16777215 ≤ n * 10 + d) then None else dtoi_loop s' (n * 10 + d) true
      else if seen then Some (n, s) else None
  | EmptyString => if seen then Some (n, s) else None
  end.
Definition dtoi (s : string) : option (Z * string) := dtoi_loop s 0 false.

(** [xtoi]: the same in base 16. *)
Fixpoint xtoi_loop (s : string) (n : Z) (seen : bool) : option (Z * string) :=
  match s with
  | String c s' =>
      match digit_val c with
      | Some d =>
          if bool_decide (d < 16) then
            if bool_decide (16777215 ≤ n * 16 + d) then None else xtoi_loop s' (n * 16 + d) true
          else if seen then Some (n, s) else None
      | None => if seen then Some (n, s) else None
      end
  | EmptyString => if seen then Some (n, s) else None
  end.
Definition xtoi (s : string) : option (Z * string) := xtoi_loop s 0 false.

(** *** Dotted decimal *)
Definition leading_zero (s rest : string) : bool :=
  match s with
  | String "0" _ => bool_decide (S (String.length rest) < String.length s)%nat
  | _ => false
  end.

(** The octets that remain: [i] of them; every octet but the first follows a dot. *)
Fixpoint parse_octets (i : nat) (first : bool) (s : string) : option (list Z) :=
  match i with
  | O => match s with EmptyString => Some [] | _ => None end
  | S i =>
      match (if first then Some s else match s with String "." s' => Some s' | _ => None end) with
      | Some s1 =>
          match dtoi s1 with
          | Some (n, rest) =>
              if bool_decide (255 < n) then None
              else if leading_zero s1 rest then None
              else match parse_octets i false rest with Some l => Some (n :: l) | None => None end
          | None => None
          end
      | None => None
      end
  end.

Definition parseIPv4 (s : string) : option IP :=
  match parse_octets 4 true s with Some [a; b; c; d] => Some (IPv4 a b c d) | _ => None end.

(** *** Colon-separated hexadecimal *)

(** Expanding the ellipsis at byte position [e] of the [bs] bytes that were read. *)
Definition expand_ellipsis (bs : list Z) (ellipsis : option nat) : option IP :=
  if bool_decide (length bs < 16)%nat then
    match ellipsis with
    | None => None
    | Some e => Some (take e bs ++ replicate (16 - length bs) 0 ++ drop e bs)%list
    end
  else match ellipsis with Some _ => None | None => Some bs end.

(** The loop of [parseIPv6]: [bs] are the bytes read so far; a step reads two
    bytes, so [fuel = 8] steps are enough for the 16 of an address. *)
Fixpoint parse_groups (fuel : nat) (s : string) (bs : list Z) (ellipsis : option nat) : option IP :=
  match fuel with
  | O => match s with EmptyString => expand_ellipsis bs ellipsis | _ => None end
  | S fuel =>
      match xtoi s with
      | None => None
      | Some (n, rest) =>
          if bool_decide (65535 < n) then None
          else match rest with
          | String "." _ =>
              if bool_decide (ellipsis = None ∧ length bs ≠ 12%nat) then None
              else if bool_decide (12 < length bs)%nat then None
              else match parseIPv4 s with
                   | Some ip4 => expand_ellipsis (bs ++ drop 12 ip4)%list ellipsis
                   | None => None
                   end
          | EmptyString => expand_ellipsis (bs ++ [n / 256; n mod 256])%list ellipsis
          | String ":" EmptyString => None
          | String ":" (String ":" s2) =>
              match ellipsis with
              | Some _ => None
              | None =>
                  let bs := (bs ++ [n / 256; n mod 256])%list in
                  match s2 with
                  | EmptyString => expand_ellipsis bs (Some (length bs))
                  | _ => parse_groups fuel s2 bs (Some (length bs))
                  end
              end
          | String ":" s1 => parse_groups fuel s1 (bs ++ [n / 256; n mod 256])%list ellipsis
          | _ => None
          end
      end
  end.

Definition parseIPv6 (s : string) : option IP :=
  match s with
  | String ":" (String ":" EmptyString) => Some (replicate 16 0)
  | String ":" (String ":" s') => parse_groups 8 s' [] (Some 0%nat)
  | _ => parse_groups 8 s [] None
  end.

(** *** Printing *)
Definition octets_string (bs : list Z) : string := join "." (format_dec <$> bs).

Fixpoint groups (bs : list Z) : list Z :=
  match bs with a :: b :: bs => (a * 256 + b) :: groups bs | _ => [] end.

(** The length of the run of zero groups that starts here. *)
Fixpoint zero_run (gs : list Z) : nat :=
  match gs with g :: gs => if bool_decide (g = 0) then S (zero_run gs) else O | [] => O end.

(** The first longest run: position and length. *)
Fixpoint longest_run (gs : list Z) (pos : nat) (best : nat * nat) : nat * nat :=
  match gs with
  | [] => best
  | _ :: gs' =>
      let n := zero_run gs in
      longest_run gs' (S pos) (if bool_decide (best.2 < n)%nat then (pos, n) else best)
  end.

Definition groups_string (gs : list Z) : string := join ":" (format_hex <$> gs).

Definition IPv6_string (bs : list Z) : string :=
  let gs := groups bs in
  let '(p, n) := longest_run gs 0 (0%nat, 0%nat) in
  if bool_decide (n < 2)%nat then groups_string gs
  else groups_string (take p gs) ++ "::" ++ groups_string (drop (p + n) gs).

Definition IP_string (ip : IP) : string :=
  match ip with
  | [] => "<nil>"
  | _ => match To4 ip with
         | Some ip4 => octets_string ip4
         | None => if bool_decide (length ip = 16%nat) then IPv6_string ip else "?"
         end
  end.

(** ** Masks and networks *)
Definition IPMask : Type := list Z.

(** One byte of a mask with [ones] leading ones. *)
Definition mask_byte (ones : Z) : Z := 256 - 2 ^ (8 - Z.min 8 (Z.max 0 ones)).

Fixpoint mask_bytes (n : nat) (ones : Z) : list Z :=
  match n with O => [] | S n => mask_byte ones :: mask_bytes n (ones - 8) end.

Definition CIDRMask (ones bits : Z) : IPMask :=
  if bool_decide ((bits = 32 ∨ bits = 128) ∧ 0 ≤ ones ≤ bits) then mask_bytes (Z.to_nat (bits / 8)) ones
  else [].

(** [simpleMaskLength]: the number of leading ones, if only zeros follow. *)
Definition byte_ones (b : Z) : option Z := list_find (λ k, b = mask_byte k) [0; 1; 2; 3; 4; 5; 6; 7; 8] ≫= λ p, Some p.2.

Fixpoint simpleMaskLength (m : IPMask) : option Z :=
  match m with
  | [] => Some 0
  | b :: m =>
      if bool_decide (b = 255) then n ← simpleMaskLength m; Some (8 + n)
      else if forallb (λ x, bool_decide (x = 0)) m then byte_ones b else None
  end.

Definition Mask_Size (m : IPMask) : Z * Z :=
  match simpleMaskLength m with Some n => (n, 8 * Z.of_nat (length m)) | None => (0, 0) end.

Record IPNet : Type := mkIPNet { n_IP : IP; n_Mask : IPMask }.

#[global] Instance IPNet_eq_dec : EqDecision IPNet.
Proof. solve_decision. Defined.

Definition networkNumberAndMask (n : IPNet) : option (IP * IPMask) :=
  let ip := match To4 (n_IP n) with
            | Some ip => Some ip
            | None => if bool_decide (length (n_IP n) = 16%nat) then Some (n_IP n) else None
            end in
  match ip with
  | None => None
  | Some ip =>
      if bool_decide (length (n_Mask n) = 4%nat) then
        if bool_decide (length ip = 4%nat) then Some (ip, n_Mask n) else None
      else if bool_decide (length (n_Mask n) = 16%nat) then
        Some (ip, if bool_decide (length ip = 4%nat) then drop 12 (n_Mask n) else n_Mask n)
      else None
  end.

Definition hex_byte (b : Z) : string :=
  String (digit_char (b / 16)) (String (digit_char (b mod 16)) "").

Definition IPNet_String (n : IPNet) : string :=
  match networkNumberAndMask n with
  | None => "<nil>"
  | Some (nn, m) =>
      match simpleMaskLength m with
      | Some l => IP_string nn ++ "/" ++ format_dec l
      | None => IP_string nn ++ "/" ++ join "" (hex_byte <$> m)
      end
  end.

(** [net.ParseCIDR]: the address as written and the mask. *)
Definition net_ParseCIDR (s : string) : option (IP * IPMask) :=
  match cut "/" s with
  | None => None
  | Some (addr, mask) =>
      let '(ip, iplen) := match parseIPv4 addr with
                          | Some ip => (Some ip, 4)
                          | None => (parseIPv6 addr, 16)
                          end in
      match ip, dtoi mask with
      | Some ip, Some (n, EmptyString) =>
          if bool_decide (n ≤ 8 * iplen) then Some (ip, CIDRMask n (8 * iplen)) else None
      | _, _ => None
      end
  end.

(** ** model.CIDR

    A [*CIDR] is an [option CIDR]. *)
Record CIDR : Type := mkCIDR { c_IPNet : IPNet }.

#[global] Instance CIDR_eq_dec : EqDecision CIDR.
Proof. solve_decision. Defined.

Definition nil_CIDR : CIDR := mkCIDR (mkIPNet [] []).

Definition CIDR_parse (c : CIDR) (s : string) : res CIDR :=
  if bool_decide (s = "") then Ok c
  else match net_ParseCIDR s with
       | Some (ip, mask) => Ok (mkCIDR (mkIPNet ip mask))
       | None => Err (EMsg "invalid CIDR address")
       end.

Definition ParseCIDR (s : string) : res CIDR := CIDR_parse nil_CIDR s.

Definition NewCIDR (ip : IP) (sz : Z) : CIDR :=
  mkCIDR (mkIPNet ip (CIDRMask sz (8 * Z.of_nat (length ip)))).

Definition CIDR_IsNil (c : option CIDR) : bool :=
  match c with None => true | Some c => bool_decide (n_IP (c_IPNet c) = []) end.

Definition CIDR_String (c : option CIDR) : string :=
  match c with
  | None => ""
  | Some c => if bool_decide (n_IP (c_IPNet c) = []) then "" else IPNet_String (c_IPNet c)
  end.

(** encoding/json writes [null] for a nil pointer and calls [MarshalJSON]
    otherwise; it leaves a pointer nil on [null] and otherwise calls
    [UnmarshalJSON] on a fresh value. *)
Definition CIDR_MarshalJSON (c : option CIDR) : json :=
  match c with None => JNull | Some c => JStr (CIDR_String (Some c)) end.

Definition CIDR_UnmarshalJSON (j : json) : res (option CIDR) :=
  match j with
  | JNull => Ok None
  | JStr s => c ← CIDR_parse nil_CIDR s; mret (Some c)
  | _ => Err (EMsg "json: cannot unmarshal into string")
  end.

Definition CIDR_Value (c : option CIDR) : sqlval :=
  if CIDR_IsNil c then SNull else SText (CIDR_String c).

Definition CIDR_Scan (src : sqlval) : res CIDR :=
  match src with
  | SText s => CIDR_parse nil_CIDR s
  | _ => Ok nil_CIDR
  end.

(** ** Lemmas: dotted decimal *)
Lemma digit_val_dec c d : digit_val c = Some d → d < 10 → Z.of_nat (nat_of_ascii c) - 48 = d.
Proof. unfold digit_val. repeat case_bool_decide; intros; simplify_eq; lia. Qed.

Lemma dtoi_loop_parse w n v rest seen :
  parse_digits 10 16777214 w n = Ok v → dtoi_loop (w ++ rest) n seen =
    match w with EmptyString => dtoi_loop rest n seen | _ => dtoi_loop rest v true end.
Proof.
  revert n seen. induction w as [|c w IH]; intros n seen H; [done|].
  cbn [parse_digits] in H. destruct (digit_val c) as [d|] eqn:Hd; [|done].
  assert (0 ≤ d) by (unfold digit_val in Hd; repeat case_bool_decide; simplify_eq; lia).
  repeat case_bool_decide; try done. cbn [String.append dtoi_loop].
  rewrite (digit_val_dec c d) by (done || lia).
  rewrite bool_decide_eq_true_2, bool_decide_eq_false_2 by lia. rewrite (IH _ true) by done.
  destruct w; [|done]. cbn in H. by simplify_eq.
Qed.

Definition no_digit (s : string) : bool :=
  match s with
  | EmptyString => true
  | String c _ => negb (bool_decide (0 ≤ Z.of_nat (nat_of_ascii c) - 48 ≤ 9))
  end.

Lemma dtoi_format u rest :
  0 ≤ u ≤ 16777214 → no_digit rest = true → dtoi (format_dec u ++ rest) = Some (u, rest).
Proof.
  intros Hu Hr. unfold dtoi.
  assert (Hp : parse_uint 10 16777214 (format_dec u) = Ok u) by (apply parse_format; lia).
  unfold parse_uint in Hp. destruct (format_dec u) as [|c w] eqn:E; [done|].
  rewrite (dtoi_loop_parse _ _ u) by done. destruct rest as [|c' rest]; [done|].
  cbn [dtoi_loop]. unfold no_digit in Hr. apply negb_true_iff in Hr. by rewrite Hr.
Qed.

(** No octet is printed with a leading zero (checked on all 256). *)
Lemma format_dec_leading u rest : 0 ≤ u < 256 → leading_zero (format_dec u ++ rest) rest = false.
Proof.
  intros Hu.
  assert (Hall : forallb (λ u, match format_dec u with
                               | String "0" t => bool_decide (t = "") | EmptyString => false | _ => true end)
                   (seqZ 0 256) = true) by (vm_compute; reflexivity).
  rewrite forallb_forall in Hall. specialize (Hall u ltac:(apply list_elem_of_In, elem_of_seqZ; lia)).
  destruct (format_dec u) as [|c t]; [done|]. cbn [String.append leading_zero].
  destruct (ascii_dec c "0") as [->|Hne].
  - apply bool_decide_eq_true in Hall. subst t. cbn. apply bool_decide_eq_false_2. lia.
  - revert Hne. clear. intros Hne. destruct c as [[] [] [] [] [] [] [] []]; try done.
    all: by destruct Hne.
Qed.

Definition octet (z : Z) : Prop := 0 ≤ z < 256.

Lemma parse_octets_step i first u rest :
  octet u → no_digit rest = true →
  parse_octets (S i) first ((if first then "" else ".") ++ format_dec u ++ rest) =
    match parse_octets i false rest with Some l => Some (u :: l) | None => None end.
Proof.
  intros Hu Hr. cbn [parse_octets]. unfold octet in Hu.
  replace (if first then Some ((if first then "" else ".") ++ format_dec u ++ rest)
           else match (if first then "" else ".") ++ format_dec u ++ rest with
                | String "." s' => Some s' | _ => None end) with (Some (format_dec u ++ rest)) by (by destruct first).
  rewrite dtoi_format, bool_decide_eq_false_2, format_dec_leading by (done || lia). done.
Qed.

Lemma parseIPv4_print a b c d :
  octet a → octet b → octet c → octet d → parseIPv4 (octets_string [a; b; c; d]) = Some (IPv4 a b c d).
Proof.
  intros Ha Hb Hc Hd. unfold parseIPv4, octets_string. cbn [fmap list_fmap join].
  change (format_dec a ++ ?x) with ((if true then "" else ".") ++ format_dec a ++ x).
  rewrite parse_octets_step by done.
  change ("." ++ ?x) with ((if false then "" else ".") ++ x).
  rewrite parse_octets_step by done. rewrite parse_octets_step by done.
  rewrite <- (str_app_nil_r (format_dec d)). by rewrite parse_octets_step.
Qed.

Lemma format_dec_no_slash u : octet u → contains "/" (format_dec u) = false.
Proof.
  intros Hu. assert (Hall : forallb (λ u, negb (contains "/" (format_dec u))) (seqZ 0 256) = true)
    by (vm_compute; reflexivity).
  rewrite forallb_forall in Hall. apply negb_true_iff, Hall, list_elem_of_In, elem_of_seqZ.
  unfold octet in Hu. lia.
Qed.

Lemma octets_no_slash a b c d :
  octet a → octet b → octet c → octet d → contains "/" (octets_string [a; b; c; d]) = false.
Proof.
  intros Ha Hb Hc Hd. unfold octets_string. cbn [fmap list_fmap join].
  rewrite !contains_app, !format_dec_no_slash by done. done.
Qed.

Lemma mask_length_v4 n : 0 ≤ n ≤ 32 → simpleMaskLength (CIDRMask n 32) = Some n ∧ length (CIDRMask n 32) = 4%nat.
Proof.
  intros Hn. assert (Hall : forallb (λ n, bool_decide (simpleMaskLength (CIDRMask n 32) = Some n ∧
    length (CIDRMask n 32) = 4%nat)) (seqZ 0 33) = true) by (vm_compute; reflexivity).
  rewrite forallb_forall in Hall. eapply bool_decide_eq_true_1, Hall, list_elem_of_In, elem_of_seqZ. lia.
Qed.

(** An IPv4 network as [ParseCIDR] delivers it. *)
Definition cidr4 (a b c d n : Z) : CIDR := mkCIDR (mkIPNet (IPv4 a b c d) (CIDRMask n 32)).

Lemma CIDR_String_v4 a b c d n :
  0 ≤ n ≤ 32 → CIDR_String (Some (cidr4 a b c d n)) = octets_string [a; b; c; d] ++ "/" ++ format_dec n.
Proof.
  intros Hn. destruct (mask_length_v4 n Hn) as [Hs Hl].
  unfold CIDR_String, IPNet_String, networkNumberAndMask, cidr4; cbn [c_IPNet n_IP n_Mask].
  change (To4 (IPv4 a b c d)) with (Some [a; b; c; d]). cbn [length]. rewrite Hl.
  change (bool_decide (4%nat = 4%nat)) with true. cbn iota. by rewrite Hs.
Qed.

Lemma ParseCIDR_String_v4 a b c d n :
  octet a → octet b → octet c → octet d → 0 ≤ n ≤ 32 →
  ParseCIDR (CIDR_String (Some (cidr4 a b c d n))) = Ok (cidr4 a b c d n).
Proof.
  intros Ha Hb Hc Hd Hn. rewrite CIDR_String_v4 by done. unfold ParseCIDR, CIDR_parse.
  rewrite bool_decide_eq_false_2.
  2: { intros H. assert (Hc0 : contains "/" (octets_string [a; b; c; d] ++ "/" ++ format_dec n) = true).
       { rewrite contains_app. cbn. apply orb_true_r. } by rewrite H in Hc0. }
  unfold net_ParseCIDR. change ("/" ++ ?x) with (String "/" x).
  rewrite cut_app by (by apply octets_no_slash). rewrite parseIPv4_print by done.
  rewrite <- (str_app_nil_r (format_dec n)), dtoi_format by (done || lia).
  by rewrite bool_decide_eq_true_2 by lia.
Qed.
