(* ===== verification/NetV6.v ===== *)
(** * IPv6 addresses in text

    The text form of an IPv6 address, with its longest run of zeros left out,
    is read back as the address; with [Net], every network of the data model
    survives its serializations. *)

From Stdlib Require Import Ascii.
From S2P Require Import Prelude GoStrings Sql Net.
Local Open Scope string_scope.
Local Open Scope Z_scope.

(** ** Groups *)
Definition group (g : Z) : Prop := 0 ≤ g ≤ 65535.

Definition group_bytes (gs : list Z) : list Z := gs ≫= λ g, [g / 256; g mod 256].

Lemma group_bytes_app gs gs' : group_bytes (app gs gs') = app (group_bytes gs) (group_bytes gs').
Proof. apply bind_app. Qed.

Lemma group_bytes_length gs : length (group_bytes gs) = (2 * length gs)%nat.
Proof. induction gs as [|g gs IH]; [done|]. cbn [group_bytes mbind list_bind app length]. fold (group_bytes gs). lia. Qed.

Lemma group_bytes_zeros n : group_bytes (replicate n 0) = replicate (2 * n) 0.
Proof.
  induction n as [|n IH]; [done|]. replace (2 * S n)%nat with (S (S (2 * n))) by lia. cbn [replicate].
  change (group_bytes (0 :: replicate n 0)) with (0 :: 0 :: group_bytes (replicate n 0)). by rewrite IH.
Qed.

Lemma groups_spec n bs :
  length bs = (2 * n)%nat → Forall octet bs → group_bytes (groups bs) = bs ∧ length (groups bs) = n ∧ Forall group (groups bs).
Proof.
  revert bs. induction n as [|n IH]; intros bs Hl Ho.
  { destruct bs; [done|cbn in Hl; lia]. }
  destruct bs as [|a [|b bs]]; [cbn in Hl; lia..|]. cbn in Hl.
  apply Forall_cons in Ho as [Ha Ho]. apply Forall_cons in Ho as [Hb Ho]. unfold octet in Ha, Hb.
  destruct (IH bs ltac:(lia) Ho) as (IH1 & IH2 & IH3). cbn [groups]. split_and!.
  - change (group_bytes ((a * 256 + b) :: groups bs)) with
      ((a * 256 + b) / 256 :: (a * 256 + b) mod 256 :: group_bytes (groups bs)).
    rewrite IH1, Z.div_add_l, Z.div_small, Z.add_0_r by lia. f_equal. f_equal.
    rewrite Z.add_comm, Z.mod_add, Z.mod_small; lia.
  - cbn [length]. by rewrite IH2.
  - constructor; [unfold group; lia|done].
Qed.

(** ** Hexadecimal numbers *)
Definition no_hex (s : string) : bool :=
  match s with
  | EmptyString => true
  | String c _ => match digit_val c with Some d => bool_decide (16 ≤ d) | None => true end
  end.

Lemma xtoi_loop_parse w n v rest seen :
  parse_digits 16 16777214 w n = Ok v → xtoi_loop (w ++ rest) n seen =
    match w with EmptyString => xtoi_loop rest n seen | _ => xtoi_loop rest v true end.
Proof.
  revert n seen. induction w as [|c w IH]; intros n seen H; [done|].
  cbn [parse_digits] in H. destruct (digit_val c) as [d|] eqn:Hd; [|done].
  repeat case_bool_decide; try done. cbn [String.append xtoi_loop]. rewrite Hd.
  rewrite bool_decide_eq_true_2, bool_decide_eq_false_2 by lia. rewrite (IH _ true) by done.
  destruct w; [|done]. cbn in H. by simplify_eq.
Qed.

Lemma xtoi_format g rest : group g → no_hex rest = true → xtoi (format_hex g ++ rest) = Some (g, rest).
Proof.
  intros Hg Hr. unfold xtoi, group in *.
  assert (Hp : parse_uint 16 16777214 (format_hex g) = Ok g) by (apply parse_format; lia).
  unfold parse_uint in Hp. destruct (format_hex g) as [|c w] eqn:E; [done|].
  rewrite (xtoi_loop_parse _ _ g) by done. destruct rest as [|c' rest]; [done|].
  cbn [xtoi_loop]. cbn [no_hex] in Hr. destruct (digit_val c') as [d|]; [|done].
  apply bool_decide_eq_true in Hr. by rewrite bool_decide_eq_false_2 by lia.
Qed.

(** A text of hexadecimal digits. *)
Fixpoint hex_text (s : string) : bool :=
  match s with
  | EmptyString => true
  | String c s => match digit_val c with Some d => bool_decide (d < 16) && hex_text s | None => false end
  end.

Lemma parse_digits_hex w m n v : parse_digits 16 m w n = Ok v → hex_text w = true.
Proof.
  revert n. induction w as [|c w IH]; intros n H; [done|]. cbn [parse_digits] in H. cbn [hex_text].
  destruct (digit_val c) as [d|]; [|done]. repeat case_bool_decide; try done; try lia. by eapply IH.
Qed.

Lemma format_hex_head g : group g → ∃ c w d, format_hex g = String c w ∧ digit_val c = Some d ∧ d < 16 ∧ hex_text w = true.
Proof.
  intros Hg. unfold group in Hg. assert (Hp : parse_uint 16 16777214 (format_hex g) = Ok g) by (apply parse_format; lia).
  unfold parse_uint in Hp. destruct (format_hex g) as [|c w]; [done|]. apply parse_digits_hex in Hp. cbn [hex_text] in Hp.
  destruct (digit_val c) as [d|] eqn:Ed; [|done]. apply andb_true_iff in Hp as [Hd%bool_decide_eq_true Hw]. by exists c, w, d.
Qed.

Lemma digit_not c d : digit_val c = Some d → c ≠ ":"%char ∧ c ≠ "/"%char ∧ c ≠ "."%char.
Proof. intros H. split_and!; intros ->; vm_compute in H; discriminate. Qed.

Lemma hex_contains ch s : digit_val ch = None → hex_text s = true → contains ch s = false.
Proof.
  intros Hch. induction s as [|c s IH]; [done|]. cbn [hex_text contains]. destruct (digit_val c) as [d|] eqn:E; [|done].
  intros [_ Hs]%andb_true_iff. rewrite (IH Hs), orb_false_r. apply Ascii.eqb_neq. congruence.
Qed.

(** ** The loop over the groups *)
Lemma parse_groups_colon fuel s g s1 c bs e :
  xtoi s = Some (g, String ":" (String c s1)) → group g → c ≠ ":"%char →
  parse_groups (S fuel) s bs e = parse_groups fuel (String c s1) (bs ++ [g / 256; g mod 256])%list e.
Proof.
  intros Hx Hg Hc. cbn [parse_groups]. rewrite Hx, bool_decide_eq_false_2 by (unfold group in Hg; lia).
  destruct c as [[] [] [] [] [] [] [] []]; try reflexivity. by destruct Hc.
Qed.

Lemma parseIPv6_hex c s : c ≠ ":"%char → parseIPv6 (String c s) = parse_groups 8 (String c s) [] None.
Proof. intros Hc. destruct c as [[] [] [] [] [] [] [] []]; try reflexivity. by destruct Hc. Qed.

Lemma groups_string_cons g g' gs : groups_string (g :: g' :: gs) = format_hex g ++ String ":" (groups_string (g' :: gs)).
Proof. done. Qed.

Lemma groups_string_head g gs : group g → ∃ c w d, groups_string (g :: gs) = String c w ∧ digit_val c = Some d ∧ d < 16.
Proof.
  intros Hg. destruct (format_hex_head g Hg) as (c & w & d & E & Hd & Hlt & _). destruct gs as [|g' gs].
  - exists c, w, d. by unfold groups_string; cbn [fmap list_fmap join]; rewrite E.
  - rewrite groups_string_cons, E. by exists c, (w ++ String ":" (groups_string (g' :: gs))), d.
Qed.

(** Groups up to the end of the text. *)
Lemma parse_groups_end gs fuel bs e :
  gs ≠ [] → (length gs ≤ fuel)%nat → Forall group gs →
  parse_groups fuel (groups_string gs) bs e = expand_ellipsis (bs ++ group_bytes gs)%list e.
Proof.
  intros Hne. revert fuel bs. induction gs as [|g gs IH]; intros fuel bs Hl Hg; [done|]. cbn in Hl.
  destruct fuel as [|fuel]; [lia|]. apply Forall_cons in Hg as [Hg Hgs]. destruct gs as [|g' gs].
  - change (groups_string [g]) with (format_hex g). rewrite <- (str_app_nil_r (format_hex g)).
    cbn [parse_groups]. rewrite xtoi_format by done. by rewrite bool_decide_eq_false_2 by (unfold group in Hg; lia).
  - rewrite groups_string_cons. pose proof Hgs as [Hg' _]%Forall_cons.
    destruct (groups_string_head g' gs Hg') as (c & w & d & E & Hd & Hlt).
    assert (Hx : xtoi (format_hex g ++ String ":" (String c w)) = Some (g, String ":" (String c w))) by (by apply xtoi_format).
    rewrite E. rewrite (parse_groups_colon fuel _ g w c _ _ Hx Hg) by (by destruct (digit_not c d Hd)).
    rewrite <- E, IH by (done || lia). f_equal. by rewrite <- (assoc app).
Qed.

(** Groups up to the ellipsis. *)
Lemma parse_groups_ellipsis gs fuel bs rest :
  gs ≠ [] → (length gs ≤ fuel)%nat → Forall group gs →
  let bs' := (bs ++ group_bytes gs)%list in
  parse_groups fuel (groups_string gs ++ "::" ++ rest) bs None =
    match rest with
    | EmptyString => expand_ellipsis bs' (Some (length bs'))
    | _ => parse_groups (fuel - length gs) rest bs' (Some (length bs'))
    end.
Proof.
  intros Hne. revert fuel bs. induction gs as [|g gs IH]; intros fuel bs Hl Hg; [done|]. cbn in Hl.
  destruct fuel as [|fuel]; [lia|]. apply Forall_cons in Hg as [Hg Hgs]. cbv zeta. destruct gs as [|g' gs].
  - change (groups_string [g]) with (format_hex g). change ("::" ++ rest) with (String ":" (String ":" rest)).
    cbn [parse_groups]. rewrite xtoi_format by done. rewrite bool_decide_eq_false_2 by (unfold group in Hg; lia).
    cbn [length]. rewrite Nat.sub_succ, Nat.sub_0_r. by destruct rest.
  - rewrite groups_string_cons. pose proof Hgs as [Hg' _]%Forall_cons.
    destruct (groups_string_head g' gs Hg') as (c & w & d & E & Hd & Hlt).
    rewrite str_app_assoc. change (String ":" (groups_string (g' :: gs)) ++ ?x) with (String ":" (groups_string (g' :: gs) ++ x)).
    rewrite E. change (String c w ++ ?x) with (String c (w ++ x)).
    rewrite (parse_groups_colon fuel _ g (w ++ "::" ++ rest) c); [|by apply xtoi_format|done|by destruct (digit_not c d Hd)].
    change (String c (w ++ "::" ++ rest)) with (String c w ++ "::" ++ rest). rewrite <- E, IH by (done || lia). cbv zeta.
    assert (Happ : ((bs ++ [g / 256; g mod 256]) ++ group_bytes (g' :: gs) = bs ++ group_bytes (g :: g' :: gs))%list)
      by (by rewrite <- (assoc app)). by rewrite Happ.
Qed.

(** ** The ellipsis *)
Lemma zero_run_zeros gs : take (zero_run gs) gs = replicate (zero_run gs) 0 ∧ (zero_run gs ≤ length gs)%nat.
Proof.
  induction gs as [|g gs [IH1 IH2]]; [done|]. cbn [zero_run]. case_bool_decide as Hg; [|cbn; split; [done|lia]].
  subst g. cbn. rewrite IH1. split; [done|lia].
Qed.

Lemma longest_run_zeros (all gs : list Z) pos best :
  drop pos all = gs → take best.2 (drop best.1 all) = replicate best.2 0 ∧ (best.1 + best.2 ≤ length all)%nat →
  let r := longest_run gs pos best in
  take r.2 (drop r.1 all) = replicate r.2 0 ∧ (r.1 + r.2 ≤ length all)%nat.
Proof.
  revert pos best. induction gs as [|g gs IH]; intros pos best Hd Hb; [done|]. cbn [longest_run].
  assert (Hpos : (pos < length all)%nat).
  { destruct (decide (pos < length all)%nat); [done|]. rewrite drop_ge in Hd by lia. done. }
  apply IH; [rewrite <- Nat.add_1_r, <- drop_drop, Hd; done|]. case_bool_decide; [|done]. cbn [fst snd].
  destruct (zero_run_zeros (g :: gs)) as [Hz Hl]. rewrite Hd. split; [done|].
  assert (length (g :: gs) = length all - pos)%nat by (by rewrite <- Hd, length_drop). lia.
Qed.

(** The bytes on both sides of the ellipsis, with the zeros between them. *)
Lemma expand_zeros a z b : length (app a (app (replicate z 0) b)) = 16%nat → (0 < z)%nat →
  expand_ellipsis (app a b) (Some (length a)) = Some (app a (app (replicate z 0) b)).
Proof.
  intros Hl Hz. rewrite !length_app, length_replicate in Hl. unfold expand_ellipsis. rewrite length_app.
  rewrite bool_decide_eq_true_2 by lia. rewrite take_app_length, drop_app_length.
  by replace (16 - (length a + length b))%nat with z by lia.
Qed.

Lemma parseIPv6_print bs : length bs = 16%nat → Forall octet bs → parseIPv6 (IPv6_string bs) = Some bs.
Proof.
  intros Hl Ho. destruct (groups_spec 8 bs Hl Ho) as (Hb & Hg & Hgs). unfold IPv6_string. set (gs := groups bs) in *.
  pose proof (longest_run_zeros gs gs 0 (0%nat, 0%nat) eq_refl ltac:(split; [done|cbn; lia])) as Hrun. cbv zeta in Hrun.
  destruct (longest_run gs 0 (0%nat, 0%nat)) as [p n]. cbn [fst snd] in Hrun. destruct Hrun as [Hz Hpn].
  case_bool_decide as Hn.
  - destruct gs as [|g gs']; [done|]. pose proof Hgs as [Hg0 _]%Forall_cons.
    destruct (groups_string_head g gs' Hg0) as (c & w & d & E & Hd & _). rewrite E, parseIPv6_hex by (by destruct (digit_not c d Hd)).
    rewrite <- E, parse_groups_end by (done || lia). cbn [app]. rewrite Hb. unfold expand_ellipsis.
    by rewrite bool_decide_eq_false_2 by (cbn; lia).
  - assert (Hsplit : gs = app (take p gs) (app (replicate n 0) (drop (p + n) gs))).
    { rewrite <- Hz, <- drop_drop, take_drop, take_drop. done. }
    assert (Hbytes : bs = app (group_bytes (take p gs)) (app (replicate (2 * n) 0) (group_bytes (drop (p + n) gs)))).
    { rewrite <- Hb. rewrite Hsplit at 1. by rewrite !group_bytes_app, group_bytes_zeros. }
    assert (Htl : Forall group (drop (p + n) gs)) by (by apply Forall_drop).
    assert (Hhd : Forall group (take p gs)) by (by apply Forall_take).
    assert (Hex : expand_ellipsis (app (group_bytes (take p gs)) (group_bytes (drop (p + n) gs)))
                    (Some (length (group_bytes (take p gs)))) = Some bs)
      by (rewrite Hbytes at 1; apply expand_zeros; [by rewrite <- Hbytes|lia]).
    assert (Hlen : (length (take p gs) + length (drop (p + n) gs) ≤ 6)%nat) by (rewrite length_take, length_drop; lia).
    set (hd := take p gs) in *. set (tl := drop (p + n) gs) in *. clearbody hd tl. clear Hsplit Hz Hpn.
    destruct hd as [|g hd].
    + change (groups_string [] ++ "::" ++ groups_string tl) with (String ":" (String ":" (groups_string tl))).
      destruct tl as [|g tl]; [exact Hex|]. pose proof Htl as [Hg0 _]%Forall_cons.
      destruct (groups_string_head g tl Hg0) as (c & w & d & E & _). rewrite E. cbn [parseIPv6]. rewrite <- E.
      by rewrite parse_groups_end by (done || (cbn in *; lia)).
    + pose proof Hhd as [Hg0 _]%Forall_cons.
      destruct (groups_string_head g hd Hg0) as (c & w & d & E & Hd & _).
      assert (Hc : parseIPv6 (groups_string (g :: hd) ++ "::" ++ groups_string tl) =
                   parse_groups 8 (groups_string (g :: hd) ++ "::" ++ groups_string tl) [] None).
      { rewrite E. apply parseIPv6_hex. by destruct (digit_not c d Hd). }
      assert (H8 : (length (g :: hd) ≤ 8)%nat) by lia.
      pose proof (parse_groups_ellipsis (g :: hd) 8 [] (groups_string tl) ltac:(discriminate) H8 Hhd) as He. cbv zeta in He.
      rewrite Hc, He. cbn [app]. destruct tl as [|g1 tl].
      * change (groups_string []) with "". cbn [app group_bytes mbind list_bind] in Hex. by rewrite app_nil_r in Hex.
      * pose proof Htl as [Hg1 _]%Forall_cons. destruct (groups_string_head g1 tl Hg1) as (c1 & w1 & d1 & E1 & _).
        rewrite E1, <- E1. rewrite (parse_groups_end (g1 :: tl) (8 - length (g :: hd))); [exact Hex|discriminate|lia|exact Htl].
Qed.

(** *** Characters of the text *)
Lemma groups_contains ch gs : digit_val ch = None → ch ≠ ":"%char → Forall group gs → contains ch (groups_string gs) = false.
Proof.
  intros Hch Hc Hg. assert (Hf : ∀ g, group g → contains ch (format_hex g) = false).
  { intros g Hgr. destruct (format_hex_head g Hgr) as (c & w & d & E & Hd & Hlt & Hw). rewrite E. apply hex_contains; [done|].
    cbn [hex_text]. by rewrite Hd, bool_decide_eq_true_2. }
  induction Hg as [|g gs Hgr Hgs IH]; [done|]. destruct gs as [|g' gs]; [by apply Hf|].
  rewrite groups_string_cons, contains_app, Hf by done. cbn [contains orb]. rewrite IH, orb_false_r. by apply Ascii.eqb_neq.
Qed.

Lemma IPv6_contains ch bs :
  digit_val ch = None → ch ≠ ":"%char → length bs = 16%nat → Forall octet bs → contains ch (IPv6_string bs) = false.
Proof.
  intros Hch Hc Hl Ho. destruct (groups_spec 8 bs Hl Ho) as (_ & _ & Hgs). unfold IPv6_string.
  destruct (longest_run _ _ _) as [p n]. case_bool_decide; [by apply groups_contains|].
  rewrite !contains_app, !groups_contains by (done || by apply Forall_take || by apply Forall_drop).
  cbn [contains orb]. rewrite !orb_false_r. by rewrite (proj2 (Ascii.eqb_neq ch ":") Hc).
Qed.

(** A text without dots is no IPv4 address. *)
Lemma dtoi_loop_rest ch s n seen v rest :
  dtoi_loop s n seen = Some (v, rest) → contains ch s = false → contains ch rest = false.
Proof.
  revert n seen. induction s as [|c s IH]; intros n seen H Hs; cbn [dtoi_loop] in H.
  { destruct seen; by simplify_eq. }
  case_bool_decide; [case_bool_decide; [done|]|destruct seen; by simplify_eq].
  cbn [contains] in Hs. apply orb_false_iff in Hs as [_ Hs]. by eapply IH.
Qed.

Lemma parseIPv4_no_dot s : contains "." s = false → parseIPv4 s = None.
Proof.
  intros Hs. unfold parseIPv4. assert (Ho : parse_octets 4 true s = None); [|by rewrite Ho].
  cbn [parse_octets]. destruct (dtoi s) as [[n rest]|] eqn:E; [|done]. apply (dtoi_loop_rest ".") in E; [|done].
  case_bool_decide; [done|]. destruct (leading_zero s rest); [done|].
  destruct rest as [|c rest]; [done|]. destruct (ascii_dec c ".") as [->|Hne]; [done|].
  destruct c as [[] [] [] [] [] [] [] []]; try reflexivity. by destruct Hne.
Qed.

(** ** Networks *)
Lemma mask_length_v6 n : 0 ≤ n ≤ 128 → simpleMaskLength (CIDRMask n 128) = Some n ∧ length (CIDRMask n 128) = 16%nat.
Proof.
  intros Hn. assert (Hall : forallb (λ n, bool_decide (simpleMaskLength (CIDRMask n 128) = Some n ∧
    length (CIDRMask n 128) = 16%nat)) (seqZ 0 129) = true) by (vm_compute; reflexivity).
  rewrite forallb_forall in Hall. eapply bool_decide_eq_true_1, Hall, list_elem_of_In, elem_of_seqZ. lia.
Qed.

(** The networks that [ParseCIDR] delivers: IPv4 addresses in their 16-byte form
    with a 4-byte mask, IPv6 addresses with a 16-byte mask. *)
Inductive proper_cidr : CIDR → Prop :=
| proper_v4 a b c d n : Forall octet [a; b; c; d] → 0 ≤ n ≤ 32 → proper_cidr (cidr4 a b c d n)
| proper_v6 ip n : length ip = 16%nat → Forall octet ip → To4 ip = None → 0 ≤ n ≤ 128 →
    proper_cidr (mkCIDR (mkIPNet ip (CIDRMask n 128))).

Lemma ParseCIDR_String_v6 ip n :
  length ip = 16%nat → Forall octet ip → To4 ip = None → 0 ≤ n ≤ 128 →
  ParseCIDR (CIDR_String (Some (mkCIDR (mkIPNet ip (CIDRMask n 128))))) = Ok (mkCIDR (mkIPNet ip (CIDRMask n 128))).
Proof.
  intros Hl Ho H4 Hn. destruct (mask_length_v6 n Hn) as [Hs Hm].
  assert (Hstr : CIDR_String (Some (mkCIDR (mkIPNet ip (CIDRMask n 128)))) = IPv6_string ip ++ String "/" (format_dec n)).
  { unfold CIDR_String, IPNet_String, networkNumberAndMask. cbn [c_IPNet n_IP n_Mask].
    rewrite bool_decide_eq_false_2 by (by intros ->). rewrite H4, Hl.
    change (bool_decide (16%nat = 16%nat)) with true. cbn iota. rewrite Hm.
    change (bool_decide (16%nat = 4%nat)) with false. change (bool_decide (16%nat = 16%nat)) with true. cbn iota. rewrite Hl.
    change (bool_decide (16%nat = 4%nat)) with false. cbn iota. rewrite Hs. unfold IP_string. rewrite H4, Hl.
    change (bool_decide (16%nat = 16%nat)) with true. by destruct ip. }
  unfold ParseCIDR, CIDR_parse. rewrite Hstr, bool_decide_eq_false_2 by (by destruct (IPv6_string ip)).
  unfold net_ParseCIDR. rewrite cut_app by (by apply IPv6_contains). rewrite parseIPv4_no_dot by (by apply IPv6_contains).
  rewrite parseIPv6_print by done. rewrite <- (str_app_nil_r (format_dec n)), dtoi_format by (done || lia).
  by rewrite bool_decide_eq_true_2 by lia.
Qed.

Lemma ParseCIDR_String c : proper_cidr c → ParseCIDR (CIDR_String (Some c)) = Ok c ∧ CIDR_IsNil (Some c) = false.
Proof.
  intros [a b c' d n Ho Hn|ip n Hl Ho H4 Hn].
  - rewrite !Forall_cons in Ho. destruct Ho as (Ha & Hb & Hc & Hd & _). split; [by apply ParseCIDR_String_v4|done].
  - split; [by apply ParseCIDR_String_v6|]. cbn. apply bool_decide_eq_false. by intros ->.
Qed.

(** ** Property *)


