(* ===== verification/Model.v ===== *)
(** * The data model

    The object types of [datastore/model]: peers, interfaces and tokens, with
    their JSON form (field tags [json:"..."]), the named SQL parameters that
    [sqlx] reads from them (field tags [db:"..."]), the scan of a row back into
    an object, and their construction from command-line values. *)

From Stdlib Require Import Ascii.
From S2P Require Import Prelude GoStrings Sql Net.
Local Open Scope string_scope.

(** Instants are nanoseconds since Go's zero time. *)
Abbreviation time := Z (only parsing).

(** ** Types *)
Record Peer : Type := mkPeer {
  p_PublicKey : string;
  p_Interface : string;
  p_IP : option CIDR;
  p_IP6 : option CIDR;
  p_Expire : time }.

Record Interface : Type := mkInterface {
  i_Name : string;
  i_Port : Z;
  i_IP : option CIDR;
  i_IP6 : option CIDR;
  i_Fwmark : Z;
  i_PrivateKey : string;
  i_PublicKey : string }.

(** A Go slice of strings: [None] is nil. *)
Abbreviation CommaSepList := (option (list string)) (only parsing).

Record Token : Type := mkToken { t_ID : string; t_Secret : string; t_Roles : CommaSepList }.

(** ** interface{}

    The dynamic values that reach the data layer: pointers to objects of the
    model, and what encoding/json makes of a value of unknown type. *)
Inductive obj : Type :=
| OPeer (p : Peer)
| OInterface (i : Interface)
| OToken (t : Token)
| OJson (j : json).

Inductive gotype : Type := TPeer | TInterface | TToken | TJson.

#[global] Instance gotype_eq_dec : EqDecision gotype.
Proof. solve_decision. Defined.

#[global] Instance gotype_countable : Countable gotype.
Proof.
  refine (inj_countable' (λ t, match t with TPeer => 0 | TInterface => 1 | TToken => 2 | TJson => 3 end)
    (λ n, match n with 0 => TPeer | 1 => TInterface | 2 => TToken | _ => TJson end) _); by intros [].
Defined.

(** [reflect.TypeOf] *)
Definition typeOf (o : obj) : gotype :=
  match o with OPeer _ => TPeer | OInterface _ => TInterface | OToken _ => TToken | OJson _ => TJson end.

Definition zero_Peer : Peer := mkPeer "" "" None None 0.
Definition zero_Interface : Interface := mkInterface "" 0 None None 0 "" "".
Definition zero_Token : Token := mkToken "" "" None.

(** ** SQL parameters and rows *)
Definition CommaSepList_Value (l : CommaSepList) : sqlval :=
  match l with
  | None | Some [] => SNull
  | Some l => SText (join "," l)
  end.

Definition CommaSepList_Scan (v : sqlval) : CommaSepList :=
  match v with SText s => Some (split "," s) | _ => None end.

Definition Peer_args (p : Peer) : row :=
  list_to_map [("public_key", SText (p_PublicKey p)); ("interface", SText (p_Interface p));
               ("ip", CIDR_Value (p_IP p)); ("ip6", CIDR_Value (p_IP6 p)); ("expire", STime (p_Expire p))].

Definition Interface_args (i : Interface) : row :=
  list_to_map [("name", SText (i_Name i)); ("port", SInt (i_Port i)); ("ip", CIDR_Value (i_IP i));
               ("ip6", CIDR_Value (i_IP6 i)); ("fwmark", SInt (i_Fwmark i));
               ("private_key", SText (i_PrivateKey i)); ("public_key", SText (i_PublicKey i))].

Definition Token_args (t : Token) : row :=
  list_to_map [("id", SText (t_ID t)); ("secret", SText (t_Secret t)); ("roles", CommaSepList_Value (t_Roles t))].

Definition named_args (o : obj) : row :=
  match o with
  | OPeer p => Peer_args p
  | OInterface i => Interface_args i
  | OToken t => Token_args t
  | OJson _ => ∅
  end.

(** database/sql conversions *)
Definition scan_string (v : sqlval) : res string :=
  match v with SText s => Ok s | SInt z => Ok (format_dec z) | _ => Err (ESql SqlScan) end.
Definition scan_int (v : sqlval) : res Z :=
  match v with
  | SInt z => Ok z
  | SText s => match int_of_text s with Some z => Ok z | None => Err (ESql SqlScan) end
  | _ => Err (ESql SqlScan)
  end.
Definition scan_time (v : sqlval) : res time :=
  match v with STime t => Ok t | _ => Err (ESql SqlScan) end.
Definition scan_cidr (v : sqlval) : res (option CIDR) :=
  match v with SNull => Ok None | _ => c ← CIDR_Scan v; mret (Some c) end.

(** [StructScan]: every column needs a field. *)
Definition scan_Peer (r : row) : res obj :=
  if bool_decide (dom r ⊆ ({["public_key"; "interface"; "ip"; "ip6"; "expire"]} : gset string)) then
    pk ← scan_string (row_get r "public_key");
    intf ← scan_string (row_get r "interface");
    ip ← scan_cidr (row_get r "ip");
    ip6 ← scan_cidr (row_get r "ip6");
    expire ← scan_time (row_get r "expire");
    mret (OPeer (mkPeer pk intf ip ip6 expire))
  else Err (ESql SqlScan).

Definition scan_Interface (r : row) : res obj :=
  if bool_decide (dom r ⊆ ({["name"; "port"; "ip"; "ip6"; "fwmark"; "private_key"; "public_key"]} : gset string)) then
    name ← scan_string (row_get r "name");
    port ← scan_int (row_get r "port");
    ip ← scan_cidr (row_get r "ip");
    ip6 ← scan_cidr (row_get r "ip6");
    fwmark ← scan_int (row_get r "fwmark");
    priv ← scan_string (row_get r "private_key");
    pub ← scan_string (row_get r "public_key");
    mret (OInterface (mkInterface name port ip ip6 fwmark priv pub))
  else Err (ESql SqlScan).

Definition scan_Token (r : row) : res obj :=
  if bool_decide (dom r ⊆ ({["id"; "secret"; "roles"]} : gset string)) then
    id ← scan_string (row_get r "id");
    secret ← scan_string (row_get r "secret");
    mret (OToken (mkToken id secret (CommaSepList_Scan (row_get r "roles"))))
  else Err (ESql SqlScan).

Definition StructScan (t : gotype) (r : row) : res obj :=
  match t with
  | TPeer => scan_Peer r
  | TInterface => scan_Interface r
  | TToken => scan_Token r
  | TJson => Err (ESql SqlScan)
  end.

(** ** JSON *)

(** [time.Time.MarshalJSON] refuses years outside [0, 9999]. *)
Definition time_json_ok (t : time) : bool :=
  bool_decide (-31622400 * 10 ^ 9 ≤ t < 315537897600 * 10 ^ 9)%Z.

Definition marshal_time (t : time) : res json :=
  if time_json_ok t then Ok (JTime t) else Err (EMsg "Time.MarshalJSON: year outside of range [0,9999]").

Definition marshal_list (l : CommaSepList) : json :=
  match l with None => JNull | Some l => JArr (JStr <$> l) end.

(** [json.Marshal] *)
Definition json_Marshal (o : obj) : res json :=
  match o with
  | OPeer p =>
      e ← marshal_time (p_Expire p);
      mret (JObj [("public_key", JStr (p_PublicKey p)); ("interface", JStr (p_Interface p));
                  ("ip", CIDR_MarshalJSON (p_IP p)); ("ip6", CIDR_MarshalJSON (p_IP6 p)); ("expire", e)])
  | OInterface i =>
      Ok (JObj [("name", JStr (i_Name i)); ("port", JNum (i_Port i)); ("ip", CIDR_MarshalJSON (i_IP i));
                ("ip6", CIDR_MarshalJSON (i_IP6 i)); ("fwmark", JNum (i_Fwmark i));
                ("private_key", JStr (i_PrivateKey i)); ("public_key", JStr (i_PublicKey i))])
  | OToken t =>
      Ok (JObj [("id", JStr (t_ID t)); ("secret", JStr (t_Secret t)); ("roles", marshal_list (t_Roles t))])
  | OJson j => Ok j
  end.

(** A field of an object: of several with the same name the last one counts;
    a missing field, like [null], leaves the destination as it is. *)
Definition jfield (l : list (string * json)) (k : string) : json :=
  default JNull (list_to_map (M := gmap string json) (reverse l) !! k).

Definition json_type_error : err := EMsg "json: cannot unmarshal value".

Definition get_str (j : json) : res string :=
  match j with JNull => Ok "" | JStr s => Ok s | _ => Err json_type_error end.
Definition get_int (j : json) : res Z :=
  match j with
  | JNull => Ok 0%Z
  | JNum z => if bool_decide (- 2 ^ 63 ≤ z < 2 ^ 63)%Z then Ok z else Err json_type_error
  | _ => Err json_type_error
  end.
Definition get_time (j : json) : res time :=
  match j with JNull => Ok 0%Z | JTime t => Ok t | _ => Err json_type_error end.
Definition get_list (j : json) : res CommaSepList :=
  match j with
  | JNull => Ok None
  | JArr l => l ← res_map get_str l; mret (Some l)
  | _ => Err json_type_error
  end.

(** [json.Unmarshal(b, value)] into a fresh instance of the type. *)
Definition json_Unmarshal (t : gotype) (j : json) : res obj :=
  match t, j with
  | TJson, _ => Ok (OJson j)
  | TPeer, JObj l =>
      pk ← get_str (jfield l "public_key"); intf ← get_str (jfield l "interface");
      ip ← CIDR_UnmarshalJSON (jfield l "ip"); ip6 ← CIDR_UnmarshalJSON (jfield l "ip6");
      e ← get_time (jfield l "expire");
      mret (OPeer (mkPeer pk intf ip ip6 e))
  | TInterface, JObj l =>
      name ← get_str (jfield l "name"); port ← get_int (jfield l "port");
      ip ← CIDR_UnmarshalJSON (jfield l "ip"); ip6 ← CIDR_UnmarshalJSON (jfield l "ip6");
      fw ← get_int (jfield l "fwmark");
      priv ← get_str (jfield l "private_key"); pub ← get_str (jfield l "public_key");
      mret (OInterface (mkInterface name port ip ip6 fw priv pub))
  | TToken, JObj l =>
      id ← get_str (jfield l "id"); secret ← get_str (jfield l "secret");
      roles ← get_list (jfield l "roles");
      mret (OToken (mkToken id secret roles))
  | TPeer, JNull => Ok (OPeer zero_Peer)
  | TInterface, JNull => Ok (OInterface zero_Interface)
  | TToken, JNull => Ok (OToken zero_Token)
  | _, _ => Err json_type_error
  end.

(** ** Construction from command-line values

    [Values] maps field names to texts; [Get] of a missing field is empty.
    Wireguard keys are those of the wgctrl package: [ParseKey] and the methods
    of its key type. *)
Class WgKeys : Type := {
  wgkey : Type;
  wgkey_eq_dec :: EqDecision wgkey;
  wgkey_countable :: Countable wgkey;
  zero_key : wgkey;
  ParseKey : string → res wgkey;
  Key_String : wgkey → string;
  Key_PublicKey : wgkey → wgkey
}.

Abbreviation Values := (gmap string string) (only parsing).
Definition Values_Get (v : Values) (k : string) : string := default "" (v !! k).

(** [strconv.Atoi] with its error dropped: 0 on a syntax error, the nearest
    [int] out of range. *)
Definition atoi_or_zero (s : string) : Z :=
  let sign := match s with String "-" _ => (-1)%Z | _ => 1%Z end in
  let digits := match s with String "-" s' | String "+" s' => s' | _ => s end in
  match parse_uint 10 max_uint64 digits with
  | Ok n => Z.max (- 2 ^ 63) (Z.min (2 ^ 63 - 1) (sign * n))
  | Err (EMsg "value out of range") => if bool_decide (sign = 1)%Z then (2 ^ 63 - 1)%Z else (- 2 ^ 63)%Z
  | _ => 0%Z
  end.

Definition cidr_from_value (s : string) : res (option CIDR) :=
  if bool_decide (s = "") then Ok None else c ← ParseCIDR s; mret (Some c).

Section FromValues.
Context `{WgKeys}.

Definition Peer_from_values (v : Values) : res obj :=
  let s := Values_Get v "public_key" in
  pk ← (if bool_decide (s = "") then Ok "" else _ ← ParseKey s; mret s);
  ip ← cidr_from_value (Values_Get v "ip");
  ip6 ← cidr_from_value (Values_Get v "ip6");
  mret (OPeer (mkPeer pk (Values_Get v "interface") ip ip6 0)).

Definition Interface_from_values (v : Values) : res obj :=
  let s := Values_Get v "private_key" in
  keys ← (if bool_decide (s = "") then Ok ("", "")
          else k ← ParseKey s; mret (Key_String k, Key_String (Key_PublicKey k)));
  ip ← cidr_from_value (Values_Get v "ip");
  ip6 ← cidr_from_value (Values_Get v "ip6");
  mret (OInterface (mkInterface (Values_Get v "name") (atoi_or_zero (Values_Get v "port")) ip ip6
          (atoi_or_zero (Values_Get v "fwmark")) keys.1 keys.2)).

Definition Token_from_values (v : Values) : res obj :=
  Ok (OToken (mkToken (Values_Get v "id") (Values_Get v "secret") (Some (split "," (Values_Get v "roles"))))).

End FromValues.

(** ** Objects that their serializations represent

    [obj_wire_ok]: the JSON form decodes to an object with the same SQL
    parameters.  [obj_sql_ok]: the stored row scans back to the object.  Both
    are decided by computation. *)
Definition cidr_wire_ok (c : option CIDR) : bool :=
  match CIDR_UnmarshalJSON (CIDR_MarshalJSON c) with
  | Ok c' => bool_decide (CIDR_Value c' = CIDR_Value c ∧ CIDR_MarshalJSON c' = CIDR_MarshalJSON c)
  | _ => false
  end.

Definition int_ok (z : Z) : bool := bool_decide (- 2 ^ 63 ≤ z < 2 ^ 63)%Z.

Definition obj_wire_ok (o : obj) : bool :=
  match o with
  | OPeer p => cidr_wire_ok (p_IP p) && cidr_wire_ok (p_IP6 p) && time_json_ok (p_Expire p)
  | OInterface i => cidr_wire_ok (i_IP i) && cidr_wire_ok (i_IP6 i) && int_ok (i_Port i) && int_ok (i_Fwmark i)
  | OToken _ => true
  | OJson _ => false
  end.

Definition cidr_sql_ok (c : option CIDR) : bool :=
  match scan_cidr (CIDR_Value c) with Ok c' => bool_decide (c' = c) | _ => false end.

Definition roles_sql_ok (l : CommaSepList) : bool :=
  match l with None => true | Some [] => false | Some l => forallb (λ w, negb (contains "," w)) l end.

Definition obj_sql_ok (o : obj) : bool :=
  match o with
  | OPeer p => cidr_sql_ok (p_IP p) && cidr_sql_ok (p_IP6 p)
  | OInterface i => cidr_sql_ok (i_IP i) && cidr_sql_ok (i_IP6 i)
  | OToken t => roles_sql_ok (t_Roles t)
  | OJson _ => false
  end.

(** ** Lemmas *)
Lemma cidr_wire_inv c :
  cidr_wire_ok c = true → ∃ c', CIDR_UnmarshalJSON (CIDR_MarshalJSON c) = Ok c' ∧
    CIDR_Value c' = CIDR_Value c ∧ CIDR_MarshalJSON c' = CIDR_MarshalJSON c ∧ cidr_wire_ok c' = true.
Proof.
  unfold cidr_wire_ok at 1. destruct (CIDR_UnmarshalJSON _) as [c'| | |] eqn:E; try done.
  intros [Hv Hm]%bool_decide_eq_true. exists c'. split_and!; [done..|].
  unfold cidr_wire_ok. rewrite Hm, E. by apply bool_decide_eq_true.
Qed.

Lemma cidr_sql_inv c : cidr_sql_ok c = true → scan_cidr (CIDR_Value c) = Ok c.
Proof.
  unfold cidr_sql_ok. destruct (scan_cidr _) as [c'| | |]; try done. by intros ->%bool_decide_eq_true.
Qed.

Lemma get_list_marshal l : get_list (marshal_list l) = Ok l.
Proof.
  destruct l as [l|]; [|done]. cbn. replace (res_map get_str (JStr <$> l)) with (Ok l); [done|].
  symmetry. apply res_map_Ok. induction l; cbn; by constructor.
Qed.

Lemma roles_scan_value l : roles_sql_ok l = true → CommaSepList_Scan (CommaSepList_Value l) = l.
Proof.
  destruct l as [[|w l]|]; [done| |done]. intros H. unfold CommaSepList_Value, CommaSepList_Scan.
  f_equal. apply split_join; [done|]. apply Forall_forall. intros v Hv.
  unfold roles_sql_ok in H. rewrite forallb_forall in H. apply negb_true_iff, H. by apply list_elem_of_In.
Qed.

Lemma get_int_ok z : int_ok z = true → get_int (JNum z) = Ok z.
Proof. unfold int_ok, get_int. intros H. by rewrite H. Qed.

Ltac split_andb :=
  repeat match goal with H : _ && _ = true |- _ => apply andb_true_iff in H as [? H] end.

Ltac use_cidr_wire :=
  repeat match goal with
  | H : cidr_wire_ok ?c = true |- _ =>
      let c' := fresh "c'" in let Hd := fresh "Hdec" in let Hv := fresh "Hval" in
      let Hm := fresh "Hmar" in let Hw := fresh "Hwire" in
      apply cidr_wire_inv in H as (c' & Hd & Hv & Hm & Hw); revert Hw
  end; intros.

(** Decoding the JSON form of a representable object gives an object of the
    same type with the same SQL parameters and JSON form, representable too. *)
Lemma wire_roundtrip o :
  obj_wire_ok o = true →
  ∃ j o', json_Marshal o = Ok j ∧ json_Unmarshal (typeOf o) j = Ok o' ∧
    typeOf o' = typeOf o ∧ named_args o' = named_args o ∧ json_Marshal o' = Ok j ∧ obj_wire_ok o' = true.
Proof.
  destruct o as [[pk intf ip ip6 e]|[name port ip ip6 fw priv pub]|[id secret roles]|j]; intros Hok; [..|done];
    cbn [obj_wire_ok p_IP p_IP6 p_Expire i_IP i_IP6 i_Port i_Fwmark] in Hok; split_andb; use_cidr_wire.
  - exists (JObj [("public_key", JStr pk); ("interface", JStr intf); ("ip", CIDR_MarshalJSON ip);
                  ("ip6", CIDR_MarshalJSON ip6); ("expire", JTime e)]).
    eexists. cbn [json_Marshal p_Expire p_PublicKey p_Interface p_IP p_IP6]. unfold marshal_time.
    rewrite Hok. split; [done|]. cbn [typeOf json_Unmarshal].
    change (jfield _ "public_key") with (JStr pk). change (jfield _ "interface") with (JStr intf).
    change (jfield _ "ip") with (CIDR_MarshalJSON ip). change (jfield _ "ip6") with (CIDR_MarshalJSON ip6).
    change (jfield _ "expire") with (JTime e). m_unfold. rewrite Hdec, Hdec0. split; [reflexivity|]. split; [done|].
    cbn [named_args json_Marshal obj_wire_ok]. unfold Peer_args, marshal_time. cbn [p_IP p_IP6 p_PublicKey p_Interface p_Expire].
    rewrite Hval, Hval0, Hmar, Hmar0, Hwire, Hwire0, Hok. done.
  - eexists _, _. split; [done|]. cbn [typeOf json_Unmarshal i_Name i_Port i_IP i_IP6 i_Fwmark i_PrivateKey i_PublicKey].
    change (jfield _ "name") with (JStr name). change (jfield _ "port") with (JNum port).
    change (jfield _ "ip") with (CIDR_MarshalJSON ip). change (jfield _ "ip6") with (CIDR_MarshalJSON ip6).
    change (jfield _ "fwmark") with (JNum fw). change (jfield _ "private_key") with (JStr priv).
    change (jfield _ "public_key") with (JStr pub). rewrite !get_int_ok by done. m_unfold. rewrite Hdec, Hdec0.
    split; [reflexivity|]. split; [done|]. cbn [named_args json_Marshal obj_wire_ok]. unfold Interface_args.
    cbn [i_Name i_Port i_IP i_IP6 i_Fwmark i_PrivateKey i_PublicKey].
    rewrite Hval, Hval0, Hmar, Hmar0, Hwire, Hwire0. split_and!; [done..|]. by apply andb_true_iff.
  - eexists _, (OToken (mkToken id secret roles)). split; [done|]. split; [|done].
    cbn [typeOf json_Unmarshal t_ID t_Secret t_Roles].
    change (jfield _ "id") with (JStr id). change (jfield _ "secret") with (JStr secret).
    change (jfield _ "roles") with (marshal_list roles). m_unfold. by rewrite get_list_marshal.
Qed.

(** ** Properties *)


