(* ===== verification/Crud.v ===== *)
(** * The typed CRUD layer

    [datastore/crud]: the adapter from an object type to its SQL table
    ([sql_table.go]), the registry of types, the dispatcher that routes an
    object to the adapter of its type, the model and its reader ([crud.go]) and
    the encoding of objects for the log ([encoding.go]). *)

From Stdlib Require Import Ascii.
From S2P Require Import Prelude GoStrings Sql SqlText Sqlite Net Model.
Local Open Scope string_scope.

(** ** sqlTableAdapter *)
Record sqlTableAdapter : Type := mkType {
  ty_name : string;
  ty_table : string;
  ty_allFields : list string;
  ty_new : gotype;
  ty_insStmt : string;
  ty_updStmt : string;
  ty_delStmt : string }.

Definition NewSQLTableType (typename table primaryKey : string) (fields : list string) (newFn : gotype)
  : sqlTableAdapter :=
  mkType typename table (primaryKey :: fields) newFn
    (buildInsertStatement table primaryKey fields)
    (buildUpdateStatement table primaryKey fields)
    (buildDeleteStatement table primaryKey).

Definition PrimaryKeyField (t : sqlTableAdapter) : string := default "" (head (ty_allFields t)).

Definition adapter_Create (t : sqlTableAdapter) (o : obj) : M db unit := NamedExec_text (ty_insStmt t) (named_args o).
Definition adapter_Update (t : sqlTableAdapter) (o : obj) : M db unit := NamedExec_text (ty_updStmt t) (named_args o).
Definition adapter_Delete (t : sqlTableAdapter) (o : obj) : M db unit := NamedExec_text (ty_delStmt t) (named_args o).

(** [DELETE FROM `table`] *)
Definition adapter_DeleteAll (t : sqlTableAdapter) : M db unit :=
  NamedExec_text ("DELETE FROM `" ++ ty_table t ++ "`") ∅.

(** [SELECT COUNT( * ) FROM `table`]: 0 on an error. *)
Definition adapter_Count (t : sqlTableAdapter) (d : db) : nat :=
  match tables d !! ty_table t with Some tb => length (t_rows tb) | None => 0 end.

Section Find.
Context {S : Type} `{HasDb S}.

(** The rows that match, each scanned into a fresh object and given to [f]. *)
Definition adapter_Find (t : sqlTableAdapter) (query : list (string * string)) (f : obj → M S unit) : M S unit :=
  rows ← on_db (queryBuilder_exec (newQueryBuilder (ty_table t) query));
  each (λ r, o ← lift_res (StructScan (ty_new t) r); f o) rows.

Definition adapter_Each (t : sqlTableAdapter) (f : obj → M S unit) : M S unit := adapter_Find t [] f.

End Find.

(** ** Registry *)
Record registry : Type := mkRegistry {
  byType : gmap gotype sqlTableAdapter;
  byName : gmap string sqlTableAdapter }.

Definition newRegistry : registry := mkRegistry ∅ ∅.

Definition Register (m : sqlTableAdapter) (r : registry) : registry :=
  mkRegistry (<[ty_new m := m]> (byType r)) (<[ty_name m := m]> (byName r)).

Definition getType (r : registry) (o : obj) : option sqlTableAdapter := byType r !! typeOf o.
Definition getTypeByName (r : registry) (name : string) : option sqlTableAdapter := byName r !! name.

(** Go iterates over a map in an unspecified order: [ord] lists the types of
    [byName] in the order of one iteration. *)
Definition iteration_of (r : registry) (ord : list sqlTableAdapter) : Prop := ord ≡ₚ (map_to_list (byName r)).*2.

Definition registry_each {S} (ord : list sqlTableAdapter) (f : sqlTableAdapter → M S unit) : M S unit := each f ord.

(** ** Dispatcher *)
Definition dispatcher_Create (r : registry) (o : obj) : M db unit :=
  match getType r o with None => fail ErrUnknownType | Some m => adapter_Create m o end.
Definition dispatcher_Update (r : registry) (o : obj) : M db unit :=
  match getType r o with None => fail ErrUnknownType | Some m => adapter_Update m o end.
Definition dispatcher_Delete (r : registry) (o : obj) : M db unit :=
  match getType r o with None => fail ErrUnknownType | Some m => adapter_Delete m o end.

(** [DeleteAll] calls itself for every type of the registry.  [fuel] bounds the
    depth of the recursion; a run cut off by it has not returned. *)
Fixpoint dispatcher_DeleteAll (fuel : nat) (ord : list sqlTableAdapter) : M db unit :=
  match fuel with
  | O => hang
  | S fuel => registry_each ord (λ m, dispatcher_DeleteAll fuel ord)
  end.

Definition dispatcher_Count (ord : list sqlTableAdapter) (d : db) : nat :=
  foldl (λ n m, n + adapter_Count m d)%nat 0%nat ord.

Definition dispatcher_Each {S} `{HasDb S} (ord : list sqlTableAdapter) (f : obj → M S unit) : M S unit :=
  registry_each ord (λ m, adapter_Each m f).

(** ** The model of the datastore *)
Definition PeerType : sqlTableAdapter :=
  NewSQLTableType "peer" "peers" "public_key" ["ip"; "ip6"; "interface"; "expire"] TPeer.
Definition InterfaceType : sqlTableAdapter :=
  NewSQLTableType "interface" "interfaces" "name"
    ["ip"; "ip6"; "fwmark"; "port"; "private_key"; "public_key"] TInterface.
Definition TokenType : sqlTableAdapter :=
  NewSQLTableType "token" "tokens" "id" ["secret"; "roles"] TToken.

Definition model : registry := Register TokenType (Register InterfaceType (Register PeerType newRegistry)).

(** ** Reader and writers *)
Definition SQLReader_Find {S} `{HasDb S} (env : tx_env) (r : registry) (typ : string)
    (query : list (string * string)) (f : obj → M S unit) : M S unit :=
  match getTypeByName r typ with
  | None => fail ErrUnknownType
  | Some t => WithTx env (adapter_Find t query f)
  end.

(** A [crud.Writer]: the three operations on a state. *)
Record Writer (S : Type) : Type := mkWriter {
  w_Create : obj → M S unit;
  w_Update : obj → M S unit;
  w_Delete : obj → M S unit }.
Arguments mkWriter {S} _ _ _.
Arguments w_Create {S} _ _.
Arguments w_Update {S} _ _.
Arguments w_Delete {S} _ _.

Definition ReadOnlyWriter {S} : Writer S :=
  mkWriter (λ _, fail ErrReadonly) (λ _, fail ErrReadonly) (λ _, fail ErrReadonly).

(** ** Encoding *)
Definition MarshalValue (r : registry) (o : obj) : res json :=
  encoded ← json_Marshal o;
  match getType r o with
  | None => Err ErrUnknownType
  | Some m => Ok (JObj [("type", JStr (ty_name m)); ("data", JData encoded)])
  end.

Definition UnmarshalValue (r : registry) (b : json) : res obj :=
  match b with
  | JObj l =>
      typ ← get_str (jfield l "type");
      data ← match jfield l "data" with
             | JData d => Ok (Some d)
             | JNull => Ok None
             | _ => Err json_type_error
             end;
      match byName r !! typ with
      | None => Err ErrUnknownType
      | Some m =>
          match data with
          | Some d => json_Unmarshal (ty_new m) d
          | None => Err (EMsg "unexpected end of JSON input")
          end
      end
  | JNull => Err ErrUnknownType
  | _ => Err json_type_error
  end.

(** The same for the first JSON value of a stream. *)
Definition UnmarshalValueFromReader (r : registry) (input : res json) : res obj := b ← input; UnmarshalValue r b.

(** ** The tables of the object types *)
Definition obj_table (o : obj) : string :=
  match o with OPeer _ => "peers" | OInterface _ => "interfaces" | OToken _ => "tokens" | OJson _ => "" end.
Definition obj_pk (o : obj) : string :=
  match o with OPeer _ => "public_key" | OInterface _ => "name" | OToken _ => "id" | OJson _ => "" end.
Definition obj_fields (o : obj) : list string :=
  match o with
  | OPeer _ => ["ip"; "ip6"; "interface"; "expire"]
  | OInterface _ => ["ip"; "ip6"; "fwmark"; "port"; "private_key"; "public_key"]
  | OToken _ => ["secret"; "roles"]
  | OJson _ => []
  end.
Definition obj_key (o : obj) : string :=
  match o with OPeer p => p_PublicKey p | OInterface i => i_Name i | OToken t => t_ID t | OJson _ => "" end.

(** Objects of the model, as opposed to undecoded JSON. *)
Definition typed (o : obj) : bool := match o with OJson _ => false | _ => true end.

Definition vals (o : obj) (cs : list string) : list (string * sqlval) :=
  (λ c, (c, row_get (named_args o) c)) <$> cs.

(** ** Lemmas: what the dispatcher executes *)
Lemma bind_named_vals (args : row) cols :
  Forall (λ c, is_Some (args !! c)) cols →
  res_map (bind_named args) (zip cols (BNamed <$> cols)) = Ok ((λ c, (c, row_get args c)) <$> cols).
Proof.
  intros H. apply res_map_Ok. induction H as [|c cols [v Hv] Hc IH]; cbn; constructor; [|done].
  unfold bind_named; cbn. unfold row_get. by rewrite Hv.
Qed.

Lemma bind_named_sets (args : row) cols :
  Forall (λ c, is_Some (args !! c)) cols →
  res_map (bind_named args) ((λ f, (f, BNamed f)) <$> cols) = Ok ((λ c, (c, row_get args c)) <$> cols).
Proof.
  intros H. apply res_map_Ok. induction H as [|c cols [v Hv] Hc IH]; cbn; constructor; [|done].
  unfold bind_named; cbn. unfold row_get. by rewrite Hv.
Qed.

Lemma named_args_cols o : Forall (λ c, is_Some (named_args o !! c)) (obj_pk o :: obj_fields o) ∨ typed o = false.
Proof.
  destruct o as [p|i|t|j]; [left..|by right]; cbn [obj_pk obj_fields];
    repeat (apply Forall_cons; split; [eexists; reflexivity|]); apply Forall_nil_2.
Qed.

Lemma obj_adapter o :
  typed o = true →
  ∃ n, getType model o = Some (NewSQLTableType n (obj_table o) (obj_pk o) (obj_fields o) (typeOf o)).
Proof. destruct o; [..|done]; intros _; eexists; vm_compute; reflexivity. Qed.

Lemma obj_idents o : typed o = true →
  table_name_ok (obj_table o) = true ∧ idents_ok (obj_pk o :: obj_fields o) ∧ obj_fields o ≠ [].
Proof.
  destruct o; [..|done]; intros _; (split_and!; [vm_compute; reflexivity|repeat constructor|done]).
Qed.

Lemma dispatcher_Create_run o d :
  typed o = true →
  dispatcher_Create model o d = insert_into (obj_table o) (vals o (obj_pk o :: obj_fields o)) d.
Proof.
  intros Ho. destruct (obj_adapter o Ho) as [n Hn]. destruct (obj_idents o Ho) as (Ht & Hi & Hne).
  destruct (named_args_cols o) as [Hc|]; [|congruence].
  unfold dispatcher_Create. rewrite Hn. unfold adapter_Create, NamedExec_text, NewSQLTableType; cbn [ty_insStmt].
  rewrite parse_insert by done. cbn [NamedExec]. rewrite bool_decide_eq_true_2 by (by rewrite length_fmap).
  m_unfold. by rewrite bind_named_vals.
Qed.

Lemma dispatcher_Update_run o d :
  typed o = true →
  dispatcher_Update model o d =
    update_where (obj_table o) (vals o (obj_fields o)) (vals o [obj_pk o]) d.
Proof.
  intros Ho. destruct (obj_adapter o Ho) as [n Hn]. destruct (obj_idents o Ho) as (Ht & Hi & Hne).
  destruct (named_args_cols o) as [Hc|]; [|congruence]. apply Forall_cons in Hc as [Hpk Hfs].
  unfold dispatcher_Update. rewrite Hn. unfold adapter_Update, NamedExec_text, NewSQLTableType; cbn [ty_updStmt].
  rewrite parse_update by done. cbn [NamedExec]. m_unfold. rewrite bind_named_sets by done.
  change [(obj_pk o, BNamed (obj_pk o))] with ((λ f, (f, BNamed f)) <$> [obj_pk o]).
  rewrite bind_named_sets by (by repeat constructor). done.
Qed.

Lemma dispatcher_Delete_run o d :
  typed o = true → dispatcher_Delete model o d = delete_where (obj_table o) (vals o [obj_pk o]) d.
Proof.
  intros Ho. destruct (obj_adapter o Ho) as [n Hn]. destruct (obj_idents o Ho) as (Ht & Hi & Hne).
  destruct (named_args_cols o) as [Hc|]; [|congruence]. apply Forall_cons in Hc as [Hpk Hfs].
  apply Forall_cons in Hi as [Hi _].
  unfold dispatcher_Delete. rewrite Hn. unfold adapter_Delete, NamedExec_text, NewSQLTableType; cbn [ty_delStmt].
  rewrite parse_delete by done. cbn [NamedExec]. m_unfold.
  change [(obj_pk o, BNamed (obj_pk o))] with ((λ f, (f, BNamed f)) <$> [obj_pk o]).
  rewrite bind_named_sets by (by repeat constructor). done.
Qed.

Lemma vals_pk o : typed o = true → vals o [obj_pk o] = [(obj_pk o, SText (obj_key o))].
Proof. by destruct o. Qed.

Lemma dispatcher_untyped o d :
  typed o = false →
  dispatcher_Create model o d = (Err ErrUnknownType, d) ∧
  dispatcher_Update model o d = (Err ErrUnknownType, d) ∧
  dispatcher_Delete model o d = (Err ErrUnknownType, d).
Proof. by destruct o. Qed.

(** ** Lemmas: the invariant of the data tables *)

(** A consistent database with the datastore's schema. *)
Definition store_ok (d : db) : Prop := db_ok d ∧ schemas d = datastore_schemas.

Lemma initial_store_ok : store_ok initial_db.
Proof. split; [apply initial_db_ok|apply initial_db_schemas]. Qed.

(** Every dispatcher call is one data statement on a table of the model. *)
Inductive op_kind : Type := DoCreate | DoUpdate | DoDelete.

Definition dispatch (k : op_kind) : obj → M db unit :=
  match k with
  | DoCreate => dispatcher_Create model
  | DoUpdate => dispatcher_Update model
  | DoDelete => dispatcher_Delete model
  end.

Lemma dispatch_fail k o d r d' : dispatch k o d = (r, d') → d' = d ∨ r = Ok tt.
Proof.
  destruct (typed o) eqn:Ho.
  - destruct k; cbn [dispatch]; rewrite ?dispatcher_Create_run, ?dispatcher_Update_run, ?dispatcher_Delete_run by done;
      eauto using insert_into_fail, update_where_fail, delete_where_fail.
  - destruct (dispatcher_untyped o d Ho) as (H1 & H2 & H3).
    destruct k; cbn [dispatch]; rewrite ?H1, ?H2, ?H3; intros; inv_run; by left.
Qed.

Lemma dispatch_store_ok k o d r d' : store_ok d → dispatch k o d = (r, d') → store_ok d'.
Proof.
  intros [Hok Hsc] Hrun. destruct (dispatch_fail _ _ _ _ _ Hrun) as [->| ->]; [done|].
  destruct (typed o) eqn:Ho.
  - destruct k; cbn [dispatch] in Hrun;
      rewrite ?dispatcher_Create_run, ?dispatcher_Update_run, ?dispatcher_Delete_run in Hrun by done.
    + split; [by eapply insert_into_db_ok|]. by erewrite insert_into_schemas by done.
    + split; [by eapply update_where_db_ok|]. by erewrite update_where_schemas by done.
    + split; [by eapply delete_where_db_ok|]. by erewrite delete_where_schemas by done.
  - destruct (dispatcher_untyped o d Ho) as (H1 & H2 & H3).
    destruct k; cbn [dispatch] in Hrun; rewrite ?H1, ?H2, ?H3 in Hrun; by inv_run.
Qed.

(** *** Tables that no dispatcher call touches *)
Definition frame_table (t : string) : Prop := t ∉ ["peers"; "interfaces"; "tokens"].

Lemma cascade_no_fks t gone tb : s_fks (t_schema tb) = [] → cascade t gone tb = tb.
Proof.
  intros H. unfold cascade. destruct tb as [sc rows]; cbn in *. f_equal. rewrite H.
  apply filter_all, Forall_true. done.
Qed.

Lemma obj_table_elem o : typed o = true → obj_table o ∈ ["peers"; "interfaces"; "tokens"].
Proof. destruct o; [..|done]; intros _; cbn; set_solver. Qed.

Lemma frame_no_fks d t tb :
  store_ok d → t ≠ "peers" → tables d !! t = Some tb → s_fks (t_schema tb) = [].
Proof.
  intros [_ Hsc] Hne Ht. apply schemas_lookup in Ht. rewrite Hsc in Ht.
  destruct (s_fks (t_schema tb)) as [|fk fks] eqn:E; [done|].
  destruct (datastore_schemas_fks t (t_schema tb) fk Ht) as [-> _]; [rewrite E; left|done].
Qed.

Lemma dispatch_frame k o d r d' t :
  store_ok d → frame_table t → dispatch k o d = (r, d') → tables d' !! t = tables d !! t.
Proof.
  intros Hok Hf Hrun. destruct (dispatch_fail _ _ _ _ _ Hrun) as [->| ->]; [done|].
  destruct (typed o) eqn:Ho; [|by destruct (dispatcher_untyped o d Ho) as (H1 & H2 & H3);
    destruct k; cbn [dispatch] in Hrun; rewrite ?H1, ?H2, ?H3 in Hrun; inv_run].
  assert (Hne : obj_table o ≠ t) by (intros <-; by apply Hf, obj_table_elem).
  destruct k; cbn [dispatch] in Hrun;
    rewrite ?dispatcher_Create_run, ?dispatcher_Update_run, ?dispatcher_Delete_run in Hrun by done.
  - apply insert_into_Ok in Hrun as (tb & Ht & _ & _ & _ & _ & ->).
    rewrite (lookup_set_rows _ _ _ _ _ Ht). by case_decide.
  - apply update_where_Ok in Hrun as (tb & Ht & _ & _ & _ & ->).
    rewrite (lookup_set_rows _ _ _ _ _ Ht). by case_decide.
  - apply delete_where_Ok in Hrun as (tb & Ht & _ & ->). cbn [tables].
    rewrite lookup_fmap, (lookup_set_rows _ _ _ _ _ Ht). rewrite decide_False by done.
    destruct (tables d !! t) as [tb'|] eqn:Ht'; [|done]. cbn. f_equal. apply cascade_no_fks.
    eapply frame_no_fks; [done| |done]. intros ->. apply Hf. set_solver.
Qed.

(** ** Lemmas: encoding *)
Lemma byName_typeOf o m : getType model o = Some m → byName model !! ty_name m = Some m ∧ ty_new m = typeOf o.
Proof. destruct o; intros H; vm_compute in H; simplify_eq; split; vm_compute; reflexivity. Qed.

Lemma MarshalValue_untyped o : typed o = false → MarshalValue model o = Err ErrUnknownType.
Proof. by destruct o. Qed.

Lemma encoding_roundtrip o :
  obj_wire_ok o = true →
  ∃ j o', MarshalValue model o = Ok j ∧ UnmarshalValue model j = Ok o' ∧
    typeOf o' = typeOf o ∧ named_args o' = named_args o ∧ MarshalValue model o' = Ok j ∧ obj_wire_ok o' = true.
Proof.
  intros Hok. destruct (wire_roundtrip o Hok) as (j & o' & Hm & Hu & Ht & Ha & Hm' & Hw).
  assert (Ho : typed o = true) by (by destruct o). destruct (obj_adapter o Ho) as [n Hn].
  destruct (byName_typeOf o _ Hn) as [Hname Hnew].
  eexists _, o'. unfold MarshalValue. m_unfold. rewrite Hm, Hm', Hn. split; [reflexivity|].
  split; [|unfold getType in *; rewrite Ht, Hn; done]. unfold UnmarshalValue. change (jfield _ "type") with (JStr n). change (jfield _ "data") with (JData j).
  m_unfold. cbn [get_str]. cbn [ty_name NewSQLTableType] in Hname. rewrite Hname. done.
Qed.

Lemma adapter_Each_syntax {S} `{HasDb S} t (f : obj → M S unit) s :
  table_name_ok (ty_table t) = true → adapter_Each t f s = (Err (ESql SqlSyntax), s).
Proof.
  intros Ht. unfold adapter_Each, adapter_Find, queryBuilder_exec, Queryx_text. m_unfold. unfold on_db.
  cbn [q_args newQueryBuilder]. rewrite parse_empty_query by done. m_unfold. by rewrite set_the_db.
Qed.

Lemma model_tables m : byName model !! ty_name m = Some m → table_name_ok (ty_table m) = true.
Proof.
  intros H. unfold model, Register in H. cbn [byName newRegistry] in H.
  repeat (apply lookup_insert_Some in H as [[_ <-]|[_ H]]; [vm_compute; reflexivity|]).
  by rewrite lookup_empty in H.
Qed.

Lemma iteration_cons ord : iteration_of model ord → ∃ m ms, ord = m :: ms ∧ table_name_ok (ty_table m) = true.
Proof.
  unfold iteration_of. intros Hord. destruct ord as [|m ms].
  - apply Permutation_nil_l in Hord. vm_compute in Hord. discriminate.
  - exists m, ms. split; [done|].
    assert (Hin : m ∈ (map_to_list (byName model)).*2) by (rewrite <- Hord; left).
    apply list_elem_of_fmap in Hin as ([n m'] & -> & Hin). apply elem_of_map_to_list in Hin. cbn.
    apply model_tables. unfold model, Register in Hin |- *. cbn [byName newRegistry] in *.
    repeat (apply lookup_insert_Some in Hin as [[_ <-]|[_ Hin]]; [vm_compute; reflexivity|]).
    by rewrite lookup_empty in Hin.
Qed.

(** [DeleteAll] never returns: whatever the order in which the types are
    visited and however deep the recursion is followed, the call is still
    running, and no table has been touched. *)
Lemma DeleteAll_never_returns ord fuel d :
  iteration_of model ord → dispatcher_DeleteAll fuel ord d = (Hang, d).
Proof.
  intros Hord. destruct (iteration_cons ord Hord) as (m & ms & -> & _).
  induction fuel as [|fuel IH]; [done|]. cbn [dispatcher_DeleteAll]. unfold registry_each.
  cbn [each]. by apply bind_Hang.
Qed.

(** [Each] fails with the SQL engine's syntax error before it has visited an
    object, whatever the order of the types, the database and the visitor. *)
Lemma Each_fails {S} `{HasDb S} ord (f : obj → M S unit) s :
  iteration_of model ord → dispatcher_Each ord f s = (Err (ESql SqlSyntax), s).
Proof.
  intros Hord. destruct (iteration_cons ord Hord) as (m & ms & -> & Ht).
  unfold dispatcher_Each, registry_each. cbn [each].
  apply bind_Err. by apply adapter_Each_syntax.
Qed.

(** ** Properties *)

(** An object of the model whose networks and numbers JSON represents
    passes through the log's encoding: its encoded form decodes to an object of
    the same type with the same SQL parameters and the same encoded form, so
    that storing or logging either writes the same rows. *)
Theorem log_encoding_roundtrip o :
  obj_wire_ok o = true →
  ∃ j o', MarshalValue model o = Ok j ∧ UnmarshalValue model j = Ok o' ∧
    typeOf o' = typeOf o ∧ named_args o' = named_args o ∧ MarshalValue model o' = Ok j.
Proof. intros (j & o' & ? & ? & ? & ? & ? & _)%encoding_roundtrip. eauto 10. Qed.

Lemma log_encoding_roundtrip_witness :
  let o := OPeer (mkPeer "pk" "wg0" (Some (cidr4 10 0 0 2 32)) None 5) in
  ∃ j o', MarshalValue model o = Ok j ∧ UnmarshalValue model j = Ok o' ∧
    typeOf o' = TPeer ∧ named_args o' = named_args o ∧ MarshalValue model o' = Ok j.
Proof.
  exact (log_encoding_roundtrip (OPeer (mkPeer "pk" "wg0" (Some (cidr4 10 0 0 2 32)) None 5)) eq_refl).
Defined.
