(* ===== verification/CrudSpec.v ===== *)
(** * What the CRUD layer promises

    An abstract store: the peers, interfaces and tokens by their keys, and what
    creating, updating and deleting an object means for it.  The dispatcher on
    a consistent SQL database refines it: same outcome, corresponding state. *)

From Stdlib Require Import Ascii.
From S2P Require Import Prelude GoStrings Sql SqlText Sqlite Net Model Crud.
Local Open Scope string_scope.

(** ** The abstract store *)
Record store : Type := mkStore {
  st_peers : gmap string row;
  st_intfs : gmap string row;
  st_tokens : gmap string row }.

Definition spec_create (o : obj) (st : store) : option store :=
  match o with
  | OPeer p =>
      if decide (is_Some (st_peers st !! p_PublicKey p)) then None
      else if decide (is_Some (st_intfs st !! p_Interface p)) then
        Some (mkStore (<[p_PublicKey p := named_args o]> (st_peers st)) (st_intfs st) (st_tokens st))
      else None
  | OInterface i =>
      if decide (is_Some (st_intfs st !! i_Name i)) then None
      else Some (mkStore (st_peers st) (<[i_Name i := named_args o]> (st_intfs st)) (st_tokens st))
  | OToken t =>
      if decide (is_Some (st_tokens st !! t_ID t)) then None
      else Some (mkStore (st_peers st) (st_intfs st) (<[t_ID t := named_args o]> (st_tokens st)))
  | OJson _ => None
  end.

(** Updating an object that does not exist changes nothing and is no error. *)
Definition spec_update (o : obj) (st : store) : option store :=
  match o with
  | OPeer p =>
      if decide (is_Some (st_peers st !! p_PublicKey p)) then
        if decide (is_Some (st_intfs st !! p_Interface p)) then
          Some (mkStore (<[p_PublicKey p := named_args o]> (st_peers st)) (st_intfs st) (st_tokens st))
        else None
      else Some st
  | OInterface i =>
      if decide (is_Some (st_intfs st !! i_Name i))
      then Some (mkStore (st_peers st) (<[i_Name i := named_args o]> (st_intfs st)) (st_tokens st)) else Some st
  | OToken t =>
      if decide (is_Some (st_tokens st !! t_ID t))
      then Some (mkStore (st_peers st) (st_intfs st) (<[t_ID t := named_args o]> (st_tokens st))) else Some st
  | OJson _ => None
  end.

(** Deleting an interface deletes its peers. *)
Definition spec_delete (o : obj) (st : store) : option store :=
  match o with
  | OPeer p => Some (mkStore (delete (p_PublicKey p) (st_peers st)) (st_intfs st) (st_tokens st))
  | OInterface i =>
      if decide (is_Some (st_intfs st !! i_Name i)) then
        Some (mkStore (filter (λ kr, row_get kr.2 "interface" ≠ SText (i_Name i)) (st_peers st))
                (delete (i_Name i) (st_intfs st)) (st_tokens st))
      else Some st
  | OToken t => Some (mkStore (st_peers st) (st_intfs st) (delete (t_ID t) (st_tokens st)))
  | OJson _ => None
  end.

Definition spec_dispatch (k : op_kind) : obj → store → option store :=
  match k with DoCreate => spec_create | DoUpdate => spec_update | DoDelete => spec_delete end.

(** ** The abstraction of a database *)
Definition key_of (pk : string) (r : row) : string :=
  match row_get r pk with SText s => s | _ => "" end.

Definition keyed (pk : string) (rs : list row) : gmap string row :=
  list_to_map ((λ r, (key_of pk r, r)) <$> rs).

Definition rows_of (d : db) (t : string) : list row :=
  match tables d !! t with Some tb => t_rows tb | None => [] end.

Definition abs (d : db) : store :=
  mkStore (keyed "public_key" (rows_of d "peers")) (keyed "name" (rows_of d "interfaces"))
    (keyed "id" (rows_of d "tokens")).

(** Keys are texts. *)
Definition typed_keys (pk : string) (rs : list row) : Prop :=
  Forall (λ r, row_get r pk = SText (key_of pk r)) rs.

Definition keys_ok (d : db) : Prop :=
  typed_keys "public_key" (rows_of d "peers") ∧ typed_keys "name" (rows_of d "interfaces") ∧
  typed_keys "id" (rows_of d "tokens").

Definition store_inv (d : db) : Prop := store_ok d ∧ keys_ok d.

(** ** Lemmas: keyed rows *)
Lemma keyed_NoDup sc pk rs :
  s_pk sc = Some pk → typed_keys pk rs → NoDup (pk_vals sc rs) → NoDup (key_of pk <$> rs).
Proof.
  intros Hpk Hty. unfold pk_vals. rewrite Hpk. intros Hnd.
  assert (Heq : (λ r, row_get r pk) <$> rs = SText <$> (key_of pk <$> rs)).
  { rewrite <- list_fmap_compose. apply list_fmap_ext. intros i r Hr.
    unfold typed_keys in Hty. rewrite Forall_lookup in Hty. exact (Hty i r Hr). }
  rewrite Heq in Hnd. by apply NoDup_fmap_1 in Hnd.
Qed.

Lemma keyed_lookup pk rs k r :
  NoDup (key_of pk <$> rs) → keyed pk rs !! k = Some r ↔ r ∈ rs ∧ key_of pk r = k.
Proof.
  intros Hnd. unfold keyed. rewrite <- elem_of_list_to_map.
  - rewrite list_elem_of_fmap. naive_solver.
  - by rewrite <- list_fmap_compose.
Qed.

Lemma keyed_is_Some pk rs k :
  NoDup (key_of pk <$> rs) → is_Some (keyed pk rs !! k) ↔ k ∈ key_of pk <$> rs.
Proof.
  intros Hnd. rewrite list_elem_of_fmap. split.
  - intros [r Hr]. apply keyed_lookup in Hr as [? <-]; eauto.
  - intros (r & -> & Hr). exists r. by apply keyed_lookup.
Qed.

Lemma keyed_snoc pk rs r :
  key_of pk r ∉ key_of pk <$> rs → keyed pk (app rs [r]) = <[key_of pk r := r]> (keyed pk rs).
Proof.
  intros Hk. unfold keyed. rewrite fmap_app. cbn. apply list_to_map_snoc.
  by rewrite <- list_fmap_compose.
Qed.

Lemma keyed_filter pk (P : row → Prop) `{∀ r, Decision (P r)} rs :
  NoDup (key_of pk <$> rs) → keyed pk (filter P rs) = filter (λ kr, P kr.2) (keyed pk rs).
Proof.
  intros Hnd. apply map_eq. intros k. apply option_eq. intros r.
  rewrite map_lookup_filter_Some, !keyed_lookup, list_elem_of_filter by
    (done || (eapply sublist_NoDup; [exact Hnd|apply fmap_sublist, sublist_filter])).
  naive_solver.
Qed.

Lemma keyed_update pk rs k (f : row → row) (g : row) :
  NoDup (key_of pk <$> rs) → (∀ r, r ∈ rs → key_of pk (f r) = if decide (key_of pk r = k) then k else key_of pk r) →
  (∀ r, r ∈ rs → f r = if decide (key_of pk r = k) then g else r) → is_Some (keyed pk rs !! k) →
  keyed pk (f <$> rs) = <[k := g]> (keyed pk rs).
Proof.
  intros Hnd Hkey Hf [r0 Hr0]. apply keyed_lookup in Hr0 as [Hr0 Hk0]; [|done].
  assert (Hkeys : key_of pk <$> (f <$> rs) = key_of pk <$> rs).
  { rewrite <- list_fmap_compose. apply list_fmap_ext. intros i r Hi. cbn.
    rewrite Hkey by (by eapply list_elem_of_lookup_2). by case_decide. }
  apply map_eq. intros k'. apply option_eq. intros r.
  rewrite keyed_lookup, list_elem_of_fmap by (by rewrite Hkeys).
  rewrite lookup_insert. case_decide as Hkk.
  - subst k'. split.
    + intros [(r1 & -> & Hr1) Hk1]. rewrite Hkey in Hk1 by done.
      rewrite Hf by done. by rewrite decide_True by (by case_decide).
    + intros [= <-]. split.
      * exists r0. split; [|done]. rewrite Hf by done. by rewrite decide_True.
      * specialize (Hkey r0 Hr0). rewrite Hf in Hkey by done. rewrite decide_True in Hkey by done.
        rewrite Hkey. by rewrite decide_True.
  - rewrite keyed_lookup by done. split.
    + intros [(r1 & -> & Hr1) Hk1]. rewrite Hkey in Hk1 by done. case_decide; [congruence|].
      rewrite Hf by done. by rewrite decide_False.
    + intros [Hr <-]. split; [|done]. exists r. split; [|done]. rewrite Hf by done. by rewrite decide_False.
Qed.

Lemma matches_key sc pk k r :
  row_get r pk = SText (key_of pk r) → matches sc [(pk, SText k)] r = bool_decide (key_of pk r = k).
Proof. intros H. unfold matches. cbn. rewrite H. cbn. by rewrite andb_true_r. Qed.

(** ** Lemmas: the table of an object *)
Definition obj_schema (o : obj) : schema :=
  match o with
  | OPeer _ => peers_schema | OInterface _ => interfaces_schema | OToken _ => tokens_schema
  | OJson _ => sequence_schema
  end.

Definition st_get (o : obj) (st : store) : gmap string row :=
  match o with OPeer _ => st_peers st | OInterface _ => st_intfs st | _ => st_tokens st end.

Definition st_set (o : obj) (m : gmap string row) (st : store) : store :=
  match o with
  | OPeer _ => mkStore m (st_intfs st) (st_tokens st)
  | OInterface _ => mkStore (st_peers st) m (st_tokens st)
  | _ => mkStore (st_peers st) (st_intfs st) m
  end.

Lemma table_of d t sc :
  store_ok d → datastore_schemas !! t = Some sc →
  ∃ tb, tables d !! t = Some tb ∧ t_schema tb = sc ∧ rows_of d t = t_rows tb ∧ table_ok d tb.
Proof.
  intros [[_ Hok] Hsc] Ht. rewrite <- Hsc in Ht. apply lookup_schemas in Ht as (tb & Ht & <-).
  exists tb. unfold rows_of. rewrite Ht. eauto.
Qed.

Lemma obj_schema_lookup o : typed o = true → datastore_schemas !! obj_table o = Some (obj_schema o).
Proof. destruct o; [..|done]; intros _; vm_compute; reflexivity. Qed.

Lemma obj_schema_pk o : typed o = true → s_pk (obj_schema o) = Some (obj_pk o).
Proof. by destruct o. Qed.

Lemma keys_ok_obj o d : typed o = true → keys_ok d → typed_keys (obj_pk o) (rows_of d (obj_table o)).
Proof. destruct o; [..|done]; intros _ (? & ? & ?); done. Qed.

Lemma abs_get o d : typed o = true → st_get o (abs d) = keyed (obj_pk o) (rows_of d (obj_table o)).
Proof. by destruct o. Qed.

Lemma obj_table_facts o d :
  typed o = true → store_inv d →
  ∃ tb, tables d !! obj_table o = Some tb ∧ t_schema tb = obj_schema o ∧ rows_of d (obj_table o) = t_rows tb ∧
    table_ok d tb ∧ typed_keys (obj_pk o) (t_rows tb) ∧ NoDup (key_of (obj_pk o) <$> t_rows tb).
Proof.
  intros Ho [Hok Hk]. destruct (table_of d _ _ Hok (obj_schema_lookup o Ho)) as (tb & Ht & Hs & Hr & Htb).
  pose proof (keys_ok_obj o d Ho Hk) as Hty. rewrite Hr in Hty.
  exists tb. split_and!; [done..|]. eapply keyed_NoDup; [|exact Hty|apply Htb].
  rewrite Hs. by apply obj_schema_pk.
Qed.

Lemma key_of_args o : typed o = true → row_get (named_args o) (obj_pk o) = SText (obj_key o).
Proof. by destruct o. Qed.

Lemma key_of_named_args o : typed o = true → key_of (obj_pk o) (named_args o) = obj_key o.
Proof. intros Ho. unfold key_of. by rewrite key_of_args. Qed.

Lemma full_row_args o :
  typed o = true → full_row (obj_schema o) (vals o (obj_pk o :: obj_fields o)) = named_args o.
Proof. destruct o as [[]|[]|[]|]; [..|done]; intros _; reflexivity. Qed.

Lemma create_cols_known o : typed o = true → cols_known (obj_schema o) (vals o (obj_pk o :: obj_fields o)).*1 = true.
Proof. destruct o; [..|done]; intros _; reflexivity. Qed.

Lemma update_cols_known o :
  typed o = true → cols_known (obj_schema o) (app ((vals o (obj_fields o)).*1) ((vals o [obj_pk o]).*1)) = true.
Proof. destruct o; [..|done]; intros _; reflexivity. Qed.

Lemma pk_not_updated o :
  typed o = true →
  bool_decide (s_pk (obj_schema o) = None) ||
    forallb (λ c, negb (bool_decide (s_pk (obj_schema o) = Some c))) (vals o (obj_fields o)).*1 = true.
Proof. destruct o; [..|done]; intros _; reflexivity. Qed.

Lemma args_notnull o : typed o = true → notnull_ok (obj_schema o) (named_args o) = true.
Proof. destruct o as [[]|[]|[]|]; [..|done]; intros _; reflexivity. Qed.

(** Assigning all fields of a row of the right shape gives the object's row. *)
Lemma update_row_args o r :
  typed o = true → dom r = list_to_set (C := gset string) (col_names (obj_schema o)) →
  row_get r (obj_pk o) = SText (obj_key o) → update_row (vals o (obj_fields o)) r = named_args o.
Proof.
  intros Ho Hdom Hkey.
  assert (Hpk : r !! obj_pk o = Some (SText (obj_key o))).
  { unfold row_get in Hkey. destruct (r !! obj_pk o) eqn:E; cbn in Hkey; [by subst|done]. }
  apply map_eq. intros c. destruct (decide (c ∈ col_names (obj_schema o))) as [Hc|Hc].
  - destruct o; [..|done]; cbn in Hc; repeat (apply elem_of_cons in Hc as [->|Hc]);
      try (by apply elem_of_nil in Hc); unfold update_row, vals; cbn [fmap list_fmap foldl obj_fields fst snd];
      repeat first [rewrite lookup_insert_eq|rewrite lookup_insert_ne by done]; first [exact Hpk|reflexivity].
  - assert (Hnone : r !! c = None).
    { apply not_elem_of_dom. rewrite Hdom. by rewrite elem_of_list_to_set. }
    assert (Hfc : c ∉ obj_fields o) by (intros Hin; apply Hc; destruct o; [..|done]; cbn in *; set_solver).
    transitivity (r !! c).
    + unfold update_row, vals. revert r Hdom Hkey Hpk Hnone. clear Hc.
      assert (Hgen : ∀ fs (r : row), c ∉ fs →
        foldl (λ (r : row) (p : string * sqlval), <[p.1:=p.2]> r) r ((λ c, (c, row_get (named_args o) c)) <$> fs) !! c
        = r !! c).
      { induction fs as [|f fs IH]; intros r Hf; [done|]. cbn. rewrite IH by set_solver.
        rewrite lookup_insert_ne by set_solver. done. }
      intros. by apply Hgen.
    + rewrite Hnone. symmetry. apply not_elem_of_dom. intros Hin. apply Hc.
      destruct o; [..|done]; cbn [named_args] in Hin; unfold Peer_args, Interface_args, Token_args in Hin;
        rewrite dom_list_to_map_L in Hin; cbn in *; set_solver.
Qed.

(** ** Lemmas: outcomes of the statements *)
Lemma pk_fresh_key o tb :
  typed o = true → t_schema tb = obj_schema o → typed_keys (obj_pk o) (t_rows tb) →
  pk_fresh (t_schema tb) (t_rows tb) (named_args o) =
    bool_decide (obj_key o ∉ key_of (obj_pk o) <$> t_rows tb).
Proof.
  intros Ho Hs Hty. unfold pk_fresh, pk_vals. rewrite Hs, obj_schema_pk, key_of_args by done.
  apply bool_decide_ext. rewrite !list_elem_of_fmap. unfold typed_keys in Hty. rewrite Forall_forall in Hty.
  split; intros H (r & Heq & Hr); apply H; exists r; (split; [|done]).
  - by rewrite Hty, <- Heq.
  - rewrite Hty in Heq by done. by injection Heq.
Qed.

(** The foreign key of a peer: its interface exists. *)
Definition refs_ok (o : obj) (st : store) : bool :=
  match o with OPeer p => bool_decide (is_Some (st_intfs st !! p_Interface p)) | _ => true end.

Lemma fks_ok_refs o d : typed o = true → store_inv d → fks_ok d (obj_schema o) (named_args o) = refs_ok o (abs d).
Proof.
  intros Ho Hinv. destruct o as [p|i|t|j]; [|done..].
  destruct (obj_table_facts (OInterface zero_Interface) d eq_refl Hinv) as (tb & Ht & Hs & Hr & _ & Hty & Hnd).
  cbn [obj_table obj_pk] in *. unfold refs_ok, abs; cbn [st_intfs]. rewrite Hr.
  unfold fks_ok, obj_schema, peers_schema; cbn [s_fks forallb]. rewrite andb_true_r.
  unfold fk_ok. cbn [fk_table fk_col fk_ref]. rewrite Ht.
  change (row_get (named_args (OPeer p)) "interface") with (SText (p_Interface p)).
  rewrite bool_decide_eq_false_2 by done. cbn [orb].
  apply eq_true_iff_eq. rewrite bool_decide_eq_true, existsb_exists, keyed_is_Some, list_elem_of_fmap by done.
  unfold typed_keys in Hty. rewrite Forall_forall in Hty. split.
  - intros (q & Hq & Heq%bool_decide_eq_true). apply list_elem_of_In in Hq.
    rewrite Hty in Heq by done. exists q. split; [by injection Heq|done].
  - intros (q & -> & Hq). exists q. split; [by apply list_elem_of_In|]. apply bool_decide_eq_true. by apply Hty.
Qed.

Lemma create_outcome o d :
  typed o = true → store_inv d →
  dispatcher_Create model o d =
    if bool_decide (is_Some (st_get o (abs d) !! obj_key o)) then (Err (ESql SqlUnique), d)
    else if refs_ok o (abs d) then
      (Ok tt, set_rows (obj_table o) (app (rows_of d (obj_table o)) [named_args o]) d)
    else (Err (ESql SqlForeignKey), d).
Proof.
  intros Ho Hinv. destruct (obj_table_facts o d Ho Hinv) as (tb & Ht & Hs & Hr & _ & Hty & Hnd).
  rewrite dispatcher_Create_run by done. unfold insert_into, get_table, guard_sql. m_unfold. rewrite Ht.
  rewrite Hs, create_cols_known, full_row_args, args_notnull by done.
  rewrite <- Hs, pk_fresh_key by done. rewrite abs_get, Hr by done.
  destruct (decide (obj_key o ∈ key_of (obj_pk o) <$> t_rows tb)) as [Hin|Hin].
  - rewrite bool_decide_eq_false_2 by naive_solver. by rewrite bool_decide_eq_true_2 by (by apply keyed_is_Some).
  - rewrite bool_decide_eq_true_2 by done. rewrite (bool_decide_eq_false_2 (is_Some _)) by (by rewrite keyed_is_Some).
    rewrite Hs, fks_ok_refs by done. by destruct (refs_ok o (abs d)).
Qed.

Lemma matching_rows o tb r :
  typed o = true → typed_keys (obj_pk o) (t_rows tb) → r ∈ t_rows tb →
  matches (t_schema tb) (vals o [obj_pk o]) r = bool_decide (key_of (obj_pk o) r = obj_key o).
Proof.
  intros Ho Hty Hr. rewrite vals_pk by done. apply matches_key.
  unfold typed_keys in Hty. rewrite Forall_forall in Hty. by apply Hty.
Qed.

Definition update_rows (o : obj) (rs : list row) : list row :=
  (λ r, if decide (key_of (obj_pk o) r = obj_key o) then named_args o else r) <$> rs.

Definition changed_rows (o : obj) (tb : table) : list row :=
  filter (λ r, matches (t_schema tb) (vals o [obj_pk o]) r = true) (t_rows tb).

Lemma changed_rows_elem o tb r :
  typed o = true → typed_keys (obj_pk o) (t_rows tb) →
  r ∈ changed_rows o tb ↔ r ∈ t_rows tb ∧ key_of (obj_pk o) r = obj_key o.
Proof.
  intros Ho Hty. unfold changed_rows. rewrite list_elem_of_filter. split.
  - intros [Hm Hr]. rewrite matching_rows in Hm by done. by apply bool_decide_eq_true in Hm.
  - intros [Hr Hk]. split; [|done]. rewrite matching_rows by done. by apply bool_decide_eq_true.
Qed.

Lemma updated_row o d tb r :
  typed o = true → t_schema tb = obj_schema o → table_ok d tb → typed_keys (obj_pk o) (t_rows tb) →
  r ∈ changed_rows o tb → update_row (vals o (obj_fields o)) r = named_args o.
Proof.
  intros Ho Hs (Hrows & _) Hty [Hin Hk]%changed_rows_elem; [|done..].
  rewrite Forall_forall in Hrows. destruct (Hrows r Hin) as [Hdom _]. rewrite Hs in Hdom.
  unfold typed_keys in Hty. rewrite Forall_forall in Hty.
  apply update_row_args; [done..|]. rewrite Hty by done. by rewrite Hk.
Qed.

(** A check that depends only on the new row is run when a row changes. *)
Lemma changed_rows_check o d tb (f : row → bool) :
  typed o = true → t_schema tb = obj_schema o → table_ok d tb → typed_keys (obj_pk o) (t_rows tb) →
  NoDup (key_of (obj_pk o) <$> t_rows tb) →
  forallb (λ r, f (update_row (vals o (obj_fields o)) r)) (changed_rows o tb) =
    negb (bool_decide (is_Some (keyed (obj_pk o) (t_rows tb) !! obj_key o)) && negb (f (named_args o))).
Proof.
  intros Ho Hs Htb Hty Hnd.
  destruct (decide (obj_key o ∈ key_of (obj_pk o) <$> t_rows tb)) as [Hin|Hin].
  - rewrite bool_decide_eq_true_2 by (by apply keyed_is_Some). cbn [andb]. rewrite negb_involutive.
    apply list_elem_of_fmap in Hin as (r0 & Hk & Hr0).
    assert (Hr0c : r0 ∈ changed_rows o tb) by (by apply changed_rows_elem).
    apply eq_true_iff_eq. rewrite forallb_forall. split.
    + intros H. specialize (H r0 ltac:(by apply list_elem_of_In)). by erewrite updated_row in H.
    + intros H r Hr. by erewrite updated_row by (done || by apply list_elem_of_In).
  - rewrite bool_decide_eq_false_2 by (by rewrite keyed_is_Some). cbn [andb negb].
    apply forallb_forall. intros r Hrc. apply list_elem_of_In, changed_rows_elem in Hrc as [Hrt Hk]; [|done..].
    destruct Hin. rewrite <- Hk. by apply list_elem_of_fmap_2.
Qed.

Lemma update_outcome o d :
  typed o = true → store_inv d →
  dispatcher_Update model o d =
    if bool_decide (is_Some (st_get o (abs d) !! obj_key o)) && negb (refs_ok o (abs d))
    then (Err (ESql SqlForeignKey), d)
    else (Ok tt, set_rows (obj_table o) (update_rows o (rows_of d (obj_table o))) d).
Proof.
  intros Ho Hinv. destruct (obj_table_facts o d Ho Hinv) as (tb & Ht & Hs & Hr & Htb & Hty & Hnd).
  rewrite dispatcher_Update_run by done. unfold update_where, get_table, guard_sql. m_unfold. rewrite Ht.
  rewrite Hs, update_cols_known, pk_not_updated by done. rewrite <- Hs. fold (changed_rows o tb).
  rewrite (changed_rows_check o d tb (notnull_ok (t_schema tb))) by done.
  rewrite Hs, args_notnull, andb_false_r by done. cbn [negb]. rewrite <- Hs.
  rewrite (changed_rows_check o d tb (fks_ok d (t_schema tb))) by done.
  rewrite Hs, fks_ok_refs by done. rewrite abs_get, Hr by done.
  destruct (_ && _); [done|]. cbn [negb]. do 2 f_equal. unfold update_rows.
  apply list_fmap_ext. intros i r Hi. assert (Hin : r ∈ t_rows tb) by (by eapply list_elem_of_lookup_2).
  rewrite <- Hs. destruct (matches (t_schema tb) (vals o [obj_pk o]) r) eqn:Hm;
    assert (Hm' := Hm); rewrite matching_rows in Hm' by done.
  - apply bool_decide_eq_true in Hm'. rewrite decide_True by done. eapply updated_row; [done..|].
    by apply changed_rows_elem.
  - apply bool_decide_eq_false in Hm'. by rewrite decide_False.
Qed.

(** The peers that go with a deleted interface. *)
Lemma cascade_peers o tb r :
  typed o = true → typed_keys (obj_pk o) (t_rows tb) →
  cascade_row (obj_table o) (changed_rows o tb) [ForeignKey "interface" "interfaces" "name"] r =
    bool_decide (obj_table o = "interfaces" ∧ obj_key o ∈ key_of (obj_pk o) <$> t_rows tb ∧
                 row_get r "interface" = SText (obj_key o)).
Proof.
  intros Ho Hty. apply eq_true_iff_eq. rewrite bool_decide_eq_true. unfold cascade_row; cbn [existsb fk_table fk_col fk_ref].
  rewrite orb_false_r, andb_true_iff, bool_decide_eq_true, existsb_exists, list_elem_of_fmap. split.
  - intros [Hi (q & Hq & Hq2)]. apply list_elem_of_In, changed_rows_elem in Hq as [Hqr Hqk]; [|done..].
    apply andb_true_iff in Hq2 as [_ Heq%bool_decide_eq_true]. split; [done|]. split; [by eauto|].
    unfold typed_keys in Hty. rewrite Forall_forall in Hty. specialize (Hty q Hqr). rewrite Hqk in Hty.
    destruct o; try discriminate Hi. cbn [obj_pk] in Hty. by rewrite Heq.
  - intros (Hi & (q & Hk & Hq) & Hr). split; [done|]. exists q.
    split; [apply list_elem_of_In, changed_rows_elem; done|].
    rewrite Hr. rewrite bool_decide_eq_true_2 by done. cbn [andb]. apply bool_decide_eq_true.
    unfold typed_keys in Hty. rewrite Forall_forall in Hty. specialize (Hty q Hq).
    destruct o; try discriminate Hi. cbn [obj_pk] in *. rewrite Hty. by rewrite Hk.
Qed.

Definition delete_rows (o : obj) (present : bool) (t : string) (rs : list row) : list row :=
  if decide (t = obj_table o) then filter (λ r, key_of (obj_pk o) r ≠ obj_key o) rs
  else if decide (t = "peers" ∧ obj_table o = "interfaces" ∧ present = true)
  then filter (λ r, row_get r "interface" ≠ SText (obj_key o)) rs
  else rs.

Lemma delete_outcome o d :
  typed o = true → store_inv d →
  ∃ d', dispatcher_Delete model o d = (Ok tt, d') ∧
  ∀ t, rows_of d' t = delete_rows o (bool_decide (is_Some (st_get o (abs d) !! obj_key o))) t (rows_of d t).
Proof.
  intros Ho Hinv. destruct (obj_table_facts o d Ho Hinv) as (tb & Ht & Hs & Hr & Htb & Hty & Hnd).
  rewrite dispatcher_Delete_run by done. unfold delete_where, get_table, guard_sql. m_unfold. rewrite Ht.
  assert (Hck : cols_known (t_schema tb) (vals o [obj_pk o]).*1 = true) by (rewrite Hs; by destruct o).
  rewrite Hck. eexists. split; [reflexivity|]. intros t. unfold rows_of at 1. cbn [tables].
  rewrite lookup_fmap, (lookup_set_rows _ _ _ _ _ Ht). unfold delete_rows. fold (changed_rows o tb).
  destruct (decide (obj_table o = t)) as [<-|Hne].
  - rewrite decide_True by done. cbn [fmap option_fmap option_map cascade t_rows t_schema]. rewrite Hr.
    assert (Hfil : filter (λ r, matches (t_schema tb) (vals o [obj_pk o]) r = false) (t_rows tb) =
                   filter (λ r, key_of (obj_pk o) r ≠ obj_key o) (t_rows tb)).
    { apply filter_ext_in, Forall_forall. intros r Hin. rewrite matching_rows by done. by rewrite bool_decide_eq_false. }
    rewrite Hfil. apply filter_all, Forall_forall. intros r _. rewrite Hs.
    destruct o; [|done..]. cbn [obj_schema peers_schema s_fks]. rewrite cascade_peers by done.
    apply bool_decide_eq_false_2. by intros [? _].
  - rewrite (decide_False (P := t = obj_table o)) by congruence. unfold rows_of. destruct (tables d !! t) as [tb'|] eqn:Ht'.
    2: { cbn. by destruct (decide (t = "peers" ∧ _)). }
    cbn [fmap option_fmap option_map cascade t_rows]. destruct Hinv as [Hok _].
    destruct (decide (t = "peers")) as [->|Hnp].
    + assert (t_schema tb' = peers_schema) as ->.
      { apply schemas_lookup in Ht'. destruct Hok as [_ Hsc]. rewrite Hsc in Ht'. by vm_compute in Ht'; simplify_eq. }
      cbn [s_fks peers_schema]. rewrite abs_get, Hr by done.
      destruct (decide (obj_key o ∈ key_of (obj_pk o) <$> t_rows tb)) as [Hin|Hin].
      * rewrite (bool_decide_eq_true_2 (is_Some _)) by (by apply keyed_is_Some).
        destruct (decide (obj_table o = "interfaces")) as [Hi|Hi].
        -- rewrite decide_True by done. apply filter_ext_in, Forall_forall. intros r _.
           rewrite cascade_peers, bool_decide_eq_false by done. tauto.
        -- rewrite decide_False by tauto. apply filter_all, Forall_forall. intros r _.
           rewrite cascade_peers, bool_decide_eq_false by done. tauto.
      * rewrite (bool_decide_eq_false_2 (is_Some _)) by (by rewrite keyed_is_Some).
        rewrite decide_False by (by intros (_ & _ & ?)). apply filter_all, Forall_forall. intros r _.
        rewrite cascade_peers, bool_decide_eq_false by done. tauto.
    + rewrite decide_False by tauto. rewrite (frame_no_fks d t tb' Hok Hnp Ht').
      by apply filter_all, Forall_true.
Qed.

(** ** Lemmas: the invariant and the abstraction after a step *)
Lemma rows_of_set_rows t rs d tb t' :
  tables d !! t = Some tb → rows_of (set_rows t rs d) t' = if decide (t = t') then rs else rows_of d t'.
Proof. intros Ht. unfold rows_of. rewrite (lookup_set_rows _ _ _ _ _ Ht). by case_decide. Qed.

Lemma abs_set_rows o rs d tb :
  typed o = true → tables d !! obj_table o = Some tb →
  abs (set_rows (obj_table o) rs d) = st_set o (keyed (obj_pk o) rs) (abs d).
Proof.
  intros Ho Ht. unfold abs. rewrite !(rows_of_set_rows _ _ _ _ _ Ht). by destruct o.
Qed.

Lemma keys_ok_set_rows o rs d tb :
  typed o = true → tables d !! obj_table o = Some tb → keys_ok d → typed_keys (obj_pk o) rs →
  keys_ok (set_rows (obj_table o) rs d).
Proof.
  intros Ho Ht (H1 & H2 & H3) Hrs. unfold keys_ok. rewrite !(rows_of_set_rows _ _ _ _ _ Ht).
  by destruct o.
Qed.

Lemma typed_keys_args o : typed o = true → row_get (named_args o) (obj_pk o) = SText (key_of (obj_pk o) (named_args o)).
Proof. intros Ho. by rewrite key_of_named_args, key_of_args. Qed.

Lemma typed_keys_sublist pk rs rs' : sublist rs' rs → typed_keys pk rs → typed_keys pk rs'.
Proof.
  intros Hsub H. unfold typed_keys in *. rewrite Forall_forall in *. eauto using elem_of_sublist.
Qed.

Lemma delete_rows_sublist o b t rs : sublist (delete_rows o b t rs) rs.
Proof. unfold delete_rows. repeat case_decide; [apply sublist_filter..|done]. Qed.

(** Every call of the dispatcher keeps the invariant. *)
Lemma dispatch_store_inv k o d r d' : store_inv d → dispatch k o d = (r, d') → store_inv d'.
Proof.
  intros Hinv Hrun. split; [eapply dispatch_store_ok; [apply Hinv|done]|].
  destruct (dispatch_fail _ _ _ _ _ Hrun) as [->| ->]; [apply Hinv|].
  destruct (typed o) eqn:Ho.
  2: { destruct (dispatcher_untyped o d Ho) as (H1 & H2 & H3).
       destruct k; cbn [dispatch] in Hrun; rewrite ?H1, ?H2, ?H3 in Hrun; by inv_run. }
  destruct (obj_table_facts o d Ho Hinv) as (tb & Ht & Hs & Hr & Htb & Hty & Hnd).
  destruct k; cbn [dispatch] in Hrun.
  - rewrite create_outcome in Hrun by done. repeat (case_match; inv_run; try done).
    eapply keys_ok_set_rows; [done..|apply Hinv|]. rewrite Hr.
    apply Forall_app_2; [done|]. apply Forall_singleton. by apply typed_keys_args.
  - rewrite update_outcome in Hrun by done. repeat (case_match; inv_run; try done).
    eapply keys_ok_set_rows; [done..|apply Hinv|]. rewrite Hr. unfold typed_keys, update_rows.
    apply Forall_fmap, Forall_forall. intros r Hin. cbn. case_decide; [by apply typed_keys_args|].
    unfold typed_keys in Hty. rewrite Forall_forall in Hty. by apply Hty.
  - destruct (delete_outcome o d Ho Hinv) as (d0 & Hd & Hrows). rewrite Hd in Hrun. inv_run.
    destruct Hinv as [_ (H1 & H2 & H3)]. unfold keys_ok. rewrite !Hrows.
    split_and!; (eapply typed_keys_sublist; [apply delete_rows_sublist|done]).
Qed.

Lemma abs_update_absent o rs : obj_key o ∉ key_of (obj_pk o) <$> rs → update_rows o rs = rs.
Proof.
  intros Hk. unfold update_rows. rewrite <- (list_fmap_id rs) at 2. apply list_fmap_ext. intros i r Hi.
  rewrite decide_False; [done|]. intros Heq. apply Hk. rewrite <- Heq.
  apply list_elem_of_fmap_2. by eapply list_elem_of_lookup_2.
Qed.

Lemma st_set_get o d : typed o = true → st_set o (st_get o (abs d)) (abs d) = abs d.
Proof. by destruct o. Qed.

Lemma create_refines o d r d' :
  typed o = true → store_inv d → dispatcher_Create model o d = (r, d') →
  match r with Ok _ => spec_create o (abs d) = Some (abs d') | Err _ => spec_create o (abs d) = None | _ => False end.
Proof.
  intros Ho Hinv. destruct (obj_table_facts o d Ho Hinv) as (tb & Ht & Hs & Hr & Htb & Hty & Hnd).
  rewrite create_outcome by done.
  assert (Hspec : spec_create o (abs d) =
    if bool_decide (is_Some (st_get o (abs d) !! obj_key o)) then None
    else if refs_ok o (abs d) then Some (st_set o (<[obj_key o := named_args o]> (st_get o (abs d))) (abs d)) else None).
  { destruct o; [..|done]; cbn [spec_create st_get obj_key refs_ok st_set];
      repeat (case_decide || case_bool_decide); try done; tauto. }
  rewrite Hspec. clear Hspec. case_bool_decide as Hsome; [intros; by inv_run|].
  destruct (refs_ok o (abs d)); [|intros; by inv_run]. intros; inv_run.
  rewrite (abs_set_rows o _ _ _ Ho Ht), Hr. rewrite abs_get, Hr in Hsome |- * by done.
  rewrite keyed_is_Some in Hsome by done. rewrite keyed_snoc by (by rewrite key_of_named_args).
  by rewrite key_of_named_args.
Qed.

Lemma update_refines o d r d' :
  typed o = true → store_inv d → dispatcher_Update model o d = (r, d') →
  match r with Ok _ => spec_update o (abs d) = Some (abs d') | Err _ => spec_update o (abs d) = None | _ => False end.
Proof.
  intros Ho Hinv. destruct (obj_table_facts o d Ho Hinv) as (tb & Ht & Hs & Hr & Htb & Hty & Hnd).
  rewrite update_outcome by done.
  assert (Hspec : spec_update o (abs d) =
    if bool_decide (is_Some (st_get o (abs d) !! obj_key o)) then
      if refs_ok o (abs d) then Some (st_set o (<[obj_key o := named_args o]> (st_get o (abs d))) (abs d)) else None
    else Some (abs d)).
  { destruct o; [..|done]; cbn [spec_update st_get obj_key refs_ok st_set];
      repeat (case_decide || case_bool_decide); try done; tauto. }
  rewrite Hspec. clear Hspec. rewrite abs_get, Hr by done. case_bool_decide as Hsome; cbn [andb].
  - destruct (refs_ok o (abs d)); cbn [negb]; intros; inv_run; [|done]. f_equal.
    rewrite (abs_set_rows o _ _ _ Ho Ht). f_equal. symmetry. unfold update_rows.
    apply keyed_update; [done| |done|done].
    intros r Hin. case_decide; [by apply key_of_named_args|done].
  - intros; inv_run. f_equal. rewrite keyed_is_Some in Hsome by done.
    rewrite abs_update_absent, (abs_set_rows o _ _ _ Ho Ht) by done.
    rewrite <- Hr, <- abs_get by done. by rewrite st_set_get.
Qed.

Lemma delete_key_filter pk rs k :
  NoDup (key_of pk <$> rs) → keyed pk (filter (λ r, key_of pk r ≠ k) rs) = delete k (keyed pk rs).
Proof.
  intros Hnd. rewrite keyed_filter by done. apply map_eq. intros k'. apply option_eq. intros r.
  rewrite map_lookup_filter_Some, lookup_delete_Some. cbn. split.
  - intros [Hr Hne]. split; [|done]. apply keyed_lookup in Hr as [_ Hk]; [|done]. congruence.
  - intros [Hne Hr]. split; [done|]. apply keyed_lookup in Hr as [_ Hk]; [|done]. congruence.
Qed.

Lemma delete_rows_own o b rs :
  delete_rows o b (obj_table o) rs = filter (λ r, key_of (obj_pk o) r ≠ obj_key o) rs.
Proof. unfold delete_rows. by rewrite decide_True. Qed.

Lemma delete_rows_cascade i rs b :
  delete_rows (OInterface i) b "peers" rs =
    if b then filter (λ r, row_get r "interface" ≠ SText (i_Name i)) rs else rs.
Proof.
  unfold delete_rows. rewrite (decide_False (P := "peers" = _)) by done.
  destruct b; [by rewrite decide_True|]. by rewrite decide_False by (by intros (_ & _ & ?)).
Qed.

Lemma delete_rows_other o b t rs :
  t ≠ obj_table o → t ≠ "peers" ∨ obj_table o ≠ "interfaces" → delete_rows o b t rs = rs.
Proof. intros H1 H2. unfold delete_rows. rewrite decide_False by done. rewrite decide_False by tauto. done. Qed.

Ltac other_table := cbn; first [discriminate | left; discriminate | right; discriminate].

Lemma delete_refines o d r d' :
  typed o = true → store_inv d → dispatcher_Delete model o d = (r, d') →
  match r with Ok _ => spec_delete o (abs d) = Some (abs d') | _ => False end.
Proof.
  intros Ho Hinv Hrun. destruct (obj_table_facts o d Ho Hinv) as (tb & Ht & Hs & Hr & Htb & Hty & Hnd).
  destruct (obj_table_facts (OPeer zero_Peer) d eq_refl Hinv) as (ptb & _ & _ & Hpr & _ & _ & Hpnd).
  destruct (delete_outcome o d Ho Hinv) as (d0 & Hd & Hrows). rewrite Hd in Hrun. inv_run.
  assert (Hown : keyed (obj_pk o) (rows_of d' (obj_table o)) = delete (obj_key o) (st_get o (abs d))).
  { rewrite Hrows, delete_rows_own, abs_get, Hr by done. by apply delete_key_filter. }
  destruct o as [p|i|t|j]; [..|done]; cbn [spec_delete obj_table obj_pk obj_key st_get] in *;
    unfold abs at -1; cbn [obj_table] in Hrows.
  - rewrite Hown. match type of Hrows with context [delete_rows _ ?b] => set (b0 := b) in Hrows; clearbody b0 end.
    rewrite !Hrows, !delete_rows_other by other_table. done.
  - rewrite Hown. rewrite (Hrows "peers"), (Hrows "tokens"), delete_rows_cascade, delete_rows_other by other_table.
    case_bool_decide as Hsome.
    + rewrite decide_True by done. rewrite Hpr. by rewrite keyed_filter, <- Hpr.
    + rewrite decide_False by done. rewrite delete_id by (by apply eq_None_not_Some). done.
  - rewrite Hown. match type of Hrows with context [delete_rows _ ?b] => set (b0 := b) in Hrows; clearbody b0 end.
    rewrite !Hrows, !delete_rows_other by other_table. done.
Qed.

(** The dispatcher follows the abstract store. *)
Lemma dispatch_refines k o d r d' :
  store_inv d → dispatch k o d = (r, d') →
  store_inv d' ∧
  match r with
  | Ok _ => spec_dispatch k o (abs d) = Some (abs d')
  | Err _ => spec_dispatch k o (abs d) = None ∧ d' = d
  | _ => False
  end.
Proof.
  intros Hinv Hrun. split; [by eapply dispatch_store_inv|].
  pose proof (dispatch_fail _ _ _ _ _ Hrun) as Hfail. destruct (typed o) eqn:Ho.
  - destruct k; cbn [dispatch spec_dispatch] in *.
    + apply create_refines in Hrun; [|done..]. destruct r; try done. by destruct Hfail.
    + apply update_refines in Hrun; [|done..]. destruct r; try done. by destruct Hfail.
    + apply delete_refines in Hrun; [|done..]. by destruct r.
  - destruct (dispatcher_untyped o d Ho) as (H1 & H2 & H3). destruct o; [discriminate Ho..|].
    destruct k; cbn [dispatch] in Hrun; rewrite ?H1, ?H2, ?H3 in Hrun; by inv_run.
Qed.

(** ** Properties *)

(** C3: the dispatcher refines the abstract store: on a consistent database,
    creating, updating or deleting an object succeeds exactly when the store
    allows it, leads to the database of the store's next state (an update of
    an absent key changes nothing; deleting an interface takes its peers along;
    a peer needs its interface), and keeps the database consistent; when it
    fails the database is unchanged. *)
Theorem dispatcher_refines_store k o d r d' :
  store_inv d → dispatch k o d = (r, d') →
  store_inv d' ∧
  match r with
  | Ok _ => spec_dispatch k o (abs d) = Some (abs d')
  | Err _ => spec_dispatch k o (abs d) = None ∧ d' = d
  | _ => False
  end.
Proof. apply dispatch_refines. Qed.

Lemma dispatcher_refines_store_witness :
  let o := OInterface (mkInterface "wg0" 51820 None None 0 "" "") in
  let d' := (dispatch DoCreate o initial_db).2 in
  store_inv d' ∧ spec_dispatch DoCreate o (abs initial_db) = Some (abs d').
Proof.
  apply (dispatcher_refines_store DoCreate (OInterface (mkInterface "wg0" 51820 None None 0 "" "")) initial_db (Ok tt)).
  - split; [apply initial_store_ok|].
    unfold keys_ok. split_and!; (replace (rows_of initial_db _) with ([] : list row) by (vm_compute; reflexivity)); constructor.
  - vm_compute. reflexivity.
Defined.
