(* ===== verification/CrudLog.v ===== *)
(** * The change log

    [datastore/crudlog]: operations and their serialized form ([op.go]), the
    log and sequence tables ([sql.go]), the in-process publish/subscribe
    ([pubsub.go]) and the log itself ([log.go], [interfaces.go]): a sink that
    applies, records and announces operations in one transaction, a source that
    serves snapshots and subscriptions, and the writer built on the sink. *)

From Stdlib Require Import Ascii.
From S2P Require Import Prelude GoStrings Sql SqlText Sqlite Net Model Crud.
Local Open Scope string_scope.

(** ** Interfaces *)

(** [crudlog.CRUD]: what the log needs of the underlying database. *)
Class CRUD : Type := {
  crud_Create : obj → M db unit;
  crud_Update : obj → M db unit;
  crud_Delete : obj → M db unit;
  crud_DeleteAll : M db unit;
  crud_Count : db → nat;
  crud_Each : ∀ {S} `{HasDb S}, (obj → M S unit) → M S unit
}.

(** [crudlog.Encoding] *)
Class Encoding : Type := {
  enc_MarshalValue : obj → res json;
  enc_UnmarshalValue : json → res obj
}.

(** ** Sequences and operation types *)
Definition ParseSequence (s : string) : res Z := parse_uint 16 max_uint64 s.
Definition Sequence_String (seq : Z) : string := format_hex seq.

Definition OpUnknown : Z := 0.
Definition OpCreate : Z := 1.
Definition OpUpdate : Z := 2.
Definition OpDelete : Z := 3.

Definition OpType_String (t : Z) : string :=
  if bool_decide (t = OpCreate) then "create"
  else if bool_decide (t = OpUpdate) then "update"
  else if bool_decide (t = OpDelete) then "delete"
  else "UNKNOWN".

(** ** Operations *)
Record op : Type := mkOp { op_seq : Z; op_typ : Z; op_timestamp : time; op_value : obj }.

Definition newOp (now : time) (typ : Z) (value : obj) : op := mkOp 0 typ now value.

Definition WithSequence (o : op) (seq : Z) : op := mkOp seq (op_typ o) (op_timestamp o) (op_value o).

(** [None] is an empty byte slice. *)
Record opSerialized : Type := mkOps {
  os_Seq : Z;
  os_Type : Z;
  os_Value : option json;
  os_Timestamp : time }.

Section Ops.
Context `{Encoding}.

(** The timestamp is not carried over. *)
Definition serialize (o : op) : res opSerialized :=
  b ← enc_MarshalValue (op_value o);
  mret (mkOps (op_seq o) (op_typ o) (Some b) 0).

Definition decode (o : opSerialized) : res op :=
  match os_Value o with
  | None => Err (EMsg "unexpected end of JSON input")
  | Some b => v ← enc_UnmarshalValue b; mret (mkOp (os_Seq o) (os_Type o) (os_Timestamp o) v)
  end.

(** *** The JSON form of an operation *)
Definition get_uint64 (j : json) : res Z :=
  match j with
  | JNull => Ok 0%Z
  | JNum z => if uint64_ok z then Ok z else Err json_type_error
  | _ => Err json_type_error
  end.

Definition op_MarshalJSON (o : op) : res json :=
  ops ← serialize o;
  t ← marshal_time (os_Timestamp ops);
  mret (JObj [("seq", JNum (os_Seq ops)); ("type", JNum (os_Type ops));
              ("value", match os_Value ops with Some b => JData b | None => JNull end); ("timestamp", t)]).

Definition op_UnmarshalJSON (j : json) : res op :=
  ops ← match j with
        | JObj l =>
            seq ← get_uint64 (jfield l "seq");
            typ ← get_int (jfield l "type");
            v ← match jfield l "value" with
                | JData d => Ok (Some d)
                | JNull => Ok None
                | _ => Err json_type_error
                end;
            t ← get_time (jfield l "timestamp");
            mret (mkOps seq typ v t)
        | JNull => Ok (mkOps 0 0 None 0)
        | _ => Err json_type_error
        end;
  decode ops.

(** *** A row of the log.  Its value column is only ever written by
    [AppendToLog], as a blob. *)
Definition scan_uint64 (v : sqlval) : res Z :=
  z ← scan_int v; if uint64_ok z then mret z else Err (ESql SqlScan).

Definition scanOp (r : row) : res op :=
  seq ← scan_uint64 (row_get r "seq");
  typ ← scan_int (row_get r "type");
  v ← match row_get r "value" with
      | SBlob j => Ok (Some j)
      | SNull => Ok None
      | _ => Err (ESql SqlScan)
      end;
  t ← scan_time (row_get r "timestamp");
  decode (mkOps seq typ v t).

End Ops.

(** ** The log and sequence tables *)

(** database/sql refuses a uint64 parameter with its high bit set. *)
Definition uint64_param (z : Z) : res sqlval :=
  if bool_decide (z < 2 ^ 63)%Z then Ok (SInt z) else Err (ESql SqlBind).

Section SqlLog.
Context `{Encoding}.

Definition ops_args (o : opSerialized) : res row :=
  seq ← uint64_param (os_Seq o);
  mret (list_to_map [("seq", seq); ("type", SInt (os_Type o));
                     ("value", match os_Value o with Some b => SBlob b | None => SNull end);
                     ("timestamp", STime (os_Timestamp o))]).

Definition insert_log_stmt : stmt :=
  SInsert "log" ["seq"; "type"; "timestamp"; "value"]
    [BNamed "seq"; BNamed "type"; BNamed "timestamp"; BNamed "value"].

Definition AppendToLog (o : op) : M db unit :=
  ops ← lift_res (serialize o);
  args ← lift_res (ops_args ops);
  NamedExec insert_log_stmt args.

(** [seq >= ?] with an integer parameter: [NULL] does not compare, and values
    of another storage class come after all integers. *)
Definition sql_int_ge (stored : sqlval) (arg : Z) : bool :=
  match stored with SNull => false | SInt z => bool_decide (arg ≤ z)%Z | _ => true end.

(** [ORDER BY seq ASC] *)
Definition row_seq (r : row) : Z := match row_get r "seq" with SInt z => z | _ => 0%Z end.

Definition QueryLogSince (seq : Z) : M db (list op) :=
  _ ← lift_res (uint64_param seq);
  tb ← get_table "log";
  let rows := sort_by row_seq
    (filter (λ r, sql_int_ge (row_get r "seq") seq = true) (t_rows tb)) in
  lift_res (res_map scanOp rows).

(** 0 on every error. *)
Definition GetSequence (d : db) : Z :=
  match tables d !! "sequence" with
  | Some tb =>
      match t_rows tb with
      | r :: _ => match scan_uint64 (row_get r "seq") with Ok z => z | _ => 0%Z end
      | [] => 0%Z
      end
  | None => 0%Z
  end.

Definition GetNextSequence (d : db) : Z := uint64_wrap (GetSequence d + 1).

Definition SetSequence (seq : Z) : M db unit :=
  v ← lift_res (uint64_param seq);
  update_where "sequence" [("seq", v)] [].

End SqlLog.

(** ** Publish/subscribe

    Channels are shared objects, named by numbers.  An element of the
    subscriber list is named by its channel: a channel is added once, when it
    is made. *)
Definition chanBufSize : Z := 1000.

Record chan : Type := Chan { ch_buf : list op; ch_closed : bool }.

Record pubsub : Type := PubSub {
  toClose : list nat;
  subscribers : list nat;
  chans : gmap nat chan;
  next_chan : nat }.

Definition newPubSub : pubsub := PubSub [] [] ∅ 0.

(** [make(chan Op, chanBufSize)] *)
Definition make_chan : M pubsub nat :=
  p ← getS;
  _ ← put (PubSub (toClose p) (subscribers p) (<[next_chan p := Chan [] false]> (chans p)) (S (next_chan p)));
  mret (next_chan p).

Definition close_chan (c : nat) : M pubsub unit :=
  p ← getS;
  match chans p !! c with
  | Some (Chan b false) => put (PubSub (toClose p) (subscribers p) (<[c := Chan b true]> (chans p)) (next_chan p))
  | Some (Chan b true) => panic "close of closed channel"
  | None => panic "close of nil channel"
  end.

(** A send blocks while the buffer is full. *)
Definition send_chan (o : op) (c : nat) : M pubsub unit :=
  p ← getS;
  match chans p !! c with
  | Some (Chan b false) =>
      if bool_decide (Z.of_nat (length b) < chanBufSize)%Z
      then put (PubSub (toClose p) (subscribers p) (<[c := Chan (app b [o]) false]> (chans p)) (next_chan p))
      else hang
  | Some (Chan b true) => panic "send on closed channel"
  | None => hang
  end.

(** A receive blocks while an open channel is empty; [None] is the nil value
    of a closed one. *)
Definition recv_chan (c : nat) : M pubsub (option op) :=
  p ← getS;
  match chans p !! c with
  | Some (Chan (o :: b) cl) =>
      _ ← put (PubSub (toClose p) (subscribers p) (<[c := Chan b cl]> (chans p)) (next_chan p));
      mret (Some o)
  | Some (Chan [] true) => mret None
  | _ => hang
  end.

Definition AddSubscriber (c : nat) : M pubsub unit :=
  modify (λ p, PubSub (toClose p) (c :: subscribers p) (chans p) (next_chan p)).

Definition removeSubscriber (c : nat) : M pubsub unit :=
  modify (λ p, PubSub (app (toClose p) [c]) (filter (λ c', c' ≠ c) (subscribers p)) (chans p) (next_chan p)).

Definition clear_toClose : M pubsub unit :=
  modify (λ p, PubSub [] (subscribers p) (chans p) (next_chan p)).

Definition Emit (o : op) : M pubsub unit :=
  p ← getS;
  _ ← (if bool_decide (0 < length (toClose p))%nat
       then _ ← each close_chan (toClose p); clear_toClose
       else mret tt);
  each (send_chan o) (subscribers p).

(** ** The database with its publish/subscribe *)
Record logdb : Type := LogDb { ld_db : db; ld_pubsub : pubsub }.

#[global] Program Instance logdb_has_db : HasDb logdb :=
  {| the_db := ld_db; set_db d s := LogDb d (ld_pubsub s) |}.
Next Obligation. done. Qed.
Next Obligation. by intros []. Qed.
Next Obligation. done. Qed.

(** A state together with a variable captured by a closure. *)
#[global] Program Instance pair_has_db {S A} `{HasDb S} : HasDb (S * A) :=
  {| the_db s := the_db s.1; set_db d s := (set_db d s.1, s.2) |}.
Next Obligation. intros. cbn. apply the_set_db. Qed.
Next Obligation. intros ??? [s a]. cbn. by rewrite set_the_db. Qed.
Next Obligation. intros. cbn. by rewrite set_set_db. Qed.

Definition on_pubsub {A} (m : M pubsub A) : M logdb A := λ s,
  match m (ld_pubsub s) with (r, p) => (r, LogDb (ld_db s) p) end.

(** The global lock makes a transaction one step; the engine decides whether
    it begins and commits. *)
Definition WithTransaction {A} (env : tx_env) (f : M logdb A) : M logdb A := WithTx env f.

(** A read-only transaction is always rolled back; its result is what [f]
    stored in a captured variable, initially [a0]. *)
Definition WithROTransaction {A} (env : tx_env) (a0 : A) (f : M (logdb * A) unit) : M logdb A := λ s,
  match WithTx env (_ ← f; fail (A := unit) ErrRollback) (s, a0) with
  | (Ok _, (s', a)) | (Err _, (s', a)) => (Ok a, s')
  | (Panic p, (s', _)) => (Panic p, s')
  | (Hang, (s', _)) => (Hang, s')
  end.

(** A snapshot held in memory. *)
Record memSnapshot : Type := mkSnapshot { SeqNum : Z; Items : list obj }.

Definition Snapshot_Each {S} (s : memSnapshot) (f : obj → M S unit) : M S unit := each f (Items s).

Record subscription : Type := mkSub { sub_preload : list op; sub_ch : nat }.

Section Log.
Context `{CRUD} `{Encoding}.

Definition ApplyOp (o : op) : M db unit :=
  if bool_decide (op_typ o = OpCreate) then crud_Create (op_value o)
  else if bool_decide (op_typ o = OpUpdate) then crud_Update (op_value o)
  else if bool_decide (op_typ o = OpDelete) then crud_Delete (op_value o)
  else fail ErrInvalidOpType.

(** *** crudLogSink *)
Definition crudLogSink_Apply (env : tx_env) (o : op) (fromLog : bool) : M logdb unit :=
  WithTransaction env (
    d ← gets the_db;
    let o := if fromLog then o else WithSequence o (GetNextSequence d) in
    _ ← on_db (ApplyOp o);
    _ ← on_db (AppendToLog o);
    _ ← on_db (SetSequence (op_seq o));
    on_pubsub (Emit o)).

Definition crudLogSink_LatestSequence (env : tx_env) : M logdb Z :=
  WithROTransaction env 0%Z (modify (λ s, (s.1, GetSequence (the_db s)))).

(** [None] is a nil snapshot. *)
Definition crudLogSink_LoadSnapshot (env : tx_env) (snap : option memSnapshot) : M logdb unit :=
  WithTransaction env (
    _ ← on_db crud_DeleteAll;
    match snap with
    | None => panic "nil pointer dereference"
    | Some snap =>
        _ ← Snapshot_Each snap (λ o, on_db (crud_Create o));
        on_db (SetSequence (SeqNum snap))
    end).

(** *** crudLogSource *)
Definition collect : M logdb (list obj) := λ s,
  match crud_Each (λ o, modify (λ p, (p.1, app p.2 [o]))) (s, []) with
  | (Ok _, (s', items)) => (Ok items, s')
  | (Err e, (s', _)) => (Err e, s')
  | (Panic p, (s', _)) => (Panic p, s')
  | (Hang, (s', _)) => (Hang, s')
  end.

(** The body assigns both results; a transaction that does not begin leaves
    both nil. *)
Definition snapshot_body : M (logdb * (option memSnapshot * option err)) unit := λ p,
  match collect p.1 with
  | (Ok items, s') => (Ok tt, (s', (Some (mkSnapshot (GetSequence (the_db s')) items), None)))
  | (Err e, s') => (Ok tt, (s', (None, Some e)))
  | (Panic x, s') => (Panic x, (s', p.2))
  | (Hang, s') => (Hang, (s', p.2))
  end.

Definition crudLogSource_Snapshot (env : tx_env) : M logdb (option memSnapshot) :=
  r ← WithROTransaction env (None, None) snapshot_body;
  match r with
  | (snap, None) => mret snap
  | (_, Some e) => fail e
  end.

Definition crudLogSource_Subscribe (env : tx_env) (start : Z) : M logdb subscription :=
  WithTransaction env (
    d ← gets the_db;
    if bool_decide (uint64_wrap (GetSequence d + 1) < start)%Z then fail ErrHorizon
    else
      preload ← on_db (QueryLogSince start);
      ch ← on_pubsub make_chan;
      _ ← on_pubsub (AddSubscriber ch);
      mret (mkSub preload ch)).

Definition subscription_Close (s : subscription) : M logdb unit := on_pubsub (removeSubscriber (sub_ch s)).

(** *** crudLogWriter *)
Definition crudLogWriter_Create (env : tx_env) (now : time) (o : obj) : M logdb unit :=
  crudLogSink_Apply env (newOp now OpCreate o) false.
Definition crudLogWriter_Update (env : tx_env) (now : time) (o : obj) : M logdb unit :=
  crudLogSink_Apply env (newOp now OpUpdate o) false.
Definition crudLogWriter_Delete (env : tx_env) (now : time) (o : obj) : M logdb unit :=
  crudLogSink_Apply env (newOp now OpDelete o) false.

Definition newCrudLogWriter (env : tx_env) (now : time) : Writer logdb :=
  mkWriter (crudLogWriter_Create env now) (crudLogWriter_Update env now) (crudLogWriter_Delete env now).

End Log.

(** [Wrap] of an open database. *)
Definition Wrap (d : db) : logdb := LogDb d newPubSub.

(** ** The instances of the datastore *)
#[global] Instance model_encoding : Encoding :=
  {| enc_MarshalValue := MarshalValue model; enc_UnmarshalValue := UnmarshalValue model |}.

(** [ord] is the order in which the types are visited, [fuel] the depth to
    which the recursion of [DeleteAll] is followed. *)
Definition model_crud (ord : list sqlTableAdapter) (fuel : nat) : CRUD :=
  {| crud_Create := dispatcher_Create model;
     crud_Update := dispatcher_Update model;
     crud_Delete := dispatcher_Delete model;
     crud_DeleteAll := dispatcher_DeleteAll fuel ord;
     crud_Count := dispatcher_Count ord;
     crud_Each := λ S _, dispatcher_Each ord |}.
