(* ===== verification/CrudLogSpec.v ===== *)
(** * Correctness of the change log

    The log is verified against what it needs of the database below it
    ([CrudLaws]) and of the encoding of values ([EncodingLaws]); the dispatcher
    and the model's encoding are shown to provide both.  The invariant says
    that the log is the complete, consecutively numbered history of the data:
    replaying it from the initial state gives the data there is. *)

From Stdlib Require Import Ascii.
From S2P Require Import Prelude GoStrings Sql SqlText Sqlite Net Model Crud CrudSpec CrudLog.
Local Open Scope string_scope.

(** ** What the log relies on *)
Definition crud_run `{CRUD} (k : op_kind) : obj → M db unit :=
  match k with DoCreate => crud_Create | DoUpdate => crud_Update | DoDelete => crud_Delete end.

(** A CRUD database refines an abstract state, reports a refusal as an error
    that changes nothing, and leaves the log's own tables alone; the log's
    statements on those leave the data alone. *)
Class CrudLaws `{CRUD} : Type := {
  cstate : Type;
  cabs : db → cstate;
  cinv : db → Prop;
  cspec : op_kind → obj → cstate → option cstate;
  crud_refines k o d r d' :
    cinv d → crud_run k o d = (r, d') →
    cinv d' ∧
    match r with
    | Ok _ => cspec k o (cabs d) = Some (cabs d')
    | Err _ => cspec k o (cabs d) = None ∧ d' = d
    | _ => False
    end;
  crud_frame k o d r d' t :
    cinv d → t ∈ ["log"; "sequence"] → crud_run k o d = (r, d') → tables d' !! t = tables d !! t;
  cinv_log d : cinv d → ∃ tb, tables d !! "log" = Some tb ∧ t_schema tb = log_schema;
  cinv_sequence d : cinv d → ∃ tb, tables d !! "sequence" = Some tb ∧ t_schema tb = sequence_schema;
  cinv_log_insert d vs d' : cinv d → insert_into "log" vs d = (Ok tt, d') → cinv d' ∧ cabs d' = cabs d;
  cinv_sequence_update d vs w d' :
    cinv d → update_where "sequence" vs w d = (Ok tt, d') → cinv d' ∧ cabs d' = cabs d
}.

(** Encoding a value returns; values that pass through the encoding come back
    as values that mean the same to the database and encode alike. *)
Class EncodingLaws `{CrudLaws} `{Encoding} : Type := {
  wire_ok : obj → bool;
  enc_total o : (∃ j, enc_MarshalValue o = Ok j) ∨ (∃ e, enc_MarshalValue o = Err e);
  enc_roundtrip o :
    wire_ok o = true →
    ∃ j o', enc_MarshalValue o = Ok j ∧ enc_UnmarshalValue j = Ok o' ∧
      enc_MarshalValue o' = Ok j ∧ wire_ok o' = true ∧ ∀ k st, cspec k o' st = cspec k o st
}.

(** ** Publish/subscribe: the invariant and what [Emit] does *)
Definition chan_open (p : pubsub) (c : nat) : Prop := ∃ b, chans p !! c = Some (Chan b false).

(** Subscribed channels are open, and so are those waiting to be closed; none
    is listed twice. *)
Definition pubsub_ok (p : pubsub) : Prop :=
  NoDup (app (subscribers p) (toClose p)) ∧
  Forall (chan_open p) (app (subscribers p) (toClose p)) ∧
  ∀ c, is_Some (chans p !! c) → (c < next_chan p)%nat.

Definition chan_full (p : pubsub) (c : nat) : Prop :=
  ∃ ch, chans p !! c = Some ch ∧ (chanBufSize ≤ Z.of_nat (length (ch_buf ch)))%Z.

Definition close_of (ch : chan) : chan := Chan (ch_buf ch) true.
Definition push (o : op) (ch : chan) : chan := Chan (app (ch_buf ch) [o]) (ch_closed ch).

Definition with_chans (f : gmap nat chan → gmap nat chan) (p : pubsub) : pubsub :=
  PubSub (toClose p) (subscribers p) (f (chans p)) (next_chan p).

Definition alter_all (f : chan → chan) (cs : list nat) (m : gmap nat chan) : gmap nat chan :=
  foldl (λ m c, alter f c m) m cs.

(** The state after an operation was announced. *)
Definition emitted (o : op) (p : pubsub) : pubsub :=
  PubSub [] (subscribers p)
    (alter_all (push o) (subscribers p) (alter_all close_of (toClose p) (chans p))) (next_chan p).

Lemma alter_all_lookup f cs m c :
  NoDup cs → alter_all f cs m !! c = if decide (c ∈ cs) then f <$> m !! c else m !! c.
Proof.
  unfold alter_all. revert m. induction cs as [|c' cs IH]; intros m Hnd; cbn [foldl].
  { by rewrite decide_False by (by apply not_elem_of_nil). }
  inversion Hnd as [|?? Hc Hnd']; subst. rewrite IH by done. rewrite lookup_alter.
  destruct (decide (c' = c)) as [->|Hne].
  - rewrite decide_False by done. by rewrite decide_True by left.
  - destruct (decide (c ∈ cs)); [by rewrite decide_True by (by right)|].
    by rewrite decide_False by (rewrite not_elem_of_cons; done).
Qed.

(** A loop that changes one channel per step, as long as it does not block. *)
Lemma each_alter (act : nat → M pubsub unit) (f : chan → chan) (P : chan → Prop) :
  (∀ c p ch, chans p !! c = Some ch → P ch → act c p = (Ok tt, with_chans (alter f c) p)) →
  ∀ cs p, NoDup cs → Forall (λ c, ∃ ch, chans p !! c = Some ch ∧ P ch) cs →
  each act cs p = (Ok tt, with_chans (alter_all f cs) p).
Proof.
  intros Hact cs. induction cs as [|c cs IH]; intros p Hnd Hall; [by destruct p|].
  apply Forall_cons in Hall as [(ch & Hch & Hp) Hall]. inversion Hnd as [|?? Hc Hnd']; subst.
  cbn [each]. rewrite (bind_Ok _ _ _ _ _ (Hact _ _ _ Hch Hp)). rewrite IH; [done|done|].
  apply Forall_forall. intros c' Hc'. rewrite Forall_forall in Hall. destruct (Hall c' Hc') as (ch' & Hch' & Hp').
  exists ch'. split; [|done]. cbn. by rewrite lookup_alter_ne by (intros ->; done).
Qed.

Lemma close_chan_run c p ch :
  chans p !! c = Some ch → ch_closed ch = false → close_chan c p = (Ok tt, with_chans (alter close_of c) p).
Proof.
  intros Hc Hcl. destruct ch as [b cl]. cbn in Hcl. subst. unfold close_chan. m_unfold. rewrite Hc.
  unfold put, with_chans. do 2 f_equal. apply map_eq. intros i. rewrite lookup_insert, lookup_alter.
  case_decide; [|done]. subst. by rewrite Hc.
Qed.

Definition has_room (ch : chan) : Prop :=
  ch_closed ch = false ∧ (Z.of_nat (length (ch_buf ch)) < chanBufSize)%Z.

Lemma send_chan_run o c p ch :
  chans p !! c = Some ch → has_room ch → send_chan o c p = (Ok tt, with_chans (alter (push o) c) p).
Proof.
  intros Hc [Hcl Hlen]. destruct ch as [b cl]. cbn in *. subst. unfold send_chan. m_unfold. rewrite Hc.
  rewrite bool_decide_eq_true_2 by done. unfold put, with_chans. do 2 f_equal. apply map_eq. intros i.
  rewrite lookup_insert, lookup_alter. case_decide; [|done]. subst. by rewrite Hc.
Qed.

Lemma send_chan_full o c p b :
  chans p !! c = Some (Chan b false) → (chanBufSize ≤ Z.of_nat (length b))%Z → send_chan o c p = (Hang, p).
Proof.
  intros Hc Hlen. unfold send_chan. m_unfold. rewrite Hc. by rewrite bool_decide_eq_false_2 by lia.
Qed.

Lemma each_send_full o cs p :
  NoDup cs → Forall (chan_open p) cs → Exists (chan_full p) cs → ∃ p', each (send_chan o) cs p = (Hang, p').
Proof.
  revert p. induction cs as [|c cs IH]; intros p Hnd Hopen Hfull; [by apply Exists_nil in Hfull|].
  apply Forall_cons in Hopen as [[b Hb] Hopen]. inversion Hnd as [|?? Hc Hnd']; subst. cbn [each].
  destruct (decide (Z.of_nat (length b) < chanBufSize)%Z) as [Hlt|Hge].
  2: { exists p. apply bind_Hang. apply (send_chan_full _ _ _ b); [done|lia]. }
  assert (Hother : ∀ c', c' ∈ cs → chans (with_chans (alter (push o) c) p) !! c' = chans p !! c').
  { intros c' Hc'. cbn. by rewrite lookup_alter_ne by (intros ->; done). }
  destruct (IH (with_chans (alter (push o) c) p)) as [p' Hp']; [done|..].
  - rewrite Forall_forall in *. intros c' Hc'. unfold chan_open. rewrite Hother by done. by apply Hopen.
  - apply Exists_cons in Hfull as [(ch & Hch & Hlen)|Hfull].
    + rewrite Hb in Hch. simplify_eq. cbn in Hlen. lia.
    + apply Exists_exists in Hfull as (c' & Hc' & ch & Hch & Hlen). apply Exists_exists.
      exists c'. split; [done|]. exists ch. by rewrite Hother.
  - exists p'. rewrite (bind_Ok _ _ _ tt (with_chans (alter (push o) c) p)); [done|].
    by apply (send_chan_run _ _ _ (Chan b false)).
Qed.

Lemma Emit_closing o p :
  pubsub_ok p →
  Emit o p = each (send_chan o) (subscribers p)
    (PubSub [] (subscribers p) (alter_all close_of (toClose p) (chans p)) (next_chan p)).
Proof.
  intros (Hnd & Hopen & _). apply NoDup_app in Hnd as (_ & _ & Hnd). apply Forall_app in Hopen as [_ Hopen].
  unfold Emit. rewrite (bind_Ok _ _ p p p) by done.
  case_bool_decide as Hlen.
  - rewrite (bind_Ok _ _ _ tt (PubSub [] (subscribers p) (alter_all close_of (toClose p) (chans p)) (next_chan p))); [done|].
    rewrite (bind_Ok _ _ _ tt (with_chans (alter_all close_of (toClose p)) p)); [done|].
    apply (each_alter _ _ (λ ch, ch_closed ch = false)); [intros; by eapply close_chan_run|done|].
    eapply Forall_impl; [exact Hopen|]. intros c [b Hb]. by exists (Chan b false).
  - destruct p as [tc ? ? ?]; cbn in *. destruct tc; [done|cbn in Hlen; lia].
Qed.

#[global] Instance chan_full_dec p c : Decision (chan_full p c).
Proof.
  destruct (chans p !! c) as [ch|] eqn:E.
  - destruct (decide (chanBufSize ≤ Z.of_nat (length (ch_buf ch)))%Z) as [Hle|Hlt].
    + left. by exists ch.
    + right. intros (ch' & Hch' & Hle). by simplify_eq.
  - right. intros (ch' & Hch' & _). by rewrite E in Hch'.
Defined.

(** [Emit] blocks exactly when a subscriber's buffer is full. *)
Lemma Emit_run o p :
  pubsub_ok p →
  if decide (Exists (chan_full p) (subscribers p)) then ∃ p', Emit o p = (Hang, p')
  else Emit o p = (Ok tt, emitted o p).
Proof.
  intros Hok. rewrite Emit_closing by done. destruct Hok as (Hnd & Hopen & _).
  apply NoDup_app in Hnd as (Hnd & Hdisj & Hnd'). apply Forall_app in Hopen as [Hopen _].
  set (p0 := PubSub _ _ _ _).
  assert (Hlk : ∀ c, c ∈ subscribers p → chans p0 !! c = chans p !! c).
  { intros c Hc. cbn. rewrite alter_all_lookup by done. rewrite decide_False; [done|by apply Hdisj]. }
  rewrite Forall_forall in Hopen. case_decide as Hfull.
  - apply each_send_full; [done|..].
    + apply Forall_forall. intros c Hc. unfold chan_open. rewrite Hlk by done. by apply Hopen.
    + apply Exists_exists in Hfull as (c & Hc & ch & Hch & Hlen). apply Exists_exists. exists c.
      split; [done|]. exists ch. by rewrite Hlk.
  - change (emitted o p) with (with_chans (alter_all (push o) (subscribers p)) p0).
    apply (each_alter _ _ has_room); [intros; by eapply send_chan_run|done|].
    apply Forall_forall. intros c Hc. destruct (Hopen c Hc) as [b Hb]. exists (Chan b false).
    rewrite Hlk by done. split; [done|]. split; [done|]. cbn.
    destruct (decide (Z.of_nat (length b) < chanBufSize)%Z); [done|]. exfalso. apply Hfull, Exists_exists.
    exists c. split; [done|]. exists (Chan b false). split; [done|]. cbn. lia.
Qed.

Lemma emitted_lookup o p c :
  pubsub_ok p → c ∈ subscribers p → chans (emitted o p) !! c = push o <$> chans p !! c.
Proof.
  intros (Hnd & _ & _) Hc. apply NoDup_app in Hnd as (Hnd & Hdisj & Hnd'). cbn.
  rewrite !alter_all_lookup by done. rewrite decide_True by done. by rewrite decide_False by (by apply Hdisj).
Qed.

Lemma emitted_ok o p : pubsub_ok p → pubsub_ok (emitted o p).
Proof.
  intros Hok. pose proof Hok as (Hnd & Hopen & Hnext). split_and!.
  - cbn. rewrite app_nil_r. by apply NoDup_app in Hnd as [? _].
  - cbn [subscribers toClose emitted]. rewrite app_nil_r. apply Forall_app in Hopen as [Hopen _].
    rewrite Forall_forall in *. intros c Hc. destruct (Hopen c Hc) as [b Hb].
    exists (app b [o]). rewrite emitted_lookup by done. by rewrite Hb.
  - apply NoDup_app in Hnd as (Hnd & Hdisj & Hnd'). intros c. cbn. rewrite !alter_all_lookup by done.
    intros Hs. apply Hnext. repeat case_decide; [by destruct (chans p !! c); [|destruct Hs]..|done].
Qed.

Lemma subscribe_ok p :
  pubsub_ok p →
  pubsub_ok (PubSub (toClose p) (next_chan p :: subscribers p)
    (<[next_chan p := Chan [] false]> (chans p)) (S (next_chan p))).
Proof.
  intros (Hnd & Hopen & Hnext). unfold pubsub_ok. cbn [subscribers toClose chans next_chan app].
  assert (Hfresh : ∀ c, chan_open p c → c ≠ next_chan p).
  { intros c [b Hb] ->. specialize (Hnext (next_chan p) ltac:(eauto)). lia. }
  rewrite Forall_forall in Hopen. split_and!.
  - constructor; [|done]. intros Hin. by destruct (Hfresh _ (Hopen _ Hin)).
  - apply Forall_cons. split; [exists []; cbn; by rewrite lookup_insert_eq|]. apply Forall_forall.
    intros c Hc. pose proof (Hfresh c (Hopen c Hc)). destruct (Hopen c Hc) as [b Hb]. exists b. cbn.
    by rewrite lookup_insert_ne.
  - intros c. rewrite lookup_insert. case_decide; [lia|]. intros Hs. specialize (Hnext c Hs). lia.
Qed.

Lemma removeSubscriber_ok p c :
  pubsub_ok p → c ∈ subscribers p → pubsub_ok (removeSubscriber c p).2.
Proof.
  intros (Hnd & Hopen & Hnext) Hc. unfold removeSubscriber, modify. cbn [snd].
  assert (Hperm : app (filter (λ c', c' ≠ c) (subscribers p)) (app (toClose p) [c]) ≡ₚ app (subscribers p) (toClose p)).
  { apply NoDup_app in Hnd as (Hnd & _ & _). rewrite (Permutation_app_comm (toClose p)), app_assoc. f_equiv.
    clear Hopen Hnext. induction (subscribers p) as [|c' cs IH]; [by apply elem_of_nil in Hc|].
    inversion Hnd as [|?? Hc' Hnd']; subst. destruct (decide (c' = c)) as [->|Hne].
    - rewrite filter_cons_False by tauto. rewrite filter_all; [by rewrite Permutation_app_comm|].
      apply Forall_forall. intros x Hx ->. done.
    - rewrite filter_cons_True by done. cbn. f_equiv. apply IH; [done|]. by apply elem_of_cons in Hc as [->|]. }
  unfold pubsub_ok. cbn [subscribers toClose chans next_chan]. split_and!; [|rewrite Hperm|done].
  - by rewrite Hperm.
  - exact Hopen.
Qed.

(** ** The invariant of the log *)
Definition op_kind_of (t : Z) : option op_kind :=
  if bool_decide (t = OpCreate) then Some DoCreate
  else if bool_decide (t = OpUpdate) then Some DoUpdate
  else if bool_decide (t = OpDelete) then Some DoDelete
  else None.

Section LogSpec.
Context `{CR : CRUD} {CL : CrudLaws} `{EN : Encoding} {EL : EncodingLaws}.

Definition spec_op (o : op) (st : cstate) : option cstate :=
  k ← op_kind_of (op_typ o); cspec k (op_value o) st.

Definition spec_replay (ops : list op) (st : cstate) : option cstate :=
  foldl (λ acc o, acc ≫= spec_op o) (Some st) ops.

(** The row that records an operation, when its value can be encoded. *)
Definition log_row (o : op) : option row :=
  match enc_MarshalValue (op_value o) with
  | Ok j => Some (list_to_map [("seq", SInt (op_seq o)); ("type", SInt (op_typ o)); ("value", SBlob j);
                               ("timestamp", STime 0)])
  | _ => None
  end.

Definition numbered (ops : list op) : Prop := ∀ i o, ops !! i = Some o → op_seq o = (1 + Z.of_nat i)%Z.

(** [ops] is the history of the database [d], which started as [st0]. *)
Record log_inv (st0 : cstate) (ops : list op) (d : db) : Prop := {
  li_cinv : cinv d;
  li_rows : log_row <$> ops = Some <$> rows_of d "log";
  li_numbered : numbered ops;
  li_sequence : rows_of d "sequence" = [{["seq" := SInt (Z.of_nat (length ops))]}];
  li_data : spec_replay ops st0 = Some (cabs d);
  li_bound : (Z.of_nat (length ops) < 2 ^ 63)%Z
}.

(** Operations that the log and its readers cannot tell apart. *)
Definition op_eqv (o o' : op) : Prop :=
  op_seq o' = op_seq o ∧ op_typ o' = op_typ o ∧
  enc_MarshalValue (op_value o') = enc_MarshalValue (op_value o) ∧
  wire_ok (op_value o') = wire_ok (op_value o) ∧
  ∀ k st, cspec k (op_value o') st = cspec k (op_value o) st.

Definition op_wire (o : op) : Prop := wire_ok (op_value o) = true.

#[export] Instance op_eqv_equivalence : Equivalence op_eqv.
Proof.
  split.
  - intros o. unfold op_eqv. split_and!; done.
  - intros o1 o2 (? & ? & ? & ? & Hs). unfold op_eqv. split_and!; done.
  - intros o1 o2 o3 (H1 & H2 & H3 & H4 & H5) (G1 & G2 & G3 & G4 & G5). unfold op_eqv.
    split_and!; [congruence..|]. intros. by rewrite G5, H5.
Qed.

(** *** Histories up to equivalence *)
Lemma spec_op_eqv o o' st : op_eqv o o' → spec_op o' st = spec_op o st.
Proof. intros (_ & Ht & _ & _ & Hs). unfold spec_op. rewrite Ht. destruct (op_kind_of _); cbn; auto. Qed.

Lemma spec_replay_snoc ops o st : spec_replay (app ops [o]) st = (spec_replay ops st ≫= spec_op o).
Proof. unfold spec_replay. by rewrite foldl_app. Qed.

Lemma spec_replay_eqv ops ops' st : Forall2 op_eqv ops ops' → spec_replay ops' st = spec_replay ops st.
Proof.
  revert ops'. induction ops as [|o ops IH] using rev_ind; intros ops' Hall.
  - by inversion Hall.
  - apply Forall2_app_inv_l in Hall as (l1 & l2 & H1 & H2 & ->).
    inversion H2 as [|? o' ? ? Ho Hn]; subst. inversion Hn; subst.
    rewrite !spec_replay_snoc, (IH _ H1). destruct (spec_replay ops st); cbn; [|done]. by apply spec_op_eqv.
Qed.

Lemma log_row_eqv o o' : op_eqv o o' → log_row o' = log_row o.
Proof. intros (Hs & Ht & Hm & _). unfold log_row. by rewrite Hm, Hs, Ht. Qed.

Lemma numbered_eqv ops ops' : Forall2 op_eqv ops ops' → numbered ops → numbered ops'.
Proof.
  intros Hall Hn i o' Ho'. destruct (Forall2_lookup_r _ _ _ _ _ Hall Ho') as (o & Ho & (-> & _)). by apply Hn.
Qed.

Lemma log_inv_eqv st0 ops ops' d : Forall2 op_eqv ops ops' → log_inv st0 ops d → log_inv st0 ops' d.
Proof.
  intros Hall [Hc Hr Hn Hs Hd Hb]. pose proof (Forall2_length _ _ _ Hall) as Hlen. split.
  - done.
  - rewrite <- Hr. clear -Hall. induction Hall as [|o o' ops ops' Ho Hall IH]; [done|].
    cbn. f_equal; [by apply log_row_eqv|done].
  - by eapply numbered_eqv.
  - by rewrite <- Hlen.
  - by rewrite (spec_replay_eqv _ _ _ Hall).
  - by rewrite <- Hlen.
Qed.

Lemma numbered_snoc ops o :
  numbered ops → op_seq o = (1 + Z.of_nat (length ops))%Z → numbered (app ops [o]).
Proof.
  intros Hn Ho i x Hx. apply lookup_app_Some in Hx as [Hx|[Hi Hx]]; [by apply Hn|].
  apply list_lookup_singleton_Some in Hx as [Hi0 <-]. rewrite Ho. f_equal. f_equal. lia.
Qed.

(** *** The sequence table *)
Lemma rows_of_table d t tb : tables d !! t = Some tb → rows_of d t = t_rows tb.
Proof. intros Ht. unfold rows_of. by rewrite Ht. Qed.

Lemma log_inv_sequence st0 ops d : log_inv st0 ops d → GetSequence d = Z.of_nat (length ops).
Proof.
  intros [Hc _ _ Hs _ Hb]. unfold GetSequence. destruct (cinv_sequence d Hc) as (tb & Ht & _).
  rewrite Ht. rewrite (rows_of_table _ _ _ Ht) in Hs. rewrite Hs.
  unfold row_get. rewrite lookup_singleton_eq.
  unfold scan_uint64, scan_int. m_unfold. unfold uint64_ok. cbn. rewrite bool_decide_eq_true_2; [done|lia].
Qed.

Lemma log_inv_next st0 ops d :
  log_inv st0 ops d → GetNextSequence d = (1 + Z.of_nat (length ops))%Z.
Proof.
  intros Hinv. unfold GetNextSequence. rewrite (log_inv_sequence _ _ _ Hinv).
  destruct Hinv. unfold uint64_wrap. rewrite Z.mod_small; lia.
Qed.

Lemma SetSequence_run d z v :
  cinv d → rows_of d "sequence" = [{["seq" := SInt z]}] → (v < 2 ^ 63)%Z →
  ∃ d', SetSequence v d = (Ok tt, d') ∧ cinv d' ∧ cabs d' = cabs d ∧
    rows_of d' "sequence" = [{["seq" := SInt v]}] ∧ rows_of d' "log" = rows_of d "log".
Proof.
  intros Hc Hs Hv. destruct (cinv_sequence d Hc) as (tb & Ht & Hsc).
  rewrite (rows_of_table _ _ _ Ht) in Hs.
  assert (Hrun : update_where "sequence" [("seq", SInt v)] [] d =
                 (Ok tt, set_rows "sequence" [{["seq" := SInt v]}] d)).
  { unfold update_where, get_table, guard_sql. m_unfold. rewrite Ht, Hsc, Hs. reflexivity. }
  exists (set_rows "sequence" [{["seq" := SInt v]}] d).
  destruct (cinv_sequence_update _ _ _ _ Hc Hrun) as [Hc' Ha'].
  split_and!; [|done|done|..].
  - unfold SetSequence, uint64_param. rewrite bool_decide_eq_true_2 by done. m_unfold. exact Hrun.
  - rewrite (rows_of_set_rows _ _ _ _ _ Ht). by rewrite decide_True.
  - rewrite (rows_of_set_rows _ _ _ _ _ Ht). by rewrite decide_False.
Qed.

(** *** The log table *)
Definition log_vals (o : op) (j : json) : list (string * sqlval) :=
  [("seq", SInt (op_seq o)); ("type", SInt (op_typ o)); ("timestamp", STime 0); ("value", SBlob j)].

Lemma AppendToLog_insert o j d :
  enc_MarshalValue (op_value o) = Ok j → (op_seq o < 2 ^ 63)%Z →
  AppendToLog o d = insert_into "log" (log_vals o j) d.
Proof.
  intros Hj Hs. unfold AppendToLog, serialize, ops_args, uint64_param. m_unfold. rewrite Hj. cbn [os_Seq].
  rewrite bool_decide_eq_true_2 by done. cbn [NamedExec insert_log_stmt]. reflexivity.
Qed.

Lemma log_full_row o j :
  enc_MarshalValue (op_value o) = Ok j → log_row o = Some (full_row log_schema (log_vals o j)).
Proof. intros Hj. unfold log_row. rewrite Hj. reflexivity. Qed.

Lemma log_row_seq o r : log_row o = Some r → row_get r "seq" = SInt (op_seq o).
Proof. unfold log_row. destruct (enc_MarshalValue _); intros; by simplify_eq. Qed.

Lemma log_rows_fresh ops rows o r :
  numbered ops → log_row <$> ops = Some <$> rows → log_row o = Some r →
  op_seq o = (1 + Z.of_nat (length ops))%Z → pk_fresh log_schema rows r = true.
Proof.
  intros Hn Hr Ho Hs. unfold pk_fresh, log_schema, pk_vals; cbn [s_pk]. apply bool_decide_eq_true.
  rewrite (log_row_seq o r Ho). intros (r' & Hr' & Hin)%list_elem_of_fmap.
  apply list_elem_of_lookup in Hin as [i Hi].
  assert (Hl : (log_row <$> ops) !! i = Some (Some r')) by (rewrite Hr, list_lookup_fmap, Hi; done).
  rewrite list_lookup_fmap in Hl. apply fmap_Some in Hl as (o' & Ho' & Hrow). symmetry in Hrow.
  apply log_row_seq in Hrow. rewrite Hrow in Hr'. simplify_eq. rewrite (Hn _ _ Ho') in Hr'.
  apply lookup_lt_Some in Ho'. lia.
Qed.

Lemma AppendToLog_run ops d o j :
  cinv d → numbered ops → log_row <$> ops = Some <$> rows_of d "log" →
  enc_MarshalValue (op_value o) = Ok j → op_seq o = (1 + Z.of_nat (length ops))%Z → (op_seq o < 2 ^ 63)%Z →
  ∃ d', AppendToLog o d = (Ok tt, d') ∧ cinv d' ∧ cabs d' = cabs d ∧
    log_row <$> app ops [o] = Some <$> rows_of d' "log" ∧ rows_of d' "sequence" = rows_of d "sequence".
Proof.
  intros Hc Hn Hr Hj Hs Hb. destruct (cinv_log d Hc) as (tb & Ht & Hsc).
  rewrite (rows_of_table _ _ _ Ht) in Hr.
  pose proof (log_rows_fresh _ _ _ _ Hn Hr (log_full_row o j Hj) Hs) as Hfresh.
  set (d' := set_rows "log" (app (t_rows tb) [full_row log_schema (log_vals o j)]) d).
  assert (Hrun : insert_into "log" (log_vals o j) d = (Ok tt, d')).
  { unfold insert_into, get_table, guard_sql. m_unfold. rewrite Ht, Hsc. cbn [cols_known].
    change (cols_known log_schema (log_vals o j).*1) with true. cbn iota.
    change (notnull_ok log_schema (full_row log_schema (log_vals o j))) with true. cbn iota.
    rewrite Hfresh. reflexivity. }
  exists d'. destruct (cinv_log_insert _ _ _ Hc Hrun) as [Hc' Ha'].
  split_and!; [by rewrite (AppendToLog_insert o j)|done|done|..]; unfold d'; rewrite (rows_of_set_rows _ _ _ _ _ Ht).
  - rewrite decide_True by done. rewrite !fmap_app, Hr. f_equal. cbn. f_equal. by apply log_full_row.
  - by rewrite decide_False.
Qed.

Lemma AppendToLog_marshal_err o e d : enc_MarshalValue (op_value o) = Err e → AppendToLog o d = (Err e, d).
Proof. intros He. unfold AppendToLog, serialize. m_unfold. by rewrite He. Qed.

(** *** Applying an operation *)
Lemma ApplyOp_run o d r d' :
  cinv d → ApplyOp o d = (r, d') →
  cinv d' ∧ rows_of d' "log" = rows_of d "log" ∧ rows_of d' "sequence" = rows_of d "sequence" ∧
  match r with
  | Ok _ => spec_op o (cabs d) = Some (cabs d')
  | Err _ => spec_op o (cabs d) = None ∧ d' = d
  | _ => False
  end.
Proof.
  intros Hc Hrun. unfold spec_op, op_kind_of.
  assert (Hgen : ∀ k, crud_run k (op_value o) d = (r, d') →
    cinv d' ∧ rows_of d' "log" = rows_of d "log" ∧ rows_of d' "sequence" = rows_of d "sequence" ∧
    match r with
    | Ok _ => cspec k (op_value o) (cabs d) = Some (cabs d')
    | Err _ => cspec k (op_value o) (cabs d) = None ∧ d' = d
    | _ => False
    end).
  { intros k Hk. destruct (crud_refines _ _ _ _ _ Hc Hk) as [Hc' Hr]. split_and!; [done|..|done].
    - unfold rows_of. erewrite crud_frame; [done|done| |done]. set_solver.
    - unfold rows_of. erewrite crud_frame; [done|done| |done]. set_solver. }
  unfold ApplyOp in Hrun. repeat case_bool_decide.
  - by apply (Hgen DoCreate).
  - by apply (Hgen DoUpdate).
  - by apply (Hgen DoDelete).
  - m_unfold. by inv_run.
Qed.

(** The body of the transaction, once the sequence number is known. *)
Definition apply_body (o : op) : M logdb unit :=
  _ ← on_db (ApplyOp o); _ ← on_db (AppendToLog o); _ ← on_db (SetSequence (op_seq o)); on_pubsub (Emit o).

Lemma on_db_run {A} (m : M db A) s r d : m (ld_db s) = (r, d) → on_db m s = (r, LogDb d (ld_pubsub s)).
Proof. intros Hm. unfold on_db. cbn. by rewrite Hm. Qed.

Lemma apply_body_ok st0 ops s o j st' :
  log_inv st0 ops (ld_db s) → pubsub_ok (ld_pubsub s) →
  op_seq o = (1 + Z.of_nat (length ops))%Z → (op_seq o < 2 ^ 63)%Z →
  spec_op o (cabs (ld_db s)) = Some st' → enc_MarshalValue (op_value o) = Ok j →
  ∃ d', log_inv st0 (app ops [o]) d' ∧
    if decide (Exists (chan_full (ld_pubsub s)) (subscribers (ld_pubsub s)))
    then ∃ p', apply_body o s = (Hang, LogDb d' p')
    else apply_body o s = (Ok tt, LogDb d' (emitted o (ld_pubsub s))).
Proof.
  intros Hinv Hps Hs Hb Hspec Hj. destruct Hinv as [Hc Hr Hn Hseq Hd _].
  destruct (ApplyOp o (ld_db s)) as [r d1] eqn:Hap.
  destruct (ApplyOp_run _ _ _ _ Hc Hap) as (Hc1 & Hl1 & Hq1 & Hres).
  destruct r as [[]|e|p|]; [|destruct Hres; congruence|done|done].
  destruct (AppendToLog_run ops d1 o j) as (d2 & Hrun2 & Hc2 & Ha2 & Hl2 & Hq2); [done|done|by rewrite Hl1|done..|].
  destruct (SetSequence_run d2 (Z.of_nat (length ops)) (op_seq o)) as (d3 & Hrun3 & Hc3 & Ha3 & Hq3 & Hl3);
    [done|congruence|done|].
  exists d3. split.
  - split; [done|by rewrite Hl3|by apply numbered_snoc| | |].
    + rewrite Hq3, Hs, length_app. cbn. do 4 f_equal. lia.
    + rewrite spec_replay_snoc, Hd. cbn. by rewrite Hres, Ha3, Ha2.
    + rewrite length_app. cbn. lia.
  - unfold apply_body. rewrite (bind_Ok _ _ _ _ _ (on_db_run _ s _ _ Hap)).
    rewrite (bind_Ok _ _ _ _ _ (on_db_run _ (LogDb d1 _) _ _ Hrun2)). cbn [ld_pubsub].
    rewrite (bind_Ok _ _ _ _ _ (on_db_run _ (LogDb d2 _) _ _ Hrun3)). cbn [ld_pubsub].
    pose proof (Emit_run o _ Hps) as He. unfold on_pubsub. cbn [ld_pubsub ld_db].
    case_decide; [destruct He as [p' ->]; by eauto|by rewrite He].
Qed.

Lemma apply_body_err st0 ops s o :
  log_inv st0 ops (ld_db s) →
  spec_op o (cabs (ld_db s)) = None ∨ (∃ e, enc_MarshalValue (op_value o) = Err e) →
  ∃ e d', apply_body o s = (Err e, LogDb d' (ld_pubsub s)).
Proof.
  intros [Hc _ _ _ _ _] Hfail. destruct (ApplyOp o (ld_db s)) as [r d1] eqn:Hap.
  destruct (ApplyOp_run _ _ _ _ Hc Hap) as (Hc1 & _ & _ & Hres). unfold apply_body.
  destruct r as [[]|e|p|]; [|exists e, d1; apply bind_Err; by apply on_db_run|done|done].
  destruct Hfail as [Hfail|[e He]]; [congruence|].
  rewrite (bind_Ok _ _ _ _ _ (on_db_run _ s _ _ Hap)). exists e, d1.
  apply bind_Err, (on_db_run _ (LogDb d1 (ld_pubsub s))). by apply AppendToLog_marshal_err.
Qed.

(** What [Apply] does, for an operation of the writer ([fromLog] false: it gets
    the next number) and for one from a log whose number is the next one. *)
Definition sequenced (o : op) (fromLog : bool) (n : nat) : op :=
  if fromLog then o else WithSequence o (1 + Z.of_nat n).

Lemma Apply_body env st0 ops s o fromLog :
  log_inv st0 ops (ld_db s) →
  crudLogSink_Apply env o fromLog s = WithTx env (apply_body (sequenced o fromLog (length ops))) s.
Proof.
  intros Hinv. unfold crudLogSink_Apply, WithTransaction, WithTx. destruct (begin_err env); [done|].
  rewrite (bind_Ok _ _ s (ld_db s) s) by done. cbn zeta. by rewrite (log_inv_next _ _ _ Hinv).
Qed.

Lemma Apply_run env st0 ops s o fromLog r s' :
  log_inv st0 ops (ld_db s) → pubsub_ok (ld_pubsub s) → commit_err env = None →
  (Z.of_nat (length ops) + 1 < 2 ^ 63)%Z → (fromLog = true → op_seq o = (1 + Z.of_nat (length ops))%Z) →
  crudLogSink_Apply env o fromLog s = (r, s') →
  let o' := sequenced o fromLog (length ops) in
  match r with
  | Ok _ => log_inv st0 (app ops [o']) (ld_db s') ∧ ld_pubsub s' = emitted o' (ld_pubsub s)
  | Err _ => s' = s ∧ (begin_err env ≠ None ∨ spec_op o' (cabs (ld_db s)) = None ∨
                       ∃ e, enc_MarshalValue (op_value o) = Err e)
  | Panic _ => False
  | Hang => Exists (chan_full (ld_pubsub s)) (subscribers (ld_pubsub s))
  end.
Proof.
  intros Hinv Hps Hcommit Hb Hfrom Hrun. rewrite (Apply_body _ _ _ _ _ _ Hinv) in Hrun.
  intros o'. unfold WithTx in Hrun. fold o' in Hrun.
  assert (Hseq : op_seq o' = (1 + Z.of_nat (length ops))%Z) by (unfold o', sequenced; destruct fromLog; [by apply Hfrom|done]).
  assert (Hval : op_value o' = op_value o) by (by unfold o'; destruct fromLog).
  destruct (begin_err env) as [e|]; [inv_run; split; [done|by left]|].
  destruct (spec_op o' (cabs (ld_db s))) as [st'|] eqn:Hspec;
    [destruct (enc_total (op_value o')) as [[j Hj]|[e He]]|].
  - destruct (apply_body_ok st0 ops s o' j st') as (d' & Hinv' & Hres); [done|done|done|lia|done|done|].
    case_decide; [destruct Hres as [p' Hres]|]; rewrite Hres, ?Hcommit in Hrun; inv_run; done.
  - destruct (apply_body_err st0 ops s o' Hinv ltac:(eauto)) as (e' & d' & Hres). rewrite Hres in Hrun.
    inv_run. split; [by destruct s|]. right; right. rewrite <- Hval. eauto.
  - destruct (apply_body_err st0 ops s o' Hinv ltac:(eauto)) as (e' & d' & Hres). rewrite Hres in Hrun.
    inv_run. split; [by destruct s|]. by right; left.
Qed.

(** *** Reading the log back *)
Lemma log_row_scan o r :
  log_row o = Some r → op_wire o → (0 ≤ op_seq o < 2 ^ 63)%Z → ∃ o', scanOp r = Ok o' ∧ op_eqv o o'.
Proof.
  intros Hr Hw Hs. destruct (enc_roundtrip _ Hw) as (j & v & Hm & Hu & Hm' & Hw' & Hsp).
  unfold log_row in Hr. rewrite Hm in Hr. simplify_eq.
  exists (mkOp (op_seq o) (op_typ o) 0 v). split.
  - unfold scanOp.
    change (row_get _ "seq") with (SInt (op_seq o)). change (row_get _ "type") with (SInt (op_typ o)).
    change (row_get _ "value") with (SBlob j). change (row_get _ "timestamp") with (STime 0).
    unfold scan_uint64, scan_int, uint64_ok, scan_time. m_unfold. rewrite bool_decide_eq_true_2 by lia.
    unfold decode. cbn [os_Value]. m_unfold. by rewrite Hu.
  - unfold op_eqv. cbn. rewrite Hm, Hm', Hw', Hw. split_and!; done.
Qed.

Lemma log_rows_scan ops rows :
  log_row <$> ops = Some <$> rows → Forall op_wire ops → Forall (λ o, 0 ≤ op_seq o < 2 ^ 63)%Z ops →
  ∃ pre, res_map scanOp rows = Ok pre ∧ Forall2 op_eqv ops pre.
Proof.
  revert rows. induction ops as [|o ops IH]; intros rows Hr Hw Hs; destruct rows as [|r rows]; try done.
  - exists []. split; [done|constructor].
  - cbn in Hr. inversion Hr as [[Ho Hr']]. apply Forall_cons in Hw as [Hw Hws]. apply Forall_cons in Hs as [Hs Hss].
    destruct (log_row_scan o r Ho Hw Hs) as (o' & Hsc & Heq). destruct (IH rows Hr' Hws Hss) as (pre & Hpre & Hall).
    exists (o' :: pre). cbn. m_unfold. rewrite Hsc, Hpre. split; [done|by constructor].
Qed.

Lemma numbered_rows ops rows i r :
  numbered ops → log_row <$> ops = Some <$> rows → rows !! i = Some r → row_seq r = (1 + Z.of_nat i)%Z.
Proof.
  intros Hn Hr Hi. assert (Hl : (log_row <$> ops) !! i = Some (Some r)) by (rewrite Hr, list_lookup_fmap, Hi; done).
  rewrite list_lookup_fmap in Hl. apply fmap_Some in Hl as (o & Ho & Hrow). symmetry in Hrow.
  unfold row_seq. rewrite (log_row_seq _ _ Hrow). by apply Hn.
Qed.

Lemma numbered_bounds ops :
  numbered ops → (Z.of_nat (length ops) < 2 ^ 63)%Z → Forall (λ o, 0 ≤ op_seq o < 2 ^ 63)%Z ops.
Proof.
  intros Hn Hb. apply Forall_lookup. intros i o Ho. rewrite (Hn i o Ho). apply lookup_lt_Some in Ho. lia.
Qed.

Lemma rows_since ops rows start :
  numbered ops → log_row <$> ops = Some <$> rows → (0 ≤ start)%Z →
  sort_by row_seq (filter (λ r, sql_int_ge (row_get r "seq") start = true) rows) = drop (Z.to_nat (start - 1)) rows.
Proof.
  intros Hn Hr Hs.
  assert (Hseq : ∀ i r, rows !! i = Some r → row_seq r = (1 + Z.of_nat i)%Z) by (intros; by eapply numbered_rows).
  assert (Hfil : filter (λ r, sql_int_ge (row_get r "seq") start = true) rows =
                 filter (λ r, 1 + Z.of_nat (Z.to_nat (start - 1)) ≤ row_seq r)%Z rows).
  { apply filter_ext_in, Forall_lookup. intros i r Hi. specialize (Hseq i r Hi). unfold row_seq in *.
    destruct (row_get r "seq"); [lia| |lia..]. cbn. rewrite bool_decide_eq_true. lia. }
  rewrite Hfil, (filter_ge_drop row_seq rows _ 1) by done.
  apply (sort_by_sorted _ _ (1 + Z.of_nat (Z.to_nat (start - 1)))). intros i r Hi.
  rewrite lookup_drop in Hi. rewrite (Hseq _ _ Hi). lia.
Qed.

Lemma QueryLogSince_run st0 ops d start :
  log_inv st0 ops d → Forall op_wire ops → (0 ≤ start < 2 ^ 63)%Z →
  ∃ pre, QueryLogSince start d = (Ok pre, d) ∧ Forall2 op_eqv (drop (Z.to_nat (start - 1)) ops) pre.
Proof.
  intros Hinv Hw Hs. destruct Hinv as [Hc Hr Hn _ _ Hb]. destruct (cinv_log d Hc) as (tb & Ht & _).
  rewrite (rows_of_table _ _ _ Ht) in Hr. set (k := Z.to_nat (start - 1)).
  destruct (log_rows_scan (drop k ops) (drop k (t_rows tb))) as (pre & Hpre & Hall).
  - by rewrite !fmap_drop, Hr.
  - by apply Forall_drop.
  - by apply Forall_drop, numbered_bounds.
  - exists pre. split; [|done]. unfold QueryLogSince, uint64_param, get_table.
    rewrite bool_decide_eq_true_2 by lia. m_unfold. rewrite Ht.
    rewrite (rows_since ops) by (done || lia). fold k. unfold lift_res. by rewrite Hpre.
Qed.

(** *** Subscribing *)
Definition subscribed (p : pubsub) : pubsub :=
  PubSub (toClose p) (next_chan p :: subscribers p) (<[next_chan p := Chan [] false]> (chans p)) (S (next_chan p)).

(** The log determines the history. *)
Lemma log_inv_history st0 st1 ops ops' d :
  log_inv st0 ops d → log_inv st1 ops' d → Forall op_wire ops → Forall op_wire ops' → Forall2 op_eqv ops ops'.
Proof.
  intros Hl Hl' Hw Hw'. destruct (QueryLogSince_run st0 ops d 1) as (pre & Hq & H1); [done..|lia|].
  destruct (QueryLogSince_run st1 ops' d 1) as (pre' & Hq' & H2); [done..|lia|]. rewrite Hq in Hq'. injection Hq' as <-.
  etrans; [exact H1|by symmetry].
Qed.

Lemma Subscribe_run env st0 ops s start r s' :
  log_inv st0 ops (ld_db s) → Forall op_wire ops → commit_err env = None → uint64_ok start = true →
  crudLogSource_Subscribe env start s = (r, s') →
  match r with
  | Ok sub => (start ≤ 1 + Z.of_nat (length ops))%Z ∧
      Forall2 op_eqv (drop (Z.to_nat (start - 1)) ops) (sub_preload sub) ∧
      sub_ch sub = next_chan (ld_pubsub s) ∧ s' = LogDb (ld_db s) (subscribed (ld_pubsub s))
  | Err e => s' = s ∧ ((∃ e', begin_err env = Some e' ∧ e = ESql e') ∨ e = ErrHorizon ∧ (1 + Z.of_nat (length ops) < start)%Z ∨
                       e = ESql SqlBind ∧ start = (2 ^ 63)%Z)
  | _ => False
  end.
Proof.
  intros Hinv Hw Hcommit Hu Hrun. unfold crudLogSource_Subscribe, WithTransaction, WithTx in Hrun.
  destruct (begin_err env) as [e|]; [inv_run; by eauto|].
  rewrite (bind_Ok _ _ s (ld_db s) s) in Hrun by done.
  fold (GetNextSequence (ld_db s)) in Hrun. rewrite (log_inv_next _ _ _ Hinv) in Hrun.
  apply bool_decide_eq_true in Hu. pose proof (li_bound _ _ _ Hinv) as Hb.
  case_bool_decide as Hh; [m_unfold; inv_run; split; [by destruct s|by auto]|].
  destruct (decide (start < 2 ^ 63)%Z) as [Hlt|Hge].
  - destruct (QueryLogSince_run st0 ops (ld_db s) start) as (pre & Hq & Hall); [done|done|lia|].
    rewrite (bind_Ok _ _ _ _ _ (on_db_run _ s _ _ Hq)) in Hrun. destruct s as [d p].
    cbn [ld_db ld_pubsub] in *. unfold on_pubsub, make_chan, AddSubscriber in Hrun. m_unfold.
    cbn in Hrun. rewrite Hcommit in Hrun. inv_run. split_and!; [lia|done..].
  - assert (Hq : QueryLogSince start (ld_db s) = (Err (ESql SqlBind), ld_db s)).
    { unfold QueryLogSince, uint64_param. rewrite bool_decide_eq_false_2 by lia. by m_unfold. }
    rewrite (bind_Err _ _ _ _ _ (on_db_run _ s _ _ Hq)) in Hrun. inv_run. split; [by destruct s|]. right; right. split; [done|lia].
Qed.

(** An operation survives its JSON form: it decodes to one with the same
    number and type, the same encoded value and the same effect on the store;
    only its timestamp is lost (it becomes the zero time). *)
Lemma op_json_roundtrip o :
  op_wire o → uint64_ok (op_seq o) = true → (- 2 ^ 63 ≤ op_typ o < 2 ^ 63)%Z →
  ∃ j o', op_MarshalJSON o = Ok j ∧ op_UnmarshalJSON j = Ok o' ∧ op_eqv o o' ∧ op_timestamp o' = 0%Z.
Proof.
  intros Hw Hs Ht. destruct (enc_roundtrip _ Hw) as (j & v & Hm & Hu & Hm' & Hw' & Hsp).
  eexists _, (mkOp (op_seq o) (op_typ o) 0 v). split_and!.
  - unfold op_MarshalJSON, serialize. m_unfold. rewrite Hm. unfold marshal_time, time_json_ok.
    cbn [os_Timestamp]. rewrite bool_decide_eq_true_2 by lia. reflexivity.
  - unfold op_UnmarshalJSON. change (jfield _ "seq") with (JNum (op_seq o)).
    change (jfield _ "type") with (JNum (op_typ o)). change (jfield _ "value") with (JData j).
    change (jfield _ "timestamp") with (JTime 0). unfold get_uint64, get_int, get_time. rewrite Hs.
    rewrite bool_decide_eq_true_2 by done. m_unfold. unfold decode. cbn [os_Value]. m_unfold. by rewrite Hu.
  - unfold op_eqv. cbn [op_seq op_typ op_value]. rewrite Hm, Hm', Hw', Hw. split_and!; done.
  - done.
Qed.

End LogSpec.

(** ** The datastore provides what the log relies on *)
Lemma named_args_get o o' c v v' :
  named_args o' = named_args o → named_args o' !! c = Some v' → named_args o !! c = Some v → v' = v.
Proof. intros -> H1 H2. congruence. Qed.

Lemma spec_dispatch_args k o o' st :
  typeOf o' = typeOf o → named_args o' = named_args o → spec_dispatch k o' st = spec_dispatch k o st.
Proof.
  intros Ht Ha. destruct o as [p|i|t|j], o' as [p'|i'|t'|j']; try discriminate Ht.
  - pose proof (named_args_get _ _ "public_key" _ _ Ha eq_refl eq_refl) as [= Hk].
    pose proof (named_args_get _ _ "interface" _ _ Ha eq_refl eq_refl) as [= Hi].
    destruct k; cbn [spec_dispatch spec_create spec_update spec_delete]; by rewrite Hk, ?Hi, ?Ha.
  - pose proof (named_args_get _ _ "name" _ _ Ha eq_refl eq_refl) as [= Hk].
    destruct k; cbn [spec_dispatch spec_create spec_update spec_delete]; by rewrite Hk, ?Ha.
  - pose proof (named_args_get _ _ "id" _ _ Ha eq_refl eq_refl) as [= Hk].
    destruct k; cbn [spec_dispatch spec_create spec_update spec_delete]; by rewrite Hk, ?Ha.
  - by destruct k.
Qed.

(** Changing the rows of a table of the log changes no data. *)
Lemma frame_rows_abs t rs d tb :
  frame_table t → tables d !! t = Some tb →
  abs (set_rows t rs d) = abs d ∧ (keys_ok d → keys_ok (set_rows t rs d)).
Proof.
  intros Hf Ht.
  assert (Hr : ∀ t', t' ∈ ["peers"; "interfaces"; "tokens"] → rows_of (set_rows t rs d) t' = rows_of d t').
  { intros t' Ht'. rewrite (rows_of_set_rows _ _ _ _ _ Ht). rewrite decide_False; [done|]. intros ->. by apply Hf. }
  unfold abs, keys_ok. rewrite !Hr by set_solver. done.
Qed.

Lemma frame_log : frame_table "log".
Proof. unfold frame_table. by set_solver. Qed.

Lemma frame_sequence : frame_table "sequence".
Proof. unfold frame_table. by set_solver. Qed.

Lemma store_inv_log_insert d vs d' :
  store_inv d → insert_into "log" vs d = (Ok tt, d') → store_inv d' ∧ abs d' = abs d.
Proof.
  intros [[Hok Hsc] Hk] Hrun. pose proof (insert_into_db_ok _ _ _ _ Hok Hrun) as Hok'.
  pose proof (insert_into_schemas _ _ _ _ Hrun) as Hsc'.
  apply insert_into_Ok in Hrun as (tb & Ht & _ & _ & _ & _ & ->).
  destruct (frame_rows_abs "log" (app (t_rows tb) [full_row (t_schema tb) vs]) d tb frame_log Ht) as [Ha Hk'].
  split; [|done]. split; [split; [done|congruence]|by apply Hk'].
Qed.

Lemma store_inv_sequence_update d vs w d' :
  store_inv d → update_where "sequence" vs w d = (Ok tt, d') → store_inv d' ∧ abs d' = abs d.
Proof.
  intros [[Hok Hsc] Hk] Hrun. pose proof (update_where_db_ok _ _ _ _ _ Hok Hrun) as Hok'.
  pose proof (update_where_schemas _ _ _ _ _ Hrun) as Hsc'.
  apply update_where_Ok in Hrun as (tb & Ht & _ & _ & _ & ->).
  edestruct (frame_rows_abs "sequence") as [Ha Hk']; [apply frame_sequence|exact Ht|].
  split; [|exact Ha]. split; [split; [done|congruence]|by apply Hk'].
Qed.

Section ModelLaws.
Context (ord : list sqlTableAdapter) (fuel : nat).

#[export] Program Instance model_crud_laws : @CrudLaws (model_crud ord fuel) :=
  {| cstate := store; cabs := abs; cinv := store_inv; cspec := spec_dispatch |}.
Next Obligation. intros k o d r d' Hinv Hrun. apply dispatch_refines; [done|]. by destruct k. Qed.
Next Obligation.
  intros k o d r d' t Hinv Ht Hrun. eapply (dispatch_frame k o); [apply Hinv| |by destruct k].
  apply elem_of_cons in Ht as [->|Ht]; [apply frame_log|].
  apply list_elem_of_singleton in Ht as ->. apply frame_sequence.
Qed.
Next Obligation. intros d [Hok _]. destruct (table_of d "log" log_schema Hok eq_refl) as (tb & ? & ? & _). eauto. Qed.
Next Obligation. intros d [Hok _]. destruct (table_of d "sequence" sequence_schema Hok eq_refl) as (tb & ? & ? & _). eauto. Qed.
Next Obligation. exact store_inv_log_insert. Qed.
Next Obligation. exact store_inv_sequence_update. Qed.

#[export] Program Instance model_encoding_laws :
  @EncodingLaws (model_crud ord fuel) model_crud_laws model_encoding :=
  {| wire_ok := obj_wire_ok |}.
Next Obligation.
  intros o. cbn. unfold MarshalValue, json_Marshal, marshal_time. m_unfold.
  destruct o; repeat case_match; simplify_eq; eauto.
Qed.
Next Obligation.
  intros o Hw. destruct (encoding_roundtrip o Hw) as (j & o' & H1 & H2 & H3 & H4 & H5 & H6).
  exists j, o'. split_and!; [done..|]. intros. cbn. by apply spec_dispatch_args.
Qed.

End ModelLaws.

(** The empty store, and the datastore as created. *)
Definition empty_store : store := mkStore ∅ ∅ ∅.

Lemma initial_rows_of t : rows_of initial_db t = if decide (t = "sequence") then [{["seq" := SInt 0]}] else [].
Proof.
  unfold rows_of. destruct (tables initial_db !! t) as [tb|] eqn:Ht; [by apply initial_db_rows|].
  case_decide; [|done]. subst. vm_compute in Ht. discriminate.
Qed.

Lemma initial_store_inv : store_inv initial_db.
Proof.
  split; [apply initial_store_ok|]. unfold keys_ok, typed_keys. rewrite !initial_rows_of. repeat constructor.
Qed.

Lemma initial_abs : abs initial_db = empty_store.
Proof. unfold abs. rewrite !initial_rows_of. reflexivity. Qed.

Lemma initial_log_inv ord fuel :
  log_inv (CL := model_crud_laws ord fuel) empty_store [] initial_db.
Proof.
  split; [apply initial_store_inv| |by intros ?? | | |done].
  - rewrite initial_rows_of. reflexivity.
  - rewrite initial_rows_of. reflexivity.
  - change (cabs initial_db) with (abs initial_db). by rewrite initial_abs.
Qed.

Lemma newPubSub_ok : pubsub_ok newPubSub.
Proof. split_and!; [constructor|constructor|]. intros c [ch Hc]. cbn in Hc. by apply lookup_empty_Some in Hc. Qed.

(** ** Properties *)
Section Properties.
Context (ord : list sqlTableAdapter) (fuel : nat).
#[local] Existing Instance model_encoding.
#[local] Instance the_crud : CRUD := model_crud ord fuel.

(** [ops] is the complete history of a datastore created empty. *)
Definition history (ops : list op) (d : db) : Prop := log_inv empty_store ops d.

End Properties.


Definition sample_ord : list sqlTableAdapter := [PeerType; InterfaceType; TokenType].
Definition sample_interface : obj := OInterface (mkInterface "wg0" 51820 (Some (cidr4 10 0 0 1 24)) None 0 "" "").
Definition sample_peer : obj := OPeer (mkPeer "pk" "wg0" (Some (cidr4 10 0 0 2 32)) None 5).


(** C6: a subscription misses nothing: on a datastore whose log is its complete
    history, subscribing from [start] returns the recorded changes from number
    [start] on, in order and equivalent to the originals (same number, type,
    encoded value and effect on the store), and registers a new, empty channel
    in the same step, leaving the database and all other channels as they were;
    it reports [ErrHorizon] exactly for a start beyond the next number. *)
Theorem Subscribe_complete ord fuel env ops s start r s' :
  history ord fuel ops (ld_db s) → Forall (λ o, obj_wire_ok (op_value o) = true) ops →
  env = tx_ok → (0 ≤ start < 2 ^ 63)%Z →
  crudLogSource_Subscribe env start s = (r, s') →
  match r with
  | Ok sub =>
      (start ≤ 1 + Z.of_nat (length ops))%Z ∧
      Forall2 (op_eqv (EL := model_encoding_laws ord fuel)) (drop (Z.to_nat (start - 1)) ops) (sub_preload sub) ∧
      sub_ch sub = next_chan (ld_pubsub s) ∧ ld_db s' = ld_db s ∧
      subscribers (ld_pubsub s') = sub_ch sub :: subscribers (ld_pubsub s) ∧
      ∀ c, chans (ld_pubsub s') !! c =
        if decide (c = sub_ch sub) then Some (Chan [] false) else chans (ld_pubsub s) !! c
  | Err e => e = ErrHorizon ∧ s' = s ∧ (1 + Z.of_nat (length ops) < start)%Z
  | _ => False
  end.
Proof.
  intros Hinv Hw -> Hs Hrun.
  assert (Hu : uint64_ok start = true) by (apply bool_decide_eq_true; lia).
  pose proof (Subscribe_run (EL := model_encoding_laws ord fuel) tx_ok _ _ _ _ _ _ Hinv Hw eq_refl Hu Hrun) as Hres.
  destruct r as [sub|e| |]; [|destruct Hres as [-> [(? & ? & _)|[[-> ?]|[_ ->]]]]; [done|done|lia]|done..].
  destruct Hres as (Hle & Hall & Hch & ->). split_and!; try done; cbn.
  - by rewrite Hch.
  - intros c. rewrite lookup_insert, Hch. by repeat case_decide; subst.
Qed.

Lemma Subscribe_complete_witness :
  let s := (crudLogSink_Apply (H := model_crud sample_ord 1) tx_ok (newOp 7 OpCreate sample_interface) false
             (Wrap initial_db)).2 in
  ∃ sub s', crudLogSource_Subscribe tx_ok 1 s = (Ok sub, s') ∧
    Forall2 (op_eqv (EL := model_encoding_laws sample_ord 1))
      [WithSequence (newOp 7 OpCreate sample_interface) 1] (sub_preload sub).
Proof.
  set (o := newOp 7 OpCreate sample_interface). cbn zeta.
  set (s := (crudLogSink_Apply _ _ _ _).2).
  assert (Hh : history sample_ord 1 [WithSequence o 1] (ld_db s)).
  { apply (Apply_run (CL := model_crud_laws sample_ord 1) (EL := model_encoding_laws sample_ord 1)
      tx_ok empty_store [] (Wrap initial_db) o false (Ok tt) s);
      [apply initial_log_inv|apply newPubSub_ok|done|done|done|vm_compute; reflexivity]. }
  destruct (crudLogSource_Subscribe tx_ok 1 s) as [r s'] eqn:E.
  assert (Hok : is_ok r = true) by (replace r with (crudLogSource_Subscribe tx_ok 1 s).1 by (by rewrite E); vm_compute; reflexivity).
  pose proof (Subscribe_complete sample_ord 1 tx_ok [WithSequence o 1] s 1 r s' Hh
    ltac:(repeat constructor) eq_refl ltac:(lia) E) as Hres.
  destruct r as [sub|e|p|]; [|discriminate..]. exists sub, s'. split; [reflexivity|]. apply Hres.
Defined.

(** C29: subscribers are told before the change is durable: when only the
    commit fails, [Apply] returns its error and the database is as before, yet
    every subscriber has received the change. *)
Theorem Apply_emits_before_commit ord fuel e ops s o j st' :
  history ord fuel ops (ld_db s) → pubsub_ok (ld_pubsub s) → (Z.of_nat (length ops) + 1 < 2 ^ 63)%Z →
  let o' := sequenced o false (length ops) in
  spec_op (CL := model_crud_laws ord fuel) o' (abs (ld_db s)) = Some st' →
  MarshalValue model (op_value o) = Ok j →
  (∀ c, c ∈ subscribers (ld_pubsub s) → ¬ chan_full (ld_pubsub s) c) →
  crudLogSink_Apply (H := model_crud ord fuel) (TxEnv None (Some e)) o false s =
    (Err (ESql e), LogDb (ld_db s) (emitted o' (ld_pubsub s))).
Proof.
  intros Hinv Hps Hb o' Hspec Hj Hroom.
  rewrite (Apply_body (CL := model_crud_laws ord fuel) _ _ _ _ _ _ Hinv). unfold WithTx. cbn [begin_err commit_err].
  destruct (apply_body_ok (CL := model_crud_laws ord fuel)
    empty_store ops s o' j st') as (d' & _ & Hres); [done|done|done|cbn; lia|done|done|].
  rewrite decide_False in Hres; [|by rewrite Exists_exists; intros (c & Hc & Hf); exact (Hroom c Hc Hf)].
  fold o'. by rewrite Hres.
Qed.

Lemma Apply_emits_before_commit_witness :
  let s := (crudLogSource_Subscribe tx_ok 1 (Wrap initial_db)).2 in
  let o := newOp 7 OpCreate sample_interface in
  crudLogSink_Apply (H := model_crud sample_ord 1) (TxEnv None (Some SqlIO)) o false s =
    (Err (ESql SqlIO), LogDb (ld_db s) (emitted (WithSequence o 1) (ld_pubsub s))) ∧
  chans (emitted (WithSequence o 1) (ld_pubsub s)) !! 0%nat = Some (Chan [WithSequence o 1] false).
Proof.
  set (s := (crudLogSource_Subscribe tx_ok 1 (Wrap initial_db)).2). cbn zeta.
  assert (Hs : s = LogDb initial_db (subscribed newPubSub)) by (vm_compute; reflexivity).
  split; [|vm_compute; reflexivity]. rewrite Hs.
  eapply (Apply_emits_before_commit sample_ord 1 SqlIO [] (LogDb initial_db (subscribed newPubSub))
    (newOp 7 OpCreate sample_interface)).
  - apply initial_log_inv.
  - apply subscribe_ok, newPubSub_ok.
  - done.
  - vm_compute; reflexivity.
  - vm_compute; reflexivity.
  - intros c Hc (ch & Hch & Hlen). cbn in Hc. apply list_elem_of_singleton in Hc as ->. vm_compute in Hch.
    inversion Hch; subst. vm_compute in Hlen. by apply Hlen.
Defined.

(** *** The life of a subscription

    Between the operations of the log the publish/subscribe state changes by
    new subscriptions, closed subscriptions, announcements that did not block,
    and receives. *)
Inductive ps_step : pubsub → pubsub → Prop :=
| ps_subscribe p : ps_step p (subscribed p)
| ps_close p c : c ∈ subscribers p → ps_step p (removeSubscriber c p).2
| ps_emit p o p' : Emit o p = (Ok tt, p') → ps_step p p'
| ps_recv p c o p' : recv_chan c p = (Ok (Some o), p') → ps_step p p'.

Lemma recv_chan_ok p c o p' : pubsub_ok p → recv_chan c p = (Ok (Some o), p') → pubsub_ok p'.
Proof.
  intros (Hnd & Hopen & Hnext) Hrun. unfold recv_chan in Hrun. m_unfold.
  destruct (chans p !! c) as [[[|o' b] cl]|] eqn:Hc; [destruct cl; inv_run|inv_run|inv_run].
  split_and!; cbn.
  - done.
  - rewrite Forall_forall in *. intros c' Hc'. destruct (Hopen c' Hc') as [b' Hb'].
    destruct (decide (c = c')) as [->|Hne].
    + rewrite Hb' in Hc. simplify_eq. exists b. cbn. by rewrite lookup_insert_eq.
    + exists b'. cbn. by rewrite lookup_insert_ne.
  - intros c'. rewrite lookup_insert. case_decide; [subst; intros; apply Hnext; by eexists|by apply Hnext].
Qed.

Lemma ps_step_ok p p' : pubsub_ok p → ps_step p p' → pubsub_ok p'.
Proof.
  intros Hok Hstep. destruct Hstep as [p|p c Hc|p o p' He|p c o p' Hr].
  - by apply subscribe_ok.
  - by apply removeSubscriber_ok.
  - pose proof (Emit_run o p Hok) as Hrun. case_decide; [destruct Hrun as [? Hrun]; congruence|].
    rewrite Hrun in He. inv_run. by apply emitted_ok.
  - by eapply recv_chan_ok.
Qed.

Lemma ps_reachable_ok p : rtc ps_step newPubSub p → pubsub_ok p.
Proof.
  intros Hr. assert (Hgen : ∀ p0, pubsub_ok p0 → rtc ps_step p0 p → pubsub_ok p).
  { intros p0 Hok Hrtc. induction Hrtc; eauto using ps_step_ok. }
  by apply (Hgen newPubSub), Hr; apply newPubSub_ok.
Qed.

(** C15: announcing never panics: after any sequence of subscriptions, closings
    (each subscription once), announcements and receives, [Emit] delivers the
    operation to every subscriber, at the end of its queue, closes the channels
    whose subscriptions were closed and keeps all others as they are; or it
    blocks, and then some subscriber's buffer is full. *)
Theorem Emit_delivers p o r p' :
  rtc ps_step newPubSub p → Emit o p = (r, p') →
  match r with
  | Ok _ =>
      toClose p' = [] ∧ subscribers p' = subscribers p ∧
      ∀ c, chans p' !! c =
        if decide (c ∈ subscribers p) then push o <$> chans p !! c
        else if decide (c ∈ toClose p) then close_of <$> chans p !! c
        else chans p !! c
  | Hang => ∃ c, c ∈ subscribers p ∧ chan_full p c
  | _ => False
  end.
Proof.
  intros Hok%ps_reachable_ok Hrun. pose proof (Emit_run o p Hok) as He.
  case_decide as Hfull; [destruct He as [p0 He]|]; rewrite He in Hrun; inv_run; [by apply Exists_exists|].
  split_and!; [done..|]. intros c. destruct Hok as (Hnd & _ & _). apply NoDup_app in Hnd as (Hnd & Hdisj & Hnd').
  cbn. rewrite !alter_all_lookup by done. destruct (decide (c ∈ subscribers p)) as [Hc|]; [|done].
  by rewrite decide_False by (by apply Hdisj).
Qed.

Lemma Emit_delivers_witness :
  let p := subscribed newPubSub in
  let o := newOp 7 OpCreate sample_interface in
  chans (Emit o p).2 !! 0%nat = push o <$> chans p !! 0%nat.
Proof.
  cbn zeta. set (o := newOp 7 OpCreate sample_interface).
  destruct (Emit_delivers (subscribed newPubSub) o (Ok tt) (Emit o (subscribed newPubSub)).2) as (_ & _ & Hc).
  - eapply rtc_l; [apply ps_subscribe|reflexivity].
  - vm_compute. reflexivity.
  - exact (Hc 0%nat).
Defined.

(** C31: a snapshot can never be loaded into the datastore: whatever the
    snapshot, [LoadSnapshot] of the SQL sink is still running in the
    dispatcher's [DeleteAll], whatever depth of its recursion is followed, with
    nothing changed. *)
Theorem LoadSnapshot_never_returns ord fuel env snap s :
  iteration_of model ord → begin_err env = None →
  crudLogSink_LoadSnapshot (H := model_crud ord fuel) env snap s = (Hang, s).
Proof.
  intros Hord Hb. unfold crudLogSink_LoadSnapshot, WithTransaction, WithTx. rewrite Hb.
  erewrite bind_Hang; [|apply on_db_run; cbn; by apply DeleteAll_never_returns]. by destruct s.
Qed.

Lemma LoadSnapshot_never_returns_witness :
  crudLogSink_LoadSnapshot (H := model_crud (map_to_list (byName model)).*2 20) tx_ok
    (Some (mkSnapshot 3 [sample_interface])) (Wrap initial_db) = (Hang, Wrap initial_db).
Proof.
  exact (LoadSnapshot_never_returns (map_to_list (byName model)).*2 20 tx_ok _ _ (Permutation_refl _) eq_refl).
Defined.

Lemma Snapshot_syntax ord fuel env s :
  iteration_of model ord →
  crudLogSource_Snapshot (H := model_crud ord fuel) env s =
    match begin_err env with None => (Err (ESql SqlSyntax), s) | Some _ => (Ok None, s) end.
Proof.
  intros Hord. unfold crudLogSource_Snapshot, WithROTransaction, WithTx. m_unfold.
  destruct (begin_err env); [by m_unfold|].
  unfold snapshot_body, collect. cbn [crud_Each model_crud fst].
  rewrite (Each_fails (S := logdb * list obj) ord) by done. cbn. by destruct s.
Qed.

(** A sequence number survives its text form, and different numbers have
    different texts. *)
Lemma ParseSequence_roundtrip u :
  uint64_ok u = true →
  ParseSequence (Sequence_String u) = Ok u ∧
  ∀ v, uint64_ok v = true → Sequence_String v = Sequence_String u → v = u.
Proof.
  unfold uint64_ok. rewrite bool_decide_eq_true. intros Hu. split; [by apply parse_uint_hex|].
  intros v Hv%bool_decide_eq_true Heq. pose proof (parse_uint_hex v Hv) as H1. unfold Sequence_String in Heq.
  rewrite Heq, (parse_uint_hex u Hu) in H1. by inversion H1.
Qed.
