(* ===== verification/Follow.v ===== *)
(** * Replication: following a log

    [crudlog/follow.go] over the interfaces of [crudlog/interfaces.go]: a
    source of snapshots and subscriptions, a sink that applies operations.
    First the code of [doFollow] and [Follow]; then a system of one datastore
    and any number of followers whose steps interleave: writes on the
    datastore, connections, the forwarding goroutine of each subscription,
    applications of received operations, disconnections.  The invariant of the
    system is that every follower holds a prefix of the datastore's history and
    that its queues hold the rest, in order and without gaps. *)

From Stdlib Require Import Ascii.
From S2P Require Import Prelude GoStrings Sql SqlText Sqlite Net Model Crud CrudSpec CrudLog CrudLogSpec.
Local Open Scope string_scope.

(** ** Interfaces

    [E] is what the environment decides about a call: whether transactions
    begin and commit for a database, whether the network works for a remote
    source. *)
Class LogSource (P E : Type) : Type := {
  src_sub : Type;
  src_Snapshot : E → M P (option memSnapshot);
  src_Subscribe : E → Z → M P src_sub;
  src_Close : src_sub → M P unit
}.

Class LogSink (F E : Type) : Type := {
  sink_Apply : E → op → bool → M F unit;
  sink_LatestSequence : E → M F Z;
  sink_LoadSnapshot : E → option memSnapshot → M F unit
}.

#[export] Instance sql_source `{CRUD} `{Encoding} : LogSource logdb tx_env :=
  {| src_sub := subscription; src_Snapshot := crudLogSource_Snapshot;
     src_Subscribe := crudLogSource_Subscribe; src_Close := subscription_Close |}.

#[export] Instance sql_sink `{CRUD} `{Encoding} : LogSink logdb tx_env :=
  {| sink_Apply := crudLogSink_Apply; sink_LatestSequence := crudLogSink_LatestSequence;
     sink_LoadSnapshot := crudLogSink_LoadSnapshot |}.

(** ** doFollow *)
Definition on_fst {P F A} (m : M P A) : M (P * F) A := λ s,
  match m s.1 with (r, p) => (r, (p, s.2)) end.
Definition on_snd {P F A} (m : M F A) : M (P * F) A := λ s,
  match m s.2 with (r, f) => (r, (s.1, f)) end.

(** [fmt.Errorf("...: %w", err)] *)
Definition wrap_err {S A} (msg : string) (m : M S A) : M S A := λ s,
  match m s with (Err e, s') => (Err (EWrap msg e), s') | p => p end.

(** What the environment decides about the calls of one [doFollow]. *)
Record follow_env (EP EF : Type) : Type := FollowEnv {
  fe_latest : EF;
  fe_subscribe : EP;
  fe_snapshot : EP;
  fe_load : EF;
  fe_retry : EP;
  fe_apply : EF }.
Arguments FollowEnv {EP EF} _ _ _ _ _ _.
Arguments fe_latest {EP EF} _.
Arguments fe_subscribe {EP EF} _.
Arguments fe_snapshot {EP EF} _.
Arguments fe_load {EP EF} _.
Arguments fe_retry {EP EF} _.
Arguments fe_apply {EP EF} _.

(** What the loop of [doFollow] receives: an operation, the nil of a closed
    channel, the end of the context. *)
Inductive follow_event : Type := EvOp (o : op) | EvClosed | EvDone (e : err).

Section DoFollow.
Context {P EP F EF : Type} `{LogSource P EP} `{LogSink F EF}.

(** Up to the subscription: from the sink's sequence, or from a snapshot when
    that is past the source's horizon. *)
Definition follow_start (env : follow_env EP EF) : M (P * F) src_sub :=
  start ← on_snd (sink_LatestSequence (fe_latest env));
  r ← try (on_fst (src_Subscribe (fe_subscribe env) (uint64_wrap (start + 1))));
  match r with
  | inl sub => mret sub
  | inr e =>
      if errors_Is e ErrHorizon then
        snap ← wrap_err "Snapshot() error" (on_fst (src_Snapshot (fe_snapshot env)));
        _ ← wrap_err "loading snapshot" (on_snd (sink_LoadSnapshot (fe_load env) snap));
        match snap with
        | None => panic "nil pointer dereference"
        | Some snap =>
            wrap_err "subscription error" (on_fst (src_Subscribe (fe_retry env) (uint64_wrap (SeqNum snap + 1))))
        end
      else fail (EWrap "subscription error" e)
  end.

(** One turn of the loop: whether it goes on. *)
Definition follow_iter (env : EF) (ev : follow_event) : M F bool :=
  match ev with
  | EvOp o => _ ← wrap_err "sequence" (sink_Apply env o true); mret true
  | EvClosed => mret false
  | EvDone e => fail e
  end.

(** The loop over what it receives; at the end of the list it is waiting. *)
Fixpoint follow_loop (env : EF) (evs : list follow_event) : M F unit :=
  match evs with
  | [] => hang
  | ev :: evs => continue ← follow_iter env ev; if (continue : bool) then follow_loop env evs else mret tt
  end.

(** [defer sub.Close()] *)
Definition deferred {S A} (cleanup : M S unit) (m : M S A) : M S A := λ s,
  match m s with
  | (Hang, s') => (Hang, s')
  | (r, s') => match cleanup s' with
               | (Panic p, s'') => (Panic p, s'')
               | (Hang, s'') => (Hang, s'')
               | (_, s'') => (r, s'')
               end
  end.

Definition doFollow (env : follow_env EP EF) (evs : list follow_event) : M (P * F) unit :=
  sub ← follow_start env;
  deferred (on_fst (src_Close sub)) (on_snd (follow_loop (fe_apply env) evs)).

(** [Follow] starts over when [doFollow] returns nil; at the end of the list
    of rounds it is still running. *)
Fixpoint Follow (rounds : list (follow_env EP EF * list follow_event)) : M (P * F) unit :=
  match rounds with
  | [] => hang
  | (env, evs) :: rounds => _ ← doFollow env evs; Follow rounds
  end.

End DoFollow.

(** ** A datastore and its followers *)

(** A connected follower: its subscription, what its forwarding goroutine has
    still to send (the preloaded operations, the one it holds) and the buffer
    of the channel that [Notify] returned. *)
Record conn : Type := Conn {
  cn_sub : subscription;
  cn_preload : list op;
  cn_hand : option op;
  cn_out : list op }.

Record follower (F : Type) : Type := Follower { fl_sink : F; fl_conn : option conn }.
Arguments Follower {F} _ _.
Arguments fl_sink {F} _.
Arguments fl_conn {F} _.

(** [subscription.Notify]: a new buffered channel and a goroutine that forwards
    to it the preloaded operations, then those of the subscription's channel. *)
Definition Notify (sub : subscription) : conn := Conn sub (sub_preload sub) None [].

(** One step of the goroutine: take the next operation, or pass it on. *)
Definition notify_step (c : conn) : M pubsub conn :=
  match cn_hand c with
  | Some o =>
      if bool_decide (Z.of_nat (length (cn_out c)) < chanBufSize)%Z
      then mret (Conn (cn_sub c) (cn_preload c) None (app (cn_out c) [o]))
      else hang
  | None =>
      match cn_preload c with
      | o :: rest => mret (Conn (cn_sub c) rest (Some o) (cn_out c))
      | [] =>
          r ← recv_chan (sub_ch (cn_sub c));
          match r with
          | Some o => mret (Conn (cn_sub c) [] (Some o) (cn_out c))
          | None => hang
          end
      end
  end.

Section System.
Context `{CR : CRUD} {CL : CrudLaws} `{EN : Encoding} {EL : EncodingLaws}.
Context {F EF : Type} `{SK : LogSink F EF}.

(** The steps of one follower, on the datastore's state and its own. *)
Definition fl_connect (env : follow_env tx_env EF) : M (logdb * follower F) unit := λ '(s, f),
  match fl_conn f with
  | Some _ => (Hang, (s, f))
  | None =>
      match follow_start env (s, fl_sink f) with
      | (Ok sub, (s', k)) => (Ok tt, (s', Follower k (Some (Notify sub))))
      | (Err e, (s', k)) => (Err e, (s', Follower k None))
      | (Panic p, (s', k)) => (Panic p, (s', Follower k None))
      | (Hang, (s', k)) => (Hang, (s', Follower k None))
      end
  end.

Definition fl_notify : M (logdb * follower F) unit := λ '(s, f),
  match fl_conn f with
  | None => (Hang, (s, f))
  | Some c =>
      match on_pubsub (notify_step c) s with
      | (Ok c', s') => (Ok tt, (s', Follower (fl_sink f) (Some c')))
      | (Err e, s') => (Err e, (s', f))
      | (Panic p, s') => (Panic p, (s', f))
      | (Hang, s') => (Hang, (s', f))
      end
  end.

(** The loop receives [ev]; unless it goes on, the deferred [Close] runs. *)
Definition fl_leave (c : conn) (r : res unit) (s : logdb) (k : F) : res unit * (logdb * follower F) :=
  (r, ((subscription_Close (cn_sub c) s).2, Follower k None)).

Definition fl_receive (env : EF) : M (logdb * follower F) unit := λ '(s, f),
  match fl_conn f with
  | Some c =>
      match cn_out c with
      | o :: rest =>
          match follow_iter env (EvOp o) (fl_sink f) with
          | (Ok _, k) => (Ok tt, (s, Follower k (Some (Conn (cn_sub c) (cn_preload c) (cn_hand c) rest))))
          | (Err e, k) => fl_leave c (Err e) s k
          | (Panic p, k) => fl_leave c (Panic p) s k
          | (Hang, k) => (Hang, (s, Follower k (Some c)))
          end
      | [] => (Hang, (s, f))
      end
  | None => (Hang, (s, f))
  end.

Definition fl_cancel (e : err) : M (logdb * follower F) unit := λ '(s, f),
  match fl_conn f with
  | Some c => fl_leave c (Err e) s (fl_sink f)
  | None => (Hang, (s, f))
  end.

Record system : Type := System { sys_src : logdb; sys_followers : gmap nat (follower F) }.

(** A call that came back. *)
Definition returned {A} (r : res A) : bool := match r with Ok _ | Err _ => true | _ => false end.

(** ** What a sink promises

    [sink_rep ops f]: the sink [f] holds exactly the effect of [ops], applied
    from the state [st0].  [sink_takes st o]: the sink is made for an operation
    like [o] when the state is [st] (a datastore is made for all of them). *)
Class SinkLaws (st0 : cstate) : Type := {
  sink_rep : list op → F → Prop;
  sink_takes : cstate → op → Prop;
  sink_commits : EF → Prop;
  sink_up : EF → Prop;
  sink_takes_eqv st o o' : op_eqv o o' → sink_takes st o → sink_takes st o';
  sink_latest ops f e :
    sink_rep ops f → sink_up e → sink_LatestSequence e f = (Ok (Z.of_nat (length ops)), f);
  sink_apply ops f e o r f' :
    sink_rep ops f → sink_commits e → op_seq o = (1 + Z.of_nat (length ops))%Z →
    (Z.of_nat (length ops) + 1 < 2 ^ 63)%Z → is_Some (spec_replay (app ops [o]) st0) →
    (∀ st, spec_replay ops st0 = Some st → sink_takes st o) →
    sink_Apply e o true f = (r, f') →
    match r with
    | Ok _ => sink_rep (app ops [o]) f'
    | Err _ => sink_rep ops f'
    | Panic _ => False
    | Hang => True
    end
}.

Context (st0 : cstate) {SL : SinkLaws st0}.

(** Every operation of a history was one that the sink is made for. *)
Definition takes_all (ops : list op) : Prop :=
  ∀ pre o post st, ops = app pre (o :: post) → spec_replay pre st0 = Some st → sink_takes st o.

(** *** Steps.  The environment may refuse a transaction; that commits do not
    fail once the statements have succeeded is assumed, and so is that the
    sink can be read when a follower connects. *)
Inductive sys_step : system → system → Prop :=
| step_write s fs env typ v now r s' :
    commit_err env = None → wire_ok v = true → (GetSequence (ld_db s) + 1 < 2 ^ 63)%Z →
    sink_takes (cabs (ld_db s)) (WithSequence (newOp now typ v) (GetNextSequence (ld_db s))) →
    crudLogSink_Apply env (newOp now typ v) false s = (r, s') → returned r = true →
    sys_step (System s fs) (System s' fs)
| step_connect s fs i f env r s' f' :
    fs !! i = Some f → sink_up (fe_latest env) → commit_err (fe_subscribe env) = None →
    fl_connect env (s, f) = (r, (s', f')) → returned r = true →
    sys_step (System s fs) (System s' (<[i := f']> fs))
| step_notify s fs i f r s' f' :
    fs !! i = Some f → fl_notify (s, f) = (r, (s', f')) → returned r = true →
    sys_step (System s fs) (System s' (<[i := f']> fs))
| step_receive s fs i f env r s' f' :
    fs !! i = Some f → sink_commits env →
    fl_receive env (s, f) = (r, (s', f')) → returned r = true →
    sys_step (System s fs) (System s' (<[i := f']> fs))
| step_cancel s fs i f e r s' f' :
    fs !! i = Some f → fl_cancel e (s, f) = (r, (s', f')) → returned r = true →
    sys_step (System s fs) (System s' (<[i := f']> fs)).

(** *** The invariant *)
Definition pending (c : conn) : list op := app (cn_out c) (app (option_list (cn_hand c)) (cn_preload c)).

Definition conn_ok (ops fops : list op) (p : pubsub) (c : conn) : Prop :=
  sub_ch (cn_sub c) ∈ subscribers p ∧
  ∃ b, chans p !! sub_ch (cn_sub c) = Some (Chan b false) ∧
    Forall2 op_eqv ops (app fops (app (pending c) b)).

Definition follower_ok (ops : list op) (p : pubsub) (f : follower F) : Prop :=
  ∃ fops, sink_rep fops (fl_sink f) ∧
  match fl_conn f with
  | Some c => conn_ok ops fops p c
  | None => Forall2 op_eqv (take (length fops) ops) fops
  end.

Definition conn_ch (f : follower F) : option nat := (λ c, sub_ch (cn_sub c)) <$> fl_conn f.

Definition chans_distinct (fs : gmap nat (follower F)) : Prop :=
  ∀ i j f g c, fs !! i = Some f → fs !! j = Some g → conn_ch f = Some c → conn_ch g = Some c → i = j.

Record sys_inv (ops : list op) (x : system) : Prop := {
  si_log : log_inv st0 ops (ld_db (sys_src x));
  si_pubsub : pubsub_ok (ld_pubsub (sys_src x));
  si_wire : Forall op_wire ops;
  si_takes : takes_all ops;
  si_followers i f : sys_followers x !! i = Some f → follower_ok ops (ld_pubsub (sys_src x)) f;
  si_distinct : chans_distinct (sys_followers x)
}.

(** ** Lemmas: steps keep the invariant *)

(** A follower does not notice changes of channels that are not its own. *)
Lemma follower_ok_frame ops p p' f :
  (∀ c, conn_ch f = Some c → c ∈ subscribers p → c ∈ subscribers p' ∧ chans p' !! c = chans p !! c) →
  follower_ok ops p f → follower_ok ops p' f.
Proof.
  intros Hfr (fops & Hrep & Hc). exists fops. split; [done|]. unfold conn_ch in Hfr.
  destruct (fl_conn f) as [c|]; [|done]. destruct Hc as (Hin & b & Hb & Hall).
  destruct (Hfr _ eq_refl Hin) as [Hin' Hch]. split; [done|]. exists b. by rewrite Hch.
Qed.

(** One follower takes a step, the datastore's tables stay as they are. *)
Lemma sys_update ops s fs i f f' d' p' :
  sys_inv ops (System s fs) → fs !! i = Some f → d' = ld_db s → pubsub_ok p' →
  follower_ok ops p' f' →
  (∀ j g c, j ≠ i → fs !! j = Some g → conn_ch g = Some c → c ∈ subscribers (ld_pubsub s) →
    c ∈ subscribers p' ∧ chans p' !! c = chans (ld_pubsub s) !! c ∧ conn_ch f' ≠ Some c) →
  sys_inv ops (System (LogDb d' p') (<[i := f']> fs)).
Proof.
  intros [Hl Hp Hw Ht Hf Hd] Hi -> Hp' Hok Hfr. cbn [sys_src sys_followers] in *.
  assert (Hsub : ∀ j g c, fs !! j = Some g → conn_ch g = Some c → c ∈ subscribers (ld_pubsub s)).
  { intros j g c Hj Hc. destruct (Hf j g Hj) as (fops & _ & Hg). unfold conn_ch in Hc.
    destruct (fl_conn g); [|done]. cbn in Hc. simplify_eq. apply Hg. }
  split; cbn [sys_src sys_followers ld_db ld_pubsub]; [done..| |].
  - intros j g Hj. apply lookup_insert_Some in Hj as [[<- <-]|[Hne Hj]]; [done|].
    eapply follower_ok_frame; [|by eapply Hf]. intros c Hc Hin.
    destruct (Hfr j g c) as (? & ? & _); done.
  - intros j k g h c Hj Hk Hg Hh.
    apply lookup_insert_Some in Hj as [[<- <-]|[Hnj Hj]]; apply lookup_insert_Some in Hk as [[<- <-]|[Hnk Hk]].
    + done.
    + destruct (Hfr k h c) as (_ & _ & ?); [done..|by eapply Hsub|done].
    + destruct (Hfr j g c) as (_ & _ & ?); [done..|by eapply Hsub|done].
    + by eapply Hd.
Qed.

Lemma distinct_ch ops s fs i j f g c :
  sys_inv ops (System s fs) → fs !! i = Some f → fs !! j = Some g → j ≠ i →
  conn_ch g = Some c → conn_ch f ≠ Some c.
Proof. intros Hinv Hi Hj Hne Hg Hf. apply Hne. by eapply (si_distinct _ _ Hinv). Qed.

Lemma spec_replay_prefix l1 l2 st : is_Some (spec_replay (app l1 l2) st) → is_Some (spec_replay l1 st).
Proof.
  unfold spec_replay. rewrite foldl_app. destruct (foldl _ (Some st) l1); [by eexists|].
  intros [st' Hst]. induction l2; [done|]. by apply IHl2.
Qed.

Lemma takes_all_snoc ops o st :
  takes_all ops → spec_replay ops st0 = Some st → sink_takes st o → takes_all (app ops [o]).
Proof.
  intros Ht Hst Ho pre o' post st' Heq Hst'. destruct post as [|x post' _] using rev_ind.
  - apply app_inj_tail in Heq as [<- <-]. congruence.
  - rewrite app_comm_cons, app_assoc in Heq. apply app_inj_tail in Heq as [-> _]. by eapply Ht.
Qed.

(** The next operation of a link is one that the sink is made for. *)
Lemma link_takes ops d fops o l :
  log_inv st0 ops d → takes_all ops → Forall2 op_eqv ops (app fops (o :: l)) →
  is_Some (spec_replay (app fops [o]) st0) ∧ ∀ st, spec_replay fops st0 = Some st → sink_takes st o.
Proof.
  intros Hl Ht Hall. split.
  - apply (spec_replay_prefix _ l). rewrite <- app_assoc. cbn [app]. rewrite (spec_replay_eqv _ _ _ Hall).
    rewrite (li_data _ _ _ Hl). by eexists.
  - intros st Hst. apply Forall2_app_inv_r in Hall as (pre & post & Hpre & Hpost & ->).
    inversion Hpost as [|o' ? post' ? Ho]; subst. eapply sink_takes_eqv; [exact Ho|]. eapply Ht; [done|].
    by rewrite <- (spec_replay_eqv _ _ _ Hpre).
Qed.

Lemma step_write_inv ops s fs env typ v now r s' :
  sys_inv ops (System s fs) → commit_err env = None → wire_ok v = true →
  (GetSequence (ld_db s) + 1 < 2 ^ 63)%Z →
  sink_takes (cabs (ld_db s)) (WithSequence (newOp now typ v) (GetNextSequence (ld_db s))) →
  crudLogSink_Apply env (newOp now typ v) false s = (r, s') → returned r = true →
  ∃ new, sys_inv (app ops new) (System s' fs).
Proof.
  intros Hinv Hcommit Hv Hb Htk Hrun Hret. pose proof Hinv as [Hl Hp Hw Ht Hf Hd]. cbn [sys_src sys_followers] in *.
  rewrite (log_inv_sequence _ _ _ Hl) in Hb. rewrite (log_inv_next _ _ _ Hl) in Htk.
  pose proof (Apply_run env st0 ops s (newOp now typ v) false r s' Hl Hp Hcommit Hb ltac:(done) Hrun) as Hres.
  cbn zeta in Hres. set (o := sequenced _ _ _) in Hres. destruct r as [[]|e| |]; try done.
  - destruct Hres as [Hl' Hp']. exists [o]. split; cbn [sys_src sys_followers].
    + done.
    + rewrite Hp'. by apply emitted_ok.
    + apply Forall_app_2; [done|]. apply Forall_singleton. exact Hv.
    + eapply takes_all_snoc; [done|apply Hl|done].
    + intros i f Hi. destruct (Hf i f Hi) as (fops & Hrep & Hc). exists fops. split; [done|].
      destruct (fl_conn f) as [c|].
      * destruct Hc as (Hin & b & Hbuf & Hall). rewrite Hp'. split; [done|]. exists (app b [o]).
        rewrite emitted_lookup by done. rewrite Hbuf. split; [done|]. rewrite !app_assoc.
        apply Forall2_app; [by rewrite <- !app_assoc|]. constructor; [reflexivity|constructor].
      * rewrite take_app_le; [done|]. apply Forall2_length in Hc. rewrite length_take in Hc. lia.
    + done.
  - destruct Hres as [-> _]. exists []. by rewrite app_nil_r.
Qed.

Lemma cancel_inv ops s fs i f c k :
  sys_inv ops (System s fs) → fs !! i = Some f → fl_conn f = Some c →
  (∃ fops, sink_rep fops k ∧ Forall2 op_eqv (take (length fops) ops) fops) →
  sys_inv ops (System (subscription_Close (cn_sub c) s).2 (<[i := Follower k None]> fs)).
Proof.
  intros Hinv Hi Hc Hk. pose proof Hinv as [Hl Hp Hw Ht Hf Hd]. cbn [sys_src sys_followers] in *.
  destruct (Hf i f Hi) as (fops & _ & Hok). rewrite Hc in Hok. destruct Hok as (Hin & _).
  change (subscription_Close (cn_sub c) s).2 with
    (LogDb (ld_db s) (removeSubscriber (sub_ch (cn_sub c)) (ld_pubsub s)).2).
  eapply sys_update; [done|done|done|by apply removeSubscriber_ok|exact Hk|].
  intros j g c' Hne Hj Hg Hin'. split_and!; [|done..]. cbn. apply list_elem_of_filter. split; [|done].
  intros ->. eapply (distinct_ch _ _ _ i j f g); [done..|]. unfold conn_ch. by rewrite Hc.
Qed.

Lemma prefix_of_link ops fops l : Forall2 op_eqv ops (app fops l) → Forall2 op_eqv (take (length fops) ops) fops.
Proof.
  intros Hall. apply Forall2_app_inv_r in Hall as (l1 & l2 & H1 & H2 & ->).
  rewrite take_app_le by (rewrite (Forall2_length _ _ _ H1); lia).
  by rewrite take_ge by (rewrite (Forall2_length _ _ _ H1); lia).
Qed.

(** The next operation of a link is the one its sink needs next. *)
Lemma link_next ops fops o l :
  numbered ops → Forall2 op_eqv ops (app fops (o :: l)) →
  op_seq o = (1 + Z.of_nat (length fops))%Z ∧ (length fops < length ops)%nat.
Proof.
  intros Hn Hall. pose proof (numbered_eqv _ _ Hall Hn) as Hn'. split.
  - apply (Hn' (length fops)). rewrite lookup_app_r by lia. by rewrite Nat.sub_diag.
  - rewrite (Forall2_length _ _ _ Hall), length_app. cbn. lia.
Qed.

Lemma step_receive_inv ops s fs i f env r s' f' :
  sys_inv ops (System s fs) → fs !! i = Some f → sink_commits env →
  fl_receive env (s, f) = (r, (s', f')) → returned r = true →
  sys_inv ops (System s' (<[i := f']> fs)).
Proof.
  intros Hinv Hi Hcm Hrun Hret. pose proof Hinv as [Hl Hp Hw Ht Hf Hd]. cbn [sys_src sys_followers] in *.
  destruct (Hf i f Hi) as (fops & Hrep & Hok). unfold fl_receive in Hrun.
  destruct (fl_conn f) as [c|] eqn:Hc; [|by inv_run]. destruct (cn_out c) as [|o rest] eqn:Hout; [by inv_run|].
  destruct Hok as (Hin & b & Hbuf & Hall). unfold pending in Hall. rewrite Hout in Hall. cbn [app] in Hall.
  destruct (link_next _ _ _ _ (li_numbered _ _ _ Hl) Hall) as [Hseq Hlen].
  pose proof (li_bound _ _ _ Hl) as Hb. unfold follow_iter, wrap_err, fl_leave in Hrun. m_unfold.
  destruct (sink_Apply env o true (fl_sink f)) as [r1 k] eqn:Hap.
  destruct (link_takes _ _ _ _ _ Hl Ht Hall) as [Hsp Htk].
  pose proof (sink_apply _ _ _ _ _ _ Hrep Hcm Hseq ltac:(lia) Hsp Htk Hap) as Hk.
  destruct r1 as [[]|e| |]; [|..|done|by inv_run]; inv_run.
  - destruct s' as [d p]. eapply sys_update; [done|done|done|done| |].
    + exists (app fops [o]). split; [done|]. cbn [fl_conn]. split; [done|]. exists b. split; [done|].
      unfold pending; cbn [cn_out cn_hand cn_preload]. by rewrite <- app_assoc.
    + intros j g c' Hne Hj Hg Hin'. split_and!; [done..|]. unfold conn_ch; cbn.
      pose proof (distinct_ch _ _ _ i j f g c' Hinv Hi Hj Hne Hg) as Hdc. unfold conn_ch in Hdc. by rewrite Hc in Hdc.
  - eapply cancel_inv; [done..|]. exists fops. split; [done|]. by eapply prefix_of_link.
Qed.

Lemma step_cancel_inv ops s fs i f e r s' f' :
  sys_inv ops (System s fs) → fs !! i = Some f → fl_cancel e (s, f) = (r, (s', f')) → returned r = true →
  sys_inv ops (System s' (<[i := f']> fs)).
Proof.
  intros Hinv Hi Hrun Hret. unfold fl_cancel in Hrun. destruct (fl_conn f) as [c|] eqn:Hc; [|by inv_run].
  unfold fl_leave in Hrun. inv_run. eapply cancel_inv; [done..|].
  destruct (si_followers _ _ Hinv i f Hi) as (fops & Hrep & Hok). rewrite Hc in Hok.
  destruct Hok as (_ & b & _ & Hall). exists fops. split; [done|]. by eapply prefix_of_link.
Qed.

Lemma recv_chan_Some c p o b cl :
  chans p !! c = Some (Chan (o :: b) cl) →
  recv_chan c p = (Ok (Some o), PubSub (toClose p) (subscribers p) (<[c := Chan b cl]> (chans p)) (next_chan p)).
Proof. intros Hc. unfold recv_chan. m_unfold. by rewrite Hc. Qed.

Lemma recv_chan_empty c p : chans p !! c = Some (Chan [] false) → recv_chan c p = (Hang, p).
Proof. intros Hc. unfold recv_chan. m_unfold. by rewrite Hc. Qed.

(** The forwarding goroutine keeps the queue: what it takes from one end of a
    link it puts to the next. *)
Lemma notify_step_run c p b r p' :
  chans p !! sub_ch (cn_sub c) = Some (Chan b false) → notify_step c p = (r, p') → returned r = true →
  ∃ c' b', r = Ok c' ∧ cn_sub c' = cn_sub c ∧ app (pending c') b' = app (pending c) b ∧
    subscribers p' = subscribers p ∧ toClose p' = toClose p ∧ next_chan p' = next_chan p ∧
    chans p' = <[sub_ch (cn_sub c) := Chan b' false]> (chans p).
Proof.
  intros Hb Hrun Hret. unfold notify_step in Hrun. destruct c as [sub pre [o|] out]; cbn [cn_hand cn_out cn_preload cn_sub] in *.
  - case_bool_decide; m_unfold; inv_run. eexists _, b. split_and!; try done.
    + unfold pending; cbn. by rewrite <- !app_assoc.
    + by rewrite insert_id.
  - destruct pre as [|o pre].
    + destruct b as [|o b].
      * rewrite (bind_Hang _ _ _ _ (recv_chan_empty _ _ Hb)) in Hrun. by inv_run.
      * rewrite (bind_Ok _ _ _ _ _ (recv_chan_Some _ _ _ _ _ Hb)) in Hrun. m_unfold. inv_run.
        eexists _, b. split_and!; try done. unfold pending; cbn. by rewrite app_nil_r, <- app_assoc.
    + m_unfold. inv_run. eexists _, b. split_and!; try done. by rewrite insert_id.
Qed.

Lemma pubsub_ok_chan p p' c b b' :
  pubsub_ok p → chans p !! c = Some (Chan b false) →
  subscribers p' = subscribers p → toClose p' = toClose p → next_chan p' = next_chan p →
  chans p' = <[c := Chan b' false]> (chans p) → pubsub_ok p'.
Proof.
  intros (Hnd & Hopen & Hnext) Hc Hs Ht Hn Hch. unfold pubsub_ok. rewrite Hs, Ht, Hn, Hch. split_and!; [done| |].
  - rewrite Forall_forall in *. intros c' Hc'. unfold chan_open. rewrite Hch, lookup_insert.
    case_decide; [by eexists|by apply Hopen].
  - intros c'. rewrite lookup_insert. case_decide; [subst; intros; apply Hnext; by eexists|by apply Hnext].
Qed.

Lemma step_notify_inv ops s fs i f r s' f' :
  sys_inv ops (System s fs) → fs !! i = Some f → fl_notify (s, f) = (r, (s', f')) → returned r = true →
  sys_inv ops (System s' (<[i := f']> fs)).
Proof.
  intros Hinv Hi Hrun Hret. pose proof Hinv as [Hl Hp Hw Ht Hf Hd]. cbn [sys_src sys_followers] in *.
  destruct (Hf i f Hi) as (fops & Hrep & Hok). unfold fl_notify, on_pubsub in Hrun.
  destruct (fl_conn f) as [c|] eqn:Hc; [|by inv_run]. destruct Hok as (Hin & b & Hb & Hall).
  destruct (notify_step c (ld_pubsub s)) as [r0 p'] eqn:Hn.
  destruct (decide (returned r0 = true)) as [Hr0|Hr0]; [|by destruct r0; inv_run].
  destruct (notify_step_run _ _ _ _ _ Hb Hn Hr0) as (c' & b' & -> & Hsub & Hpend & Hs & Htc & Hnx & Hch). inv_run.
  eapply sys_update; [done|done|done|by eapply pubsub_ok_chan| |].
  - exists fops. split; [done|]. cbn [fl_conn]. split; [by rewrite Hsub, Hs|]. exists b'.
    rewrite Hsub, Hch, lookup_insert_eq. split; [done|]. by rewrite Hpend.
  - intros j g c0 Hne Hj Hg Hin0. pose proof (distinct_ch _ _ _ i j f g c0 Hinv Hi Hj Hne Hg) as Hdc.
    unfold conn_ch in *. rewrite Hc in Hdc. cbn in *. rewrite Hs, Hch, Hsub. split_and!; [done| |done].
    by rewrite lookup_insert_ne by congruence.
Qed.

(** *** Connecting *)
Lemma follow_start_run ops s f fops env r s' f' :
  log_inv st0 ops (ld_db s) → Forall op_wire ops → sink_rep fops f →
  Forall2 op_eqv (take (length fops) ops) fops → sink_up (fe_latest env) →
  commit_err (fe_subscribe env) = None →
  follow_start env (s, f) = (r, (s', f')) →
  f' = f ∧
  match r with
  | Ok sub => Forall2 op_eqv (drop (length fops) ops) (sub_preload sub) ∧
      sub_ch sub = next_chan (ld_pubsub s) ∧ s' = LogDb (ld_db s) (subscribed (ld_pubsub s))
  | Err _ => s' = s
  | _ => False
  end.
Proof.
  intros Hl Hw Hrep Hpre Hup Hcommit Hrun.
  assert (Hlen : (length fops ≤ length ops)%nat) by (apply Forall2_length in Hpre; rewrite length_take in Hpre; lia).
  pose proof (li_bound _ _ _ Hl) as Hb.
  assert (Hwrap : uint64_wrap (Z.of_nat (length fops) + 1) = (Z.of_nat (length fops) + 1)%Z)
    by (unfold uint64_wrap; rewrite Z.mod_small; lia).
  unfold follow_start in Hrun. erewrite bind_Ok in Hrun;
    [|unfold on_snd; cbn [fst snd]; rewrite (sink_latest _ _ _ Hrep Hup); reflexivity].
  rewrite Hwrap in Hrun. cbn [src_Subscribe sql_source] in Hrun.
  destruct (crudLogSource_Subscribe (fe_subscribe env) (Z.of_nat (length fops) + 1) s) as [r1 s1] eqn:Hsub.
  assert (Hu : uint64_ok (Z.of_nat (length fops) + 1) = true) by (apply bool_decide_eq_true; lia).
  pose proof (Subscribe_run _ _ _ _ _ _ _ Hl Hw Hcommit Hu Hsub) as Hres.
  unfold try, on_fst in Hrun. m_unfold. cbn [fst snd] in Hrun. rewrite Hsub in Hrun.
  destruct r1 as [sub|e| |]; [| |done..].
  - inv_run. destruct Hres as (_ & Hall & Hch & ->). split_and!; try done.
    by replace (Z.to_nat (Z.of_nat (length fops) + 1 - 1)) with (length fops) in Hall by lia.
  - destruct Hres as [-> [(e' & _ & ->)|[[_ Hres]|[-> _]]]]; [|lia|]; cbn in Hrun; by inv_run.
Qed.

Lemma step_connect_inv ops s fs i f env r s' f' :
  sys_inv ops (System s fs) → fs !! i = Some f → sink_up (fe_latest env) →
  commit_err (fe_subscribe env) = None →
  fl_connect env (s, f) = (r, (s', f')) → returned r = true →
  sys_inv ops (System s' (<[i := f']> fs)).
Proof.
  intros Hinv Hi Hup Hcommit Hrun Hret. pose proof Hinv as [Hl Hp Hw Ht Hf Hd]. cbn [sys_src sys_followers] in *.
  destruct (Hf i f Hi) as (fops & Hrep & Hok). unfold fl_connect in Hrun.
  destruct (fl_conn f) as [c|] eqn:Hc; [by inv_run|].
  destruct (follow_start env (s, fl_sink f)) as [r0 [s1 k]] eqn:Hst.
  destruct (follow_start_run _ _ _ _ _ _ _ _ Hl Hw Hrep Hok Hup Hcommit Hst) as [-> Hres].
  destruct r0 as [sub|e| |]; [| |done..]; inv_run.
  - destruct Hres as (Hall & Hch & ->).
    eapply sys_update; [done|done|done|by apply subscribe_ok| |].
    + exists fops. split; [done|]. cbn [fl_conn]. split; [cbn; rewrite Hch; left|]. exists [].
      cbn. rewrite Hch, lookup_insert_eq. split; [done|]. unfold pending; cbn. rewrite app_nil_r.
      rewrite <- (take_drop (length fops) ops). by apply Forall2_app.
    + intros j g c' Hne Hj Hg Hin. cbn [subscribers chans subscribed].
      destruct Hp as (_ & Hopen & Hnext). apply Forall_app in Hopen as [Hopen _]. rewrite Forall_forall in Hopen.
      destruct (Hopen c' Hin) as [b Hb]. specialize (Hnext c' ltac:(eauto)).
      split_and!; [by right|by rewrite lookup_insert_ne by lia|]. unfold conn_ch; cbn. rewrite Hch. intros [= Heq]. lia.
  - destruct s' as [d p]. eapply sys_update; [done|done|done|done|by exists fops|].
    intros j g c' Hne Hj Hg Hin. by split_and!.
Qed.

Lemma sys_step_inv ops x x' :
  sys_inv ops x → sys_step x x' → ∃ new, sys_inv (app ops new) x'.
Proof.
  intros Hinv Hstep. destruct Hstep.
  - by eapply step_write_inv.
  - exists []. rewrite app_nil_r. by eapply step_connect_inv.
  - exists []. rewrite app_nil_r. by eapply step_notify_inv.
  - exists []. rewrite app_nil_r. by eapply step_receive_inv.
  - exists []. rewrite app_nil_r. by eapply step_cancel_inv.
Qed.

Lemma sys_steps_inv ops x x' :
  sys_inv ops x → rtc sys_step x x' → ∃ new, sys_inv (app ops new) x'.
Proof.
  intros Hinv Hsteps. revert ops Hinv. induction Hsteps as [x|x y z Hxy Hyz IH]; intros ops Hinv.
  - exists []. by rewrite app_nil_r.
  - destruct (sys_step_inv _ _ _ Hinv Hxy) as [n1 H1]. destruct (IH _ H1) as [n2 H2].
    exists (app n1 n2). by rewrite app_assoc.
Qed.

(** ** Catching up *)
(** What makes a sink able to apply the operations of a correct log. *)
Class SinkProgress : Type := {
  sink_ready : F → Prop;
  sink_env : EF;
  sink_env_commits : sink_commits sink_env;
  sink_env_up : sink_up sink_env;
  sink_progress fops f o :
    sink_rep fops f → sink_ready f → op_wire o → op_seq o = (1 + Z.of_nat (length fops))%Z →
    (Z.of_nat (length fops) + 1 < 2 ^ 63)%Z → is_Some (spec_replay (app fops [o]) st0) →
    (∀ st, spec_replay fops st0 = Some st → sink_takes st o) →
    ∃ f', sink_Apply sink_env o true f = (Ok tt, f') ∧ sink_ready f'
}.

Section CatchUp.
Context {SP : SinkProgress}.

Definition conn_weight (c : conn) (b : list op) : nat :=
  3 * (length (cn_preload c) + length b) + 2 * length (option_list (cn_hand c)) + length (cn_out c).

(** Follower [i] has everything. *)
Definition caught_up (ops : list op) (x : system) (i : nat) : Prop :=
  ∃ f fops, sys_followers x !! i = Some f ∧ sink_rep fops (fl_sink f) ∧ Forall2 op_eqv ops fops.

Lemma eqv_wire ops ops' : Forall2 op_eqv ops ops' → Forall op_wire ops → Forall op_wire ops'.
Proof.
  induction 1 as [|o o' ops ops' Ho Hops IH]; [done|]. intros [Hw Hws]%Forall_cons.
  apply Forall_cons. split; [|by apply IH]. destruct Ho as (_ & _ & _ & Ho & _). unfold op_wire in *. by rewrite Ho.
Qed.

(** The next operation of a correct log is applied. *)
Lemma apply_next ops d fops f o l :
  log_inv st0 ops d → Forall op_wire ops → takes_all ops → sink_rep fops f → sink_ready f →
  Forall2 op_eqv ops (app fops (o :: l)) →
  ∃ f', sink_Apply sink_env o true f = (Ok tt, f') ∧ sink_ready f' ∧ sink_rep (app fops [o]) f'.
Proof.
  intros Hl Hw Ht Hrep Hrd Hall. destruct (link_next _ _ _ _ (li_numbered _ _ _ Hl) Hall) as [Hseq Hlen].
  pose proof (li_bound _ _ _ Hl) as Hb.
  assert (Hwo : op_wire o).
  { pose proof (eqv_wire _ _ Hall Hw) as Hw'. apply Forall_app in Hw' as [_ Hw']. by inversion Hw'. }
  destruct (link_takes _ _ _ _ _ Hl Ht Hall) as [Hsp Htk].
  destruct (sink_progress fops f o Hrep Hrd Hwo Hseq ltac:(lia) Hsp Htk) as (k & Hap & Hk).
  exists k. split_and!; [done..|]. by apply (sink_apply _ _ _ _ _ _ Hrep sink_env_commits Hseq ltac:(lia) Hsp Htk Hap).
Qed.

(** A received operation is applied. *)
Lemma receive_run ops s f fops c o rest b :
  log_inv st0 ops (ld_db s) → Forall op_wire ops → takes_all ops → sink_rep fops (fl_sink f) → sink_ready (fl_sink f) →
  fl_conn f = Some c → cn_out c = o :: rest → Forall2 op_eqv ops (app fops (app (pending c) b)) →
  ∃ k, fl_receive sink_env (s, f) = (Ok tt, (s, Follower k (Some (Conn (cn_sub c) (cn_preload c) (cn_hand c) rest)))) ∧
    sink_ready k.
Proof.
  intros Hl Hw Ht Hrep Hrd Hc Hout Hall. unfold pending in Hall. rewrite Hout in Hall. cbn [app] in Hall.
  destruct (apply_next ops (ld_db s) fops (fl_sink f) o _ Hl Hw Ht Hrep Hrd Hall) as (k & Hap & Hk & _).
  exists k. split; [|done]. unfold fl_receive. rewrite Hc, Hout. unfold follow_iter, wrap_err. m_unfold. by rewrite Hap.
Qed.

(** The forwarding goroutine is not stuck while it has work and room. *)
Lemma notify_run s f c b :
  fl_conn f = Some c → cn_out c = [] → chans (ld_pubsub s) !! sub_ch (cn_sub c) = Some (Chan b false) →
  app (pending c) b ≠ [] →
  ∃ s' c' b', fl_notify (s, f) = (Ok tt, (s', Follower (fl_sink f) (Some c'))) ∧ ld_db s' = ld_db s ∧
    chans (ld_pubsub s') !! sub_ch (cn_sub c') = Some (Chan b' false) ∧
    (conn_weight c' b' < conn_weight c b)%nat.
Proof.
  intros Hc Hout Hb Hne. unfold fl_notify. rewrite Hc. unfold on_pubsub, notify_step.
  destruct c as [sub pre [o|] out]; cbn [cn_hand cn_out cn_preload cn_sub] in *; subst out; unfold pending in Hne; cbn in Hne.
  - m_unfold. eexists _, _, b. split; [reflexivity|]. split_and!; [done|done|]. unfold conn_weight; cbn. lia.
  - destruct pre as [|o pre].
    + destruct b as [|o b]; [done|]. rewrite (bind_Ok _ _ _ _ _ (recv_chan_Some _ _ _ _ _ Hb)).
      m_unfold. eexists _, _, b. split; [reflexivity|]. split_and!; [done|cbn; by rewrite lookup_insert_eq|].
      unfold conn_weight; cbn. lia.
    + m_unfold. eexists _, _, b. split; [reflexivity|]. split_and!; [by destruct s|done|].
      unfold conn_weight; cbn. lia.
Qed.

Lemma catch_up_connected ops i n x f c b :
  sys_inv ops x → sys_followers x !! i = Some f → sink_ready (fl_sink f) → fl_conn f = Some c →
  chans (ld_pubsub (sys_src x)) !! sub_ch (cn_sub c) = Some (Chan b false) → (conn_weight c b ≤ n)%nat →
  ∃ x', rtc sys_step x x' ∧ ld_db (sys_src x') = ld_db (sys_src x) ∧ sys_inv ops x' ∧ caught_up ops x' i.
Proof.
  revert x f c b. induction n as [n IH] using lt_wf_ind. intros x f c b Hinv Hi Hrd Hc Hb Hn.
  pose proof Hinv as [Hl Hp Hw Ht Hf Hd]. destruct (Hf i f Hi) as (fops & Hrep & Hok). rewrite Hc in Hok.
  destruct Hok as (Hin & b' & Hb' & Hall). rewrite Hb in Hb'. simplify_eq.
  destruct (decide (app (pending c) b' = [])) as [Hnil|Hne].
  { exists x. split_and!; [done..|]. exists f, fops. by rewrite Hnil, app_nil_r in Hall. }
  destruct x as [s fs]. cbn [sys_src sys_followers] in *.
  assert (Hnext : ∃ s' f' c' b'', sys_step (System s fs) (System s' (<[i := f']> fs)) ∧ ld_db s' = ld_db s ∧
    sys_inv ops (System s' (<[i := f']> fs)) ∧ sink_ready (fl_sink f') ∧ fl_conn f' = Some c' ∧
    chans (ld_pubsub s') !! sub_ch (cn_sub c') = Some (Chan b'' false) ∧ (conn_weight c' b'' < conn_weight c b')%nat).
  { destruct (cn_out c) as [|o rest] eqn:Hout.
    - destruct (notify_run s f c b' Hc Hout Hb Hne) as (s' & c' & b'' & Hrun & Hdb & Hb'' & Hwt).
      exists s', (Follower (fl_sink f) (Some c')), c', b''. split_and!; [|done| |done..].
      + by eapply step_notify.
      + by eapply step_notify_inv.
    - destruct (receive_run ops s f fops c o rest b' Hl Hw Ht Hrep Hrd Hc Hout Hall) as (k & Hrun & Hk).
      exists s, (Follower k (Some (Conn (cn_sub c) (cn_preload c) (cn_hand c) rest))). eexists _, b'.
      split_and!; [| done| |done|done|done|].
      + eapply step_receive; [done|apply sink_env_commits|done..].
      + eapply step_receive_inv; [done|done|apply sink_env_commits|done..].
      + unfold conn_weight; cbn. rewrite Hout. cbn. lia. }
  destruct Hnext as (s' & f' & c' & b'' & Hstep & Hdb & Hinv' & Hrd' & Hc' & Hb'' & Hwt).
  destruct (IH (conn_weight c' b'') ltac:(lia) _ f' c' b'' Hinv') as (x' & Hsteps & Hdb' & Hinv'' & Hcu);
    [cbn; by rewrite lookup_insert_eq|done|done|done|done|].
  exists x'. split_and!; [by eapply rtc_l|cbn in *; congruence|done|done].
Qed.

Lemma connect_ok ops s f fops :
  log_inv st0 ops (ld_db s) → Forall op_wire ops → sink_rep fops (fl_sink f) → fl_conn f = None →
  Forall2 op_eqv (take (length fops) ops) fops → (Z.of_nat (length ops) + 1 < 2 ^ 63)%Z →
  ∃ sub s', fl_connect (FollowEnv sink_env tx_ok tx_ok sink_env tx_ok sink_env) (s, f) =
    (Ok tt, (s', Follower (fl_sink f) (Some (Notify sub)))) ∧ ld_db s' = ld_db s.
Proof.
  intros Hl Hw Hrep Hc Hpre Hb. set (env := FollowEnv _ _ _ _ _ _). unfold fl_connect. rewrite Hc.
  assert (Hlen : (length fops ≤ length ops)%nat) by (apply Forall2_length in Hpre; rewrite length_take in Hpre; lia).
  destruct (follow_start env (s, fl_sink f)) as [r [s' k]] eqn:Hst.
  destruct (follow_start_run _ _ _ _ env _ _ _ Hl Hw Hrep Hpre sink_env_up eq_refl Hst) as [-> Hres].
  destruct r as [sub|e| |]; [|exfalso|done..].
  - destruct Hres as (_ & _ & ->). by eexists sub, _.
  - unfold follow_start in Hst. erewrite bind_Ok in Hst;
      [|unfold on_snd; cbn [fst snd fe_latest env]; rewrite (sink_latest _ _ _ Hrep sink_env_up); reflexivity].
    replace (uint64_wrap _) with (Z.of_nat (length fops) + 1)%Z in Hst by (unfold uint64_wrap; rewrite Z.mod_small; lia).
    cbn [src_Subscribe sql_source env fe_subscribe] in Hst.
    destruct (crudLogSource_Subscribe tx_ok (Z.of_nat (length fops) + 1) s) as [r1 s1] eqn:Hsub.
    assert (Hu : uint64_ok (Z.of_nat (length fops) + 1) = true) by (apply bool_decide_eq_true; lia).
    pose proof (Subscribe_run tx_ok _ _ _ _ _ _ Hl Hw eq_refl Hu Hsub) as Hr1.
    unfold try, on_fst in Hst. m_unfold. cbn [fst snd] in Hst. rewrite Hsub in Hst.
    destruct r1 as [sub|e1| |]; [by inv_run| |done..].
    destruct Hr1 as [_ [(? & ? & _)|[[_ ?]|[_ ?]]]]; [done|lia|lia].
Qed.

Lemma catch_up ops i x f :
  sys_inv ops x → sys_followers x !! i = Some f → sink_ready (fl_sink f) →
  (Z.of_nat (length ops) + 1 < 2 ^ 63)%Z →
  ∃ x', rtc sys_step x x' ∧ ld_db (sys_src x') = ld_db (sys_src x) ∧ sys_inv ops x' ∧ caught_up ops x' i.
Proof.
  intros Hinv Hi Hrd Hb. pose proof Hinv as [Hl Hp Hw Ht Hf Hd]. destruct (Hf i f Hi) as (fops & Hrep & Hok).
  destruct (fl_conn f) as [c|] eqn:Hc.
  - destruct Hok as (_ & b & Hbuf & _). by eapply (catch_up_connected ops i (conn_weight c b)).
  - destruct (connect_ok ops (sys_src x) f fops Hl Hw Hrep Hc Hok Hb) as (sub & s' & Hrun & Hdb).
    destruct x as [s fs]. cbn [sys_src sys_followers] in *. set (f' := Follower (fl_sink f) (Some (Notify sub))).
    assert (Hinv' : sys_inv ops (System s' (<[i := f']> fs)))
      by (eapply step_connect_inv; [done|done| | |exact Hrun|done]; [apply sink_env_up|done]).
    destruct (si_followers _ _ Hinv' i f' ltac:(cbn; by rewrite lookup_insert_eq)) as (fops' & _ & Hok').
    cbn [fl_conn f'] in Hok'. destruct Hok' as (_ & b & Hbuf & _).
    destruct (catch_up_connected ops i (conn_weight (Notify sub) b) _ f' (Notify sub) b Hinv') as
      (x' & Hsteps & Hdb' & Hinv'' & Hcu); [cbn; by rewrite lookup_insert_eq|done|done|done|done|].
    exists x'. split_and!; [|cbn in *; congruence|done|done].
    eapply rtc_l; [|exact Hsteps]. eapply step_connect; [done| | |exact Hrun|done]; [apply sink_env_up|done].
Qed.

(** *** The same for [doFollow] as a function of what it receives *)

Lemma follow_loop_run ops d l rest evs fops f :
  log_inv st0 ops d → Forall op_wire ops → takes_all ops → sink_rep fops f → sink_ready f →
  Forall2 op_eqv ops (app fops (app l rest)) →
  ∃ f', sink_rep (app fops l) f' ∧ sink_ready f' ∧
    follow_loop sink_env (app (EvOp <$> l) evs) f = follow_loop sink_env evs f'.
Proof.
  intros Hl Hw Ht. revert fops f. induction l as [|o l IH]; intros fops f Hrep Hrd Hall.
  - exists f. by rewrite app_nil_r.
  - destruct (apply_next ops d fops f o (app l rest) Hl Hw Ht Hrep Hrd Hall) as (f1 & Hap & Hrd1 & Hrep1).
    destruct (IH (app fops [o]) f1 Hrep1 Hrd1) as (f2 & Hrep2 & Hrd2 & Hrun); [by rewrite <- app_assoc|].
    exists f2. rewrite <- app_assoc in Hrep2. split_and!; [done..|]. rewrite <- Hrun.
    cbn. unfold wrap_err. m_unfold. by rewrite Hap.
Qed.

(** Everything works: the environment of an undisturbed round. *)
Definition calm : follow_env tx_env EF := FollowEnv sink_env tx_ok tx_ok sink_env tx_ok sink_env.

Lemma doFollow_run ops s f fops l rest ev :
  log_inv st0 ops (ld_db s) → Forall op_wire ops → takes_all ops → sink_rep fops f → sink_ready f →
  Forall2 op_eqv ops (app fops (app l rest)) → (Z.of_nat (length ops) + 1 < 2 ^ 63)%Z →
  ev = EvClosed ∨ (∃ e, ev = EvDone e) →
  ∃ s' f', sink_rep (app fops l) f' ∧ sink_ready f' ∧ ld_db s' = ld_db s ∧
    subscribers (ld_pubsub s') = filter (λ c, c ≠ next_chan (ld_pubsub s)) (subscribers (ld_pubsub s)) ∧
    doFollow calm (app (EvOp <$> l) [ev]) (s, f) =
      (match ev with EvDone e => Err e | _ => Ok tt end, (s', f')).
Proof.
  intros Hl Hw Ht Hrep Hrd Hall Hb Hev. pose proof (prefix_of_link _ _ _ Hall) as Hpre.
  destruct (connect_ok ops s (Follower f None) fops Hl Hw Hrep eq_refl Hpre Hb) as (sub & s1 & Hconn & Hdb).
  cbn [fl_sink fl_connect fl_conn] in Hconn. unfold doFollow. fold calm in Hconn.
  destruct (follow_start calm (s, f)) as [r [s0 k]] eqn:Hst.
  destruct (follow_start_run _ _ _ _ calm _ _ _ Hl Hw Hrep Hpre sink_env_up eq_refl Hst) as [-> Hres].
  destruct r as [sub'| | |]; inv_run. destruct Hres as (_ & Hch & ->).
  rewrite (bind_Ok _ _ _ _ _ Hst). cbn [src_Close sql_source fe_apply calm].
  destruct (follow_loop_run ops (ld_db s) l rest [ev] fops f Hl Hw Ht Hrep Hrd Hall) as (f' & Hrep' & Hrd' & Hrun).
  exists (LogDb (ld_db s) (removeSubscriber (sub_ch sub) (subscribed (ld_pubsub s))).2), f'.
  split_and!; [done..| |].
  - unfold removeSubscriber, modify. cbn [snd subscribers ld_pubsub subscribed]. rewrite Hch.
    by rewrite filter_cons_False by tauto.
  - unfold deferred, on_snd. cbn [fst snd]. rewrite Hrun. destruct Hev as [->|[e ->]]; reflexivity.
Qed.

(** A source that is behind the sink and cannot make a snapshot ends it. *)
Lemma Follow_behind ops s f fops env rounds evs e :
  log_inv st0 ops (ld_db s) → Forall op_wire ops → sink_rep fops f → sink_up (fe_latest env) →
  fe_subscribe env = tx_ok → (length ops < length fops)%nat → (Z.of_nat (length fops) + 1 < 2 ^ 63)%Z →
  crudLogSource_Snapshot (fe_snapshot env) s = (Err e, s) →
  Follow ((env, evs) :: rounds) (s, f) = (Err (EWrap "Snapshot() error" e), (s, f)).
Proof.
  intros Hl Hw Hrep Hup Hsub Hlt Hb Hsnap. cbn [Follow]. apply bind_Err. unfold doFollow. apply bind_Err.
  unfold follow_start. erewrite bind_Ok;
    [|unfold on_snd; cbn [fst snd]; rewrite (sink_latest _ _ _ Hrep Hup); reflexivity].
  replace (uint64_wrap _) with (Z.of_nat (length fops) + 1)%Z by (unfold uint64_wrap; rewrite Z.mod_small; lia).
  cbn [src_Subscribe src_Snapshot sql_source]. rewrite Hsub.
  destruct (crudLogSource_Subscribe tx_ok (Z.of_nat (length fops) + 1) s) as [r1 s1] eqn:Hs.
  assert (Hu : uint64_ok (Z.of_nat (length fops) + 1) = true) by (apply bool_decide_eq_true; lia).
  pose proof (Subscribe_run tx_ok _ _ _ _ _ _ Hl Hw eq_refl Hu Hs) as Hr1.
  unfold try, on_fst. m_unfold. cbn [fst snd]. rewrite Hs. destruct r1 as [sub|e1| |]; [lia| |done..].
  destruct Hr1 as [-> [(? & ? & _)|[[-> _]|[_ ?]]]]; [done| |lia].
  rewrite errors_Is_refl. unfold wrap_err. m_unfold. cbn [fst snd]. by rewrite Hsnap.
Qed.

End CatchUp.
End System.

(** ** A datastore as a sink *)
Section SqlSink.
Context `{CR : CRUD} {CL : CrudLaws} `{EN : Encoding} {EL : EncodingLaws}.
Context (st0 : cstate).

Lemma LatestSequence_run env s :
  begin_err env = None → crudLogSink_LatestSequence env s = (Ok (GetSequence (ld_db s)), s).
Proof.
  intros Hb. unfold crudLogSink_LatestSequence, WithROTransaction, WithTx. rewrite Hb. m_unfold. by destruct s.
Qed.

#[export] Program Instance sql_sink_laws : SinkLaws (F := logdb) (EF := tx_env) st0 :=
  {| sink_takes _ _ := True;
     sink_rep ops s := log_inv st0 ops (ld_db s) ∧ pubsub_ok (ld_pubsub s);
     sink_commits env := commit_err env = None;
     sink_up env := begin_err env = None |}.
Next Obligation. done. Qed.
Next Obligation.
  intros ops s e [Hl _] Hup. cbn. rewrite LatestSequence_run by done. by rewrite (log_inv_sequence _ _ _ Hl).
Qed.
Next Obligation.
  intros ops s e o r s' [Hl Hp] Hcommit Hseq Hb _ _ Hrun. cbn in Hrun.
  pose proof (Apply_run _ _ _ _ _ _ _ _ Hl Hp Hcommit Hb (λ _, Hseq) Hrun) as Hres. cbn zeta in Hres.
  destruct r; [|by destruct Hres as [-> _]|done|done].
  destruct Hres as [Hl' Hp']. rewrite Hp'. split; [done|by apply emitted_ok].
Qed.

(** A datastore that nobody follows is never kept waiting. *)
#[export] Program Instance sql_sink_progress : SinkProgress (SL := sql_sink_laws) st0 :=
  {| sink_ready s := subscribers (ld_pubsub s) = []; sink_env := tx_ok |}.
Next Obligation. done. Qed.
Next Obligation. done. Qed.
Next Obligation.
  intros fops s o [Hl Hp] Hrd Hw Hseq Hb [st' Hsp] _. cbn.
  destruct (crudLogSink_Apply tx_ok o true s) as [r s'] eqn:Hrun.
  pose proof (Apply_run tx_ok _ _ _ _ _ _ _ Hl Hp eq_refl Hb (λ _, Hseq) Hrun) as Hres. cbn zeta in Hres.
  rewrite spec_replay_snoc, (li_data _ _ _ Hl) in Hsp. cbn in Hsp.
  destruct (enc_roundtrip _ Hw) as (j & _ & Hm & _).
  destruct r as [[]|e| |].
  - exists s'. split; [done|]. destruct Hres as [_ ->]. done.
  - destruct Hres as [_ [Hbe|[Hno|[e' He]]]]; [done|cbn [sequenced] in Hno; congruence|congruence].
  - done.
  - rewrite Hrd in Hres. by apply Exists_nil in Hres.
Qed.

End SqlSink.

(** ** Properties *)

(** A system of one datastore and followers, all created empty. *)
Definition fresh_system (n : nat) : system (F := logdb) :=
  System (Wrap initial_db) (list_to_map ((λ i, (i, Follower (Wrap initial_db) None)) <$> seq 0 n)).

Definition sql_step (ord : list sqlTableAdapter) (fuel : nat) : system (F := logdb) → system (F := logdb) → Prop :=
  sys_step (CL := model_crud_laws ord fuel) (EL := model_encoding_laws ord fuel) empty_store
    (SL := sql_sink_laws (CL := model_crud_laws ord fuel) (EL := model_encoding_laws ord fuel) empty_store).

Lemma fresh_system_inv ord fuel n :
  sys_inv (CL := model_crud_laws ord fuel) (EL := model_encoding_laws ord fuel) empty_store
    (SL := sql_sink_laws (CL := model_crud_laws ord fuel) (EL := model_encoding_laws ord fuel) empty_store)
    [] (fresh_system n).
Proof.
  assert (Hall : ∀ i f, sys_followers (fresh_system n) !! i = Some f → f = Follower (Wrap initial_db) None).
  { intros i f Hf. apply elem_of_list_to_map_2, list_elem_of_fmap in Hf as (j & [= -> ->] & _). done. }
  split.
  - apply initial_log_inv.
  - apply newPubSub_ok.
  - constructor.
  - intros pre o post st Heq. by destruct pre.
  - intros i f ->%Hall. exists []. split; [|by constructor]. split; [apply initial_log_inv|apply newPubSub_ok].
  - intros i j f g c ->%Hall Hg Hf. done.
Qed.

(** A datastore takes every operation. *)
Lemma takes_trivial ord fuel ops :
  takes_all (CL := model_crud_laws ord fuel) (EL := model_encoding_laws ord fuel) empty_store
    (SL := sql_sink_laws (CL := model_crud_laws ord fuel) (EL := model_encoding_laws ord fuel) empty_store) ops.
Proof. done. Qed.

Lemma log_rows_fmap (ops : list op) (rows1 rows2 : list row) :
  log_row <$> ops = Some <$> rows1 → log_row <$> ops = Some <$> rows2 → rows1 = rows2.
Proof.
  intros H1 H2. rewrite H1 in H2. revert rows2 H2. clear.
  induction rows1; intros [|r rows2] H2; try done. cbn in H2. inversion H2. f_equal. eauto.
Qed.

(** Histories that agree up to equivalence describe the same tables. *)
Lemma prefix_tables ord fuel ops fops d d' :
  history ord fuel ops d → history ord fuel fops d' →
  Forall2 (op_eqv (EL := model_encoding_laws ord fuel)) (take (length fops) ops) fops →
  (length fops ≤ length ops)%nat ∧ GetSequence d' = Z.of_nat (length fops) ∧
  rows_of d' "log" = take (length fops) (rows_of d "log") ∧
  spec_replay (CL := model_crud_laws ord fuel) (take (length fops) ops) empty_store = Some (abs d').
Proof.
  intros Hl Hl' Hpre. pose proof (Forall2_length _ _ _ Hpre) as Hlen. rewrite length_take in Hlen.
  assert (Hl2 : history ord fuel (take (length fops) ops) d') by (eapply log_inv_eqv; [by symmetry|done]).
  split_and!.
  - lia.
  - by apply (log_inv_sequence (CL := model_crud_laws ord fuel) empty_store).
  - eapply log_rows_fmap; [apply Hl2|]. rewrite !fmap_take. f_equal. apply Hl.
  - apply Hl2.
Qed.

(** *** A run of a datastore with one follower *)
#[local] Instance sample_crud : CRUD := model_crud sample_ord 1.

Definition sample_write (o : op) (s : logdb) : logdb := (crudLogSink_Apply tx_ok o false s).2.

Definition sample_s1 : logdb := sample_write (newOp 7 OpCreate sample_interface) (Wrap initial_db).
Definition sample_s2 : logdb := sample_write (newOp 8 OpCreate sample_peer) sample_s1.
Definition sample_op1 : op := WithSequence (newOp 7 OpCreate sample_interface) 1.
Definition sample_op2 : op := WithSequence (newOp 8 OpCreate sample_peer) 2.

Definition sample_env : follow_env tx_env tx_env := FollowEnv tx_ok tx_ok tx_ok tx_ok tx_ok tx_ok.

(** The datastore writes an interface; follower 0 connects, forwards and
    applies it; the datastore writes a peer. *)
Definition sample_fs (f : follower logdb) : gmap nat (follower logdb) := <[0%nat := f]> (sys_followers (fresh_system 1)).
Definition sample_connected : logdb * follower logdb :=
  (fl_connect sample_env (sample_s1, Follower (Wrap initial_db) None)).2.
Definition sample_forwarded : logdb * follower logdb :=
  (fl_notify (fl_notify sample_connected).2).2.
Definition sample_applied : logdb * follower logdb := (fl_receive tx_ok sample_forwarded).2.
Definition sample_x : system :=
  System (sample_write (newOp 8 OpCreate sample_peer) sample_applied.1) (sample_fs sample_applied.2).

Lemma sample_ord_iteration : iteration_of model sample_ord.
Proof.
  unfold iteration_of, sample_ord.
  replace ((map_to_list (byName model)).*2) with [InterfaceType; TokenType; PeerType] by (vm_compute; reflexivity).
  apply (Permutation_cons_append [InterfaceType; TokenType] PeerType).
Qed.

Lemma sample_history : history sample_ord 1 [sample_op1] (ld_db sample_s1) ∧
  history sample_ord 1 [sample_op1; sample_op2] (ld_db sample_s2).
Proof.
  assert (H1 : history sample_ord 1 [sample_op1] (ld_db sample_s1) ∧ pubsub_ok (ld_pubsub sample_s1)).
  { destruct (Apply_run (CL := model_crud_laws sample_ord 1) (EL := model_encoding_laws sample_ord 1)
      tx_ok empty_store [] (Wrap initial_db) (newOp 7 OpCreate sample_interface) false (Ok tt) sample_s1) as [Hh Hp];
      [apply initial_log_inv|apply newPubSub_ok|done|done|done|vm_compute; reflexivity|].
    split; [exact Hh|]. rewrite Hp. apply emitted_ok, newPubSub_ok. }
  destruct H1 as [H1 Hp1]. split; [done|].
  apply (Apply_run (CL := model_crud_laws sample_ord 1) (EL := model_encoding_laws sample_ord 1)
      tx_ok empty_store [sample_op1] sample_s1 (newOp 8 OpCreate sample_peer) false (Ok tt) sample_s2);
      [exact H1|exact Hp1|done|done|done|vm_compute; reflexivity].
Qed.

Lemma sample_steps : rtc (sql_step sample_ord 1) (fresh_system 1) sample_x.
Proof.
  eapply rtc_l.
  { eapply (step_write _ _ _ tx_ok OpCreate sample_interface 7 (Ok tt) sample_s1);
      [done|vm_compute; reflexivity|vm_compute; reflexivity|done|vm_compute; reflexivity|done]. }
  eapply rtc_l.
  { eapply (step_connect _ _ _ 0 (Follower (Wrap initial_db) None) sample_env (Ok tt) sample_connected.1 sample_connected.2);
      [vm_compute; reflexivity|done|done|vm_compute; reflexivity|done]. }
  eapply rtc_l.
  { eapply (step_notify _ _ _ 0 sample_connected.2 (Ok tt) (fl_notify sample_connected).2.1 (fl_notify sample_connected).2.2);
      [by rewrite lookup_insert_eq|vm_compute; reflexivity|done]. }
  eapply rtc_l.
  { eapply (step_notify _ _ _ 0 (fl_notify sample_connected).2.2 (Ok tt) sample_forwarded.1 sample_forwarded.2);
      [by rewrite lookup_insert_eq|vm_compute; reflexivity|done]. }
  eapply rtc_l.
  { eapply (step_receive _ _ _ 0 sample_forwarded.2 tx_ok (Ok tt) sample_applied.1 sample_applied.2);
      [by rewrite lookup_insert_eq|done|vm_compute; reflexivity|done]. }
  rewrite !insert_insert_eq. apply rtc_once.
  eapply (step_write _ _ _ tx_ok OpCreate sample_peer 8 (Ok tt));
      [done|vm_compute; reflexivity|vm_compute; reflexivity|done|vm_compute; reflexivity|done].
Qed.

(** Replication never diverges: in every state the system can reach, by any
    interleaving of writes on the datastore with connections, forwarding steps,
    applications, refused transactions and disconnections of any number of
    followers, the datastore's log is its complete history, and every follower
    has some prefix of it: its sequence is the prefix's length, its log table is
    that prefix of the datastore's log table, and its data is what replaying the
    prefix from the empty store gives. *)
Theorem replication_prefix ord fuel n x :
  rtc (sql_step ord fuel) (fresh_system n) x →
  ∃ ops, history ord fuel ops (ld_db (sys_src x)) ∧
    ∀ i f, sys_followers x !! i = Some f → ∃ k,
      (k ≤ length ops)%nat ∧ GetSequence (ld_db (fl_sink f)) = Z.of_nat k ∧
      rows_of (ld_db (fl_sink f)) "log" = take k (rows_of (ld_db (sys_src x)) "log") ∧
      spec_replay (CL := model_crud_laws ord fuel) (take k ops) empty_store = Some (abs (ld_db (fl_sink f))).
Proof.
  intros Hsteps. destruct (sys_steps_inv _ _ _ _ (fresh_system_inv ord fuel n) Hsteps) as [ops Hinv].
  exists ops. destruct Hinv as [Hl _ _ _ Hf _]. split; [done|]. intros i f Hi.
  destruct (Hf i f Hi) as (fops & [Hrep _] & Hok). exists (length fops). apply prefix_tables; [done..|].
  destruct (fl_conn f) as [c|]; [|done]. destruct Hok as (_ & b & _ & Hall). by eapply prefix_of_link.
Qed.

Lemma replication_prefix_witness :
  ∃ ops, history sample_ord 1 ops (ld_db (sys_src sample_x)) ∧
    ∃ k, GetSequence (ld_db (fl_sink sample_applied.2)) = Z.of_nat k ∧
      spec_replay (CL := model_crud_laws sample_ord 1) (take k ops) empty_store =
        Some (abs (ld_db (fl_sink sample_applied.2))).
Proof.
  destruct (replication_prefix sample_ord 1 1 sample_x sample_steps) as (ops & Hh & Hf).
  exists ops. split; [exact Hh|].
  destruct (Hf 0%nat sample_applied.2) as (k & _ & H1 & _ & H2); [vm_compute; reflexivity|].
  exists k. split; [exact H1|exact H2].
Defined.

(** Followers catch up: from every reachable state, a follower that nobody
    follows in turn can reach, by its own steps alone (connecting, forwarding,
    applying), a state in which it holds exactly the datastore's data, log and
    sequence, while the datastore's tables stay as they are. *)
Theorem replication_converges ord fuel n x i f :
  rtc (sql_step ord fuel) (fresh_system n) x → sys_followers x !! i = Some f →
  subscribers (ld_pubsub (fl_sink f)) = [] → (GetSequence (ld_db (sys_src x)) + 1 < 2 ^ 63)%Z →
  ∃ x' f', rtc (sql_step ord fuel) x x' ∧ ld_db (sys_src x') = ld_db (sys_src x) ∧
    sys_followers x' !! i = Some f' ∧
    abs (ld_db (fl_sink f')) = abs (ld_db (sys_src x)) ∧
    rows_of (ld_db (fl_sink f')) "log" = rows_of (ld_db (sys_src x)) "log" ∧
    GetSequence (ld_db (fl_sink f')) = GetSequence (ld_db (sys_src x)).
Proof.
  intros Hsteps Hi Hrd Hb. destruct (sys_steps_inv _ _ _ _ (fresh_system_inv ord fuel n) Hsteps) as [ops Hinv].
  cbn [app] in Hinv. pose proof (si_log _ _ _ Hinv) as Hl. rewrite (log_inv_sequence _ _ _ Hl) in Hb |- *.
  destruct (catch_up (CL := model_crud_laws ord fuel) (EL := model_encoding_laws ord fuel) empty_store
    (SP := sql_sink_progress (CL := model_crud_laws ord fuel) (EL := model_encoding_laws ord fuel) empty_store) ops i x f Hinv Hi Hrd Hb)
    as (x' & Hsteps' & Hdb & _ & (f' & fops & Hf' & [Hrep _] & Hall)).
  exists x', f'. pose proof (Forall2_length _ _ _ Hall) as Hlen.
  assert (Hpre : Forall2 (op_eqv (EL := model_encoding_laws ord fuel)) (take (length fops) ops) fops)
    by (rewrite <- Hlen; by rewrite take_ge).
  destruct (prefix_tables ord fuel _ _ _ _ Hl Hrep Hpre) as (_ & Hseq & Hrows & Hsp).
  split_and!; [done|done|done|..].
  - rewrite take_ge in Hsp by lia. 
    assert (He : Some (abs (ld_db (sys_src x))) = Some (abs (ld_db (fl_sink f'))))
      by (rewrite <- Hsp; symmetry; apply Hl).
    injection He as He1 He2 He3. symmetry. unfold abs. by f_equal.
  - rewrite Hrows. apply take_ge. pose proof (li_rows _ _ _ Hl) as Hr. apply (f_equal length) in Hr.
    rewrite !length_fmap in Hr. lia.
  - by rewrite Hseq, Hlen.
Qed.

Lemma replication_converges_witness :
  ∃ x' f', rtc (sql_step sample_ord 1) sample_x x' ∧ sys_followers x' !! 0%nat = Some f' ∧
    abs (ld_db (fl_sink f')) = abs (ld_db (sys_src sample_x)).
Proof.
  destruct (replication_converges sample_ord 1 1 sample_x 0 sample_applied.2 sample_steps)
    as (x' & f' & H1 & _ & H2 & H3 & _); [vm_compute; reflexivity..|].
  exists x', f'. split; [exact H1|]. split; [exact H2|exact H3].
Defined.

(** [Follow] resumes where it left off: for a follower with a prefix of the
    datastore's history, a round that receives the next changes and then the end
    of the channel, followed by a round that receives the rest, leaves it with
    the complete history (whatever the changes look like as long as they are
    equivalent to the logged ones), returns the error that ended the second
    round, leaves the datastore's tables alone and leaves no subscription. *)
Theorem Follow_resumes ord fuel ops s fops f l1 l2 e :
  history ord fuel ops (ld_db s) → Forall (λ o, obj_wire_ok (op_value o) = true) ops →
  history ord fuel fops (ld_db f) → pubsub_ok (ld_pubsub f) → subscribers (ld_pubsub f) = [] →
  subscribers (ld_pubsub s) = [] →
  Forall2 (op_eqv (EL := model_encoding_laws ord fuel)) ops (app fops (app l1 l2)) →
  (Z.of_nat (length ops) + 1 < 2 ^ 63)%Z →
  let env := FollowEnv tx_ok tx_ok tx_ok tx_ok tx_ok tx_ok in
  ∃ s' f', Follow (H := sql_source (H := model_crud ord fuel)) (H0 := sql_sink (H := model_crud ord fuel))
      [(env, app (EvOp <$> l1) [EvClosed]); (env, app (EvOp <$> l2) [EvDone e])] (s, f) = (Err e, (s', f')) ∧
    history ord fuel ops (ld_db f') ∧ ld_db s' = ld_db s ∧ subscribers (ld_pubsub s') = [].
Proof.
  intros Hl Hw Hlf Hpf Hrf Hsubs Hall Hb env.
  assert (Hrep : sink_rep (SinkLaws := sql_sink_laws (CL := model_crud_laws ord fuel)
                             (EL := model_encoding_laws ord fuel) empty_store) fops f) by done.
  destruct (doFollow_run (CL := model_crud_laws ord fuel) (EL := model_encoding_laws ord fuel) empty_store
    (SP := sql_sink_progress (CL := model_crud_laws ord fuel) (EL := model_encoding_laws ord fuel) empty_store)
    ops s f fops l1 l2 EvClosed Hl Hw (takes_trivial ord fuel ops) Hrep Hrf Hall Hb ltac:(by left)) as (s1 & f1 & Hrep1 & Hr1 & Hdb1 & Hs1 & Hrun1).
  destruct (doFollow_run (CL := model_crud_laws ord fuel) (EL := model_encoding_laws ord fuel) empty_store
    (SP := sql_sink_progress (CL := model_crud_laws ord fuel) (EL := model_encoding_laws ord fuel) empty_store)
    ops s1 f1 (app fops l1) l2 [] (EvDone e)) as (s2 & f2 & [Hl2 _] & _ & Hdb2 & Hs2 & Hrun2);
    [by rewrite Hdb1|done|apply takes_trivial|done|done|by rewrite app_nil_r, <- app_assoc|done|by eauto|].
  exists s2, f2. split_and!.
  - cbn [Follow]. rewrite (bind_Ok _ _ _ _ _ Hrun1). by apply bind_Err.
  - eapply log_inv_eqv; [|exact Hl2]. symmetry. by rewrite <- app_assoc.
  - congruence.
  - by rewrite Hs2, Hs1, Hsubs.
Qed.

Lemma Follow_resumes_witness :
  ∃ s' f', Follow [(sample_env, [EvOp sample_op1; EvClosed]); (sample_env, [EvOp sample_op2; EvDone (EMsg "context canceled")])]
      (sample_s2, Wrap initial_db) = (Err (EMsg "context canceled"), (s', f')) ∧
    history sample_ord 1 [sample_op1; sample_op2] (ld_db f') ∧ ld_db s' = ld_db sample_s2 ∧
    subscribers (ld_pubsub s') = [].
Proof.
  apply (Follow_resumes sample_ord 1 [sample_op1; sample_op2] sample_s2 [] (Wrap initial_db) [sample_op1] [sample_op2]).
  - apply sample_history.
  - repeat constructor.
  - apply initial_log_inv.
  - apply newPubSub_ok.
  - reflexivity.
  - vm_compute; reflexivity.
  - constructor; [reflexivity|]. constructor; [reflexivity|constructor].
  - done.
Defined.

(** C30: a source that lost part of its history stops its followers for good: when
    a follower has seen more changes than the datastore has (it was restored
    from a backup), [Follow] returns the failure of [Snapshot] at once, with
    nothing changed on either side. *)
Theorem Follow_rewound_source ord fuel ops s fops f evs rounds :
  iteration_of model ord →
  history ord fuel ops (ld_db s) → Forall (λ o, obj_wire_ok (op_value o) = true) ops →
  history ord fuel fops (ld_db f) → pubsub_ok (ld_pubsub f) →
  (length ops < length fops)%nat → (Z.of_nat (length fops) + 1 < 2 ^ 63)%Z →
  let env := FollowEnv tx_ok tx_ok tx_ok tx_ok tx_ok tx_ok in
  Follow (H := sql_source (H := model_crud ord fuel)) (H0 := sql_sink (H := model_crud ord fuel))
    ((env, evs) :: rounds) (s, f) = (Err (EWrap "Snapshot() error" (ESql SqlSyntax)), (s, f)).
Proof.
  intros Hord Hl Hw Hlf Hpf Hlt Hb env.
  apply (Follow_behind (CL := model_crud_laws ord fuel) (EL := model_encoding_laws ord fuel)
    (SL := sql_sink_laws (CL := model_crud_laws ord fuel) (EL := model_encoding_laws ord fuel) empty_store)
    empty_store ops s f fops env); try done.
  by apply Snapshot_syntax.
Qed.

Lemma Follow_rewound_source_witness :
  Follow [(sample_env, [])] (Wrap initial_db, sample_s1) =
    (Err (EWrap "Snapshot() error" (ESql SqlSyntax)), (Wrap initial_db, sample_s1)).
Proof.
  apply (Follow_rewound_source sample_ord 1 [] (Wrap initial_db) [sample_op1] sample_s1 [] []).
  - apply sample_ord_iteration.
  - apply initial_log_inv.
  - constructor.
  - apply sample_history.
  - apply newPubSub_ok.
  - cbn; lia.
  - done.
Defined.
