(* ===== verification/Gateway.v ===== *)
(** * The gateway

    [gateway/]: a log sink that turns the interfaces and peers of the datastore
    into network devices of the kernel ([wireguard.go], [interface.go]) and
    reports the kernel's traffic counters ([status.go]).  The kernel is reached
    through the netlink and wgctrl packages: its operations are a parameter
    ([Kernel]), with what they do to the devices as laws ([KernelLaws]). *)

From Stdlib Require Import Ascii.
From S2P Require Import Prelude GoStrings Sql Sqlite Net Model Crud CrudLog Follow.
Local Open Scope string_scope.

(** ** wgctrl configurations *)
Section Wg.
Context `{WK : WgKeys}.

Record PeerConfig : Type := mkPeerConfig {
  pc_PublicKey : wgkey;
  pc_Remove : bool;
  pc_UpdateOnly : bool;
  pc_PresharedKey : option wgkey;
  pc_ReplaceAllowedIPs : bool;
  pc_AllowedIPs : list IPNet;
  pc_Keepalive : option Z }.

Record Config : Type := mkConfig {
  cf_PrivateKey : option wgkey;
  cf_ListenPort : option Z;
  cf_FirewallMark : option Z;
  cf_ReplacePeers : bool;
  cf_Peers : list PeerConfig }.

(** A peer of a device as the kernel reports it. *)
Record wgPeer : Type := mkWgPeer {
  wp_PublicKey : wgkey;
  wp_LastHandshakeTime : time;
  wp_ReceiveBytes : Z;
  wp_TransmitBytes : Z;
  wp_Endpoint : option IP }.

(** A Wireguard device: whether it is up, its addresses, its own parameters and
    its peers with the networks they may use. *)
Record device : Type := mkDevice {
  d_up : bool;
  d_addrs : list IPNet;
  d_key : option wgkey;
  d_port : option Z;
  d_fwmark : option Z;
  d_peers : gmap wgkey (list IPNet) }.

Definition new_device : device := mkDevice false [] None None None ∅.

(** What one peer configuration does to the set of peers: removal, update of an
    existing peer only, or addition. *)
Definition peer_configured (c : PeerConfig) (ps : gset wgkey) : gset wgkey :=
  if pc_Remove c then ps ∖ {[pc_PublicKey c]}
  else if pc_UpdateOnly c && negb (bool_decide (pc_PublicKey c ∈ ps)) then ps
  else {[pc_PublicKey c]} ∪ ps.

Definition peers_configured (c : Config) (ps : gset wgkey) : gset wgkey :=
  foldl (λ ps p, peer_configured p ps) (if cf_ReplacePeers c then ∅ else ps) (cf_Peers c).

(** ** The kernel *)

(** [netlink.LinkAttrs], the fields that the code sets; the type of such a link
    is wireguard. *)
Record LinkAttrs : Type := mkLinkAttrs { la_Name : string; la_MTU : Z }.
Definition wireguard_Type (lnk : LinkAttrs) : string := "wireguard".

Class Kernel (K : Type) : Type := {
  LinkByName : string → M K unit;
  LinkSetDown : string → M K unit;
  LinkDel : string → M K unit;
  LinkAdd : LinkAttrs → M K unit;
  LinkSetUp : string → M K unit;
  AddrAdd : string → IPNet → M K unit;
  ConfigureDevice : string → Config → M K unit;
  Device : string → M K (list wgPeer)
}.

(** A kernel call returns; one that fails changes nothing. *)
Definition kernel_call {K} (kview : K → gmap string device) (m : M K unit) (P : gmap string device → gmap string device → Prop) : Prop :=
  ∀ k r k', m k = (r, k') →
    match r with
    | Ok _ => P (kview k) (kview k')
    | Err _ => kview k' = kview k
    | _ => False
    end.

(** The documented effect of the calls on the devices.  A successful
    configuration sets what it gives of the device's own parameters and changes
    the set of peers; a peer given with [ReplaceAllowedIPs] has exactly the
    given networks afterwards.  A device that does not exist cannot be
    configured. *)
Class KernelLaws {K} `{Kernel K} : Type := {
  kview : K → gmap string device;
  link_by_name n k r k' :
    LinkByName n k = (r, k') →
    k' = k ∧ match r with Ok _ => is_Some (kview k !! n) | Err _ => kview k !! n = None | _ => False end;
  link_set_down n : kernel_call kview (LinkSetDown n) (λ v v',
    v' = alter (λ d, mkDevice false (d_addrs d) (d_key d) (d_port d) (d_fwmark d) (d_peers d)) n v);
  link_del n : kernel_call kview (LinkDel n) (λ v v', v' = delete n v);
  link_add a : kernel_call kview (LinkAdd a) (λ v v', v !! la_Name a = None ∧ v' = <[la_Name a := new_device]> v);
  link_set_up n : kernel_call kview (LinkSetUp n) (λ v v',
    v' = alter (λ d, mkDevice true (d_addrs d) (d_key d) (d_port d) (d_fwmark d) (d_peers d)) n v);
  addr_add n a : kernel_call kview (AddrAdd n a) (λ v v',
    v' = alter (λ d, mkDevice (d_up d) (app (d_addrs d) [a]) (d_key d) (d_port d) (d_fwmark d) (d_peers d)) n v);
  configure_device n c : kernel_call kview (ConfigureDevice n c) (λ v v', ∃ d ps,
    v !! n = Some d ∧
    v' = <[n := mkDevice (d_up d) (d_addrs d) (cf_PrivateKey c ∪ d_key d) (cf_ListenPort c ∪ d_port d)
                  (cf_FirewallMark c ∪ d_fwmark d) ps]> v ∧
    dom ps = peers_configured c (dom (d_peers d)) ∧
    ∀ p, cf_Peers c = [p] → pc_ReplaceAllowedIPs p = true → pc_Remove p = false →
      pc_PublicKey p ∈ dom ps → ps !! pc_PublicKey p = Some (pc_AllowedIPs p))
}.

Context {K : Type} {KN : Kernel K}.

(** ** wgInterface *)
Definition link_err {A} (before n after : string) (m : M K A) : M K A := wrap_err (before ++ n ++ after) m.

(** Takes an existing link down and deletes it. *)
Definition delete_link (n : string) : M K unit :=
  _ ← link_err "ip link set " n " down" (LinkSetDown n);
  link_err "ip del " n "" (LinkDel n).

Definition add_addr (n : string) (c : option CIDR) : M K unit :=
  match c with Some c => link_err "ip addr add " n "" (AddrAdd n (c_IPNet c)) | None => mret tt end.

Definition startInterface (i : Interface) : M K unit :=
  r ← try (LinkByName (i_Name i));
  _ ← match r with inl _ => delete_link (i_Name i) | inr _ => mret tt end;
  _ ← link_err "ip link add " (i_Name i) "" (LinkAdd (mkLinkAttrs (i_Name i) 1420));
  _ ← add_addr (i_Name i) (i_IP i);
  _ ← add_addr (i_Name i) (i_IP6 i);
  LinkSetUp (i_Name i).

Definition stopInterface (i : Interface) : M K unit :=
  r ← try (LinkByName (i_Name i));
  match r with inl _ => delete_link (i_Name i) | inr _ => mret tt end.

Definition initialize (i : Interface) : M K unit :=
  key ← lift_res (ParseKey (i_PrivateKey i));
  ConfigureDevice (i_Name i)
    (mkConfig (Some key) (Some (i_Port i)) (if bool_decide (0 < i_Fwmark i)%Z then Some (i_Fwmark i) else None) false []).

Definition newInterface (i : Interface) : M K unit :=
  _ ← startInterface i; initialize i.

(** ** Gateway *)
Record gateway : Type := mkGateway {
  gw_intfs : gmap string Interface;
  gw_peerIndex : gmap string string;
  gw_seq : Z }.

Definition new_gateway : gateway := mkGateway ∅ ∅ 0.

Definition set_intf (n : string) (i : Interface) : M (gateway * K) unit :=
  modify (λ s, (mkGateway (<[n := i]> (gw_intfs s.1)) (gw_peerIndex s.1) (gw_seq s.1), s.2)).
Definition del_intf (n : string) : M (gateway * K) unit :=
  modify (λ s, (mkGateway (delete n (gw_intfs s.1)) (gw_peerIndex s.1) (gw_seq s.1), s.2)).
Definition set_index (pk n : string) : M (gateway * K) unit :=
  modify (λ s, (mkGateway (gw_intfs s.1) (<[pk := n]> (gw_peerIndex s.1)) (gw_seq s.1), s.2)).
Definition set_seq (seq : Z) : M (gateway * K) unit :=
  modify (λ s, (mkGateway (gw_intfs s.1) (gw_peerIndex s.1) seq, s.2)).

(** The object stays the one in the map: its interface is replaced before the
    device is configured and started again. *)
Definition reconfigure (old new : Interface) : M (gateway * K) unit :=
  _ ← on_snd (stopInterface old);
  _ ← set_intf (i_Name old) new;
  _ ← on_snd (initialize new);
  on_snd (startInterface new).

(** Ten seconds, in nanoseconds. *)
Definition persistentKeepaliveInterval : Z := 10 * 10 ^ 9.

Definition allowed_ips (p : Peer) : list IPNet := c_IPNet <$> app (option_list (p_IP p)) (option_list (p_IP6 p)).

Definition peerToConfig (p : Peer) (update remove : bool) : res PeerConfig :=
  key ← ParseKey (p_PublicKey p);
  if remove then mret (mkPeerConfig key true update (Some zero_key) false [] None)
  else
    match allowed_ips p with
    | [] => Err (EMsg "no IPs configured for peer")
    | ips => mret (mkPeerConfig key false update (Some zero_key) true ips (Some persistentKeepaliveInterval))
    end.

Definition one_peer (c : PeerConfig) : Config := mkConfig None None None false [c].

(** A method call on a nil interface dereferences it. *)
Definition configureWGDevice (i : option Interface) (c : Config) : M (gateway * K) unit :=
  match i with
  | Some i => on_snd (ConfigureDevice (i_Name i) c)
  | None => panic "nil pointer dereference"
  end.

Definition lookup_intf (n : string) : M (gateway * K) (option Interface) := gets (λ s, gw_intfs s.1 !! n).

(** An error that the caller drops. *)
Definition ignore_err {S} (m : M S unit) : M S unit := r ← try m; mret tt.

Definition applyInterface (typ : Z) (i : Interface) : M (gateway * K) unit :=
  if bool_decide (typ = OpCreate) then
    cur ← lookup_intf (i_Name i);
    match cur with
    | Some _ => fail (EMsg "interface already exists")
    | None => _ ← on_snd (newInterface i); set_intf (i_Name i) i
    end
  else if bool_decide (typ = OpUpdate) then
    cur ← lookup_intf (i_Name i);
    match cur with
    | None => fail (EMsg "interface does not exist")
    | Some old => reconfigure old i
    end
  else if bool_decide (typ = OpDelete) then
    cur ← lookup_intf (i_Name i);
    match cur with
    | None => fail (EMsg "interface does not exist")
    | Some old => _ ← ignore_err (on_snd (stopInterface old)); del_intf (i_Name i)
    end
  else mret tt.

(** An update that moves a peer to another interface first removes it from the
    old one; errors of that are dropped. *)
Definition leave_old_interface (p : Peer) : M (gateway * K) unit :=
  old ← gets (λ s, default "" (gw_peerIndex s.1 !! p_PublicKey p));
  if bool_decide (old ≠ "") && bool_decide (old ≠ p_Interface p) then
    i ← lookup_intf old;
    ignore_err (configureWGDevice i
      (mkConfig None None None false
         [match peerToConfig p false true with
          | Ok c => c
          | _ => mkPeerConfig zero_key false false None false [] None
          end]))
  else mret tt.

Definition applyPeer (typ : Z) (p : Peer) : M (gateway * K) unit :=
  if bool_decide (typ = OpCreate) then
    i ← lookup_intf (p_Interface p);
    match i with
    | None => fail (EMsg "interface does not exist")
    | Some _ =>
        _ ← set_index (p_PublicKey p) (p_Interface p);
        cfg ← lift_res (peerToConfig p false false);
        configureWGDevice i (one_peer cfg)
    end
  else if bool_decide (typ = OpUpdate) then
    i ← lookup_intf (p_Interface p);
    match i with
    | None => fail (EMsg "interface does not exist")
    | Some _ =>
        _ ← leave_old_interface p;
        _ ← set_index (p_PublicKey p) (p_Interface p);
        cfg ← lift_res (peerToConfig p true false);
        configureWGDevice i (one_peer cfg)
    end
  else if bool_decide (typ = OpDelete) then
    i ← gets (λ s, gw_intfs s.1 !! default "" (gw_peerIndex s.1 !! p_PublicKey p));
    cfg ← lift_res (peerToConfig p false true);
    configureWGDevice i (one_peer cfg)
  else panic "nil pointer dereference".

Definition gateway_Apply (o : op) (fromLog : bool) : M (gateway * K) unit :=
  _ ← match op_value o with
      | OPeer p => applyPeer (op_typ o) p
      | OInterface i => applyInterface (op_typ o) i
      | _ => mret tt
      end;
  set_seq (op_seq o).

Definition gateway_LatestSequence : M (gateway * K) Z := gets (λ s, gw_seq s.1).

(** The interfaces of [n.intfs] in the order of one iteration. *)
Definition intf_order (g : gateway) (ord : list Interface) : Prop := ord ≡ₚ (map_to_list (gw_intfs g)).*2.

Definition closeAllInterfaces (ord : list Interface) : M (gateway * K) unit :=
  each (λ i, ignore_err (on_snd (stopInterface i))) ord.

Definition split_add (acc : list Interface * gmap string (list Peer)) (o : obj) : list Interface * gmap string (list Peer) :=
  match o with
  | OInterface i => (app acc.1 [i], acc.2)
  | OPeer p => (acc.1, <[p_Interface p := app (default [] (acc.2 !! p_Interface p)) [p]]> acc.2)
  | _ => acc
  end.

Definition splitSnapshot (snap : memSnapshot) : list Interface * gmap string (list Peer) :=
  foldl split_add ([], ∅) (Items snap).

(** One turn of the loop over the interfaces of a snapshot: the new interface
    map and peer index are local variables. *)
Definition load_interface (peers : gmap string (list Peer)) (i : Interface) (acc : gmap string Interface * gmap string string)
  : M K (gmap string Interface * gmap string string) :=
  _ ← newInterface i;
  cfgs ← lift_res (res_map (λ p, peerToConfig p false false) (default [] (peers !! i_Name i)));
  _ ← ConfigureDevice (i_Name i) (mkConfig None None None true cfgs);
  mret (<[i_Name i := i]> acc.1,
        foldl (λ m p, <[p_PublicKey p := i_Name i]> m) acc.2 (default [] (peers !! i_Name i))).

Fixpoint load_interfaces (peers : gmap string (list Peer)) (intfs : list Interface)
    (acc : gmap string Interface * gmap string string) : M K (gmap string Interface * gmap string string) :=
  match intfs with
  | [] => mret acc
  | i :: intfs => acc ← load_interface peers i acc; load_interfaces peers intfs acc
  end.

Definition gateway_LoadSnapshot (ord : list Interface) (snap : option memSnapshot) : M (gateway * K) unit :=
  match snap with
  | None => panic "nil pointer dereference"
  | Some snap =>
      let '(intfs, peers) := splitSnapshot snap in
      _ ← closeAllInterfaces ord;
      r ← on_snd (load_interfaces peers intfs (∅, ∅));
      modify (λ s, (mkGateway r.1 r.2 (SeqNum snap), s.2))
  end.

(** ** Traffic statistics *)
Record PeerStats : Type := mkPeerStats {
  ps_PublicKey : string;
  ps_LastHandshakeTime : time;
  ps_RxBytes : Z;
  ps_TxBytes : Z;
  ps_Endpoint : string }.

Definition peer_stats (p : wgPeer) : PeerStats :=
  mkPeerStats (Key_String (wp_PublicKey p)) (wp_LastHandshakeTime p) (wp_ReceiveBytes p) (wp_TransmitBytes p)
    (match wp_Endpoint p with Some ip => IP_string ip | None => "" end).

Definition collectStats (i : Interface) : M K (list PeerStats) :=
  ps ← Device (i_Name i); mret (peer_stats <$> ps).

(** All interfaces in the order of one iteration, then one report. *)
Fixpoint collect_all (ord : list Interface) : M K (list PeerStats) :=
  match ord with
  | [] => mret []
  | i :: ord => s ← collectStats i; rest ← collect_all ord; mret (app s rest)
  end.

Definition updateStats (ReceivePeerStats : list PeerStats → res unit) (ord : list Interface) : M (gateway * K) unit :=
  stats ← on_snd (collect_all ord);
  lift_res (ReceivePeerStats stats).

(** One tick of [statsLoop]: an error is logged. *)
Definition stats_tick (ReceivePeerStats : list PeerStats → res unit) (ord : list Interface) : M (gateway * K) unit :=
  ignore_err (updateStats ReceivePeerStats ord).

(** *** Metrics *)

(** [float64(z)]: to 53 significant bits, ties to even. *)
Definition float64_of_int (z : Z) : Z :=
  (let e := Z.max 0 (Z.log2 (Z.abs z) - 52) in
   let q := Z.abs z / 2 ^ e in
   let r := Z.abs z mod 2 ^ e in
   let up := bool_decide (2 ^ e < 2 * r) || (bool_decide (2 * r = 2 ^ e) && Z.odd q) in
   Z.sgn z * ((if up then q + 1 else q) * 2 ^ e))%Z.

Record metric : Type := mkMetric { mt_desc : string; mt_value : Z; mt_peer : string }.

Definition peer_metrics (ps : PeerStats) : list metric :=
  [mkMetric "wig_receive_bytes_total" (float64_of_int (ps_RxBytes ps)) (ps_PublicKey ps);
   mkMetric "wig_transmit_bytes_total" (float64_of_int (ps_TxBytes ps)) (ps_PublicKey ps)].

(** [Collect]: an interface whose device cannot be read is left out. *)
Fixpoint Collect (ord : list Interface) : M K (list metric) :=
  match ord with
  | [] => mret []
  | i :: ord =>
      r ← try (collectStats i);
      rest ← Collect ord;
      mret (match r with inl stats => app (stats ≫= peer_metrics) rest | inr _ => rest end)
  end.

(** [Close]: every interface is stopped. *)
Definition gateway_Close (ord : list Interface) : M (gateway * K) unit := closeAllInterfaces ord.

(** ** The gateway as a log sink *)
#[export] Instance gateway_sink : LogSink (gateway * K) (list Interface) :=
  {| sink_Apply _ o b := gateway_Apply o b;
     sink_LatestSequence _ := gateway_LatestSequence;
     sink_LoadSnapshot ord := gateway_LoadSnapshot ord |}.

End Wg.
