(* ===== verification/GatewaySpec.v ===== *)
(** * Correctness of the gateway

    The gateway is in sync with a set of objects when the kernel has exactly
    the devices and peers the objects describe.  Applying an operation of the
    log keeps the two in sync, with exceptions that are stated as theorems of
    their own: interfaces cannot be updated, and operations on peers that do
    not exist or that change their interface are mishandled. *)

From Stdlib Require Import Ascii.
From S2P Require Import Prelude GoStrings Sql Sqlite Net Model Crud CrudSpec CrudLog CrudLogSpec Follow Gateway.
Local Open Scope string_scope.

(** ** The objects a gateway serves *)
Record gobjects : Type := mkObjects { go_intfs : gmap string Interface; go_peers : gmap string Peer }.

(** Their rows are what the store holds. *)
Definition objects_of (st : store) (gs : gobjects) : Prop :=
  st_intfs st = (λ i, named_args (OInterface i)) <$> go_intfs gs ∧
  st_peers st = (λ p, named_args (OPeer p)) <$> go_peers gs.

(** What an accepted operation makes of them. *)
Definition objects_apply (k : op_kind) (o : obj) (gs : gobjects) : gobjects :=
  match o, k with
  | OInterface i, DoCreate => mkObjects (<[i_Name i := i]> (go_intfs gs)) (go_peers gs)
  | OInterface i, DoUpdate =>
      if decide (is_Some (go_intfs gs !! i_Name i)) then mkObjects (<[i_Name i := i]> (go_intfs gs)) (go_peers gs) else gs
  | OInterface i, DoDelete =>
      if decide (is_Some (go_intfs gs !! i_Name i)) then
        mkObjects (delete (i_Name i) (go_intfs gs)) (filter (λ kp, p_Interface kp.2 ≠ i_Name i) (go_peers gs))
      else gs
  | OPeer p, DoCreate => mkObjects (go_intfs gs) (<[p_PublicKey p := p]> (go_peers gs))
  | OPeer p, DoUpdate =>
      if decide (is_Some (go_peers gs !! p_PublicKey p)) then mkObjects (go_intfs gs) (<[p_PublicKey p := p]> (go_peers gs)) else gs
  | OPeer p, DoDelete => mkObjects (go_intfs gs) (delete (p_PublicKey p) (go_peers gs))
  | _, _ => gs
  end.

(** The objects follow the store. *)
Lemma fmap_is_Some {A B} (f : A → B) (m : gmap string A) k : is_Some ((f <$> m) !! k) ↔ is_Some (m !! k).
Proof. rewrite lookup_fmap. by rewrite fmap_is_Some. Qed.

Lemma objects_apply_store k o st st' gs :
  objects_of st gs → spec_dispatch k o st = Some st' → objects_of st' (objects_apply k o gs).
Proof.
  intros [Hi Hp] Hs. unfold objects_of.
  destruct o as [p|i|t|j], k; cbn [spec_dispatch spec_create spec_update spec_delete objects_apply] in Hs |- *;
    rewrite ?Hi, ?Hp in Hs; repeat case_decide; rewrite ?fmap_is_Some in *; simplify_eq;
    cbn [st_intfs st_peers go_intfs go_peers]; rewrite ?fmap_insert, ?fmap_delete; try tauto; try done.
  split; [done|]. rewrite map_filter_fmap. f_equal. apply map_filter_ext. intros pk p _. cbn.
  unfold row_get. cbn. rewrite lookup_insert_ne by discriminate. rewrite lookup_insert_eq. cbn.
  split; intros Hne Heq; apply Hne; congruence.
Qed.

(** Parsing a key returns a key or an error. *)
Class WgKeysLaws `{WgKeys} : Prop := { parse_key_returns s : returned (ParseKey s) = true }.

(** ** Runs that return

    No code of the gateway blocks, and most of it cannot panic. *)
Definition returns {S A} (m : M S A) : Prop := ∀ s, returned (m s).1 = true.

Lemma returns_bind {S A B} (m : M S A) (f : A → M S B) : returns m → (∀ a, returns (f a)) → returns (m ≫= f).
Proof.
  intros Hm Hf s. specialize (Hm s). m_unfold. destruct (m s) as [[a|e|p|] s']; cbn in *; try done. apply Hf.
Qed.

Lemma returns_mret {S A} (a : A) : returns (mret a : M S A).
Proof. by intros s. Qed.

Lemma returns_fail {S A} e : returns (fail e : M S A).
Proof. by intros s. Qed.

Lemma returns_modify {S} (f : S → S) : returns (modify f).
Proof. by intros s. Qed.

Lemma returns_gets {S A} (f : S → A) : returns (gets f).
Proof. by intros s. Qed.

Lemma returns_lift {S A} (r : res A) : returned r = true → returns (lift_res r : M S A).
Proof. intros Hr s. exact Hr. Qed.

Lemma returns_try {S A} (m : M S A) : returns m → returns (try m).
Proof. intros Hm s. specialize (Hm s). unfold try. by destruct (m s) as [[] ?]. Qed.

Lemma returns_wrap {S A} msg (m : M S A) : returns m → returns (wrap_err msg m).
Proof. intros Hm s. specialize (Hm s). unfold wrap_err. by destruct (m s) as [[] ?]. Qed.

Lemma returns_on_snd {P F A} (m : M F A) : returns m → returns (on_snd m : M (P * F) A).
Proof. intros Hm [p f]. specialize (Hm f). unfold on_snd. cbn. by destruct (m f) as [[] ?]. Qed.

Lemma returns_ignore {S} (m : M S unit) : returns m → returns (ignore_err m).
Proof. intros Hm. apply returns_bind; [by apply returns_try|]. intros. apply returns_mret. Qed.

Lemma returns_each {S A} (f : A → M S unit) l : (∀ x, returns (f x)) → returns (each f l).
Proof.
  intros Hf. induction l as [|x l IH]; [apply returns_mret|]. by apply returns_bind.
Qed.

Create HintDb returns.
#[export] Hint Resolve returns_bind returns_mret returns_fail returns_modify returns_gets returns_lift
  returns_try returns_wrap returns_on_snd returns_ignore returns_each : returns.

Section Spec.
Context `{WK : WgKeys} {WL : WgKeysLaws} {K : Type} {KN : Kernel K} {KL : KernelLaws}.

(** ** Lemmas: kernel calls *)
Lemma kernel_call_returns (m : M K unit) P : kernel_call kview m P → returns m.
Proof.
  intros Hc k. destruct (m k) as [r k'] eqn:E. specialize (Hc _ _ _ E). by destruct r.
Qed.

Lemma LinkByName_returns n : returns (LinkByName n).
Proof. intros k. destruct (LinkByName n k) as [r k'] eqn:E. apply link_by_name in E as [_ E]. by destruct r. Qed.

Lemma calls_return n a c :
  returns (LinkSetDown n) ∧ returns (LinkDel n) ∧ returns (LinkAdd (mkLinkAttrs n 1420)) ∧ returns (LinkSetUp n) ∧
  returns (AddrAdd n a) ∧ returns (ConfigureDevice n c).
Proof.
  split_and!; eapply kernel_call_returns; eauto using link_set_down, link_del, link_add, link_set_up, addr_add, configure_device.
Qed.

Lemma delete_link_returns n : returns (delete_link n).
Proof. destruct (calls_return n (mkIPNet [] []) (mkConfig None None None false [])) as (? & ? & _). unfold delete_link, link_err. auto with returns. Qed.

Lemma add_addr_returns n c : returns (add_addr n c).
Proof.
  unfold add_addr, link_err. destruct c as [c|]; [|apply returns_mret].
  destruct (calls_return n (c_IPNet c) (mkConfig None None None false [])) as (_ & _ & _ & _ & ? & _). auto with returns.
Qed.

Lemma stopInterface_returns i : returns (stopInterface i).
Proof.
  unfold stopInterface. apply returns_bind; [apply returns_try, LinkByName_returns|].
  intros [_|_]; [apply delete_link_returns|apply returns_mret].
Qed.

Lemma startInterface_returns i : returns (startInterface i).
Proof.
  destruct (calls_return (i_Name i) (mkIPNet [] []) (mkConfig None None None false [])) as (_ & _ & ? & ? & _).
  unfold startInterface, link_err. apply returns_bind; [apply returns_try, LinkByName_returns|]. intros r.
  apply returns_bind; [destruct r; auto using delete_link_returns with returns|]. intros _.
  apply returns_bind; [by apply returns_wrap|]. intros _.
  apply returns_bind; [apply add_addr_returns|]. intros _.
  apply returns_bind; [apply add_addr_returns|]. done.
Qed.

Lemma ConfigureDevice_returns n c : returns (ConfigureDevice n c).
Proof. apply (calls_return n (mkIPNet [] []) c). Qed.

Lemma initialize_returns i : returns (initialize i).
Proof.
  unfold initialize. apply returns_bind; [apply returns_lift, parse_key_returns|]. intros. apply ConfigureDevice_returns.
Qed.

Lemma newInterface_returns i : returns (newInterface i).
Proof. unfold newInterface. auto using startInterface_returns, initialize_returns with returns. Qed.

(** *** What a successful run does to the devices *)
Lemma call_Ok m P k u k' : kernel_call kview m P → m k = (Ok u, k') → P (kview k) (kview k').
Proof. intros Hc E. exact (Hc _ _ _ E). Qed.

Lemma wrap_Ok {S A} msg (m : M S A) s a s' : wrap_err msg m s = (Ok a, s') → m s = (Ok a, s').
Proof. unfold wrap_err. destruct (m s) as [[] ?]; intros; by inv_run. Qed.

Lemma try_Ok {S A} (m : M S A) s r s' :
  try m s = (Ok r, s') → match r with inl a => m s = (Ok a, s') | inr e => m s = (Err e, s') end.
Proof. unfold try. destruct (m s) as [[] ?]; intros; by inv_run. Qed.

Lemma delete_link_Ok n k u k' : delete_link n k = (Ok u, k') → kview k' = delete n (kview k).
Proof.
  unfold delete_link, link_err. intros H. apply bind_Ok_inv in H as (? & k1 & H1 & H2).
  apply wrap_Ok, (call_Ok _ _ _ _ _ (link_set_down n)) in H1. apply wrap_Ok, (call_Ok _ _ _ _ _ (link_del n)) in H2.
  rewrite H2, H1. apply map_eq. intros i. rewrite !lookup_delete, lookup_alter. by repeat case_decide.
Qed.

Lemma clear_link_Ok n (r : unit + err) k u k' :
  (match r with inl _ => delete_link n | inr _ => mret tt end) k = (Ok u, k') →
  (match r with inl _ => is_Some (kview k !! n) | inr _ => kview k !! n = None end) →
  kview k' = delete n (kview k).
Proof.
  destruct r as [x|e]; [intros H _; by eapply delete_link_Ok|].
  intros H Hn. m_unfold. inv_run. by rewrite delete_id.
Qed.

Lemma lookup_link_Ok n k r k' :
  try (LinkByName n) k = (Ok r, k') →
  k' = k ∧ match r with inl _ => is_Some (kview k !! n) | inr _ => kview k !! n = None end.
Proof.
  intros H. apply try_Ok in H. destruct r as [x|e]; apply link_by_name in H; done.
Qed.

Lemma stopInterface_Ok i k u k' : stopInterface i k = (Ok u, k') → kview k' = delete (i_Name i) (kview k).
Proof.
  unfold stopInterface. intros H. apply bind_Ok_inv in H as (r & k1 & H1 & H2).
  apply lookup_link_Ok in H1 as [-> Hr]. by eapply clear_link_Ok.
Qed.

Definition set_addrs (d : device) (l : list IPNet) : device :=
  mkDevice (d_up d) l (d_key d) (d_port d) (d_fwmark d) (d_peers d).

Lemma add_addr_Ok n c k u k' :
  add_addr n c k = (Ok u, k') →
  kview k' = alter (λ d, set_addrs d (app (d_addrs d) (c_IPNet <$> option_list c))) n (kview k).
Proof.
  unfold add_addr, link_err. destruct c as [c|]; intros H.
  - apply wrap_Ok, (call_Ok _ _ _ _ _ (addr_add n (c_IPNet c))) in H. exact H.
  - m_unfold. inv_run. symmetry. apply alter_id. intros d _. cbn. rewrite app_nil_r. by destruct d.
Qed.

Definition intf_addrs (i : Interface) : list IPNet := c_IPNet <$> app (option_list (i_IP i)) (option_list (i_IP6 i)).

Lemma startInterface_Ok i k u k' :
  startInterface i k = (Ok u, k') →
  kview k' = <[i_Name i := mkDevice true (intf_addrs i) None None None ∅]> (kview k).
Proof.
  unfold startInterface, link_err. intros H.
  apply bind_Ok_inv in H as (r & k1 & H1 & H). apply lookup_link_Ok in H1 as [-> Hr].
  apply bind_Ok_inv in H as (? & k2 & H2 & H). apply clear_link_Ok in H2; [|done].
  apply bind_Ok_inv in H as (? & k3 & H3 & H). apply wrap_Ok, (call_Ok _ _ _ _ _ (link_add _)) in H3 as [_ H3].
  apply bind_Ok_inv in H as (? & k4 & H4 & H). apply add_addr_Ok in H4.
  apply bind_Ok_inv in H as (? & k5 & H5 & H). apply add_addr_Ok in H5.
  apply (call_Ok _ _ _ _ _ (link_set_up _)) in H.
  rewrite H, H5, H4, H3, H2. apply map_eq. intros n. destruct (decide (i_Name i = n)) as [<-|Hne].
  2: { rewrite !lookup_alter_ne, !lookup_insert_ne, lookup_delete_ne by done. done. }
  rewrite !lookup_alter_eq, !lookup_insert_eq. cbn. do 2 f_equal. unfold intf_addrs. by rewrite fmap_app.
Qed.

(** The device an interface describes, before it has peers. *)
Definition intf_device (i : Interface) (key : wgkey) (ps : gmap wgkey (list IPNet)) : device :=
  mkDevice true (intf_addrs i) (Some key) (Some (i_Port i))
    (if bool_decide (0 < i_Fwmark i)%Z then Some (i_Fwmark i) else None) ps.

Lemma newInterface_Ok i k u k' :
  newInterface i k = (Ok u, k') →
  ∃ key, ParseKey (i_PrivateKey i) = Ok key ∧ kview k' = <[i_Name i := intf_device i key ∅]> (kview k).
Proof.
  unfold newInterface, initialize. intros H. apply bind_Ok_inv in H as (? & k1 & H1 & H).
  apply startInterface_Ok in H1. apply bind_Ok_inv in H as (key & k2 & H2 & H). unfold lift_res in H2. inv_run.
  exists key. split; [done|]. apply (call_Ok _ _ _ _ _ (configure_device _ _)) in H as (d & ps & Hd & Hv & Hdom & _).
  rewrite H1, lookup_insert_eq in Hd. simplify_eq. cbn in Hdom. rewrite dom_empty_L in Hdom.
  apply dom_empty_inv_L in Hdom as ->. rewrite Hv, H1, insert_insert_eq. f_equal. unfold intf_device.
  cbn. by case_bool_decide.
Qed.

(** ** In sync *)
Definition has_peer (gs : gobjects) (n : string) (x : wgkey) : Prop :=
  ∃ pk p, go_peers gs !! pk = Some p ∧ p_Interface p = n ∧ ParseKey pk = Ok x.

(** The kernel has the device of every interface, up, with its addresses, key,
    port and mark, and with exactly its peers; the gateway's own maps agree.
    Different peers have different keys. *)
Record gw_sync (gs : gobjects) (s : gateway * K) : Prop := {
  gy_intfs : gw_intfs s.1 = go_intfs gs;
  gy_device n i : go_intfs gs !! n = Some i →
    i_Name i = n ∧ ∃ key ps, ParseKey (i_PrivateKey i) = Ok key ∧
      kview s.2 !! n = Some (intf_device i key ps) ∧ ∀ x, x ∈ dom ps ↔ has_peer gs n x;
  gy_peers pk p : go_peers gs !! pk = Some p →
    p_PublicKey p = pk ∧ is_Some (go_intfs gs !! p_Interface p) ∧ gw_peerIndex s.1 !! pk = Some (p_Interface p);
  gy_keys pk pk' p p' x : go_peers gs !! pk = Some p → go_peers gs !! pk' = Some p' →
    ParseKey pk = Ok x → ParseKey pk' = Ok x → pk = pk'
}.

(** Operations the gateway handles: on peers that exist (unless it creates
    them), without a change of interface, with a key of their own. *)
Definition gw_safe (k : op_kind) (o : obj) (gs : gobjects) : Prop :=
  match o with
  | OPeer p =>
      (∀ pk' p' x, go_peers gs !! pk' = Some p' → ParseKey pk' = Ok x → ParseKey (p_PublicKey p) = Ok x →
        pk' = p_PublicKey p) ∧
      match k with
      | DoCreate => True
      | DoUpdate => ∃ p0, go_peers gs !! p_PublicKey p = Some p0 ∧ p_Interface p0 = p_Interface p
      | DoDelete => is_Some (go_peers gs !! p_PublicKey p)
      end
  | _ => True
  end.

Lemma configure_peer_Ok n c i key ps k u k' :
  ConfigureDevice n (one_peer c) k = (Ok u, k') → kview k !! n = Some (intf_device i key ps) →
  ∃ ps', kview k' = <[n := intf_device i key ps']> (kview k) ∧ dom ps' = peer_configured c (dom ps) ∧
    (pc_ReplaceAllowedIPs c = true → pc_Remove c = false → pc_PublicKey c ∈ dom ps' →
      ps' !! pc_PublicKey c = Some (pc_AllowedIPs c)).
Proof.
  intros H Hn. apply (call_Ok _ _ _ _ _ (configure_device _ _)) in H as (d & ps' & Hd & Hv & Hdom & Hall).
  rewrite Hn in Hd. simplify_eq. exists ps'. split_and!; [|exact Hdom|intros; by apply Hall].
  rewrite Hv. f_equal. unfold intf_device. cbn. by case_bool_decide.
Qed.

(** *** Peers *)
Lemma peerToConfig_Ok p update remove c :
  peerToConfig p update remove = Ok c →
  ParseKey (p_PublicKey p) = Ok (pc_PublicKey c) ∧ pc_Remove c = remove ∧ pc_UpdateOnly c = update ∧
  (remove = false → pc_AllowedIPs c = allowed_ips p ∧ pc_AllowedIPs c ≠ [] ∧ pc_ReplaceAllowedIPs c = true ∧
    pc_Keepalive c = Some persistentKeepaliveInterval).
Proof.
  unfold peerToConfig. m_unfold. destruct (ParseKey _) as [key| | |]; try done. destruct remove.
  - intros; inv_run. done.
  - destruct (allowed_ips p) eqn:E; intros; inv_run. done.
Qed.

Lemma peerToConfig_returns p u r : returned (peerToConfig p u r) = true.
Proof.
  unfold peerToConfig. m_unfold. pose proof (parse_key_returns (p_PublicKey p)).
  destruct (ParseKey _); try done. destruct r; [done|]. by destruct (allowed_ips p).
Qed.

(** The device of [n] got the set of peers that belongs to [gs']. *)
Lemma sync_device_step gs gs' g g' k k' n i key ps' :
  gw_sync gs (g, k) → go_intfs gs !! n = Some i → ParseKey (i_PrivateKey i) = Ok key →
  kview k' = <[n := intf_device i key ps']> (kview k) →
  go_intfs gs' = go_intfs gs → gw_intfs g' = gw_intfs g →
  (∀ x, x ∈ dom ps' ↔ has_peer gs' n x) →
  (∀ n' x, n' ≠ n → has_peer gs' n' x ↔ has_peer gs n' x) →
  (∀ pk p, go_peers gs' !! pk = Some p → p_PublicKey p = pk ∧ is_Some (go_intfs gs !! p_Interface p) ∧
     gw_peerIndex g' !! pk = Some (p_Interface p)) →
  (∀ pk pk' p p' x, go_peers gs' !! pk = Some p → go_peers gs' !! pk' = Some p' →
    ParseKey pk = Ok x → ParseKey pk' = Ok x → pk = pk') →
  gw_sync gs' (g', k').
Proof.
  intros [Hi Hd _ _] Hn Hkey Hv Hgi Hg Hps Hother Hpeers Hkeys. cbn [fst snd] in *. split; cbn [fst snd].
  - congruence.
  - intros n' i' Hn'. rewrite Hgi in Hn'. destruct (Hd n' i' Hn') as (Hname & key' & ps & Hk' & Hdev & Hdom).
    split; [done|]. rewrite Hv. destruct (decide (n = n')) as [<-|Hne].
    + rewrite Hn in Hn'. simplify_eq. rewrite lookup_insert_eq. eauto.
    + rewrite lookup_insert_ne by done. exists key', ps. split_and!; [done..|].
      intros x. rewrite Hdom. symmetry. apply Hother. done.
  - intros pk p Hp. rewrite Hgi. by apply Hpeers.
  - done.
Qed.

Lemma has_peer_insert gs pk p n x :
  (go_peers gs !! pk = None ∨ ∃ p0, go_peers gs !! pk = Some p0 ∧ p_Interface p0 = p_Interface p) →
  has_peer (mkObjects (go_intfs gs) (<[pk := p]> (go_peers gs))) n x ↔
    has_peer gs n x ∨ (p_Interface p = n ∧ ParseKey pk = Ok x).
Proof.
  intros Hpk. unfold has_peer. cbn [go_peers]. split.
  - intros (pk' & p' & Hp' & Hn & Hx). apply lookup_insert_Some in Hp' as [[<- <-]|[Hne Hp']]; [by right|].
    left. by exists pk', p'.
  - intros [(pk' & p' & Hp' & Hn & Hx)|[Hn Hx]].
    + destruct (decide (pk = pk')) as [<-|Hne].
      * destruct Hpk as [Hnone|(p0 & Hp0 & Hpi)]; [congruence|]. exists pk, p. rewrite lookup_insert_eq.
        rewrite Hp0 in Hp'. simplify_eq. done.
      * exists pk', p'. by rewrite lookup_insert_ne.
    + exists pk, p. by rewrite lookup_insert_eq.
Qed.

Lemma has_peer_delete gs pk n x :
  (∀ pk' p' y, go_peers gs !! pk' = Some p' → ParseKey pk' = Ok y → ParseKey pk = Ok y → pk' = pk) →
  has_peer (mkObjects (go_intfs gs) (delete pk (go_peers gs))) n x ↔ has_peer gs n x ∧ ParseKey pk ≠ Ok x.
Proof.
  intros Huniq. unfold has_peer. cbn [go_peers]. split.
  - intros (pk' & p' & Hp' & Hn & Hx). apply lookup_delete_Some in Hp' as [Hne Hp'].
    split; [by exists pk', p'|]. intros Hpk. apply Hne. symmetry. by eapply Huniq.
  - intros [(pk' & p' & Hp' & Hn & Hx) Hpk]. exists pk', p'. split_and!; [|done..].
    apply lookup_delete_Some. split; [|done]. by intros ->.
Qed.

(** Creating, or updating without moving: the peer is on its device. *)
Lemma peer_put_sync gs g g' k k' p (update : bool) c i u :
  gw_sync gs (g, k) → gw_safe DoCreate (OPeer p) gs →
  (if update then ∃ p0, go_peers gs !! p_PublicKey p = Some p0 ∧ p_Interface p0 = p_Interface p
   else go_peers gs !! p_PublicKey p = None) →
  go_intfs gs !! p_Interface p = Some i → peerToConfig p update false = Ok c →
  ConfigureDevice (i_Name i) (one_peer c) k = (Ok u, k') →
  gw_intfs g' = gw_intfs g → gw_peerIndex g' = <[p_PublicKey p := p_Interface p]> (gw_peerIndex g) →
  gw_sync (mkObjects (go_intfs gs) (<[p_PublicKey p := p]> (go_peers gs))) (g', k') ∧
  ∃ key d, ParseKey (p_PublicKey p) = Ok key ∧ kview k' !! p_Interface p = Some d ∧
    d_peers d !! key = Some (allowed_ips p).
Proof.
  intros Hsync [Huniq _] Hupd Hi Hc Hrun Hgi Hidx. pose proof Hsync as [_ Hd Hp Hk]. cbn [fst snd] in *.
  destruct (peerToConfig_Ok _ _ _ _ Hc) as (Hkey & Hrem & Hup & Hips). destruct (Hips eq_refl) as (Hal & _ & Hrep & _).
  destruct (Hd _ _ Hi) as (Hname & key & ps & Hpk & Hdev & Hdom). rewrite Hname in Hrun.
  destruct (configure_peer_Ok _ _ _ _ _ _ _ _ Hrun Hdev) as (ps' & Hv & Hdom' & Hallow).
  assert (Hkn : go_peers gs !! p_PublicKey p = None ∨ ∃ p0, go_peers gs !! p_PublicKey p = Some p0 ∧ p_Interface p0 = p_Interface p)
    by (destruct update; [by right|by left]).
  assert (Hps' : dom ps' = {[pc_PublicKey c]} ∪ dom ps).
  { rewrite Hdom'. unfold peer_configured. rewrite Hrem, Hup. destruct update; [|done].
    destruct Hupd as (p0 & Hp0 & Hpi). rewrite bool_decide_eq_true_2; [done|]. apply Hdom. exists (p_PublicKey p), p0. done. }
  split.
  - eapply (sync_device_step gs _ g g' k k' (p_Interface p) i key ps'); try done; cbn [go_intfs go_peers].
    + intros x. rewrite has_peer_insert, Hps', elem_of_union, elem_of_singleton, Hdom by done.
      rewrite Hkey. naive_solver.
    + intros n' x Hne. rewrite has_peer_insert by done. naive_solver.
    + intros pk p' Hp'. rewrite Hidx. apply lookup_insert_Some in Hp' as [[<- <-]|[Hne Hp']].
      * rewrite lookup_insert_eq. split_and!; [done|by eexists|done].
      * rewrite lookup_insert_ne by done. by apply Hp.
    + intros pk pk' p1 p2 x H1 H2 Hx1 Hx2. apply lookup_insert_Some in H1 as [[<- <-]|[Hn1 H1]];
        apply lookup_insert_Some in H2 as [[<- <-]|[Hn2 H2]]; [done| | |by eapply Hk].
      * symmetry. by eapply Huniq.
      * by eapply Huniq.
  - rewrite Hv, lookup_insert_eq. eexists _, _. split_and!; [done..|]. cbn. rewrite Hallow, Hal; [done..|].
    rewrite Hps'. set_solver.
Qed.

Lemma peer_delete_sync gs g k k' p c i p0 u :
  gw_sync gs (g, k) → gw_safe DoDelete (OPeer p) gs → go_peers gs !! p_PublicKey p = Some p0 →
  go_intfs gs !! p_Interface p0 = Some i → peerToConfig p false true = Ok c →
  ConfigureDevice (i_Name i) (one_peer c) k = (Ok u, k') →
  gw_sync (mkObjects (go_intfs gs) (delete (p_PublicKey p) (go_peers gs))) (g, k').
Proof.
  intros Hsync [Huniq _] Hp0 Hi Hc Hrun. pose proof Hsync as [_ Hd Hp Hk]. cbn [fst snd] in *.
  destruct (peerToConfig_Ok _ _ _ _ Hc) as (Hkey & Hrem & _ & _).
  destruct (Hd _ _ Hi) as (Hname & key & ps & Hpk & Hdev & Hdom). rewrite Hname in Hrun.
  destruct (configure_peer_Ok _ _ _ _ _ _ _ _ Hrun Hdev) as (ps' & Hv & Hdom' & _).
  unfold peer_configured in Hdom'. rewrite Hrem in Hdom'.
  eapply (sync_device_step gs _ g g k k' (p_Interface p0) i key ps'); try done; cbn [go_intfs go_peers].
  - intros x. rewrite has_peer_delete, Hdom', elem_of_difference, elem_of_singleton, Hdom by done.
    rewrite Hkey. naive_solver.
  - intros n' x Hne. rewrite has_peer_delete by done. split; [by intros [? _]|]. intros Hh. split; [done|].
    intros Hx. destruct Hh as (pk' & p' & Hp' & Hn' & Hx'). assert (pk' = p_PublicKey p) as -> by (by eapply Huniq).
    rewrite Hp0 in Hp'. simplify_eq.
  - intros pk p' [Hne Hp']%lookup_delete_Some. by apply Hp.
  - intros pk pk' p1 p2 x [_ H1]%lookup_delete_Some [_ H2]%lookup_delete_Some. by eapply Hk.
Qed.

(** *** Interfaces *)
Lemma intf_create_sync gs g k k' i u :
  gw_sync gs (g, k) → go_intfs gs !! i_Name i = None → newInterface i k = (Ok u, k') →
  gw_sync (mkObjects (<[i_Name i := i]> (go_intfs gs)) (go_peers gs))
    (mkGateway (<[i_Name i := i]> (gw_intfs g)) (gw_peerIndex g) (gw_seq g), k').
Proof.
  intros [Hi Hd Hp Hk] Hnone Hrun. cbn [fst snd] in *. apply newInterface_Ok in Hrun as (key & Hkey & Hv).
  split; cbn [fst snd gw_intfs go_intfs go_peers gw_peerIndex].
  - by rewrite Hi.
  - intros n i' Hn. apply lookup_insert_Some in Hn as [[<- <-]|[Hne Hn]].
    + split; [done|]. exists key, ∅. rewrite Hv, lookup_insert_eq. split_and!; [done..|]. intros x.
      rewrite dom_empty_L. split; [set_solver|]. intros (pk & p & Hpk & Hpi & _).
      destruct (Hp pk p Hpk) as (_ & [i' Hi'] & _). rewrite Hpi in Hi'. cbn in *. congruence.
    + destruct (Hd n i' Hn) as (Hname & key' & ps & Hk' & Hdev & Hdom). split; [done|]. exists key', ps.
      rewrite Hv, lookup_insert_ne by done. done.
  - intros pk p Hpk. destruct (Hp pk p Hpk) as (H1 & H2 & H3). split_and!; [done| |done].
    destruct (decide (i_Name i = p_Interface p)) as [->|Hne]; [by rewrite lookup_insert_eq|by rewrite lookup_insert_ne].
  - done.
Qed.

Lemma stop_frame i k n : n ≠ i_Name i → kview (stopInterface i k).2 !! n = kview k !! n.
Proof.
  intros Hne. unfold stopInterface, delete_link, link_err, wrap_err. m_unfold.
  destruct (LinkByName (i_Name i) k) as [r k1] eqn:E1. apply link_by_name in E1 as [-> Hr].
  destruct r; try done. destruct (LinkSetDown (i_Name i) k) as [r k2] eqn:E2. apply link_set_down in E2.
  destruct r; cbn; [|by rewrite E2|done..].
  destruct (LinkDel (i_Name i) k2) as [r k3] eqn:E3. apply link_del in E3.
  destruct r; cbn; rewrite ?E3; [|by rewrite E2, lookup_alter_ne|done..].
  by rewrite lookup_delete_ne, E2, lookup_alter_ne.
Qed.

Lemma has_peer_filter gs m n n' x :
  n' ≠ n → has_peer (mkObjects m (filter (λ kp, p_Interface kp.2 ≠ n) (go_peers gs))) n' x ↔ has_peer gs n' x.
Proof.
  intros Hne. unfold has_peer. cbn [go_peers]. split; intros (pk & p & Hp & Hn & Hx); exists pk, p.
  - apply map_lookup_filter_Some in Hp as [Hp _]. done.
  - split_and!; [|done..]. apply map_lookup_filter_Some. split; [done|]. cbn. congruence.
Qed.

Lemma intf_delete_sync gs g k i n i0 :
  gw_sync gs (g, k) → i_Name i = n → go_intfs gs !! n = Some i0 →
  gw_sync (mkObjects (delete n (go_intfs gs)) (filter (λ kp, p_Interface kp.2 ≠ n) (go_peers gs)))
    (mkGateway (delete n (gw_intfs g)) (gw_peerIndex g) (gw_seq g), (stopInterface i0 k).2).
Proof.
  intros [Hi Hd Hp Hk] Hname Hn. cbn [fst snd] in *. destruct (Hd _ _ Hn) as (Hn0 & _).
  split; cbn [fst snd gw_intfs go_intfs go_peers gw_peerIndex].
  - by rewrite Hi.
  - intros n' i' [Hne Hn']%lookup_delete_Some. destruct (Hd n' i' Hn') as (Hname' & key' & ps & Hk' & Hdev & Hdom).
    split; [done|]. exists key', ps. rewrite stop_frame by congruence. split_and!; [done..|].
    intros x. rewrite Hdom. symmetry. by apply has_peer_filter.
  - intros pk p [Hpk Hpi]%map_lookup_filter_Some. cbn in Hpi. destruct (Hp pk p Hpk) as (H1 & H2 & H3).
    split_and!; [done| |done]. by rewrite lookup_delete_ne.
  - intros pk pk' p p' x [H1 _]%map_lookup_filter_Some [H2 _]%map_lookup_filter_Some. by eapply Hk.
Qed.

(** Updating an interface never works: by the time the device is configured
    it has been deleted. *)
Lemma reconfigure_fails old new g k r s :
  i_Name new = i_Name old → reconfigure old new (g, k) = (r, s) → ∃ e, r = Err e.
Proof.
  intros Hname. unfold reconfigure, initialize, on_snd, set_intf, lift_res. m_unfold. cbn [fst snd].
  pose proof (stopInterface_returns old k) as Hst.
  destruct (stopInterface old k) as [[[]|e| |] k1] eqn:E1; [|intros; inv_run; by eexists|done..].
  apply stopInterface_Ok in E1. cbn [fst snd].
  pose proof (parse_key_returns (i_PrivateKey new)) as Hk.
  destruct (ParseKey (i_PrivateKey new)) as [key|e| |]; [|intros; inv_run; by eexists|done..].
  destruct (ConfigureDevice _ _ k1) as [r1 k2] eqn:E2. apply configure_device in E2.
  destruct r1 as [[]|e| |]; [|intros; inv_run; by eexists|done..].
  destruct E2 as (d & ps & Hd & _). rewrite E1, Hname, lookup_delete_eq in Hd. done.
Qed.

(** ** Apply *)
Lemma on_snd_run {P F A} (m : M F A) (p : P) f : on_snd m (p, f) = ((m f).1, (p, (m f).2)).
Proof. unfold on_snd. cbn. by destruct (m f). Qed.

(** A peer's device accepts exactly the peer's networks from it. *)
Definition peer_routed (p : Peer) (k : K) : Prop :=
  ∃ key d, ParseKey (p_PublicKey p) = Ok key ∧ kview k !! p_Interface p = Some d ∧
    d_peers d !! key = Some (allowed_ips p).

Lemma applyPeer_sync k p st st' gs g kk r s' :
  objects_of st gs → gw_sync gs (g, kk) → gw_safe k (OPeer p) gs →
  spec_dispatch k (OPeer p) st = Some st' →
  applyPeer (match k with DoCreate => OpCreate | DoUpdate => OpUpdate | DoDelete => OpDelete end) p (g, kk) = (r, s') →
  match r with
  | Ok _ => gw_sync (objects_apply k (OPeer p) gs) s' ∧ (k ≠ DoDelete → peer_routed p s'.2)
  | Err _ => True
  | _ => False
  end.
Proof.
  intros [Hoi Hop] Hsync Hsafe Hspec Hrun. pose proof Hsync as [Hi Hd Hp Hk]. cbn [fst snd] in *.
  assert (Hcr : gw_safe DoCreate (OPeer p) gs) by (split; [apply Hsafe|done]).
  unfold applyPeer, lookup_intf, leave_old_interface, set_index, lift_res in Hrun.
  destruct k; cbn [bool_decide decide_rel] in Hrun.
  - change (bool_decide (OpCreate = OpCreate)) with true in Hrun. cbn iota in Hrun. m_unfold. cbn [fst snd] in Hrun.
    rewrite Hi in Hrun. destruct (go_intfs gs !! p_Interface p) as [i|] eqn:Hgi; [|by inv_run].
    pose proof (peerToConfig_returns p false false) as Hret.
    destruct (peerToConfig p false false) as [c|e| |] eqn:Hc; [|by inv_run|done..].
    cbn [configureWGDevice] in Hrun. rewrite on_snd_run in Hrun. cbn [fst snd] in Hrun.
    destruct (ConfigureDevice (i_Name i) (one_peer c) kk) as [r1 k1] eqn:Hcd. cbn [fst snd] in Hrun.
    pose proof (ConfigureDevice_returns (i_Name i) (one_peer c) kk) as Hr1. rewrite Hcd in Hr1. inv_run.
    destruct r as [u| | |]; try done. cbn [objects_apply].
    assert (Hnone : go_peers gs !! p_PublicKey p = None).
    { cbn [spec_dispatch spec_create] in Hspec. case_decide as Hno; [done|]. rewrite Hop, fmap_is_Some in Hno.
      by apply eq_None_not_Some. }
    destruct (peer_put_sync gs g (mkGateway (gw_intfs g) (<[p_PublicKey p := p_Interface p]> (gw_peerIndex g)) (gw_seq g))
      kk k1 p false c i u) as [Hs' Hr']; [done..|]. split; [exact Hs'|done].
  - change (bool_decide (OpUpdate = OpCreate)) with false in Hrun. change (bool_decide (OpUpdate = OpUpdate)) with true in Hrun.
    cbn iota in Hrun. destruct Hsafe as (_ & p0 & Hp0 & Hpi). destruct (Hp _ _ Hp0) as (_ & _ & Hidx). rewrite Hpi in Hidx.
    m_unfold. cbn [fst snd] in Hrun. rewrite Hi in Hrun. destruct (go_intfs gs !! p_Interface p) as [i|] eqn:Hgi; [|by inv_run].
    cbn [fst snd] in Hrun. rewrite Hidx in Hrun. cbn [default from_option id] in Hrun.
    rewrite (bool_decide_eq_false_2 (p_Interface p ≠ p_Interface p)), andb_false_r in Hrun by (intros Hn; by apply Hn).
    cbn [fst snd] in Hrun. pose proof (peerToConfig_returns p true false) as Hret.
    destruct (peerToConfig p true false) as [c|e| |] eqn:Hc; [|by inv_run|done..].
    cbn [configureWGDevice] in Hrun. rewrite on_snd_run in Hrun. cbn [fst snd] in Hrun.
    destruct (ConfigureDevice (i_Name i) (one_peer c) kk) as [r1 k1] eqn:Hcd. cbn [fst snd] in Hrun.
    pose proof (ConfigureDevice_returns (i_Name i) (one_peer c) kk) as Hr1. rewrite Hcd in Hr1. inv_run.
    destruct r as [u| | |]; try done. cbn [objects_apply]. rewrite decide_True by (by eexists).
    destruct (peer_put_sync gs g (mkGateway (gw_intfs g) (<[p_PublicKey p := p_Interface p]> (gw_peerIndex g)) (gw_seq g))
      kk k1 p true c i u) as [Hs' Hr']; [done|done|by eauto|done..|]. split; [exact Hs'|done].
  - change (bool_decide (OpDelete = OpCreate)) with false in Hrun. change (bool_decide (OpDelete = OpUpdate)) with false in Hrun.
    change (bool_decide (OpDelete = OpDelete)) with true in Hrun. cbn iota in Hrun.
    pose proof Hsafe as (_ & p0 & Hp0). destruct (Hp _ _ Hp0) as (_ & [i Hgi] & Hidx).
    m_unfold. cbn [fst snd] in Hrun. rewrite Hidx in Hrun. cbn [default from_option id] in Hrun. rewrite Hi, Hgi in Hrun.
    pose proof (peerToConfig_returns p false true) as Hret.
    destruct (peerToConfig p false true) as [c|e| |] eqn:Hc; [|by inv_run|done..].
    cbn [configureWGDevice] in Hrun. rewrite on_snd_run in Hrun. cbn [fst snd] in Hrun.
    destruct (ConfigureDevice (i_Name i) (one_peer c) kk) as [r1 k1] eqn:Hcd. cbn [fst snd] in Hrun.
    pose proof (ConfigureDevice_returns (i_Name i) (one_peer c) kk) as Hr1. rewrite Hcd in Hr1. inv_run.
    destruct r as [u| | |]; try done. cbn [objects_apply]. split; [|done]. by eapply (peer_delete_sync gs g kk k1 p c i p0).
Qed.

Lemma applyInterface_sync k i st st' gs g kk r s' :
  objects_of st gs → gw_sync gs (g, kk) → spec_dispatch k (OInterface i) st = Some st' →
  applyInterface (match k with DoCreate => OpCreate | DoUpdate => OpUpdate | DoDelete => OpDelete end) i (g, kk) = (r, s') →
  match r with
  | Ok _ => gw_sync (objects_apply k (OInterface i) gs) s'
  | Err _ => True
  | _ => False
  end.
Proof.
  intros [Hoi Hop] Hsync Hspec Hrun. pose proof Hsync as [Hi Hd Hp Hk]. cbn [fst snd] in *.
  unfold applyInterface, lookup_intf, set_intf, del_intf, ignore_err in Hrun. destruct k.
  - change (bool_decide (OpCreate = OpCreate)) with true in Hrun. m_unfold. cbn [fst snd] in Hrun. rewrite Hi in Hrun.
    destruct (go_intfs gs !! i_Name i) eqn:Hgi; [by inv_run|]. rewrite on_snd_run in Hrun. cbn [fst snd] in Hrun.
    pose proof (newInterface_returns i kk) as Hret. destruct (newInterface i kk) as [r1 k1] eqn:Hnew. cbn [fst snd] in *.
    destruct r1; [|by inv_run|done..]. inv_run. by eapply intf_create_sync.
  - change (bool_decide (OpUpdate = OpCreate)) with false in Hrun. change (bool_decide (OpUpdate = OpUpdate)) with true in Hrun.
    m_unfold. cbn [fst snd] in Hrun. rewrite Hi in Hrun. destruct (go_intfs gs !! i_Name i) as [old|] eqn:Hgi; [|by inv_run].
    destruct (Hd _ _ Hgi) as [Hname _]. apply reconfigure_fails in Hrun as [e ->]; done.
  - change (bool_decide (OpDelete = OpCreate)) with false in Hrun. change (bool_decide (OpDelete = OpUpdate)) with false in Hrun.
    change (bool_decide (OpDelete = OpDelete)) with true in Hrun.
    m_unfold. cbn [fst snd] in Hrun. rewrite Hi in Hrun. destruct (go_intfs gs !! i_Name i) as [old|] eqn:Hgi; [|by inv_run].
    rewrite on_snd_run in Hrun. cbn [fst snd] in Hrun.
    pose proof (stopInterface_returns old kk) as Hret. pose proof (intf_delete_sync gs g kk i (i_Name i) old Hsync eq_refl Hgi) as Hs.
    cbn [objects_apply]. rewrite Hgi, decide_True by (by eexists).
    destruct (stopInterface old kk) as [r1 k1] eqn:Hst. cbn [fst snd] in *. destruct r1; try done; inv_run; exact Hs.
Qed.

Lemma set_seq_sync gs g k seq : gw_sync gs (g, k) → gw_sync gs (mkGateway (gw_intfs g) (gw_peerIndex g) seq, k).
Proof. intros [Hi Hd Hp Hk]. by split. Qed.

Lemma op_kind_typ t k :
  op_kind_of t = Some k → t = match k with DoCreate => OpCreate | DoUpdate => OpUpdate | DoDelete => OpDelete end.
Proof. unfold op_kind_of. intros H. repeat case_bool_decide; by simplify_eq. Qed.

Lemma gateway_Apply_run k o b st st' gs s r s' :
  objects_of st gs → gw_sync gs s → op_kind_of (op_typ o) = Some k → gw_safe k (op_value o) gs →
  spec_dispatch k (op_value o) st = Some st' → gateway_Apply o b s = (r, s') →
  match r with
  | Ok _ => gw_sync (objects_apply k (op_value o) gs) s' ∧ gw_seq s'.1 = op_seq o ∧
            (∀ p, op_value o = OPeer p → k ≠ DoDelete → peer_routed p s'.2)
  | Err _ => True
  | _ => False
  end.
Proof.
  intros Hst Hsync Hk Hsafe Hspec Hrun. destruct s as [g kk]. unfold gateway_Apply, set_seq in Hrun.
  apply op_kind_typ in Hk. rewrite Hk in Hrun. m_unfold. destruct (op_value o) as [p|i|t|j] eqn:Hv.
  - destruct (applyPeer _ p (g, kk)) as [r1 [g1 k1]] eqn:Hap.
    pose proof (applyPeer_sync k p st st' gs g kk r1 (g1, k1) Hst Hsync Hsafe Hspec Hap) as Hres.
    destruct r1; inv_run; try done. destruct Hres as [Hs Hr]. split_and!; [by apply set_seq_sync|done|].
    intros p' [= <-]. exact Hr.
  - destruct (applyInterface _ i (g, kk)) as [r1 [g1 k1]] eqn:Hap.
    pose proof (applyInterface_sync k i st st' gs g kk r1 (g1, k1) Hst Hsync Hspec Hap) as Hres.
    destruct r1; inv_run; try done. split_and!; [by apply set_seq_sync|done|done].
  - inv_run. split_and!; [destruct k; by apply set_seq_sync|done|done].
  - destruct k; cbn [spec_dispatch spec_create spec_update spec_delete] in Hspec; done.
Qed.

(** ** Loading a snapshot *)
Definition obj_interface (o : obj) : option Interface := match o with OInterface i => Some i | _ => None end.
Definition obj_peer (o : obj) : option Peer := match o with OPeer p => Some p | _ => None end.
Definition snap_intfs (snap : memSnapshot) : list Interface := omap obj_interface (Items snap).
Definition snap_peers (snap : memSnapshot) : list Peer := omap obj_peer (Items snap).

Definition peers_on (n : string) (ps : list Peer) : list Peer := filter (λ p, p_Interface p = n) ps.

Definition snap_objects (snap : memSnapshot) : gobjects :=
  mkObjects (list_to_map ((λ i, (i_Name i, i)) <$> snap_intfs snap))
    (list_to_map ((λ p, (p_PublicKey p, p)) <$> snap_peers snap)).

(** A snapshot of a consistent store: keys are unique, peers have their
    interfaces, and no two peers have the same Wireguard key. *)
Record snap_ok (snap : memSnapshot) : Prop := {
  so_names : NoDup (i_Name <$> snap_intfs snap);
  so_pks : NoDup (p_PublicKey <$> snap_peers snap);
  so_refs p : p ∈ snap_peers snap → p_Interface p ∈ i_Name <$> snap_intfs snap;
  so_keys p p' x : p ∈ snap_peers snap → p' ∈ snap_peers snap →
    ParseKey (p_PublicKey p) = Ok x → ParseKey (p_PublicKey p') = Ok x → p_PublicKey p = p_PublicKey p'
}.

Lemma splitSnapshot_spec snap :
  (splitSnapshot snap).1 = snap_intfs snap ∧
  ∀ n, default [] ((splitSnapshot snap).2 !! n) = peers_on n (snap_peers snap).
Proof.
  unfold splitSnapshot, snap_intfs, snap_peers, peers_on. induction (Items snap) as [|o l IH] using rev_ind.
  { split; [done|]. intros n. cbn. by rewrite lookup_empty. }
  rewrite foldl_app, !omap_app. destruct IH as [IH1 IH2]. cbn [foldl].
  destruct (foldl split_add ([], ∅) l) as [is0 ps0]; cbn [fst snd] in *. destruct o as [p|i|t|j]; cbn; rewrite ?app_nil_r.
  - split; [done|]. intros n. rewrite filter_app. destruct (decide (p_Interface p = n)) as [<-|Hne].
    + rewrite lookup_insert_eq. cbn. rewrite IH2. by rewrite decide_True.
    + rewrite lookup_insert_ne by done. rewrite IH2. cbn. rewrite decide_False by done. by rewrite app_nil_r.
  - split; [by rewrite IH1|done].
  - done.
  - done.
Qed.

Lemma peers_configured_add cfgs ps :
  Forall (λ c, pc_Remove c = false ∧ pc_UpdateOnly c = false) cfgs →
  foldl (λ ps p, peer_configured p ps) ps cfgs = list_to_set (pc_PublicKey <$> cfgs) ∪ ps.
Proof.
  revert ps. induction cfgs as [|c cfgs IH]; intros ps Hall; [cbn; set_solver|].
  apply Forall_cons in Hall as [[Hr Hu] Hall]. cbn. rewrite IH by done. unfold peer_configured. rewrite Hr, Hu. cbn. set_solver.
Qed.

Lemma configs_of_peers ps cfgs :
  res_map (λ p, peerToConfig p false false) ps = Ok cfgs →
  Forall (λ c, pc_Remove c = false ∧ pc_UpdateOnly c = false) cfgs ∧
  ∀ x, x ∈ pc_PublicKey <$> cfgs ↔ ∃ p, p ∈ ps ∧ ParseKey (p_PublicKey p) = Ok x.
Proof.
  rewrite res_map_Ok. induction 1 as [|p c ps cfgs Hc Hall [IH1 IH2]].
  { split; [constructor|]. intros x. cbn. set_solver. }
  destruct (peerToConfig_Ok _ _ _ _ Hc) as (Hkey & Hr & Hu & _). split; [by constructor|].
  intros x. cbn. rewrite elem_of_cons, IH2. split.
  - intros [->|(p' & Hp' & Hx)]; [exists p; split; [left|done]|exists p'; split; [by right|done]].
  - intros (p' & Hp' & Hx). apply elem_of_cons in Hp' as [->|Hp']; [left; congruence|right; eauto].
Qed.

Definition index_peers (n : string) (ps : list Peer) (m : gmap string string) : gmap string string :=
  foldl (λ m p, <[p_PublicKey p := n]> m) m ps.

Lemma load_interface_Ok peers i acc k acc' k' :
  load_interface peers i acc k = (Ok acc', k') →
  ∃ key ps, ParseKey (i_PrivateKey i) = Ok key ∧ kview k' = <[i_Name i := intf_device i key ps]> (kview k) ∧
    (∀ x, x ∈ dom ps ↔ ∃ p, p ∈ default [] (peers !! i_Name i) ∧ ParseKey (p_PublicKey p) = Ok x) ∧
    acc' = (<[i_Name i := i]> acc.1, index_peers (i_Name i) (default [] (peers !! i_Name i)) acc.2).
Proof.
  unfold load_interface. intros H. apply bind_Ok_inv in H as (? & k1 & H1 & H).
  apply newInterface_Ok in H1 as (key & Hkey & Hv1). apply bind_Ok_inv in H as (cfgs & k2 & H2 & H).
  unfold lift_res in H2. injection H2 as H2 ->. apply bind_Ok_inv in H as (? & k3 & H3 & H). m_unfold. inv_run.
  apply (call_Ok _ _ _ _ _ (configure_device _ _)) in H3 as (d & ps & Hd & Hv & Hdom & _).
  rewrite Hv1, lookup_insert_eq in Hd. simplify_eq. destruct (configs_of_peers _ _ H2) as [Hall Hkeys].
  exists key, ps. split_and!; [done| | |done].
  - rewrite Hv, Hv1, insert_insert_eq. f_equal. unfold intf_device. cbn. by case_bool_decide.
  - intros y. rewrite Hdom. unfold peers_configured. cbn. rewrite peers_configured_add by done.
    rewrite union_empty_r_L, elem_of_list_to_set. apply Hkeys.
Qed.

(** What is loaded: the devices of the interfaces, with their peers. *)
Definition loaded (peers : gmap string (list Peer)) (i : Interface) (k : K) : Prop :=
  ∃ key ps, ParseKey (i_PrivateKey i) = Ok key ∧ kview k !! i_Name i = Some (intf_device i key ps) ∧
    ∀ x, x ∈ dom ps ↔ ∃ p, p ∈ default [] (peers !! i_Name i) ∧ ParseKey (p_PublicKey p) = Ok x.

Lemma load_interfaces_Ok peers intfs acc k acc' k' :
  NoDup (i_Name <$> intfs) → load_interfaces peers intfs acc k = (Ok acc', k') →
  (∀ i, i ∈ intfs → loaded peers i k') ∧
  (∀ n, n ∉ i_Name <$> intfs → kview k' !! n = kview k !! n) ∧
  acc'.1 = foldl (λ m i, <[i_Name i := i]> m) acc.1 intfs ∧
  acc'.2 = foldl (λ m i, index_peers (i_Name i) (default [] (peers !! i_Name i)) m) acc.2 intfs.
Proof.
  revert acc k. induction intfs as [|i intfs IH]; intros acc k Hnd Hrun.
  { cbn in Hrun. m_unfold. inv_run. split_and!; [intros i Hi; by apply elem_of_nil in Hi|done..]. }
  cbn [load_interfaces] in Hrun. apply bind_Ok_inv in Hrun as (acc1 & k1 & H1 & H2).
  apply load_interface_Ok in H1 as (key & ps & Hkey & Hv & Hps & ->). cbn in Hnd. inversion Hnd as [|?? Hni Hnd']; subst.
  destruct (IH _ _ Hnd' H2) as (Hl & Hfr & Hm & Hidx). split_and!; [| |done|done].
  - intros j Hj. apply elem_of_cons in Hj as [->|Hj]; [|by apply Hl]. exists key, ps. split_and!; [done| |done].
    rewrite Hfr by done. by rewrite Hv, lookup_insert_eq.
  - intros n Hn. cbn in Hn. apply not_elem_of_cons in Hn as [Hne Hn]. rewrite Hfr by done.
    by rewrite Hv, lookup_insert_ne by done.
Qed.

(** *** The maps built along the way *)
Lemma foldl_intfs intfs (m : gmap string Interface) n i :
  NoDup (i_Name <$> intfs) →
  (foldl (λ m i, <[i_Name i := i]> m) m intfs) !! n = Some i ↔
    (i ∈ intfs ∧ i_Name i = n) ∨ ((n ∉ (i_Name <$> intfs)) ∧ m !! n = Some i).
Proof.
  revert m. induction intfs as [|j intfs IH]; intros m Hnd; cbn [foldl fmap list_fmap].
  { split; [intros Hm; right; split; [apply not_elem_of_nil|done]|].
    intros [[Hi _]|[_ Hm]]; [by apply elem_of_nil in Hi|done]. }
  cbn in Hnd. inversion Hnd as [|?? Hj Hnd']; subst. rewrite IH by done. clear IH.
  rewrite not_elem_of_cons, elem_of_cons, lookup_insert_Some. split.
  - intros [[Hi Hn]|[Hn [[<- <-]|[Hne Hm]]]]; [by left; auto|by left; auto|by right].
  - intros [[[->|Hi] Hn]|[[Hne Hn] Hm]].
    + right. rewrite <- Hn. split; [done|]. by left.
    + by left.
    + right. split; [done|]. right. split; [congruence|done].
Qed.

Lemma index_peers_other n ps m pk : pk ∉ p_PublicKey <$> ps → index_peers n ps m !! pk = m !! pk.
Proof.
  unfold index_peers. revert m. induction ps as [|p ps IH]; intros m Hpk; [done|]. cbn in *.
  apply not_elem_of_cons in Hpk as [Hne Hpk]. rewrite IH by done. by rewrite lookup_insert_ne.
Qed.

Lemma index_peers_elem n ps m pk : pk ∈ p_PublicKey <$> ps → index_peers n ps m !! pk = Some n.
Proof.
  unfold index_peers. revert m. induction ps as [|q ps IH]; intros m Hp; [by apply elem_of_nil in Hp|]. cbn in *.
  destruct (decide (pk ∈ p_PublicKey <$> ps)) as [Hin|Hin]; [by apply IH|]. apply elem_of_cons in Hp as [->|Hp]; [|done].
  change (foldl _ ?m0 ps) with (index_peers n ps m0). rewrite index_peers_other by done. by rewrite lookup_insert_eq.
Qed.

Lemma index_all intfs ps m p :
  NoDup (p_PublicKey <$> ps) → p ∈ ps →
  (p_Interface p ∈ i_Name <$> intfs ∨ m !! p_PublicKey p = Some (p_Interface p)) →
  foldl (λ m i, index_peers (i_Name i) (peers_on (i_Name i) ps) m) m intfs !! p_PublicKey p = Some (p_Interface p).
Proof.
  intros Hnd Hp. revert m. induction intfs as [|i intfs IH]; intros m Hm; cbn [foldl].
  { destruct Hm as [Hm|Hm]; [by apply elem_of_nil in Hm|done]. }
  apply IH. destruct (decide (i_Name i = p_Interface p)) as [Heq|Hne].
  - right. rewrite Heq. apply index_peers_elem, list_elem_of_fmap_2. by apply list_elem_of_filter.
  - destruct Hm as [Hm|Hm].
    + left. cbn in Hm. apply elem_of_cons in Hm as [Hm|Hm]; [congruence|done].
    + right. rewrite index_peers_other; [done|]. intros (q & Hpk & Hq)%list_elem_of_fmap.
      apply list_elem_of_filter in Hq as [Hqi Hq]. apply Hne. rewrite <- Hqi. f_equal.
      by apply (NoDup_fmap_elem p_PublicKey ps).
Qed.

Lemma snap_peer_lookup snap pk p :
  snap_ok snap → go_peers (snap_objects snap) !! pk = Some p ↔ p ∈ snap_peers snap ∧ p_PublicKey p = pk.
Proof.
  intros [_ Hpks _ _]. cbn. rewrite <- elem_of_list_to_map; [|by rewrite <- list_fmap_compose].
  rewrite list_elem_of_fmap. split; [intros (q & [= -> ->] & Hq); done|]. intros [Hp <-]. by exists p.
Qed.

Lemma snap_intf_lookup snap n i :
  snap_ok snap → go_intfs (snap_objects snap) !! n = Some i ↔ i ∈ snap_intfs snap ∧ i_Name i = n.
Proof.
  intros [Hn _ _ _]. cbn. rewrite <- elem_of_list_to_map; [|by rewrite <- list_fmap_compose].
  rewrite list_elem_of_fmap. split; [intros (q & [= -> ->] & Hq); done|]. intros [Hp <-]. by exists i.
Qed.

Lemma loaded_sync snap g k :
  snap_ok snap →
  gw_intfs g = foldl (λ m i, <[i_Name i := i]> m) ∅ (snap_intfs snap) →
  gw_peerIndex g = foldl (λ m i, index_peers (i_Name i) (peers_on (i_Name i) (snap_peers snap)) m) ∅ (snap_intfs snap) →
  (∀ i, i ∈ snap_intfs snap → ∃ key ps, ParseKey (i_PrivateKey i) = Ok key ∧
    kview k !! i_Name i = Some (intf_device i key ps) ∧
    ∀ x, x ∈ dom ps ↔ ∃ p, p ∈ peers_on (i_Name i) (snap_peers snap) ∧ ParseKey (p_PublicKey p) = Ok x) →
  gw_sync (snap_objects snap) (g, k).
Proof.
  intros Hok Hi Hidx Hdev. pose proof Hok as [Hnames Hpks Hrefs Hkeys]. split; cbn [fst snd].
  - rewrite Hi. apply map_eq. intros n. apply option_eq. intros i.
    rewrite foldl_intfs, snap_intf_lookup by done. rewrite lookup_empty. naive_solver.
  - intros n i Hn. apply snap_intf_lookup in Hn as [Hin <-]; [|done]. split; [done|].
    destruct (Hdev i Hin) as (key & ps & Hkey & Hv & Hdom). exists key, ps. split_and!; [done..|].
    intros x. rewrite Hdom. unfold has_peer. split.
    + intros (p & Hp & Hx). apply list_elem_of_filter in Hp as [Hpi Hp].
      exists (p_PublicKey p), p. rewrite snap_peer_lookup by done. done.
    + intros (pk & p & Hp & Hpi & Hx). apply snap_peer_lookup in Hp as [Hp <-]; [|done].
      exists p. split; [|done]. by apply list_elem_of_filter.
  - intros pk p Hp. apply snap_peer_lookup in Hp as [Hp <-]; [|done]. split_and!; [done| |].
    + pose proof (Hrefs p Hp) as (i & Heq & Hin)%list_elem_of_fmap. exists i. by rewrite snap_intf_lookup.
    + rewrite Hidx. apply index_all; [done..|]. left. by apply Hrefs.
  - intros pk pk' p p' x Hp Hp' Hx Hx'. apply snap_peer_lookup in Hp as [Hp <-]; [|done].
    apply snap_peer_lookup in Hp' as [Hp' <-]; [|done]. by eapply Hkeys.
Qed.

Lemma closeAll_gateway ord g k r s : closeAllInterfaces ord (g, k) = (r, s) → s.1 = g ∧ returned r = true.
Proof.
  intros Hrun. split.
  - refine (each_inv (λ s, s.1 = g) _ ord _ (g, k) r s eq_refl Hrun). intros i [g1 k1] r1 s1 _ Hg Hi.
    unfold ignore_err, on_snd in Hi. m_unfold. cbn in Hg, Hi. destruct (stopInterface i k1) as [[] ?]; by inv_run.
  - assert (Hret : returns (closeAllInterfaces (K := K) ord)).
    { apply returns_each. intros i. apply returns_ignore, returns_on_snd, stopInterface_returns. }
    specialize (Hret (g, k)). by rewrite Hrun in Hret.
Qed.

Lemma LoadSnapshot_run ord snap s s' :
  snap_ok snap → gateway_LoadSnapshot ord (Some snap) s = (Ok tt, s') →
  gw_sync (snap_objects snap) s' ∧ gw_seq s'.1 = SeqNum snap.
Proof.
  intros Hok Hrun. unfold gateway_LoadSnapshot in Hrun. destruct (splitSnapshot_spec snap) as [H1 H2].
  destruct (splitSnapshot snap) as [intfs peers]; cbn [fst snd] in *. subst intfs.
  apply bind_Ok_inv in Hrun as (? & s1 & Hcl & Hrun). apply bind_Ok_inv in Hrun as ([m idx] & s2 & Hld & Hrun).
  unfold modify in Hrun. inv_run. destruct s1 as [g1 k1]. rewrite on_snd_run in Hld.
  destruct (load_interfaces peers (snap_intfs snap) (∅, ∅) k1) as [r2 k2] eqn:E. cbn [fst snd] in Hld. inv_run.
  destruct (load_interfaces_Ok _ _ _ _ _ _ (so_names _ Hok) E) as (Hdev & _ & Hm & Hidx). cbn [fst snd] in Hm, Hidx.
  split; [|done]. apply loaded_sync; [done|exact Hm| |].
  - rewrite Hidx. cbn [gw_peerIndex]. clear -H2. generalize (∅ : gmap string string) as m0.
    induction (snap_intfs snap) as [|i l IH]; intros m0; [done|]. cbn [foldl]. by rewrite H2, IH.
  - intros i Hi. destruct (Hdev i Hi) as (key & ps & Hkey & Hv & Hps). exists key, ps. by rewrite <- H2.
Qed.
End Spec.

(** ** Progress

    A kernel that does what it is asked on devices that exist. *)
Section Progress.
Context `{WK : WgKeys} {WL : WgKeysLaws} {K : Type} {KN : Kernel K} {KL : KernelLaws}.

Record kernel_reliable : Prop := {
  rl_down n (k : K) : is_Some (kview k !! n) → (LinkSetDown n k).1 = Ok tt;
  rl_del n (k : K) : is_Some (kview k !! n) → (LinkDel n k).1 = Ok tt;
  rl_add a (k : K) : kview k !! la_Name a = None → (LinkAdd a k).1 = Ok tt;
  rl_up n (k : K) : is_Some (kview k !! n) → (LinkSetUp n k).1 = Ok tt;
  rl_addr n a (k : K) d : kview k !! n = Some d → a ∉ d_addrs d → (AddrAdd n a k).1 = Ok tt;
  rl_configure n c (k : K) : is_Some (kview k !! n) → (ConfigureDevice n c k).1 = Ok tt
}.

Context (KR : kernel_reliable).

Lemma run_fst {S A} (m : M S A) s a : (m s).1 = Ok a → m s = (Ok a, (m s).2).
Proof. destruct (m s). cbn. by intros ->. Qed.

Lemma wrap_run {S A} msg (m : M S A) s a s' : m s = (Ok a, s') → wrap_err msg m s = (Ok a, s').
Proof. unfold wrap_err. by intros ->. Qed.

Lemma delete_link_progress n k : is_Some (kview k !! n) → ∃ k', delete_link n k = (Ok tt, k').
Proof.
  intros Hn. unfold delete_link, link_err.
  pose proof (run_fst _ _ _ (rl_down KR n k Hn)) as H1. set (k1 := (LinkSetDown n k).2) in H1.
  assert (Hn1 : is_Some (kview k1 !! n)).
  { pose proof (call_Ok _ _ _ _ _ (link_set_down n) H1) as ->. rewrite lookup_alter_eq.
    destruct Hn as [d ->]. by eexists. }
  rewrite (bind_Ok _ _ _ _ _ (wrap_run _ _ _ _ _ H1)). eexists.
  apply wrap_run, (run_fst _ _ _ (rl_del KR n k1 Hn1)).
Qed.

(** Whether the link exists or not, it is gone afterwards. *)
Lemma clear_link_progress n k :
  ∃ r k', try (LinkByName n) k = (Ok r, k) ∧
    (match r with inl _ => delete_link n | inr _ => mret tt end) k = (Ok tt, k') ∧ kview k' = delete n (kview k).
Proof.
  pose proof (LinkByName_returns n k) as Hret. destruct (LinkByName n k) as [r k0] eqn:E.
  destruct (link_by_name n k r k0 E) as [-> Hr]. destruct r as [u|e| |]; [| |done..].
  - destruct (delete_link_progress n k Hr) as (k' & Hk'). exists (inl u), k'. unfold try. rewrite E. split_and!; [done..|].
    by eapply delete_link_Ok.
  - exists (inr e), k. unfold try. rewrite E. split_and!; [done..|]. by rewrite delete_id.
Qed.

Lemma add_addr_progress n c k d :
  kview k !! n = Some d → (∀ a, a ∈ c_IPNet <$> option_list c → a ∉ d_addrs d) → ∃ k', add_addr n c k = (Ok tt, k').
Proof.
  intros Hd Ha. unfold add_addr, link_err. destruct c as [c|]; [|by exists k].
  eexists. apply wrap_run. eapply (run_fst _ _ _ (rl_addr KR n (c_IPNet c) k d Hd (Ha (c_IPNet c) ltac:(left)))).
Qed.

Lemma startInterface_progress i k : NoDup (intf_addrs i) → ∃ k', startInterface i k = (Ok tt, k').
Proof.
  intros Hnd. unfold startInterface. destruct (clear_link_progress (i_Name i) k) as (r & k1 & Hr & Hc & Hv1).
  rewrite (bind_Ok _ _ _ _ _ Hr), (bind_Ok _ _ _ _ _ Hc). unfold link_err.
  assert (Hnone : kview k1 !! i_Name i = None) by (by rewrite Hv1, lookup_delete_eq).
  pose proof (run_fst _ _ _ (rl_add KR (mkLinkAttrs (i_Name i) 1420) k1 Hnone)) as H2. set (k2 := (LinkAdd (mkLinkAttrs (i_Name i) 1420) k1).2) in H2.
  destruct (call_Ok _ _ _ _ _ (link_add _) H2) as [_ Hv2].
  rewrite (bind_Ok _ _ _ _ _ (wrap_run _ _ _ _ _ H2)).
  destruct (add_addr_progress (i_Name i) (i_IP i) k2 new_device) as (k3 & H3); [by rewrite Hv2, lookup_insert_eq|set_solver|].
  pose proof (add_addr_Ok _ _ _ _ _ H3) as Hv3. rewrite (bind_Ok _ _ _ _ _ H3).
  unfold intf_addrs in Hnd. rewrite fmap_app in Hnd. apply NoDup_app in Hnd as (_ & Hnd & _).
  assert (Hd3 : kview k3 !! i_Name i = Some (set_addrs new_device (c_IPNet <$> option_list (i_IP i))))
    by (by rewrite Hv3, lookup_alter_eq, Hv2, lookup_insert_eq).
  destruct (add_addr_progress (i_Name i) (i_IP6 i) k3 _ Hd3) as (k4 & H4).
  { intros a Ha Hin. cbn in Hin. by eapply Hnd. }
  rewrite (bind_Ok _ _ _ _ _ H4). eexists. apply run_fst, (rl_up KR).
  rewrite (add_addr_Ok _ _ _ _ _ H4), lookup_alter_eq, Hd3. by eexists.
Qed.

(** *** What a gateway can be asked to do *)
Definition intf_valid (i : Interface) : Prop := NoDup (intf_addrs i) ∧ is_ok (ParseKey (i_PrivateKey i)) = true.

Definition peer_valid (remove : bool) (p : Peer) : Prop :=
  is_ok (ParseKey (p_PublicKey p)) = true ∧ (remove = false → allowed_ips p ≠ []).

Lemma newInterface_progress i k : intf_valid i → ∃ k', newInterface i k = (Ok tt, k').
Proof.
  intros [Hnd Hkey]. unfold newInterface, initialize. destruct (startInterface_progress i k Hnd) as (k1 & H1).
  rewrite (bind_Ok _ _ _ _ _ H1). destruct (ParseKey (i_PrivateKey i)) as [key| | |]; [|done..].
  eexists. apply run_fst, (rl_configure KR). rewrite (startInterface_Ok _ _ _ _ H1), lookup_insert_eq. by eexists.
Qed.

Lemma peerToConfig_progress p update remove : peer_valid remove p → ∃ c, peerToConfig p update remove = Ok c.
Proof.
  intros [Hk Ha]. unfold peerToConfig. destruct (ParseKey (p_PublicKey p)) as [key| | |]; [|done..]. cbn [mbind res_bind].
  destruct remove; [by eexists|]. destruct (allowed_ips p) eqn:E; [by destruct (Ha eq_refl)|by eexists].
Qed.

(** Operations that a gateway carries out: interfaces with keys and different
    addresses, which are created, or exist and are deleted; peers with keys and
    addresses. *)
Definition gw_valid (k : op_kind) (o : obj) (gs : gobjects) : Prop :=
  match o, k with
  | OInterface i, DoCreate => intf_valid i
  | OInterface i, DoUpdate => False
  | OInterface i, DoDelete => is_Some (go_intfs gs !! i_Name i)
  | OPeer p, DoDelete => peer_valid true p
  | OPeer p, _ => peer_valid false p
  | _, _ => True
  end.

Lemma configure_progress gs g k n i c :
  gw_sync gs (g, k) → go_intfs gs !! n = Some i → ∃ k', ConfigureDevice (i_Name i) c k = (Ok tt, k').
Proof.
  intros [_ Hd _ _] Hi. destruct (Hd _ _ Hi) as (Hname & key & ps & _ & Hdev & _). cbn in Hdev.
  eexists. apply run_fst, (rl_configure KR). rewrite Hname, Hdev. by eexists.
Qed.

Lemma applyPeer_progress k p st st' gs g kk :
  objects_of st gs → gw_sync gs (g, kk) → gw_safe k (OPeer p) gs → gw_valid k (OPeer p) gs →
  spec_dispatch k (OPeer p) st = Some st' →
  ∃ s', applyPeer (match k with DoCreate => OpCreate | DoUpdate => OpUpdate | DoDelete => OpDelete end) p (g, kk) = (Ok tt, s').
Proof.
  intros [Hoi Hop] Hsync Hsafe Hval Hspec. pose proof Hsync as [Hi Hd Hp Hk]. cbn [fst snd] in *.
  unfold applyPeer, lookup_intf, leave_old_interface, set_index, lift_res. destruct k; cbn [gw_valid] in Hval.
  - change (bool_decide (OpCreate = OpCreate)) with true. cbn iota. m_unfold. cbn [fst snd]. rewrite Hi.
    assert (Hex : is_Some (go_intfs gs !! p_Interface p)).
    { cbn [spec_dispatch spec_create] in Hspec. case_decide; [done|]. case_decide as Hi'; [|done]. by rewrite Hoi, fmap_is_Some in Hi'. }
    destruct Hex as [i Hgi]. rewrite Hgi. destruct (peerToConfig_progress p false false Hval) as [c Hc]. rewrite Hc.
    cbn [configureWGDevice]. rewrite on_snd_run. cbn [fst snd].
    destruct (configure_progress gs g kk _ i (one_peer c) Hsync Hgi) as [k1 Hcd]. rewrite Hcd. by eexists.
  - change (bool_decide (OpUpdate = OpCreate)) with false. change (bool_decide (OpUpdate = OpUpdate)) with true. cbn iota.
    destruct Hsafe as (_ & p0 & Hp0 & Hpi). destruct (Hp _ _ Hp0) as (_ & [i Hgi] & Hidx). rewrite Hpi in Hgi, Hidx.
    m_unfold. cbn [fst snd]. rewrite Hi, Hgi. cbn [fst snd]. rewrite Hidx. cbn [default from_option id].
    rewrite (bool_decide_eq_false_2 (p_Interface p ≠ p_Interface p)), andb_false_r by (intros Hn; by apply Hn). cbn [fst snd].
    destruct (peerToConfig_progress p true false Hval) as [c Hc]. rewrite Hc. cbn [configureWGDevice]. rewrite on_snd_run. cbn [fst snd].
    destruct (configure_progress gs g kk _ i (one_peer c) Hsync Hgi) as [k1 Hcd]. rewrite Hcd. by eexists.
  - change (bool_decide (OpDelete = OpCreate)) with false. change (bool_decide (OpDelete = OpUpdate)) with false.
    change (bool_decide (OpDelete = OpDelete)) with true. cbn iota.
    destruct Hsafe as (_ & p0 & Hp0). destruct (Hp _ _ Hp0) as (_ & [i Hgi] & Hidx).
    m_unfold. cbn [fst snd]. rewrite Hidx. cbn [default from_option id]. rewrite Hi, Hgi.
    destruct (peerToConfig_progress p false true Hval) as [c Hc]. rewrite Hc. cbn [configureWGDevice]. rewrite on_snd_run. cbn [fst snd].
    destruct (configure_progress gs g kk _ i (one_peer c) Hsync Hgi) as [k1 Hcd]. rewrite Hcd. by eexists.
Qed.

Lemma applyInterface_progress k i st st' gs g kk :
  objects_of st gs → gw_sync gs (g, kk) → gw_valid k (OInterface i) gs → spec_dispatch k (OInterface i) st = Some st' →
  ∃ s', applyInterface (match k with DoCreate => OpCreate | DoUpdate => OpUpdate | DoDelete => OpDelete end) i (g, kk) = (Ok tt, s').
Proof.
  intros [Hoi _] [Hi _ _ _] Hval Hspec. cbn [fst snd] in *.
  unfold applyInterface, lookup_intf, set_intf, del_intf, ignore_err. destruct k; cbn [gw_valid] in Hval.
  - change (bool_decide (OpCreate = OpCreate)) with true. m_unfold. cbn [fst snd]. rewrite Hi.
    assert (Hnone : go_intfs gs !! i_Name i = None).
    { cbn [spec_dispatch spec_create] in Hspec. case_decide as Hi'; [done|]. rewrite Hoi, fmap_is_Some in Hi'. by apply eq_None_not_Some. }
    rewrite Hnone, on_snd_run. cbn [fst snd]. destruct (newInterface_progress i kk Hval) as [k1 Hk1]. rewrite Hk1. by eexists.
  - done.
  - change (bool_decide (OpDelete = OpCreate)) with false. change (bool_decide (OpDelete = OpUpdate)) with false.
    change (bool_decide (OpDelete = OpDelete)) with true. m_unfold. cbn [fst snd]. rewrite Hi. destruct Hval as [old ->].
    rewrite on_snd_run. cbn [fst snd]. pose proof (stopInterface_returns old kk) as Hret.
    destruct (stopInterface old kk) as [[] k1]; [by eexists..|done|done].
Qed.

Lemma gateway_Apply_progress k o b st st' gs s :
  objects_of st gs → gw_sync gs s → op_kind_of (op_typ o) = Some k → gw_safe k (op_value o) gs →
  gw_valid k (op_value o) gs → spec_dispatch k (op_value o) st = Some st' → (gateway_Apply o b s).1 = Ok tt.
Proof.
  intros Hst Hsync Hk Hsafe Hval Hspec. destruct s as [g kk]. unfold gateway_Apply, set_seq.
  apply op_kind_typ in Hk. rewrite Hk. destruct (op_value o) as [p|i|t|j] eqn:Hv.
  - destruct (applyPeer_progress k p st st' gs g kk Hst Hsync Hsafe Hval Hspec) as [s' Hs']. by rewrite (bind_Ok _ _ _ _ _ Hs').
  - destruct (applyInterface_progress k i st st' gs g kk Hst Hsync Hval Hspec) as [s' Hs']. by rewrite (bind_Ok _ _ _ _ _ Hs').
  - done.
  - done.
Qed.

(** *** Snapshots *)
Definition snap_valid (snap : memSnapshot) : Prop :=
  Forall intf_valid (snap_intfs snap) ∧ Forall (peer_valid false) (snap_peers snap).

Lemma res_map_progress {A B} (f : A → res B) l : Forall (λ x, ∃ y, f x = Ok y) l → ∃ ys, res_map f l = Ok ys.
Proof. induction 1 as [|x l [y Hy] _ [ys Hys]]; [by exists []|]. exists (y :: ys). cbn. by rewrite Hy, Hys. Qed.

Lemma load_interface_progress peers i acc k :
  intf_valid i → Forall (peer_valid false) (default [] (peers !! i_Name i)) → ∃ acc' k', load_interface peers i acc k = (Ok acc', k').
Proof.
  intros Hi Hps. unfold load_interface. destruct (newInterface_progress i k Hi) as [k1 H1]. rewrite (bind_Ok _ _ _ _ _ H1).
  destruct (res_map_progress (λ p, peerToConfig p false false) (default [] (peers !! i_Name i))) as [cfgs Hc].
  { eapply Forall_impl; [exact Hps|]. intros p Hp. by apply peerToConfig_progress. }
  unfold lift_res. m_unfold. rewrite Hc.
  assert (H2 : (ConfigureDevice (i_Name i) (mkConfig None None None true cfgs) k1).1 = Ok tt).
  { apply (rl_configure KR). destruct (newInterface_Ok _ _ _ _ H1) as (key & _ & ->). rewrite lookup_insert_eq. by eexists. }
  rewrite (run_fst _ _ _ H2). by eexists _, _.
Qed.

Lemma load_interfaces_progress peers intfs acc k :
  Forall intf_valid intfs → (∀ n, Forall (peer_valid false) (default [] (peers !! n))) →
  ∃ acc' k', load_interfaces peers intfs acc k = (Ok acc', k').
Proof.
  intros Hv Hps. revert acc k. induction Hv as [|i intfs Hi _ IH]; intros acc k; [by eexists _, _|]. cbn [load_interfaces].
  destruct (load_interface_progress peers i acc k Hi (Hps _)) as (acc1 & k1 & H1). rewrite (bind_Ok _ _ _ _ _ H1). apply IH.
Qed.

Lemma LoadSnapshot_progress ord snap (s : gateway * K) :
  snap_valid snap → (gateway_LoadSnapshot ord (Some snap) s).1 = Ok tt.
Proof.
  intros [Hi Hp]. unfold gateway_LoadSnapshot. destruct (splitSnapshot_spec snap) as [H1 H2].
  destruct (splitSnapshot snap) as [intfs peers]; cbn [fst snd] in *. subst intfs.
  assert (Hc : ∃ s1, closeAllInterfaces ord s = (Ok tt, s1)).
  { clear -WL KL. unfold closeAllInterfaces. revert s. induction ord as [|i ord IH]; intros s; [by eexists|]. cbn [each].
    assert (Hi : ∃ s1, ignore_err (on_snd (stopInterface i)) s = (Ok tt, s1)).
    { destruct s as [g k]. unfold ignore_err, try. m_unfold. rewrite on_snd_run. cbn [fst snd].
      pose proof (stopInterface_returns i k) as Hret. destruct (stopInterface i k) as [[] ?]; [by eexists..|done|done]. }
    destruct Hi as [s1 Hi]. rewrite (bind_Ok _ _ _ _ _ Hi). apply IH. }
  destruct Hc as [[g1 k1] Hc]. rewrite (bind_Ok _ _ _ _ _ Hc).
  destruct (load_interfaces_progress peers (snap_intfs snap) (∅, ∅) k1 Hi) as (acc & k2 & Hl).
  { intros n. rewrite H2. rewrite Forall_forall in Hp |- *. intros p [_ Hin]%list_elem_of_filter. by apply Hp. }
  m_unfold. rewrite on_snd_run. cbn [fst snd]. by rewrite Hl.
Qed.

End Progress.
