(* ===== verification/GatewaySync.v ===== *)
(** * The gateway in sync with the log

    The properties of the gateway, and their witnesses on a kernel in memory
    that satisfies the documented effects of the kernel calls. *)

From Stdlib Require Import Ascii.
From S2P Require Import Prelude GoStrings Sql Sqlite Net Model Crud CrudSpec CrudLog CrudLogSpec Follow Gateway GatewaySpec.
Local Open Scope string_scope.

(** ** A kernel in memory

    Devices that exist accept every call; keys are non-empty texts. *)
#[export] Instance text_keys : WgKeys :=
  {| wgkey := string; zero_key := "";
     ParseKey s := if bool_decide (s = "") then Err (EMsg "wgtypes: failed to parse base64-encoded key") else Ok s;
     Key_String k := k; Key_PublicKey k := k |}.

#[export] Instance text_keys_laws : WgKeysLaws.
Proof. split. intros s. cbn. by case_bool_decide. Qed.

Definition sim_peer (c : PeerConfig) (ps : gmap string (list IPNet)) : gmap string (list IPNet) :=
  if pc_Remove c then delete (pc_PublicKey c) ps
  else if pc_UpdateOnly c && negb (bool_decide (pc_PublicKey c ∈ dom ps)) then ps
  else <[pc_PublicKey c := if pc_ReplaceAllowedIPs c then pc_AllowedIPs c
                           else app (default [] (ps !! pc_PublicKey c)) (pc_AllowedIPs c)]> ps.

Definition sim_configure (c : Config) (d : device) : device :=
  mkDevice (d_up d) (d_addrs d) (cf_PrivateKey c ∪ d_key d) (cf_ListenPort c ∪ d_port d) (cf_FirewallMark c ∪ d_fwmark d)
    (foldl (λ ps p, sim_peer p ps) (if cf_ReplacePeers c then ∅ else d_peers d) (cf_Peers c)).

Definition sim_call (n : string) (f : device → device) : M (gmap string device) unit :=
  v ← getS;
  match v !! n with
  | Some d => put (<[n := f d]> v)
  | None => fail (EMsg "no such device")
  end.

#[export] Instance sim_kernel : Kernel (gmap string device) :=
  {| LinkByName n := sim_call n id;
     LinkSetDown n := sim_call n (λ d, mkDevice false (d_addrs d) (d_key d) (d_port d) (d_fwmark d) (d_peers d));
     LinkDel n := modify (delete n);
     LinkAdd a := v ← getS;
       match v !! la_Name a with Some _ => fail (EMsg "file exists") | None => put (<[la_Name a := new_device]> v) end;
     LinkSetUp n := sim_call n (λ d, mkDevice true (d_addrs d) (d_key d) (d_port d) (d_fwmark d) (d_peers d));
     AddrAdd n a := sim_call n (λ d, mkDevice (d_up d) (app (d_addrs d) [a]) (d_key d) (d_port d) (d_fwmark d) (d_peers d));
     ConfigureDevice n c := sim_call n (sim_configure c);
     Device n := v ← getS;
       match v !! n with
       | Some d => mret ((λ p, mkWgPeer p.1 0 0 0 None) <$> map_to_list (d_peers d))
       | None => fail (EMsg "no such device")
       end |}.

Lemma sim_peer_dom c ps : dom (sim_peer c ps) = peer_configured c (dom ps).
Proof.
  unfold sim_peer, peer_configured. destruct (pc_Remove c); [apply dom_delete_L|].
  destruct (pc_UpdateOnly c && _); [done|apply dom_insert_L].
Qed.

Lemma sim_peers_dom cfgs ps :
  dom (foldl (λ ps p, sim_peer p ps) ps cfgs) = foldl (λ ps p, peer_configured p ps) (dom ps) cfgs.
Proof. revert ps. induction cfgs as [|c cfgs IH]; intros ps; [done|]. cbn. by rewrite IH, sim_peer_dom. Qed.

Lemma sim_call_spec n f : kernel_call id (sim_call n f) (λ v v', is_Some (v !! n) ∧ v' = alter f n v).
Proof.
  intros v r v' H. unfold sim_call in H. m_unfold. destruct (v !! n) as [d|] eqn:E; inv_run; [|done].
  split; [by eexists|]. apply map_eq. intros i. rewrite lookup_insert, lookup_alter. case_decide; [|done]. subst. by rewrite E.
Qed.

Lemma kernel_call_weaken {K} (view : K → gmap string (device (WK := text_keys))) m (P Q : _ → _ → Prop) :
  kernel_call view m P → (∀ v v', P v v' → Q v v') → kernel_call view m Q.
Proof. intros Hc HPQ k r k' H. specialize (Hc k r k' H). destruct r; auto. Qed.

#[export] Program Instance sim_kernel_laws : KernelLaws (K := gmap string device) := {| kview := id |}.
Next Obligation.
  intros n v r v' H. cbn in H. unfold sim_call in H. m_unfold. unfold id in *. destruct (v !! n) as [d|] eqn:E; inv_run; [|done].
  split; [by apply insert_id|by eexists].
Qed.
Next Obligation. intros n. eapply kernel_call_weaken; [apply sim_call_spec|]. by intros v v' [_ ->]. Qed.
Next Obligation. intros n v r v' H. cbn in H. unfold modify in H. by inv_run. Qed.
Next Obligation. intros a v r v' H. cbn in H. m_unfold. destruct (v !! la_Name a) eqn:E; inv_run; done. Qed.
Next Obligation. intros n. eapply kernel_call_weaken; [apply sim_call_spec|]. by intros v v' [_ ->]. Qed.
Next Obligation. intros n a. eapply kernel_call_weaken; [apply sim_call_spec|]. by intros v v' [_ ->]. Qed.
Next Obligation.
  intros n c. eapply kernel_call_weaken; [apply sim_call_spec|]. intros v v' [[d Hd] ->]. exists d. eexists. split; [done|].
  split; [|split].
  - apply map_eq. intros i. rewrite lookup_insert, lookup_alter. case_decide; [|done]. subst. by rewrite Hd.
  - rewrite sim_peers_dom. unfold peers_configured. destruct (cf_ReplacePeers c); [by rewrite dom_empty_L|done].
  - intros p -> Hrep Hrem. cbn. unfold sim_peer. rewrite Hrem, Hrep. destruct (pc_UpdateOnly p && _) eqn:E.
    + intros Hin. apply andb_true_iff in E as [_ E%negb_true_iff%bool_decide_eq_false]. done.
    + intros _. by rewrite lookup_insert_eq.
Qed.

(** The kernel in memory does what it is asked. *)
Lemma sim_call_runs n f (v : gmap string device) : is_Some (v !! n) → (sim_call n f v).1 = Ok tt.
Proof. intros [d Hd]. unfold sim_call. m_unfold. by rewrite Hd. Qed.

Lemma sim_kernel_reliable : kernel_reliable (K := gmap string device).
Proof.
  split; intros; try (by apply sim_call_runs).
  - done.
  - cbn in *. m_unfold. unfold id in *. by rewrite H.
Qed.

(** ** Properties *)
Section Properties.
Context `{WK : WgKeys} {WL : WgKeysLaws} {K : Type} {KN : Kernel K} {KL : KernelLaws}.

(** Moving a peer: the parts of the run. *)
Lemma configure_other n c k n' : n' ≠ n → kview (ConfigureDevice n c k).2 !! n' = kview k !! n'.
Proof.
  intros Hne. destruct (ConfigureDevice n c k) as [r k'] eqn:E. apply configure_device in E. cbn.
  destruct r; [|by rewrite E|done..]. destruct E as (d & ps & _ & -> & _). by rewrite lookup_insert_ne.
Qed.



(** C32: an interface can never be updated on a gateway: the store accepts the
    update of an existing interface, but on a gateway in sync it always fails
    (the device is configured after it was deleted and before it is created
    again), which ends the gateway's replication. *)
Theorem gateway_interface_update_fails o b i st gs (s s' : gateway * K) r :
  objects_of st gs → gw_sync gs s → op_typ o = OpUpdate → op_value o = OInterface i →
  is_Some (go_intfs gs !! i_Name i) → gateway_Apply o b s = (r, s') →
  (∃ st', spec_dispatch DoUpdate (OInterface i) st = Some st') ∧ ∃ e, r = Err e.
Proof.
  intros [Hoi _] Hsync Ht Hv Hsome Hrun. split.
  - cbn [spec_dispatch spec_update]. rewrite decide_True; [by eexists|]. rewrite Hoi. by apply fmap_is_Some.
  - destruct s as [g k]. pose proof Hsync as [Hi Hd _ _]. cbn [fst snd] in *. destruct Hsome as [old Hold].
    unfold gateway_Apply in Hrun. rewrite Hv, Ht in Hrun. unfold applyInterface, lookup_intf in Hrun.
    change (bool_decide (OpUpdate = OpCreate)) with false in Hrun. change (bool_decide (OpUpdate = OpUpdate)) with true in Hrun.
    m_unfold. cbn [fst snd] in Hrun. rewrite Hi, Hold in Hrun. destruct (Hd _ _ Hold) as [Hname _].
    destruct (reconfigure old i (g, k)) as [r1 s1] eqn:E. apply reconfigure_fails in E as [e ->]; [|done].
    inv_run. by eexists.
Qed.

(** C33: deleting a peer that does not exist crashes every gateway: the store
    accepts the deletion (it changes nothing), so it is logged; a gateway that
    never saw the peer dereferences a nil interface. *)
Theorem gateway_delete_unknown_peer_panics o b p key st gs g (k : K) :
  objects_of st gs → gw_sync gs (g, k) → op_typ o = OpDelete → op_value o = OPeer p →
  ParseKey (p_PublicKey p) = Ok key → gw_peerIndex g !! p_PublicKey p = None → go_intfs gs !! "" = None →
  spec_dispatch DoDelete (OPeer p) st = Some st ∧
  ∃ s', gateway_Apply o b (g, k) = (Panic "nil pointer dereference", s').
Proof.
  intros [_ Hop] [Hi _ Hp _] Ht Hv Hkey Hidx Hempty. cbn [fst snd] in *. split.
  - cbn [spec_dispatch spec_delete]. destruct st as [sp si stk]. cbn in *. do 2 f_equal. apply delete_id.
    rewrite Hop, lookup_fmap. destruct (go_peers gs !! p_PublicKey p) as [p0|] eqn:E; [|done].
    destruct (Hp _ _ E) as (_ & _ & Hn). congruence.
  - unfold gateway_Apply. rewrite Hv, Ht. unfold applyPeer, lift_res, peerToConfig.
    change (bool_decide (OpDelete = OpCreate)) with false. change (bool_decide (OpDelete = OpUpdate)) with false.
    change (bool_decide (OpDelete = OpDelete)) with true. m_unfold. cbn [fst snd]. rewrite Hidx. cbn [default].
    rewrite Hkey, Hi. cbn. rewrite Hempty. by eexists.
Qed.

(** Moving a peer to another interface disconnects it: the operation
    succeeds, but the peer was removed from its old device and only updated,
    not added, on the new one, which does not know it. *)
Theorem gateway_moved_peer_lost o b p p0 key gs (s s' : gateway * K) :
  gw_sync gs s → gw_safe DoCreate (OPeer p) gs → op_typ o = OpUpdate → op_value o = OPeer p →
  go_peers gs !! p_PublicKey p = Some p0 → p_Interface p0 ≠ p_Interface p → p_Interface p0 ≠ "" →
  ParseKey (p_PublicKey p) = Ok key → gateway_Apply o b s = (Ok tt, s') →
  gw_peerIndex s'.1 !! p_PublicKey p = Some (p_Interface p) ∧
  ∃ d, kview s'.2 !! p_Interface p = Some d ∧ d_peers d !! key = None.
Proof.
  intros Hsync [Huniq _] Ht Hv Hp0 Hne Hemp Hkey Hrun. destruct s as [g k]. pose proof Hsync as [Hi Hd Hp _]. cbn [fst snd] in *.
  destruct (Hp _ _ Hp0) as (_ & [i0 Hi0] & Hidx). destruct (Hd _ _ Hi0) as [Hn0 _].
  unfold gateway_Apply in Hrun. rewrite Hv, Ht in Hrun. apply bind_Ok_inv in Hrun as ([] & [g1 k1] & Hrun & Hseq).
  unfold set_seq, modify in Hseq. inv_run. unfold applyPeer, lookup_intf, leave_old_interface, set_index, lift_res in Hrun.
  change (bool_decide (OpUpdate = OpCreate)) with false in Hrun. change (bool_decide (OpUpdate = OpUpdate)) with true in Hrun.
  m_unfold. cbn [fst snd] in Hrun. rewrite Hi in Hrun.
  destruct (go_intfs gs !! p_Interface p) as [i|] eqn:Hgi; [|by inv_run]. cbn [fst snd] in Hrun.
  rewrite Hidx in Hrun. cbn [default from_option id] in Hrun. rewrite !bool_decide_eq_true_2 in Hrun by done.
  cbn [andb] in Hrun. unfold lookup_intf in Hrun. m_unfold. cbn [fst snd] in Hrun. rewrite Hi, Hi0 in Hrun.
  unfold ignore_err in Hrun. m_unfold. cbn [configureWGDevice] in Hrun. rewrite on_snd_run in Hrun. rewrite Hn0 in Hrun.
  set (c0 := mkConfig None None None false _) in Hrun.
  pose proof (configure_other (p_Interface p0) c0 k (p_Interface p) ltac:(done)) as Hoth.
  pose proof (ConfigureDevice_returns (p_Interface p0) c0 k) as Hret.
  destruct (ConfigureDevice (p_Interface p0) c0 k) as [r0 k0]. cbn [fst snd] in *.
  destruct (Hd _ _ Hgi) as (Hn & key' & ps & _ & Hdev & Hdom). rewrite <- Hoth in Hdev.
  assert (Hrun' : match peerToConfig p true false with
                  | Ok c => on_snd (ConfigureDevice (p_Interface p) (one_peer c))
                      (mkGateway (gw_intfs g) (<[p_PublicKey p := p_Interface p]> (gw_peerIndex g)) (gw_seq g), k0)
                  | Err e => (Err e, (mkGateway (gw_intfs g) (<[p_PublicKey p := p_Interface p]> (gw_peerIndex g)) (gw_seq g), k0))
                  | Panic x => (Panic x, (mkGateway (gw_intfs g) (<[p_PublicKey p := p_Interface p]> (gw_peerIndex g)) (gw_seq g), k0))
                  | Hang => (Hang, (mkGateway (gw_intfs g) (<[p_PublicKey p := p_Interface p]> (gw_peerIndex g)) (gw_seq g), k0))
                  end = (Ok tt, (g1, k1))).
  { rewrite <- Hrun, Hn. by destruct r0; [..|discriminate Hret|discriminate Hret]; destruct (peerToConfig p true false). }
  clear Hrun. destruct (peerToConfig p true false) as [c| | |] eqn:Hc; [|by inv_run..]. rewrite on_snd_run in Hrun'.
  destruct (ConfigureDevice (p_Interface p) (one_peer c) k0) as [r2 k2] eqn:Hcd. cbn [fst snd] in Hrun'. inv_run.
  destruct (configure_peer_Ok _ _ _ _ _ _ _ _ Hcd Hdev) as (ps' & Hv' & Hdom' & _).
  destruct (peerToConfig_Ok _ _ _ _ Hc) as (Hkc & Hrem & Hup & _). rewrite Hkey in Hkc. simplify_eq.
  split; [by rewrite lookup_insert_eq|]. rewrite Hv', lookup_insert_eq. eexists. split; [done|]. cbn.
  apply not_elem_of_dom. rewrite Hdom'. unfold peer_configured. rewrite Hrem, Hup.
  assert (Hnot : pc_PublicKey c ∉ dom ps).
  { rewrite Hdom. intros (pk' & p' & Hp' & Hpi & Hx). assert (pk' = p_PublicKey p) as -> by (by eapply Huniq). congruence. }
  by rewrite bool_decide_eq_false_2.
Qed.

End Properties.

(** *** A gateway with two interfaces and a peer *)
Definition gw_wg0 : Interface := mkInterface "wg0" 51820 (Some (cidr4 10 0 0 1 24)) None 0 "sk0" "".
Definition gw_wg1 : Interface := mkInterface "wg1" 51821 (Some (cidr4 10 0 1 1 24)) None 7 "sk1" "".
Definition gw_peer : Peer := mkPeer "pk" "wg0" (Some (cidr4 10 0 0 2 32)) None 0.

Definition gw_ops : list op :=
  [mkOp 1 OpCreate 0 (OInterface gw_wg0); mkOp 2 OpCreate 0 (OInterface gw_wg1); mkOp 3 OpCreate 0 (OPeer gw_peer)].

Definition gw_objects (n : nat) : gobjects :=
  foldl (λ gs o, objects_apply DoCreate (op_value o) gs) (mkObjects ∅ ∅) (take n gw_ops).
Definition gw_store (n : nat) : store :=
  default empty_store (foldl (λ acc o, acc ≫= spec_create (op_value o)) (Some empty_store) (take n gw_ops)).
Definition gw_state (n : nat) : gateway * gmap string device :=
  (each (λ o, gateway_Apply o true) (take n gw_ops) (new_gateway, ∅)).2.

Lemma gw_sample_sync0 : objects_of (gw_store 0) (gw_objects 0) ∧ gw_sync (gw_objects 0) (gw_state 0).
Proof.
  split; [done|]. split; cbn; [done|intros ?? Hl; by apply lookup_empty_Some in Hl..|].
  intros ????? Hl. by apply lookup_empty_Some in Hl.
Qed.

Lemma gw_sample_sync1 : objects_of (gw_store 1) (gw_objects 1) ∧ gw_sync (gw_objects 1) (gw_state 1).
Proof.
  destruct gw_sample_sync0 as [Ho Hs]. split.
  - apply (objects_apply_store DoCreate (OInterface gw_wg0) _ _ _ Ho). vm_compute. reflexivity.
  - apply (gateway_Apply_run DoCreate (mkOp 1 OpCreate 0 (OInterface gw_wg0)) true _ (gw_store 1) _ _ (Ok tt) (gw_state 1) Ho Hs);
      [reflexivity|done|vm_compute; reflexivity..].
Qed.

Lemma gw_sample_sync2 : objects_of (gw_store 2) (gw_objects 2) ∧ gw_sync (gw_objects 2) (gw_state 2).
Proof.
  destruct gw_sample_sync1 as [Ho Hs]. split.
  - apply (objects_apply_store DoCreate (OInterface gw_wg1) _ _ _ Ho). vm_compute. reflexivity.
  - apply (gateway_Apply_run DoCreate (mkOp 2 OpCreate 0 (OInterface gw_wg1)) true _ (gw_store 2) _ _ (Ok tt) (gw_state 2) Ho Hs);
      [reflexivity|done|vm_compute; reflexivity..].
Qed.

Lemma gw_sample_safe2 : gw_safe DoCreate (OPeer gw_peer) (gw_objects 2).
Proof. split; [|done]. intros pk' p' x Hl. cbn in Hl. by apply lookup_empty_Some in Hl. Qed.

Lemma gw_sample_sync3 : objects_of (gw_store 3) (gw_objects 3) ∧ gw_sync (gw_objects 3) (gw_state 3).
Proof.
  destruct gw_sample_sync2 as [Ho Hs]. split.
  - apply (objects_apply_store DoCreate (OPeer gw_peer) _ _ _ Ho). vm_compute. reflexivity.
  - apply (gateway_Apply_run DoCreate (mkOp 3 OpCreate 0 (OPeer gw_peer)) true _ (gw_store 3) _ _ (Ok tt) (gw_state 3) Ho Hs);
      [reflexivity|apply gw_sample_safe2|vm_compute; reflexivity..].
Qed.


Definition gw_snapshot : memSnapshot := mkSnapshot 9 (op_value <$> gw_ops).


Lemma gateway_interface_update_fails_witness :
  ∃ e, (gateway_Apply (mkOp 4 OpUpdate 0 (OInterface gw_wg0)) true (gw_state 3)).1 = Err e.
Proof.
  destruct gw_sample_sync3 as [Ho Hs].
  apply (gateway_interface_update_fails (mkOp 4 OpUpdate 0 (OInterface gw_wg0)) true gw_wg0 (gw_store 3) (gw_objects 3)
    (gw_state 3) (gateway_Apply (mkOp 4 OpUpdate 0 (OInterface gw_wg0)) true (gw_state 3)).2 _ Ho Hs eq_refl eq_refl).
  - exists gw_wg0. vm_compute. reflexivity.
  - vm_compute. reflexivity.
Defined.

Lemma gateway_delete_unknown_peer_panics_witness :
  ∃ s', gateway_Apply (mkOp 3 OpDelete 0 (OPeer gw_peer)) true (gw_state 2) = (Panic "nil pointer dereference", s').
Proof.
  destruct gw_sample_sync2 as [Ho Hs].
  apply (gateway_delete_unknown_peer_panics (mkOp 3 OpDelete 0 (OPeer gw_peer)) true gw_peer ("pk" : wgkey (WgKeys := text_keys)) (gw_store 2) (gw_objects 2)
    (gw_state 2).1 (gw_state 2).2 Ho Hs eq_refl eq_refl); vm_compute; reflexivity.
Defined.

Lemma gateway_moved_peer_lost_witness :
  let p := mkPeer "pk" "wg1" (Some (cidr4 10 0 1 2 32)) None 0 in
  let s' := (gateway_Apply (mkOp 4 OpUpdate 0 (OPeer p)) true (gw_state 3)).2 in
  ∃ d, kview s'.2 !! "wg1" = Some d ∧ d_peers d !! ("pk" : wgkey (WgKeys := text_keys)) = None.
Proof.
  set (p := mkPeer "pk" "wg1" (Some (cidr4 10 0 1 2 32)) None 0). cbn zeta.
  destruct gw_sample_sync3 as [Ho Hs].
  apply (gateway_moved_peer_lost (mkOp 4 OpUpdate 0 (OPeer p)) true p gw_peer ("pk" : wgkey (WgKeys := text_keys)) (gw_objects 3) (gw_state 3)
    (gateway_Apply (mkOp 4 OpUpdate 0 (OPeer p)) true (gw_state 3)).2 Hs).
  - split; [|done]. intros pk' p' x Hl _ _. cbn in Hl.
    apply lookup_insert_Some in Hl as [[<- _]|[_ Hl]]; [done|]. by apply lookup_empty_Some in Hl.
  - reflexivity.
  - reflexivity.
  - vm_compute; reflexivity.
  - discriminate.
  - discriminate.
  - reflexivity.
  - vm_compute; reflexivity.
Defined.
