(* ===== verification/GatewaySink.v ===== *)
(** * The gateway as a follower

    What a gateway promises to the replication that feeds it ([SinkLaws]): in
    step with the operations it has applied, a refused operation leaves it as it
    was, and an operation that it is made for is carried out by a kernel that
    does what it is asked.  An operation that has travelled through an encoding
    is as good as the one that was written. *)

From Stdlib Require Import Ascii.
From S2P Require Import Prelude GoStrings Sql Sqlite Net Model Crud CrudSpec CrudLog CrudLogSpec Follow Gateway GatewaySpec.
Local Open Scope string_scope.

Section Frames.
Context `{WK : WgKeys} {WL : WgKeysLaws} {K : Type} {KN : Kernel K} {KL : KernelLaws}.

(** ** Calls that leave other devices alone *)
Definition frames {A} (n : string) (m : M K A) : Prop :=
  ∀ k n', n' ≠ n → kview (m k).2 !! n' = kview k !! n'.

Lemma frames_bind {A B} n (m : M K A) (f : A → M K B) : frames n m → (∀ a, frames n (f a)) → frames n (m ≫= f).
Proof.
  intros Hm Hf k n' Hn. specialize (Hm k n' Hn). m_unfold. destruct (m k) as [[a|e|p|] k1]; cbn in *; try done.
  by rewrite Hf.
Qed.

Lemma frames_mret {A} n (a : A) : frames n (mret a : M K A).
Proof. by intros k. Qed.

Lemma frames_lift {A} n (r : res A) : frames n (lift_res r : M K A).
Proof. by intros k. Qed.

Lemma frames_wrap {A} n msg (m : M K A) : frames n m → frames n (wrap_err msg m).
Proof. intros Hm k n' Hn. specialize (Hm k n' Hn). unfold wrap_err. by destruct (m k) as [[] ?]. Qed.

Lemma frames_try {A} n (m : M K A) : frames n m → frames n (try m).
Proof. intros Hm k n' Hn. specialize (Hm k n' Hn). unfold try. by destruct (m k) as [[] ?]. Qed.

Lemma frames_call n (m : M K unit) P :
  kernel_call kview m P → (∀ v v' n', P v v' → n' ≠ n → v' !! n' = v !! n') → frames n m.
Proof.
  intros Hc HP k n' Hn. destruct (m k) as [r k'] eqn:E. specialize (Hc _ _ _ E). cbn.
  destruct r; [by eapply HP|by rewrite Hc|done..].
Qed.

Lemma frames_link_by_name n n' : frames n (LinkByName n').
Proof. intros k m Hm. destruct (LinkByName n' k) as [r k'] eqn:E. by apply link_by_name in E as [-> _]. Qed.

Lemma frames_calls n a c m :
  frames n (LinkSetDown n) ∧ frames n (LinkDel n) ∧ frames n (LinkAdd (mkLinkAttrs n m)) ∧ frames n (LinkSetUp n) ∧
  frames n (AddrAdd n a) ∧ frames n (ConfigureDevice n c).
Proof.
  split_and!.
  - eapply frames_call; [apply link_set_down|]. intros v v' n' -> Hn. by rewrite lookup_alter_ne.
  - eapply frames_call; [apply link_del|]. intros v v' n' -> Hn. by rewrite lookup_delete_ne.
  - eapply frames_call; [apply link_add|]. intros v v' n' [_ ->] Hn. by rewrite lookup_insert_ne.
  - eapply frames_call; [apply link_set_up|]. intros v v' n' -> Hn. by rewrite lookup_alter_ne.
  - eapply frames_call; [apply addr_add|]. intros v v' n' -> Hn. by rewrite lookup_alter_ne.
  - eapply frames_call; [apply configure_device|]. intros v v' n' (d & ps & _ & -> & _) Hn. by rewrite lookup_insert_ne.
Qed.

Lemma frames_newInterface i : frames (i_Name i) (newInterface i).
Proof.
  pose proof (λ a c, frames_calls (i_Name i) a c 1420) as Hc.
  destruct (Hc (mkIPNet [] []) (mkConfig None None None false [])) as (H1 & H2 & H3 & H4 & _).
  assert (Ha : ∀ c, frames (i_Name i) (add_addr (i_Name i) c)).
  { intros [c|]; [|apply frames_mret]. apply frames_wrap. by apply (Hc (c_IPNet c) (mkConfig None None None false [])). }
  assert (Hdel : frames (i_Name i) (delete_link (i_Name i))).
  { apply frames_bind; [by apply frames_wrap|]. intros _. by apply frames_wrap. }
  unfold newInterface, startInterface, initialize. apply frames_bind.
  - apply frames_bind; [apply frames_try, frames_link_by_name|]. intros r.
    apply frames_bind; [destruct r; [done|apply frames_mret]|]. intros _.
    apply frames_bind; [by apply frames_wrap|]. intros _. apply frames_bind; [done|]. intros _. by apply frames_bind.
  - intros _. apply frames_bind; [apply frames_lift|]. intros key.
    apply (Hc (mkIPNet [] []) (mkConfig (Some key) (Some (i_Port i)) (if bool_decide (0 < i_Fwmark i)%Z then Some (i_Fwmark i) else None) false [])).
Qed.

(** ** A refused operation *)
Lemma gw_sync_frame gs g g' k k' :
  gw_sync gs (g, k) → gw_intfs g' = gw_intfs g →
  (∀ pk, is_Some (go_peers gs !! pk) → gw_peerIndex g' !! pk = gw_peerIndex g !! pk) →
  (∀ n, is_Some (go_intfs gs !! n) → kview k' !! n = kview k !! n) → gw_sync gs (g', k').
Proof.
  intros [Hi Hd Hp Hk] Hg Hidx Hv. cbn [fst snd] in *. split; cbn [fst snd].
  - congruence.
  - intros n i Hn. rewrite Hv by eauto. by apply Hd.
  - intros pk p Hpk. rewrite Hidx by eauto. by apply Hp.
  - done.
Qed.

Lemma configure_Err n c k e k' : ConfigureDevice n c k = (Err e, k') → kview k' = kview k.
Proof. intros H. by apply configure_device in H. Qed.

Lemma applyPeer_Err k p st st' gs g kk e s' :
  objects_of st gs → gw_sync gs (g, kk) → gw_safe k (OPeer p) gs → spec_dispatch k (OPeer p) st = Some st' →
  applyPeer (match k with DoCreate => OpCreate | DoUpdate => OpUpdate | DoDelete => OpDelete end) p (g, kk) = (Err e, s') →
  gw_sync gs s' ∧ gw_seq s'.1 = gw_seq g.
Proof.
  intros [_ Hop] Hsync Hsafe Hspec Hrun. pose proof Hsync as [Hi _ Hp _]. cbn [fst snd] in *.
  unfold applyPeer, lookup_intf, set_index, leave_old_interface, lift_res in Hrun.
  assert (Hconf : ∀ i g' u c s1, configureWGDevice (K := K) i c (g', kk) = (u, s1) → u = Err e →
    (∀ pk, is_Some (go_peers gs !! pk) → gw_peerIndex g' !! pk = gw_peerIndex g !! pk) →
    gw_intfs g' = gw_intfs g → gw_seq g' = gw_seq g → gw_sync gs s1 ∧ gw_seq s1.1 = gw_seq g).
  { intros i g' u c s1 Hc -> Hidx Hg Hq. destruct i as [i|]; [|by inv_run]. cbn [configureWGDevice] in Hc. rewrite on_snd_run in Hc.
    destruct (ConfigureDevice (i_Name i) c kk) as [r1 k1] eqn:Hcd. cbn [fst snd] in Hc. inv_run.
    apply configure_Err in Hcd. split; [|done]. eapply gw_sync_frame; [done..|]. intros n _. by rewrite Hcd. }
  destruct k.
  - change (bool_decide (OpCreate = OpCreate)) with true in Hrun. m_unfold. cbn [fst snd] in Hrun.
    destruct (gw_intfs g !! p_Interface p) as [i|]; [|by inv_run].
    assert (Hidx : ∀ pk, is_Some (go_peers gs !! pk) → <[p_PublicKey p := p_Interface p]> (gw_peerIndex g) !! pk = gw_peerIndex g !! pk).
    { intros pk Hpk. apply lookup_insert_ne. intros <-. cbn [spec_dispatch spec_create] in Hspec.
      rewrite Hop, decide_True in Hspec; [done|]. by apply fmap_is_Some. }
    destruct (peerToConfig p false false) as [c|e1| |]; [|inv_run|by inv_run..].
    + by eapply Hconf.
    + split; [|done]. eapply gw_sync_frame; done.
  - change (bool_decide (OpUpdate = OpCreate)) with false in Hrun. change (bool_decide (OpUpdate = OpUpdate)) with true in Hrun.
    destruct Hsafe as (_ & p0 & Hp0 & Hpi). destruct (Hp _ _ Hp0) as (_ & [i Hgi] & Hidx). rewrite Hpi in Hgi, Hidx.
    m_unfold. cbn [fst snd] in Hrun. rewrite Hi, Hgi in Hrun. cbn [fst snd] in Hrun. rewrite Hidx in Hrun. cbn [default from_option id] in Hrun.
    rewrite (bool_decide_eq_false_2 (p_Interface p ≠ p_Interface p)), andb_false_r in Hrun by (intros Hn; by apply Hn). cbn [fst snd] in Hrun.
    rewrite insert_id in Hrun by done.
    destruct (peerToConfig p true false) as [c|e1| |]; [|inv_run|by inv_run..].
    + by eapply Hconf.
    + split; [|done]. eapply gw_sync_frame; done.
  - change (bool_decide (OpDelete = OpCreate)) with false in Hrun. change (bool_decide (OpDelete = OpUpdate)) with false in Hrun.
    change (bool_decide (OpDelete = OpDelete)) with true in Hrun. m_unfold. cbn [fst snd] in Hrun.
    destruct (peerToConfig p false true) as [c|e1| |]; [|by inv_run..]. by eapply Hconf.
Qed.

Lemma applyInterface_Err k i gs g kk e s' :
  gw_sync gs (g, kk) → k ≠ DoUpdate →
  applyInterface (match k with DoCreate => OpCreate | DoUpdate => OpUpdate | DoDelete => OpDelete end) i (g, kk) = (Err e, s') →
  gw_sync gs s' ∧ gw_seq s'.1 = gw_seq g.
Proof.
  intros Hsync Hk Hrun. pose proof Hsync as [Hi _ _ _]. cbn [fst snd] in *.
  unfold applyInterface, lookup_intf, set_intf, del_intf, ignore_err in Hrun. destruct k; [|done|].
  - change (bool_decide (OpCreate = OpCreate)) with true in Hrun. m_unfold. cbn [fst snd] in Hrun. rewrite Hi in Hrun.
    destruct (go_intfs gs !! i_Name i) eqn:Hgi; [by inv_run|]. rewrite on_snd_run in Hrun. cbn [fst snd] in Hrun.
    pose proof (frames_newInterface i kk) as Hfr. destruct (newInterface i kk) as [r1 k1]. cbn [fst snd] in *.
    destruct r1; inv_run. split; [|done]. eapply gw_sync_frame; [done..|]. intros n [j Hn]. apply Hfr. congruence.
  - change (bool_decide (OpDelete = OpCreate)) with false in Hrun. change (bool_decide (OpDelete = OpUpdate)) with false in Hrun.
    change (bool_decide (OpDelete = OpDelete)) with true in Hrun.
    m_unfold. cbn [fst snd] in Hrun. rewrite Hi in Hrun. destruct (go_intfs gs !! i_Name i) as [old|]; [|by inv_run].
    rewrite on_snd_run in Hrun. cbn [fst snd] in Hrun. by destruct (stopInterface old kk) as [[] k1]; inv_run.
Qed.

Lemma gateway_Apply_Err k o b st st' gs s e s' :
  objects_of st gs → gw_sync gs s → op_kind_of (op_typ o) = Some k → gw_safe k (op_value o) gs → gw_valid k (op_value o) gs →
  spec_dispatch k (op_value o) st = Some st' → gateway_Apply o b s = (Err e, s') →
  gw_sync gs s' ∧ gw_seq s'.1 = gw_seq s.1.
Proof.
  intros Hst Hsync Hk Hsafe Hval Hspec Hrun. destruct s as [g kk]. unfold gateway_Apply, set_seq in Hrun.
  apply op_kind_typ in Hk. rewrite Hk in Hrun. m_unfold. destruct (op_value o) as [p|i|t|j]; [..|by inv_run|by inv_run].
  - destruct (applyPeer _ p (g, kk)) as [r1 s1] eqn:Hap. destruct r1; inv_run. by eapply (applyPeer_Err k p st).
  - destruct (applyInterface _ i (g, kk)) as [r1 s1] eqn:Hap. destruct r1; inv_run.
    eapply (applyInterface_Err k i); [done| |done]. by destruct k.
Qed.

End Frames.

(** ** The laws of a sink *)
Section Laws.
Context `{WK : WgKeys} {WL : WgKeysLaws} {K : Type} {KN : Kernel K} {KL : KernelLaws}.
Context (ord : list sqlTableAdapter) (fuel : nat).
#[local] Existing Instance model_encoding.
#[local] Instance gw_crud : CRUD := model_crud ord fuel.
#[local] Instance gw_crud_laws : CrudLaws := model_crud_laws ord fuel.
#[local] Instance gw_encoding_laws : EncodingLaws := model_encoding_laws ord fuel.

(** The gateway is in step with the store that the operations make. *)
Definition gw_rep (ops : list op) (s : gateway * K) : Prop :=
  ∃ st gs, spec_replay ops empty_store = Some st ∧ objects_of st gs ∧ gw_sync gs s ∧ gw_seq s.1 = Z.of_nat (length ops).

(** The operation is one that gateways are made for, however it is read back:
    no update of an interface, no move of a peer to another interface, no
    deletion of a peer that does not exist, no two texts for one key, keys that
    parse and peers with addresses. *)
Definition gw_takes (st : store) (o : op) : Prop :=
  ∀ o' k gs, op_eqv o o' → op_kind_of (op_typ o') = Some k → objects_of st gs →
    gw_safe k (op_value o') gs ∧ gw_valid k (op_value o') gs.

(** *** Operations that gateways are made for *)

(** What is read back of an interface or peer has its name and keys, and an
    address where there was one. *)
Lemma eqv_interface o o' i :
  op_eqv o o' → op_value o = OInterface i →
  ∃ i', op_value o' = OInterface i' ∧ i_Name i' = i_Name i ∧ i_PrivateKey i' = i_PrivateKey i ∧
    (i_IP i = None → i_IP i' = None) ∧ (i_IP6 i = None → i_IP6 i' = None).
Proof.
  intros (_ & _ & Hm & _) Hv. rewrite Hv in Hm. cbn in Hm. unfold MarshalValue in Hm. m_unfold. cbn in Hm.
  destruct (op_value o') as [p|i'|t|j]; cbn in Hm; try done.
  - unfold marshal_time in Hm. destruct (time_json_ok (p_Expire p)); done.
  - injection Hm as Hn _ H1 H2 _ Hk _. exists i'. split_and!; [done..| |].
    + intros E. rewrite E in H1. by destruct (i_IP i').
    + intros E. rewrite E in H2. by destruct (i_IP6 i').
Qed.

Lemma eqv_peer o o' p :
  op_eqv o o' → op_value o = OPeer p → op_wire o →
  ∃ p', op_value o' = OPeer p' ∧ p_PublicKey p' = p_PublicKey p ∧ p_Interface p' = p_Interface p ∧
    (allowed_ips p ≠ [] → allowed_ips p' ≠ []).
Proof.
  intros (_ & _ & Hm & _) Hv Hw. unfold op_wire in Hw. rewrite Hv in Hm, Hw. cbn in Hm, Hw. unfold MarshalValue in Hm. m_unfold. cbn in Hm.
  unfold marshal_time in Hm. apply andb_true_iff in Hw as [_ Hw]. rewrite Hw in Hm. cbn in Hm.
  destruct (op_value o') as [p'|i'|t|j]; cbn in Hm; try done.
  unfold marshal_time in Hm. destruct (time_json_ok (p_Expire p')); cbn in Hm; [|done]. injection Hm as Hk Hi H1 H2 _. exists p'. split_and!; [done..|].
  unfold allowed_ips. destruct (p_IP p), (p_IP6 p), (p_IP p'), (p_IP6 p'); cbn in H1, H2 |- *; first [discriminate H1|discriminate H2|by intros []|by intros _].
Qed.

Lemma eqv_kind o o' k k' : op_eqv o o' → op_kind_of (op_typ o) = Some k → op_kind_of (op_typ o') = Some k' → k' = k.
Proof. intros (_ & -> & _) H1 H2. congruence. Qed.

(** Creating an interface with a key and an address. *)
Lemma gw_takes_interface st o i :
  op_value o = OInterface i → op_kind_of (op_typ o) = Some DoCreate → is_ok (ParseKey (i_PrivateKey i)) = true →
  i_IP i = None ∨ i_IP6 i = None → gw_takes st o.
Proof.
  intros Hv Hk Hkey Hip o' k gs Heq Hk' Hgs. rewrite (eqv_kind _ _ _ _ Heq Hk Hk').
  destruct (eqv_interface _ _ _ Heq Hv) as (i' & -> & Hn & Hp & H1 & H2). split; [done|]. cbn. split; [|by rewrite Hp].
  unfold intf_addrs. destruct Hip as [Hip|Hip]; [rewrite (H1 Hip); destruct (i_IP6 i')|rewrite (H2 Hip); destruct (i_IP i')]; cbn;
    repeat constructor; set_solver.
Qed.

(** Creating a peer with a key that no other peer has and an address. *)
Lemma gw_takes_peer st o p :
  op_value o = OPeer p → op_wire o → op_kind_of (op_typ o) = Some DoCreate → is_ok (ParseKey (p_PublicKey p)) = true →
  allowed_ips p ≠ [] →
  (∀ pk x, is_Some (st_peers st !! pk) → ParseKey pk = Ok x → ParseKey (p_PublicKey p) = Ok x → pk = p_PublicKey p) →
  gw_takes st o.
Proof.
  intros Hv Hw Hk Hkey Hips Huniq o' k gs Heq Hk' Hgs. rewrite (eqv_kind _ _ _ _ Heq Hk Hk').
  destruct (eqv_peer _ _ _ Heq Hv Hw) as (p' & -> & Hpk & Hpi & Ha). rewrite <- Hpk in Huniq, Hkey. split; cbn.
  - split; [|done]. intros pk' q x Hq. apply Huniq. destruct Hgs as [_ ->]. rewrite lookup_fmap, Hq. by eexists.
  - split; [done|]. by auto.
Qed.

Lemma spec_op_inv ops o st : 
  is_Some (spec_replay (app ops [o]) empty_store) → spec_replay ops empty_store = Some st →
  ∃ k st', op_kind_of (op_typ o) = Some k ∧ spec_dispatch k (op_value o) st = Some st' ∧
    spec_replay (app ops [o]) empty_store = Some st'.
Proof.
  intros [st' Hst'] Hst. rewrite spec_replay_snoc, Hst in Hst' |- *. cbn [mbind option_bind] in *.
  unfold spec_op in *. destruct (op_kind_of (op_typ o)) as [k|]; [|done]. cbn in *. eauto.
Qed.

#[export] Program Instance gateway_sink_laws : SinkLaws (F := gateway * K) (EF := list Interface) empty_store :=
  {| sink_rep := gw_rep; sink_takes := gw_takes; sink_commits _ := True; sink_up _ := True |}.
Next Obligation. intros st o o' Ho Ht o2 k gs Ho2 Hk Hgs. eapply Ht; [by etrans|done..]. Qed.
Next Obligation. intros ops s e (st & gs & _ & _ & _ & Hs) _. cbn. unfold gateway_LatestSequence. m_unfold. by rewrite Hs. Qed.
Next Obligation.
  intros ops s e o r s' (st & gs & Hst & Hgs & Hsync & Hseq) _ Ho _ Hsp Ht Hrun. cbn in Hrun.
  destruct (spec_op_inv ops o st Hsp Hst) as (k & st' & Hk & Hd & Hsnoc).
  destruct (Ht st Hst o k gs ltac:(reflexivity) Hk Hgs) as [Hsafe Hval].
  pose proof (gateway_Apply_run k o true st st' gs s r s' Hgs Hsync Hk Hsafe Hd Hrun) as Hres.
  destruct r as [u|e'| |]; [| |done..].
  - destruct Hres as (Hsync' & Hs' & _). exists st', (objects_apply k (op_value o) gs). split_and!; [done| |done|].
    + by eapply objects_apply_store.
    + rewrite Hs', Ho, length_app. cbn. lia.
  - destruct (gateway_Apply_Err k o true st st' gs s e' s' Hgs Hsync Hk Hsafe Hval Hd Hrun) as [Hsync' Hs'].
    exists st, gs. by rewrite Hs'.
Qed.

(** On a kernel that does what it is asked. *)
Context (KR : kernel_reliable (K := K)).

#[export] Program Instance gateway_sink_progress : SinkProgress (SL := gateway_sink_laws) empty_store :=
  {| sink_ready _ := True; sink_env := [] |}.
Next Obligation. done. Qed.
Next Obligation. done. Qed.
Next Obligation.
  intros fops s o (st & gs & Hst & Hgs & Hsync & Hseq) _ _ _ _ Hsp Ht. cbn.
  destruct (spec_op_inv fops o st Hsp Hst) as (k & st' & Hk & Hd & _).
  destruct (Ht st Hst o k gs ltac:(reflexivity) Hk Hgs) as [Hsafe Hval].
  exists (gateway_Apply o true s).2. split; [|done].
  by rewrite (run_fst _ _ _ (gateway_Apply_progress KR k o true st st' gs s Hgs Hsync Hk Hsafe Hval Hd)).
Qed.

End Laws.
