(* ===== verification/FollowMetrics.v ===== *)
(** * The metrics of replication

    [crudlog/follow.go] with its three metrics: [async_repl_up],
    [async_repl_snapshots_total] and [async_repl_sequence].  [Follow] models what
    it does to the source and to the sink; here the same functions also set the
    metrics, and the theorem says that they do not interfere, and what each of
    them tells. *)

From Stdlib Require Import Ascii.
From S2P Require Import Prelude GoStrings Sql SqlText Sqlite Net Model Crud CrudSpec CrudLog CrudLogSpec Follow Gateway.
Local Open Scope string_scope.

Record repl_metrics : Type := mkMetrics { replState : Z; snapshotCounter : Z; latestSequence : Z }.

(** Registered with their zero values. *)
Definition init_metrics : repl_metrics := mkMetrics 0 0 0.

Definition replState_Set (v : Z) : M repl_metrics unit := modify (λ m, mkMetrics v (snapshotCounter m) (latestSequence m)).
Definition snapshotCounter_Inc : M repl_metrics unit := modify (λ m, mkMetrics (replState m) (snapshotCounter m + 1) (latestSequence m)).
Definition latestSequence_Set (v : Z) : M repl_metrics unit := modify (λ m, mkMetrics (replState m) (snapshotCounter m) v).

Section Metered.
Context {P EP F EF : Type} `{SRC : LogSource P EP} `{SNK : LogSink F EF}.

Definition on_src {A} (m : M P A) : M ((P * F) * repl_metrics) A := on_fst (on_fst m).
Definition on_sink {A} (m : M F A) : M ((P * F) * repl_metrics) A := on_fst (on_snd m).

Definition metered_start (env : follow_env EP EF) : M ((P * F) * repl_metrics) src_sub :=
  _ ← on_snd (replState_Set 0);
  start ← on_sink (sink_LatestSequence (fe_latest env));
  r ← try (on_src (src_Subscribe (fe_subscribe env) (uint64_wrap (start + 1))));
  match r with
  | inl sub => mret sub
  | inr e =>
      if errors_Is e ErrHorizon then
        _ ← on_snd snapshotCounter_Inc;
        snap ← wrap_err "Snapshot() error" (on_src (src_Snapshot (fe_snapshot env)));
        _ ← wrap_err "loading snapshot" (on_sink (sink_LoadSnapshot (fe_load env) snap));
        match snap with
        | None => panic "nil pointer dereference"
        | Some snap =>
            wrap_err "subscription error" (on_src (src_Subscribe (fe_retry env) (uint64_wrap (SeqNum snap + 1))))
        end
      else fail (EWrap "subscription error" e)
  end.

Definition metered_iter (env : EF) (ev : follow_event) : M ((P * F) * repl_metrics) bool :=
  match ev with
  | EvOp o =>
      _ ← on_snd (latestSequence_Set (float64_of_int (op_seq o)));
      _ ← wrap_err "sequence" (on_sink (sink_Apply env o true));
      mret true
  | EvClosed => mret false
  | EvDone e => fail e
  end.

Fixpoint metered_loop (env : EF) (evs : list follow_event) : M ((P * F) * repl_metrics) unit :=
  match evs with
  | [] => hang
  | ev :: evs => continue ← metered_iter env ev; if (continue : bool) then metered_loop env evs else mret tt
  end.

Definition metered_doFollow (env : follow_env EP EF) (evs : list follow_event) : M ((P * F) * repl_metrics) unit :=
  sub ← metered_start env;
  _ ← on_snd (replState_Set 1);
  deferred (on_src (src_Close sub)) (metered_loop (fe_apply env) evs).

Fixpoint metered_Follow (rounds : list (follow_env EP EF * list follow_event)) : M ((P * F) * repl_metrics) unit :=
  match rounds with
  | [] => hang
  | (env, evs) :: rounds => _ ← metered_doFollow env evs; metered_Follow rounds
  end.

(** ** Lemmas *)

(** The last number among the received operations that the loop gets to. *)
Fixpoint last_seen (env : EF) (evs : list follow_event) (f : F) (q : Z) : Z :=
  match evs with
  | EvOp o :: evs =>
      match sink_Apply env o true f with
      | (Ok _, f') => last_seen env evs f' (float64_of_int (op_seq o))
      | _ => float64_of_int (op_seq o)
      end
  | _ => q
  end.

Lemma metered_loop_run env evs s q :
  metered_loop env evs (s, q) =
  ((on_snd (follow_loop env evs) s).1, ((on_snd (follow_loop env evs) s).2,
    mkMetrics (replState q) (snapshotCounter q) (last_seen env evs s.2 (latestSequence q)))).
Proof.
  revert s q. induction evs as [|ev evs IH]; intros [p f] q; [by destruct q|]. destruct ev as [o| |e]; [|by destruct q..].
  cbn [metered_loop metered_iter follow_loop follow_iter last_seen]. unfold wrap_err, on_sink, on_snd, on_fst, latestSequence_Set. m_unfold.
  cbn [fst snd]. destruct (sink_Apply env o true f) as [[[]| | |] f'] eqn:E; cbn [fst snd]; [|by destruct q..].
  rewrite IH. unfold on_snd. cbn [fst snd replState snapshotCounter latestSequence]. by destruct (follow_loop env evs f').
Qed.

Lemma metered_start_run env s q :
  ∃ n, (n = 0 ∨ n = 1)%Z ∧
    metered_start env (s, q) = ((follow_start env s).1, ((follow_start env s).2, mkMetrics 0 (snapshotCounter q + n) (latestSequence q))) ∧
    (n = 1%Z ↔ ∃ start f e p', sink_LatestSequence (fe_latest env) s.2 = (Ok start, f) ∧
      src_Subscribe (fe_subscribe env) (uint64_wrap (start + 1)) s.1 = (Err e, p') ∧ errors_Is e ErrHorizon = true).
Proof.
  destruct s as [p f]. unfold metered_start, follow_start, on_src, on_sink, on_snd, on_fst, wrap_err, replState_Set, snapshotCounter_Inc.
  m_unfold. cbn [fst snd]. destruct (sink_LatestSequence (fe_latest env) f) as [[start| | |] f1] eqn:E1; cbn [fst snd].
  2-4: exists 0%Z; rewrite Z.add_0_r; split_and!; [by left|done|split; [done|intros (? & ? & ? & ? & [=] & _)]].
  destruct (src_Subscribe (fe_subscribe env) (uint64_wrap (start + 1)) p) as [[sub|e| |] p1] eqn:E2; cbn [fst snd].
  1, 3, 4: exists 0%Z; rewrite Z.add_0_r; split_and!; [by left|done|split; [done|intros (? & ? & ? & ? & ? & ? & _); congruence]].
  destruct (errors_Is e ErrHorizon) eqn:E3; cbn [fst snd].
  2: { exists 0%Z. rewrite Z.add_0_r. split_and!; [by left|done|split; [done|intros (? & ? & ? & ? & ? & ? & ?); congruence]]. }
  exists 1%Z. split_and!; [by right| |split; [by eauto 10|done]].
  destruct (src_Snapshot (fe_snapshot env) p1) as [[[snap|]| | |] p2]; cbn [fst snd]; [| |done..];
    (destruct (sink_LoadSnapshot (fe_load env) _ f1) as [[[]| | |] f2]; cbn [fst snd]; [|done..]); [|done].
  by destruct (src_Subscribe (fe_retry env) _ p2) as [[]].
Qed.

Lemma metered_doFollow_run env evs s q :
  ∃ q', metered_doFollow env evs (s, q) = ((doFollow env evs s).1, ((doFollow env evs s).2, q')) ∧
    replState q' = (match follow_start env s with (Ok _, _) => 1 | _ => 0 end)%Z ∧
    latestSequence q' = (match follow_start env s with (Ok _, s1) => last_seen (fe_apply env) evs s1.2 (latestSequence q) | _ => latestSequence q end) ∧
    snapshotCounter q' = snapshotCounter (metered_start env (s, q)).2.2.
Proof.
  destruct (metered_start_run env s q) as (n & _ & Hs & _). unfold metered_doFollow, doFollow. rewrite Hs. m_unfold. rewrite Hs.
  destruct (follow_start env s) as [[sub|e|msg|] [p1 f1]]; cbn [fst snd];
    [|eexists; (split; [reflexivity|]); done..].
  unfold deferred. unfold on_snd at 1, replState_Set. m_unfold. cbn [fst snd]. rewrite metered_loop_run. cbn [fst snd replState snapshotCounter latestSequence].
  destruct (on_snd (follow_loop (fe_apply env) evs) (p1, f1)) as [r [p2 f2]]. unfold on_src, on_fst. cbn [fst snd].
  destruct (src_Close sub p2) as [rc p3]. destruct r, rc; cbn; (eexists; split; [reflexivity|done]).
Qed.

(** Replication is what it is without the metrics. *)
Lemma metered_Follow_run rounds s q :
  ∃ q', metered_Follow rounds (s, q) = ((Follow rounds s).1, ((Follow rounds s).2, q')).
Proof.
  revert s q. induction rounds as [|[env evs] rounds IH]; intros s q; [by exists q|]. cbn [metered_Follow Follow]. m_unfold.
  destruct (metered_doFollow_run env evs s q) as (q1 & -> & _). destruct (doFollow env evs s) as [[[]| | |] s1]; cbn [fst snd]; [apply IH|by eexists..].
Qed.

End Metered.

(** ** Properties *)

(** C40: what the metrics of replication tell: setting them does not change what
    is replicated; after a round, [async_repl_up] is 1 exactly when the round
    had got its subscription, also when the round has ended (it is not set back
    when replication stops); [async_repl_snapshots_total] counts the subscriptions
    that were refused for the horizon; [async_repl_sequence] is the number of the
    last operation received, as a float, including one that was refused. *)
Theorem replication_metrics {P EP F EF} `{SRC : LogSource P EP} `{SNK : LogSink F EF} rounds env evs (s : P * F) q :
  (∃ q', metered_Follow rounds (s, q) = ((Follow rounds s).1, ((Follow rounds s).2, q'))) ∧
  ∃ q', metered_doFollow env evs (s, q) = ((doFollow env evs s).1, ((doFollow env evs s).2, q')) ∧
    replState q' = (match follow_start env s with (Ok _, _) => 1 | _ => 0 end)%Z ∧
    latestSequence q' = (match follow_start env s with (Ok _, s1) => last_seen (fe_apply env) evs s1.2 (latestSequence q) | _ => latestSequence q end) ∧
    (snapshotCounter q' = snapshotCounter q ∨ snapshotCounter q' = snapshotCounter q + 1)%Z ∧
    (snapshotCounter q' = snapshotCounter q + 1 ↔ ∃ start f e p', sink_LatestSequence (fe_latest env) s.2 = (Ok start, f) ∧
      src_Subscribe (fe_subscribe env) (uint64_wrap (start + 1)) s.1 = (Err e, p') ∧ errors_Is e ErrHorizon = true)%Z.
Proof.
  split; [apply metered_Follow_run|]. destruct (metered_doFollow_run env evs s q) as (q' & Hrun & Hst & Hseq & Hcount).
  exists q'. destruct (metered_start_run env s q) as (n & Hn & Hstart & Hiff). rewrite Hstart in Hcount. cbn in Hcount.
  split_and!; [done..|lia|]. rewrite <- Hiff. lia.
Qed.
