(* ===== verification/Sessions.v ===== *)
(** * Sessions

    [datastore/sessions]: completed sessions of peers, detected from the
    gateways' statistics ([sessions.go]), their tables ([sql.go]) and the
    manager that ties both together ([manager.go]); the geographic databases of
    [ipinfo.go] are a parameter.  Then the properties of the three. *)

From Stdlib Require Import Ascii.
From S2P Require Import Prelude GoStrings Sql SqlText Sqlite Net Model Crud CrudSpec CrudLog Follow Gateway.
Local Open Scope string_scope.

(** ** Sessions and their tables *)
Record Session : Type := mkSession {
  se_PeerPublicKey : string;
  se_SrcASNum : string;
  se_SrcASOrg : string;
  se_SrcCountry : string;
  se_Begin : time;
  se_End : time;
  se_Active : bool }.

Definition Session_args (s : Session) : row :=
  list_to_map [("peer_public_key", SText (se_PeerPublicKey s)); ("src_as_num", SText (se_SrcASNum s));
               ("src_as_org", SText (se_SrcASOrg s)); ("src_country", SText (se_SrcCountry s));
               ("begin_timestamp", STime (se_Begin s)); ("end_timestamp", STime (se_End s));
               ("active", SInt (if se_Active s then 1 else 0))].

Definition session_fields : gset string :=
  {["peer_public_key"; "src_as_num"; "src_as_org"; "src_country"; "begin_timestamp"; "end_timestamp"; "active"]}.

(** [StructScan]: a column without a field is an error; a field without a
    column keeps its zero value. *)
Definition scan_opt {A} (r : row) (c : string) (zero : A) (scan : sqlval → res A) : res A :=
  match r !! c with Some v => scan v | None => Ok zero end.

Definition scan_bool (v : sqlval) : res bool :=
  match v with SInt z => if bool_decide (z = 0 ∨ z = 1)%Z then Ok (bool_decide (z = 1)%Z) else Err (ESql SqlScan)
  | _ => Err (ESql SqlScan) end.

Definition scan_Session (r : row) : res Session :=
  if bool_decide (dom r ⊆ session_fields) then
    pk ← scan_opt r "peer_public_key" "" scan_string;
    num ← scan_opt r "src_as_num" "" scan_string;
    org ← scan_opt r "src_as_org" "" scan_string;
    country ← scan_opt r "src_country" "" scan_string;
    b ← scan_opt r "begin_timestamp" 0%Z scan_time;
    e ← scan_opt r "end_timestamp" 0%Z scan_time;
    a ← scan_opt r "active" false scan_bool;
    mret (mkSession pk num org country b e a)
  else Err (ESql SqlScan).

Definition session_cols : list string :=
  ["peer_public_key"; "begin_timestamp"; "end_timestamp"; "src_as_num"; "src_as_org"; "src_country"].

(** [INSERT INTO t (cols) VALUES (:cols)] *)
Definition insert_named (t : string) (cols : list string) : stmt := SInsert t cols (BNamed <$> cols).

Definition DumpActiveSessions (sessions : list Session) : M db unit :=
  _ ← NamedExec (SDelete "active_sessions" []) ∅;
  if bool_decide (0 < length sessions)%nat
  then each (λ s, NamedExec (insert_named "active_sessions" (app session_cols ["active"])) (Session_args s)) sessions
  else mret tt.

(** The rows up to the first that cannot be scanned; [None] is a nil map. *)
Fixpoint load_sessions (rows : list row) (out : gmap string Session) : gmap string Session :=
  match rows with
  | [] => out
  | r :: rows =>
      match scan_Session r with
      | Ok s => load_sessions rows (<[se_PeerPublicKey s := s]> out)
      | _ => out
      end
  end.

Definition GetActiveSessions (d : db) : option (gmap string Session) :=
  match select_where "active_sessions" [] d with
  | (Ok rows, _) => Some (load_sessions rows ∅)
  | _ => None
  end.

Fixpoint load_handshakes (rows : list row) (out : gmap string time) : gmap string time :=
  match rows with
  | [] => out
  | r :: rows =>
      match scan_string (row_get r "peer_public_key"), scan_time (row_get r "last_handshake") with
      | Ok pk, Ok ht => load_handshakes rows (<[pk := ht]> out)
      | _, _ => out
      end
  end.

Definition GetLastHandshakeTimes (d : db) : option (gmap string time) :=
  match select_where "active_sessions" [] d with
  | (Ok rows, _) => Some (load_handshakes rows ∅)
  | _ => None
  end.

Definition WriteCompletedSession (s : Session) : M db unit :=
  NamedExec (insert_named "sessions" session_cols) (Session_args s).

(** The loop scans every row of the result and keeps none. *)
Definition find_rows (pk : string) (limit : nat) (rows : list row) : list row :=
  take limit (reverse (sort_by (λ r, match row_get r "begin_timestamp" with STime t => t | _ => 0%Z end)
    (filter (λ r, row_get r "peer_public_key" = SText pk) rows))).

Fixpoint scan_found (rows : list row) (out : list Session) : list Session :=
  match rows with
  | [] => out
  | r :: rows => match scan_Session r with Ok _ => scan_found rows out | _ => scan_found rows out end
  end.

Definition FindSessionsByPublicKey (pk : string) (limit : nat) (d : db) : list Session :=
  match tables d !! "sessions" with
  | Some tb => scan_found (find_rows pk limit (t_rows tb)) []
  | None => []
  end.

(** ** Geographic data *)
Record geo_record : Type := mkGeo { geo_country : string; geo_as_num : string; geo_as_org : string }.

(** [net.ParseIP]: the first dot or colon decides. *)
Fixpoint ip_kind (s : string) : option bool :=
  match s with
  | EmptyString => None
  | String "." _ => Some true
  | String ":" _ => Some false
  | String _ s => ip_kind s
  end.

Definition ParseIP (s : string) : option IP :=
  match ip_kind s with Some true => parseIPv4 s | Some false => parseIPv6 s | None => None end.

Definition nonempty_or (new old : string) : string := if bool_decide (new ≠ "") then new else old.

(** An open database: the lookup of an address in it. *)
Abbreviation geo_reader := (IP → res geo_record) (only parsing).

Definition defaultGeoIPPaths : list string :=
  ["/var/lib/GeoIP/GeoLite2-Country.mmdb"; "/var/lib/GeoIP/GeoLite2-ASN.mmdb"].

(** [fs] gives what opening a path results in, [None] for a file that does not
    exist: those are skipped, and any other failure is an error. *)
Fixpoint open_dbs (fs : string → option (res geo_reader)) (paths : list string) : res (list geo_reader) :=
  match paths with
  | [] => Ok []
  | path :: paths =>
      match fs path with
      | None => open_dbs fs paths
      | Some r => geo ← r; rest ← open_dbs fs paths; mret (geo :: rest)
      end
  end.

Definition newIPRefiner (fs : string → option (res geo_reader)) (paths : list string) : res (list geo_reader) :=
  open_dbs fs (match paths with [] => defaultGeoIPPaths | _ => paths end).

(** [dbs] are the open databases; a lookup that fails is skipped. *)
Definition addIPInfo (dbs : list (IP → res geo_record)) (s : Session) (ipStr : string) : Session :=
  match ParseIP ipStr with
  | None => s
  | Some ip =>
      foldl (λ s look,
        match look ip with
        | Ok g => mkSession (se_PeerPublicKey s) (nonempty_or (geo_as_num g) (se_SrcASNum s))
                    (nonempty_or (geo_as_org g) (se_SrcASOrg s)) (nonempty_or (geo_country g) (se_SrcCountry s))
                    (se_Begin s) (se_End s) (se_Active s)
        | _ => s
        end) s dbs
  end.

(** ** SessionFinder *)

(** The maps are nil when loading them failed. *)
Record finder : Type := mkFinder {
  sf_active : option (gmap string Session);
  sf_last : option (gmap string time) }.

(** Nanoseconds. *)
Definition sessionInactivityTimeout : Z := 600 * 10 ^ 9.

Definition load_finder : M (db * finder) unit :=
  modify (λ s, (s.1, mkFinder (GetActiveSessions s.1) (GetLastHandshakeTimes s.1))).

Definition loaded_finder (env : tx_env) (d : db) : finder :=
  (WithTx env (_ ← load_finder; fail (A := unit) ErrRollback) (d, mkFinder None None)).2.2.

(** The refiner's databases and the finder's state. *)
Definition NewSessionFinder (fs : string → option (res geo_reader)) (env : tx_env) (d : db)
  : res (list geo_reader * finder) :=
  refiner ← newIPRefiner fs [];
  mret (refiner, loaded_finder env d).

(** The manager has the database beside the finder. *)
Definition NewSessionManager (fs : string → option (res geo_reader)) (env : tx_env) (d : db)
  : res (list geo_reader * finder) :=
  sf ← NewSessionFinder fs env d;
  mret sf.

(** The session a public key is in; reading a nil map finds nothing. *)
Definition ActiveSessionByPublicKey (pkey : string) (f : finder) : option Session :=
  m ← sf_active f; m !! pkey.

(** [ActiveSessions]: [ord] lists the active sessions in the order of one
    iteration. *)
Definition ActiveSessions (f : finder) (ord : list Session) : Prop :=
  ord ≡ₚ (map_to_list (default ∅ (sf_active f))).*2.

(** One tick of the dumper; an error is logged. *)
Definition dumper_tick (env : tx_env) (ord : list Session) : M db unit :=
  _ ← try (WithTx env (DumpActiveSessions ord)); mret tt.

Definition nil_map {S A} : M S A := panic "assignment to entry in nil map".

Definition setHandshakeTime (pkey : string) (ht : time) : M finder time :=
  f ← getS;
  match sf_last f ≫= (λ m, m !! pkey) with
  | Some last => if bool_decide (ht < last)%Z then mret last else
      match sf_last f with
      | Some m => _ ← put (mkFinder (sf_active f) (Some (<[pkey := ht]> m))); mret ht
      | None => nil_map
      end
  | None =>
      match sf_last f with
      | Some m => _ ← put (mkFinder (sf_active f) (Some (<[pkey := ht]> m))); mret ht
      | None => nil_map
      end
  end.

Section Finder.
Context (dbs : list (IP → res geo_record)).

Definition Analyze (now : time) (s : PeerStats) : M finder (option Session) :=
  ht ← setHandshakeTime (ps_PublicKey s) (ps_LastHandshakeTime s);
  let active := bool_decide (now - sessionInactivityTimeout < ht)%Z in
  f ← getS;
  match ActiveSessionByPublicKey (ps_PublicKey s) f, active with
  | None, true =>
      match sf_active f with
      | Some m =>
          _ ← put (mkFinder (Some (<[ps_PublicKey s := mkSession (ps_PublicKey s) "" "" "" ht 0 true]> m)) (sf_last f));
          mret None
      | None => nil_map
      end
  | Some cur, false =>
      _ ← put (mkFinder (delete (ps_PublicKey s) <$> sf_active f) (sf_last f));
      mret (Some (addIPInfo dbs
        (mkSession (se_PeerPublicKey cur) (se_SrcASNum cur) (se_SrcASOrg cur) (se_SrcCountry cur) (se_Begin cur) ht false)
        (ps_Endpoint s)))
  | _, _ => mret None
  end.

(** ** SessionManager: the finder beside the database *)
Definition write_completed (now : time) (s : PeerStats) : M (db * finder) unit :=
  r ← on_snd (Analyze now s);
  match r with
  | Some sess => on_db (WriteCompletedSession sess)
  | None => mret tt
  end.

Definition ReceivePeerStats (env : tx_env) (now : time) (dump : list PeerStats) : M (db * finder) unit :=
  WithTx env (each (write_completed now) dump).

Definition manager_FindSessions (env : tx_env) (pkey : string) (s : db * finder) : list Session :=
  app (option_list (ActiveSessionByPublicKey pkey s.2))
    (match begin_err env with None => FindSessionsByPublicKey pkey 100 s.1 | Some _ => [] end).

(** A sequence of reports. *)
Fixpoint analyze_all (reports : list (time * PeerStats)) : M finder (list Session) :=
  match reports with
  | [] => mret []
  | (now, s) :: reports =>
      r ← Analyze now s;
      rest ← analyze_all reports;
      mret (app (option_list r) rest)
  end.
End Finder.

(** ** Lemmas: the finder *)
Definition last_of (f : finder) (pk : string) : option time := m ← sf_last f; m !! pk.

(** Maps that were loaded; sessions under their own key, begun no later than
    the last handshake. *)
Definition finder_ok (f : finder) : Prop :=
  is_Some (sf_active f) ∧ is_Some (sf_last f) ∧
  ∀ pk cur, ActiveSessionByPublicKey pk f = Some cur →
    se_PeerPublicKey cur = pk ∧ se_Active cur = true ∧ ∃ ht, last_of f pk = Some ht ∧ (se_Begin cur ≤ ht)%Z.

Lemma setHandshakeTime_run f pk ht :
  is_Some (sf_last f) →
  ∃ h f', setHandshakeTime pk ht f = (Ok h, f') ∧ sf_active f' = sf_active f ∧ is_Some (sf_last f') ∧
    h = Z.max ht (default ht (last_of f pk)) ∧
    ∀ pk', last_of f' pk' = if decide (pk' = pk) then Some h else last_of f pk'.
Proof.
  intros [m Hm]. unfold setHandshakeTime, last_of. m_unfold. rewrite Hm. cbn [mbind option_bind].
  destruct (m !! pk) as [last|] eqn:E.
  - case_bool_decide as Hlt.
    + exists last, f. split_and!; [done|done|by eexists|cbn; lia|].
      intros pk'. rewrite Hm. cbn. by case_decide; subst.
    + eexists _, _. split; [done|]. cbn. split_and!; [done|by eexists|lia|].
      intros pk'. rewrite lookup_insert. by repeat case_decide; subst.
  - eexists _, _. split; [done|]. cbn. split_and!; [done|by eexists|lia|].
    intros pk'. rewrite lookup_insert. by repeat case_decide; subst.
Qed.

(** What one report does, from maps that were loaded. *)
Definition completed (dbs : list (IP → res geo_record)) (cur : Session) (ht : time) (endpoint : string) : Session :=
  addIPInfo dbs (mkSession (se_PeerPublicKey cur) (se_SrcASNum cur) (se_SrcASOrg cur) (se_SrcCountry cur) (se_Begin cur) ht false)
    endpoint.

Lemma addIPInfo_fields dbs s ip :
  let s' := addIPInfo dbs s ip in
  se_PeerPublicKey s' = se_PeerPublicKey s ∧ se_Begin s' = se_Begin s ∧ se_End s' = se_End s ∧ se_Active s' = se_Active s.
Proof.
  cbn zeta. unfold addIPInfo. destruct (ParseIP ip) as [a|]; [|done].
  revert s. induction dbs as [|look dbs IH]; intros s; [done|]. cbn [foldl].
  destruct (look a) as [g| | |]; [|apply IH..]. destruct (IH (mkSession (se_PeerPublicKey s)
    (nonempty_or (geo_as_num g) (se_SrcASNum s)) (nonempty_or (geo_as_org g) (se_SrcASOrg s))
    (nonempty_or (geo_country g) (se_SrcCountry s)) (se_Begin s) (se_End s) (se_Active s))) as (H1 & H2 & H3 & H4). done.
Qed.

Lemma Analyze_run dbs now s f :
  finder_ok f →
  ∃ ht r f', Analyze dbs now s f = (Ok r, f') ∧ finder_ok f' ∧
    (∀ old, last_of f (ps_PublicKey s) = Some old → (old ≤ ht)%Z) ∧
    (∀ pk, last_of f' pk = if decide (pk = ps_PublicKey s) then Some ht else last_of f pk) ∧
    (∀ pk, pk ≠ ps_PublicKey s → ActiveSessionByPublicKey pk f' = ActiveSessionByPublicKey pk f) ∧
    match ActiveSessionByPublicKey (ps_PublicKey s) f, decide (now - sessionInactivityTimeout < ht)%Z with
    | None, left _ => r = None ∧
        ActiveSessionByPublicKey (ps_PublicKey s) f' = Some (mkSession (ps_PublicKey s) "" "" "" ht 0 true)
    | Some cur, right _ => r = Some (completed dbs cur ht (ps_Endpoint s)) ∧
        ActiveSessionByPublicKey (ps_PublicKey s) f' = None
    | cur, _ => r = None ∧ ActiveSessionByPublicKey (ps_PublicKey s) f' = cur
    end.
Proof.
  intros (Ha & Hl & Hok). unfold Analyze.
  destruct (setHandshakeTime_run f (ps_PublicKey s) (ps_LastHandshakeTime s) Hl) as (ht & f1 & Hrun & Hact & Hl1 & Hht & Hlast).
  rewrite (bind_Ok _ _ _ _ _ Hrun). cbn zeta.
  rewrite (bind_Ok getS _ f1 f1 f1) by done.
  assert (Hcur : ∀ pk, ActiveSessionByPublicKey pk f1 = ActiveSessionByPublicKey pk f)
    by (intros; unfold ActiveSessionByPublicKey; by rewrite Hact).
  assert (Hge : ∀ old, last_of f (ps_PublicKey s) = Some old → (old ≤ ht)%Z) by (intros old Ho; rewrite Hht, Ho; cbn; lia).
  assert (Hok1 : ∀ pk cur, ActiveSessionByPublicKey pk f = Some cur →
    se_PeerPublicKey cur = pk ∧ se_Active cur = true ∧ ∃ h, last_of f1 pk = Some h ∧ (se_Begin cur ≤ h)%Z).
  { intros pk cur Hc. destruct (Hok pk cur Hc) as (H1 & H2 & h & H3 & H4). split_and!; [done..|].
    rewrite Hlast. case_decide as Heq; [|by eauto]. rewrite Heq in H3. exists ht. split; [done|]. specialize (Hge _ H3). lia. }
  rewrite Hcur. destruct Ha as [m Hm]. rewrite Hm in Hact.
  assert (Hm' : ∀ pk, ActiveSessionByPublicKey pk f = m !! pk) by (intros; unfold ActiveSessionByPublicKey; by rewrite Hm).
  exists ht. destruct (ActiveSessionByPublicKey (ps_PublicKey s) f) as [cur|] eqn:Hc; destruct (decide (now - sessionInactivityTimeout < ht)%Z) as [Hlt|Hge'].
  - rewrite bool_decide_eq_true_2 by done. exists None, f1. split_and!; [done| |done|done|by intros; rewrite Hcur|done|by rewrite Hcur].
    split_and!; [by eexists|done|]. intros pk c. rewrite Hcur. apply Hok1.
  - rewrite bool_decide_eq_false_2 by done. eexists _, _. split_and!; [reflexivity| |done|done| |done|].
    + split_and!; [cbn; by rewrite Hact; eexists|done|]. intros pk c Hpk. unfold ActiveSessionByPublicKey in Hpk. cbn in Hpk.
      rewrite Hact in Hpk. cbn in Hpk. apply lookup_delete_Some in Hpk as [_ Hpk]. apply Hok1. by rewrite Hm'.
    + intros pk Hne. unfold ActiveSessionByPublicKey at 1. cbn. rewrite Hact. cbn. by rewrite lookup_delete_ne, Hm'.
    + unfold ActiveSessionByPublicKey. cbn. rewrite Hact. cbn. by rewrite lookup_delete_eq.
  - rewrite bool_decide_eq_true_2 by done. rewrite Hact. eexists _, _. split_and!; [reflexivity| |done|done| |done|].
    + split_and!; [by eexists|done|]. intros pk c Hpk. unfold ActiveSessionByPublicKey in Hpk. cbn in Hpk.
      apply lookup_insert_Some in Hpk as [[<- <-]|[Hne Hpk]]; [|apply Hok1; by rewrite Hm'].
      split_and!; [done..|]. exists ht. split; [|cbn; lia]. change (last_of f1 (ps_PublicKey s) = Some ht). rewrite Hlast. by rewrite decide_True.
    + intros pk Hne. unfold ActiveSessionByPublicKey at 1. cbn. by rewrite lookup_insert_ne, Hm'.
    + unfold ActiveSessionByPublicKey. cbn. by rewrite lookup_insert_eq.
  - rewrite bool_decide_eq_false_2 by done. exists None, f1. split_and!; [done| |done|done|by intros; rewrite Hcur|done|by rewrite Hcur].
    split_and!; [by eexists|done|]. intros pk c. rewrite Hcur. apply Hok1.
Qed.

(** *** Histories of sessions *)
Definition in_order (l : list Session) : Prop :=
  ∀ i j s s', l !! i = Some s → l !! j = Some s' → (i < j)%nat → se_PeerPublicKey s = se_PeerPublicKey s' →
    (se_End s < se_Begin s')%Z.

Definition well_formed (s : Session) : Prop := (se_Begin s ≤ se_End s)%Z ∧ se_Active s = false.

(** Completed sessions lie before the peer's current one, or before the last
    report by the timeout. *)
Record finder_inv (t : time) (f : finder) (past : list Session) : Prop := {
  fi_ok : finder_ok f;
  fi_past : Forall well_formed past;
  fi_before s : s ∈ past →
    match ActiveSessionByPublicKey (se_PeerPublicKey s) f with
    | Some cur => (se_End s < se_Begin cur)%Z
    | None => (se_End s ≤ t - sessionInactivityTimeout)%Z
    end;
  fi_order : in_order past
}.

Lemma in_order_snoc l s :
  in_order l → (∀ x, x ∈ l → se_PeerPublicKey x = se_PeerPublicKey s → (se_End x < se_Begin s)%Z) → in_order (app l [s]).
Proof.
  intros Hl Hs i j a b Ha Hb Hij Hpk. apply lookup_app_Some in Hb as [Hb|[Hj Hb]].
  - apply lookup_app_Some in Ha as [Ha|[Hi Ha]]; [by eapply Hl|]. apply lookup_lt_Some in Hb. lia.
  - apply list_lookup_singleton_Some in Hb as [Hj0 <-].
    apply lookup_app_Some in Ha as [Ha|[Hi Ha]]; [apply Hs; [by eapply list_elem_of_lookup_2|done]|].
    apply list_lookup_singleton_Some in Ha as [Hi0 _]. lia.
Qed.

Lemma Analyze_inv dbs t now s f past :
  finder_inv t f past → (t ≤ now)%Z →
  ∃ r f', Analyze dbs now s f = (Ok r, f') ∧ finder_inv now f' (app past (option_list r)).
Proof.
  intros [Hok Hpast Hbef Hord] Hnow.
  destruct (Analyze_run dbs now s f Hok) as (ht & r & f' & Hrun & Hok' & Hge & Hlast & Hother & Hres).
  exists r, f'. split; [done|].
  assert (Hmono : ∀ x, x ∈ past → ActiveSessionByPublicKey (se_PeerPublicKey x) f = None →
                 (se_End x ≤ now - sessionInactivityTimeout)%Z).
  { intros x Hx Hn. specialize (Hbef x Hx). rewrite Hn in Hbef. lia. }
  assert (Hsame : ∀ x, x ∈ past → se_PeerPublicKey x ≠ ps_PublicKey s ∨
      ActiveSessionByPublicKey (ps_PublicKey s) f' = ActiveSessionByPublicKey (ps_PublicKey s) f →
    match ActiveSessionByPublicKey (se_PeerPublicKey x) f' with
    | Some cur => (se_End x < se_Begin cur)%Z
    | None => (se_End x ≤ now - sessionInactivityTimeout)%Z
    end).
  { intros x Hx Hc. assert (Heq : ActiveSessionByPublicKey (se_PeerPublicKey x) f' = ActiveSessionByPublicKey (se_PeerPublicKey x) f).
    { destruct (decide (se_PeerPublicKey x = ps_PublicKey s)) as [Heq|Hne]; [|by apply Hother].
      rewrite Heq. by destruct Hc. }
    rewrite Heq. specialize (Hbef x Hx). specialize (Hmono x Hx).
    destruct (ActiveSessionByPublicKey (se_PeerPublicKey x) f); [done|by apply Hmono]. }
  destruct (ActiveSessionByPublicKey (ps_PublicKey s) f) as [cur|] eqn:Hc;
    destruct (decide (now - sessionInactivityTimeout < ht)%Z) as [Hlt|Hnlt]; destruct Hres as [-> Hf']; cbn [option_list];
    rewrite ?app_nil_r.
  - split; [done..| |done]. intros x Hx. apply Hsame; [done|]. right. congruence.
  - destruct Hok as (_ & _ & Hok). destruct (Hok _ _ Hc) as (Hpk & _ & h & Hh & Hbeg). specialize (Hge h Hh).
    destruct (addIPInfo_fields dbs (mkSession (se_PeerPublicKey cur) (se_SrcASNum cur) (se_SrcASOrg cur)
      (se_SrcCountry cur) (se_Begin cur) ht false) (ps_Endpoint s)) as (F1 & F2 & F3 & F4). cbn in F1, F2, F3, F4.
    fold (completed dbs cur ht (ps_Endpoint s)) in F1, F2, F3, F4. split; [done|..].
    + apply Forall_app_2; [done|]. apply Forall_singleton. split; [lia|done].
    + intros x Hx. apply elem_of_app in Hx as [Hx|Hx].
      * destruct (decide (se_PeerPublicKey x = ps_PublicKey s)) as [Heq|Hne]; [|by apply Hsame; auto].
        rewrite Heq, Hf'. specialize (Hbef x Hx). rewrite Heq, Hc in Hbef. lia.
      * apply list_elem_of_singleton in Hx as ->. rewrite F1, Hpk, Hf'. lia.
    + apply in_order_snoc; [done|]. intros x Hx Hxpk. rewrite F2. specialize (Hbef x Hx).
      rewrite Hxpk, F1, Hpk, Hc in Hbef. done.
  - split; [done..| |done]. intros x Hx.
    destruct (decide (se_PeerPublicKey x = ps_PublicKey s)) as [Heq|Hne]; [|by apply Hsame; auto].
    rewrite Heq, Hf'. cbn. rewrite <- Heq in Hc. specialize (Hmono x Hx Hc). lia.
  - split; [done..| |done]. intros x Hx. apply Hsame; [done|]. right. congruence.
Qed.

(** Reports in the order of their times. *)
Fixpoint chronological (t : time) (reports : list (time * PeerStats)) : Prop :=
  match reports with
  | [] => True
  | (now, _) :: reports => (t ≤ now)%Z ∧ chronological now reports
  end.

Lemma analyze_all_inv dbs reports t f past :
  finder_inv t f past → chronological t reports →
  ∃ out t' f', analyze_all dbs reports f = (Ok out, f') ∧ finder_inv t' f' (app past out).
Proof.
  revert t f past. induction reports as [|[now s] reports IH]; intros t f past Hinv Hchr.
  - exists [], t, f. rewrite app_nil_r. done.
  - destruct Hchr as [Hle Hchr]. destruct (Analyze_inv dbs t now s f past Hinv Hle) as (r & f1 & Hrun & Hinv1).
    destruct (IH now f1 _ Hinv1 Hchr) as (out & t' & f2 & Hrun2 & Hinv2).
    exists (app (option_list r) out), t', f2. cbn [analyze_all]. rewrite (bind_Ok _ _ _ _ _ Hrun), (bind_Ok _ _ _ _ _ Hrun2).
    split; [done|]. by rewrite app_assoc.
Qed.

Definition fresh_finder : finder := mkFinder (Some ∅) (Some ∅).

Lemma fresh_finder_inv t : finder_inv t fresh_finder [].
Proof.
  split; [|constructor|intros s Hs; by apply elem_of_nil in Hs|by intros ??????].
  split_and!; [by eexists..|]. intros pk cur Hc. unfold ActiveSessionByPublicKey in Hc. cbn in Hc. by apply lookup_empty_Some in Hc.
Qed.

(** ** Lemmas: the tables *)
Lemma active_sessions_table_of d :
  store_ok d → ∃ tb, tables d !! "active_sessions" = Some tb ∧ t_schema tb = active_sessions_schema.
Proof. intros Hok. destruct (table_of d "active_sessions" active_sessions_schema Hok eq_refl) as (tb & ? & ? & _). eauto. Qed.

Lemma sessions_table_of d :
  store_ok d → ∃ tb, tables d !! "sessions" = Some tb ∧ t_schema tb = sessions_schema.
Proof. intros Hok. destruct (table_of d "sessions" sessions_schema Hok eq_refl) as (tb & ? & ? & _). eauto. Qed.

(** The row that records a completed session. *)
Definition session_row (s : Session) : row := full_row sessions_schema ((λ c, (c, row_get (Session_args s) c)) <$> session_cols).

Lemma WriteCompletedSession_run s d :
  store_ok d →
  ∃ d', WriteCompletedSession s d = (Ok tt, d') ∧ store_ok d' ∧ d' = set_rows "sessions" (app (rows_of d "sessions") [session_row s]) d.
Proof.
  intros Hok. destruct (sessions_table_of d Hok) as (tb & Ht & Hs).
  assert (Hrun : WriteCompletedSession s d = insert_into "sessions" ((λ c, (c, row_get (Session_args s) c)) <$> session_cols) d)
    by reflexivity.
  assert (Hins : insert_into "sessions" ((λ c, (c, row_get (Session_args s) c)) <$> session_cols) d =
    (Ok tt, set_rows "sessions" (app (t_rows tb) [session_row s]) d)).
  { unfold insert_into, get_table, guard_sql. m_unfold. rewrite Ht, Hs. cbn zeta.
    change (cols_known sessions_schema _) with true. cbn iota. change (notnull_ok sessions_schema _) with true. cbn iota.
    change (pk_fresh sessions_schema _ _) with true. reflexivity. }
  exists (set_rows "sessions" (app (t_rows tb) [session_row s]) d). unfold rows_of. rewrite Ht. split_and!; [by rewrite Hrun| |done].
  destruct Hok as [Hok Hsc]. split; [by eapply insert_into_db_ok|]. by erewrite insert_into_schemas.
Qed.

Lemma set_rows_same d t tb : tables d !! t = Some tb → set_rows t (t_rows tb) d = d.
Proof.
  intros Ht. unfold set_rows. destruct d as [ts v]; cbn in *. f_equal. apply alter_id.
  intros x Hx. rewrite Ht in Hx. injection Hx as <-. by destruct tb.
Qed.

Lemma set_rows_twice t a b d : set_rows t a (set_rows t b d) = set_rows t a d.
Proof.
  unfold set_rows; cbn. f_equal. apply map_eq. intros i. destruct (decide (t = i)) as [<-|Hne].
  - rewrite !lookup_alter_eq. by destruct (tables d !! t).
  - by rewrite !lookup_alter_ne.
Qed.

(** *** Recording what a report completed *)
Lemma write_all_run dbs now dump t d f past :
  store_ok d → finder_inv t f past → (t ≤ now)%Z →
  ∃ out f', analyze_all dbs ((λ s, (now, s)) <$> dump) f = (Ok out, f') ∧
    each (write_completed dbs now) dump (d, f) =
      (Ok tt, (set_rows "sessions" (app (rows_of d "sessions") (session_row <$> out)) d, f')).
Proof.
  revert t d f past. induction dump as [|s dump IH]; intros t d f past Hok Hinv Hle.
  - exists [], f. split; [done|]. cbn. rewrite app_nil_r. unfold rows_of.
    destruct (sessions_table_of d Hok) as (tb & Ht & _). rewrite Ht. m_unfold. by rewrite (set_rows_same _ _ _ Ht).
  - destruct (Analyze_inv dbs t now s f past Hinv Hle) as (r & f1 & Hrun & Hinv1).
    assert (Hstep : ∃ d1, write_completed dbs now s (d, f) = (Ok tt, (d1, f1)) ∧ store_ok d1 ∧
      d1 = set_rows "sessions" (app (rows_of d "sessions") (session_row <$> option_list r)) d).
    { unfold write_completed. rewrite (bind_Ok _ _ _ r (d, f1)) by (unfold on_snd; cbn [fst snd]; by rewrite Hrun).
      destruct r as [sess|].
      - destruct (WriteCompletedSession_run sess d Hok) as (d1 & Hw & Hok1 & ->). eexists. split_and!; [|exact Hok1|done].
        unfold on_db. change (the_db (d, f1)) with d. by rewrite Hw.
      - exists d. split_and!; [done|done|]. cbn. rewrite app_nil_r. unfold rows_of.
        destruct (sessions_table_of d Hok) as (tb & Ht & _). rewrite Ht. by rewrite (set_rows_same _ _ _ Ht). }
    destruct Hstep as (d1 & Hw & Hok1 & Hd1).
    destruct (IH now d1 f1 _ Hok1 Hinv1 ltac:(lia)) as (out & f2 & Han & Hall).
    exists (app (option_list r) out), f2. split.
    + cbn. rewrite (bind_Ok _ _ _ _ _ Hrun), (bind_Ok _ _ _ _ _ Han). done.
    + cbn [each]. rewrite (bind_Ok _ _ _ _ _ Hw), Hall. do 2 f_equal. subst d1.
      destruct (sessions_table_of d Hok) as (tb & Ht & Hs). rewrite (rows_of_set_rows _ _ _ _ _ Ht), decide_True by done.
      rewrite set_rows_twice, fmap_app. by rewrite app_assoc.
Qed.

(** *** What is left of a dump *)
Definition active_row (s : Session) : row :=
  full_row active_sessions_schema ((λ c, (c, row_get (Session_args s) c)) <$> app session_cols ["active"]).

Lemma insert_active_run s d tb :
  tables d !! "active_sessions" = Some tb → t_schema tb = active_sessions_schema →
  NamedExec (insert_named "active_sessions" (app session_cols ["active"])) (Session_args s) d =
    (Ok tt, set_rows "active_sessions" (app (t_rows tb) [active_row s]) d).
Proof.
  intros Ht Hs. change (NamedExec _ _ d) with
    (insert_into "active_sessions" ((λ c, (c, row_get (Session_args s) c)) <$> app session_cols ["active"]) d).
  unfold insert_into, get_table, guard_sql. m_unfold. rewrite Ht, Hs. cbn zeta.
  change (cols_known active_sessions_schema _) with true. cbn iota. change (notnull_ok active_sessions_schema _) with true. cbn iota.
  change (pk_fresh active_sessions_schema _ _) with true. reflexivity.
Qed.

Lemma insert_active_all l d tb :
  tables d !! "active_sessions" = Some tb → t_schema tb = active_sessions_schema →
  ∃ d', each (λ s, NamedExec (insert_named "active_sessions" (app session_cols ["active"])) (Session_args s)) l d = (Ok tt, d') ∧
    ∃ tb', tables d' !! "active_sessions" = Some tb' ∧ t_rows tb' = app (t_rows tb) (active_row <$> l).
Proof.
  revert d tb. induction l as [|s l IH]; intros d tb Ht Hs.
  - exists d. split; [done|]. exists tb. cbn. by rewrite app_nil_r.
  - cbn [each]. rewrite (bind_Ok _ _ _ _ _ (insert_active_run s d tb Ht Hs)).
    destruct (IH (set_rows "active_sessions" (app (t_rows tb) [active_row s]) d)
      (Table (t_schema tb) (app (t_rows tb) [active_row s]))) as (d' & Hd' & tb' & Ht' & Hr'); [|done|].
    + rewrite (lookup_set_rows _ _ _ _ _ Ht). by rewrite decide_True.
    + exists d'. split; [done|]. exists tb'. split; [done|]. rewrite Hr'. cbn. by rewrite <- app_assoc.
Qed.

Lemma active_row_lost s : scan_Session (active_row s) = Err (ESql SqlScan) ∧ row_get (active_row s) "last_handshake" = SNull.
Proof.
  split; [|reflexivity]. unfold scan_Session, active_row. rewrite full_row_dom. rewrite bool_decide_eq_false_2; [done|].
  intros Hsub. assert (Hno : bool_decide ("last_handshake" ∈ session_fields) = false) by (vm_compute; reflexivity).
  apply bool_decide_eq_false in Hno. apply Hno, Hsub.
  apply (bool_decide_eq_true_1 ("last_handshake" ∈ list_to_set (C := gset string) (col_names active_sessions_schema))).
  vm_compute. reflexivity.
Qed.

(** ** Properties *)

(** C8: session detection is sound: on reports in chronological order, from
    any gateways and for any peers, it never fails, every completed session
    begins no later than it ends and is no longer active, and the completed
    sessions of one peer are disjoint and come out in order. *)
Theorem sessions_in_order dbs t reports :
  chronological t reports →
  ∃ out f', analyze_all dbs reports fresh_finder = (Ok out, f') ∧ Forall well_formed out ∧ in_order out.
Proof.
  intros Hchr. destruct (analyze_all_inv dbs reports t _ _ (fresh_finder_inv t) Hchr) as (out & t' & f' & Hrun & Hinv).
  exists out, f'. destruct Hinv as [_ Hp _ Ho]. done.
Qed.

Lemma sessions_in_order_witness :
  let up := mkPeerStats "pk" 1000 0 0 "" in
  let reports := [(1000, up); (1000 + 2 * sessionInactivityTimeout, up)]%Z in
  chronological 0 reports ∧
  ∃ out f', analyze_all [] reports fresh_finder = (Ok out, f') ∧ Forall well_formed out ∧ in_order out.
Proof.
  set (up := mkPeerStats "pk" 1000 0 0 ""). cbn zeta.
  assert (Hc : chronological 0 [(1000, up); (1000 + 2 * sessionInactivityTimeout, up)]%Z)
    by (cbn; unfold sessionInactivityTimeout; lia).
  split; [exact Hc|]. exact (sessions_in_order [] 0 _ Hc).
Defined.

(** C18: a report is recorded as a whole: when [ReceivePeerStats] succeeds, the
    sessions table has gained exactly the sessions that the report completed;
    when it fails, the database is as before.  The finder's memory has moved on
    in both cases. *)
Theorem ReceivePeerStats_records dbs env now dump t d f past r d' f' :
  store_ok d → finder_inv t f past → (t ≤ now)%Z → begin_err env = None →
  ReceivePeerStats dbs env now dump (d, f) = (r, (d', f')) →
  ∃ out, analyze_all dbs ((λ s, (now, s)) <$> dump) f = (Ok out, f') ∧
  match r with
  | Ok _ => d' = set_rows "sessions" (app (rows_of d "sessions") (session_row <$> out)) d
  | Err _ => d' = d
  | _ => False
  end.
Proof.
  intros Hok Hinv Hle Hb Hrun. destruct (write_all_run dbs now dump t d f past Hok Hinv Hle) as (out & f1 & Han & Hall).
  unfold ReceivePeerStats, WithTx in Hrun. rewrite Hb, Hall in Hrun. exists out.
  destruct (commit_err env); inv_run; done.
Qed.

Lemma ReceivePeerStats_records_witness :
  let up := mkPeerStats "pk" 1000 0 0 "" in
  let f := mkFinder (Some {["pk" := mkSession "pk" "" "" "" 900 0 true]}) (Some {["pk" := 1000%Z]}) in
  let now := (1000 + 2 * sessionInactivityTimeout)%Z in
  ∃ out, analyze_all [] [(now, up)] f = (Ok out, (ReceivePeerStats [] tx_ok now [up] (initial_db, f)).2.2) ∧
    (ReceivePeerStats [] tx_ok now [up] (initial_db, f)).2.1 = set_rows "sessions" (session_row <$> out) initial_db.
Proof.
  set (up := mkPeerStats "pk" 1000 0 0 ""). set (f := mkFinder _ _). cbn zeta. set (now := (1000 + _)%Z).
  apply (ReceivePeerStats_records [] tx_ok now [up] 0 initial_db f [] (Ok tt)).
  - apply initial_store_ok.
  - split; [|constructor|intros s Hs; by apply elem_of_nil in Hs|by intros ??????].
    split_and!; [by eexists..|]. intros pk cur Hc. unfold ActiveSessionByPublicKey in Hc. cbn in Hc.
    apply lookup_singleton_Some in Hc as [<- <-]. split; [reflexivity|]. split; [reflexivity|].
    exists 1000%Z. split; [vm_compute; reflexivity|cbn; lia].
  - unfold now, sessionInactivityTimeout. lia.
  - reflexivity.
  - vm_compute. reflexivity.
Defined.

(** A restart forgets every active session: whatever was dumped, the finder
    that is built from the database afterwards has neither sessions nor
    handshake times (no row of the dump can be read back: its table has a
    column without a field, and that column is never filled). *)
Theorem restart_forgets_sessions fs dbs l d d' :
  store_ok d → newIPRefiner fs [] = Ok dbs → WithTx tx_ok (DumpActiveSessions l) d = (Ok tt, d') →
  NewSessionFinder fs tx_ok d' = Ok (dbs, fresh_finder).
Proof.
  intros Hok Hfs (_ & _ & Hrun)%WithTx_Ok. unfold NewSessionFinder. rewrite Hfs. cbn. do 2 f_equal. destruct (active_sessions_table_of d Hok) as (tb & Ht & Hs).
  unfold DumpActiveSessions in Hrun. apply bind_Ok_inv in Hrun as ([] & d1 & Hdel & Hrun).
  assert (Hd1 : ∃ tb1, tables d1 !! "active_sessions" = Some tb1 ∧ t_schema tb1 = active_sessions_schema ∧ t_rows tb1 = []).
  { change (NamedExec _ _ d) with (delete_where "active_sessions" [] d) in Hdel.
    apply delete_where_Ok in Hdel as (tb0 & Ht0 & _ & ->). rewrite Ht in Ht0. simplify_eq. cbn [tables].
    rewrite lookup_fmap, (lookup_set_rows _ _ _ _ _ Ht), decide_True by done. cbn. eexists. split; [done|]. cbn. split; [done|].
    rewrite (filter_none (λ _ : row, true = false)) by (by apply Forall_true). done. }
  destruct Hd1 as (tb1 & Ht1 & Hs1 & Hr1).
  assert (Hd' : ∃ tb', tables d' !! "active_sessions" = Some tb' ∧ t_rows tb' = active_row <$> l).
  { destruct (insert_active_all l d1 tb1 Ht1 Hs1) as (d2 & Hall & tb' & Ht' & Hr').
    case_bool_decide as Hlen; [rewrite Hall in Hrun; inv_run; exists tb'; by rewrite Hr', Hr1|].
    m_unfold. inv_run. exists tb1. split; [done|]. destruct l; [done|cbn in Hlen; lia]. }
  destruct Hd' as (tb' & Ht' & Hr'). unfold loaded_finder, WithTx, load_finder. m_unfold. cbn.
  unfold GetActiveSessions, GetLastHandshakeTimes, select_where, get_table, guard_sql. m_unfold. rewrite Ht'. cbn.
  rewrite filter_all, Hr' by (by apply Forall_true). unfold fresh_finder.
  destruct l as [|s l]; [done|]. cbn [fmap list_fmap load_sessions load_handshakes].
  destruct (active_row_lost s) as [-> ->]. cbn. by destruct (scan_string _).
Qed.

Lemma restart_forgets_sessions_witness :
  let s := mkSession "pk" "" "" "" 900 0 true in
  NewSessionFinder (λ _, None) tx_ok (dumper_tick tx_ok [s] initial_db).2 = Ok ([], fresh_finder).
Proof.
  apply (restart_forgets_sessions (λ _, None) [] [mkSession "pk" "" "" "" 900 0 true] initial_db).
  - apply initial_store_ok.
  - reflexivity.
  - vm_compute. reflexivity.
Defined.

(** Completed sessions are never found again: a search returns the active
    session at most. *)
Lemma FindSessions_active_only env pkey s :
  manager_FindSessions env pkey s = option_list (ActiveSessionByPublicKey pkey s.2).
Proof.
  assert (Hnil : ∀ rows, scan_found rows [] = []) by (induction rows as [|r rows IH]; [done|]; cbn; by destruct (scan_Session r)).
  unfold manager_FindSessions, FindSessionsByPublicKey. destruct (begin_err env); [apply app_nil_r|].
  destruct (tables s.1 !! "sessions"); rewrite ?Hnil; apply app_nil_r.
Qed.
