(* ===== verification/Expire.v ===== *)
(** * Expiration of peers

    [datastore/expire/expire.go]: the query for expired peers, their deletion
    through a [crud.Writer], and the periodic task that runs both. *)

From Stdlib Require Import Ascii.
From S2P Require Import Prelude GoStrings Sql SqlText Sqlite Net Model Crud CrudSpec CrudLog CrudLogSpec.
Local Open Scope string_scope.

(** [expire IS NOT NULL AND expire < ?] *)
Definition is_expired (now : time) (r : row) : bool :=
  match row_get r "expire" with STime t => bool_decide (t < now)%Z | _ => false end.

(** The loop over the result: every key is scanned, and a key that cannot be
    scanned ends the search with a nil list. *)
Fixpoint scan_expired (rows : list row) (out : list string) : list string :=
  match rows with
  | [] => out
  | r :: rows => match scan_string (row_get r "public_key") with Ok _ => scan_expired rows out | _ => [] end
  end.

Definition findExpiredPeers (now : time) (d : db) : list string :=
  match tables d !! "peers" with
  | None => []
  | Some tb => scan_expired (filter (λ r, is_expired now r = true) (t_rows tb)) []
  end.

Section Expire.
Context {S : Type} `{HasDb S}.

(** One deletion per key; the last error is the result. *)
Fixpoint expire_loop (w : Writer S) (publicKeys : list string) (lastErr : option err) : M S unit :=
  match publicKeys with
  | [] => match lastErr with None => mret tt | Some e => fail e end
  | pkey :: publicKeys =>
      r ← try (w_Delete w (OPeer (mkPeer pkey "" None None 0)));
      expire_loop w publicKeys (match r with inl _ => lastErr | inr e => Some e end)
  end.

Definition expirePeers (w : Writer S) (publicKeys : list string) : M S unit := expire_loop w publicKeys None.

(** The transaction is rolled back and its error dropped; what it found is in
    the captured variable [toExpire], initially nil. *)
Definition expire (env : tx_env) (w : Writer S) (now : time) : M S unit := λ s,
  match WithTx env (_ ← modify (λ p, (p.1, findExpiredPeers now (the_db p.1))); fail (A := unit) ErrRollback) (s, []) with
  | (_, (s', toExpire)) => expirePeers w toExpire s'
  end.

(** The periodic task over the instants of a run of ticks; errors are logged. *)
Fixpoint expire_ticks (env : tx_env) (w : time → Writer S) (ticks : list time) : M S unit :=
  match ticks with
  | [] => mret tt
  | now :: ticks => _ ← try (expire env (w now) now); expire_ticks env w ticks
  end.

(** ** Lemmas *)
Lemma scan_expired_nil rows : scan_expired rows [] = [].
Proof. induction rows as [|r rows IH]; [done|]. cbn. by destruct (scan_string _). Qed.

Lemma findExpiredPeers_nil now d : findExpiredPeers now d = [].
Proof. unfold findExpiredPeers. destruct (tables d !! "peers"); [apply scan_expired_nil|done]. Qed.

Lemma expire_run env w now s : expire env w now s = (Ok tt, s).
Proof.
  unfold expire, WithTx. destruct (begin_err env); [done|]. m_unfold. cbn [fst snd]. rewrite findExpiredPeers_nil.
  cbn. by rewrite set_the_db.
Qed.

End Expire.

(** ** Properties *)

(** C34: the periodic task never deletes a peer: whatever the database holds,
    however often it runs and whatever it is given to write with, every run
    succeeds and leaves the state as it was.  The query finds the expired
    peers, and their keys are dropped. *)
Theorem expire_deletes_nothing {S} `{HasDb S} env (w : time → Writer S) ticks s :
  expire_ticks env w ticks s = (Ok tt, s).
Proof.
  induction ticks as [|now ticks IH]; [done|]. cbn [expire_ticks].
  rewrite (bind_Ok _ _ s (inl tt) s); [done|]. unfold try. by rewrite expire_run.
Qed.

(** The deletions of an expiration, as the log numbers them. *)
Definition expiry_ops (now : time) (keys : list string) (n : nat) : list op :=
  imap (λ i k, WithSequence (newOp now OpDelete (OPeer (mkPeer k "" None None 0))) (1 + Z.of_nat (n + i))) keys.

Definition without_peers (keys : list string) (st : store) : store :=
  mkStore (filter (λ kr, kr.1 ∉ keys) (st_peers st)) (st_intfs st) (st_tokens st).

Lemma without_peers_cons k keys st :
  without_peers (k :: keys) st =
    without_peers keys (mkStore (delete k (st_peers st)) (st_intfs st) (st_tokens st)).
Proof.
  unfold without_peers. f_equal. cbn [st_peers]. apply map_eq. intros i. apply option_eq. intros r.
  rewrite !map_lookup_filter_Some, lookup_delete_Some, not_elem_of_cons. naive_solver.
Qed.

Lemma without_peers_nil st : without_peers [] st = st.
Proof.
  destruct st as [ps is' ts]. unfold without_peers. f_equal. apply map_filter_id. intros i x _. apply not_elem_of_nil.
Qed.

Lemma without_peers_one k st : without_peers [k] st = mkStore (delete k (st_peers st)) (st_intfs st) (st_tokens st).
Proof. by rewrite without_peers_cons, without_peers_nil. Qed.

Lemma expiry_ops_cons now k keys n :
  expiry_ops now (k :: keys) n =
    WithSequence (newOp now OpDelete (OPeer (mkPeer k "" None None 0))) (1 + Z.of_nat n) :: expiry_ops now keys (Datatypes.S n).
Proof.
  unfold expiry_ops. rewrite imap_cons. f_equal; [by rewrite Nat.add_0_r|].
  apply imap_ext. intros i x _. cbn. by rewrite Nat.add_succ_r.
Qed.

Lemma expiry_ops_length now keys n : length (expiry_ops now keys n) = length keys.
Proof. apply length_imap. Qed.

(** One deletion through the writer of the log. *)
Lemma expire_one ord fuel now ops s k r s' :
  history ord fuel ops (ld_db s) → pubsub_ok (ld_pubsub s) → (Z.of_nat (length ops) + 1 < 2 ^ 63)%Z →
  w_Delete (newCrudLogWriter (H := model_crud ord fuel) tx_ok now) (OPeer (mkPeer k "" None None 0)) s = (r, s') →
  match r with
  | Ok _ =>
      history ord fuel (app ops (expiry_ops now [k] (length ops))) (ld_db s') ∧ pubsub_ok (ld_pubsub s') ∧
      abs (ld_db s') = without_peers [k] (abs (ld_db s))
  | Hang => True
  | _ => False
  end.
Proof.
  intros Hinv Hps Hb Hrun. set (o := newOp now OpDelete (OPeer (mkPeer k "" None None 0))).
  pose proof (Apply_run (CL := model_crud_laws ord fuel) tx_ok _ _ _ o false _ _ Hinv Hps eq_refl Hb ltac:(done) Hrun) as Hres.
  cbn zeta in Hres. destruct r as [[]|e|p|]; [| |done..].
  - destruct Hres as [Hinv' ->]. rewrite expiry_ops_cons. split_and!; [exact Hinv'|by apply emitted_ok|].
    unfold history, the_crud in Hinv. pose proof (li_data _ _ _ Hinv) as Hd. pose proof (li_data _ _ _ Hinv') as Hd'.
    rewrite spec_replay_snoc, Hd in Hd'. cbn in Hd'. apply (inj Some) in Hd'. rewrite <- Hd'.
    symmetry. apply without_peers_one.
  - destruct Hres as [_ [Hc|[Hc|[e' He]]]]; done.
Qed.

Lemma without_peers_app keys k st : without_peers keys (without_peers [k] st) = without_peers (k :: keys) st.
Proof. by rewrite without_peers_one, without_peers_cons. Qed.

(** C17: expiring a list of keys deletes exactly those peers, through the log:
    on a datastore whose log is its complete history, unless a subscriber's
    full buffer blocks a deletion, [expirePeers] succeeds, the history has one
    deletion more for every key, in order and numbered consecutively, and the
    store has lost those peers and nothing else. *)
Theorem expirePeers_deletes ord fuel now keys ops s r s' :
  history ord fuel ops (ld_db s) → pubsub_ok (ld_pubsub s) →
  (Z.of_nat (length ops + length keys) < 2 ^ 63)%Z →
  expirePeers (newCrudLogWriter (H := model_crud ord fuel) tx_ok now) keys s = (r, s') → r ≠ Hang →
  r = Ok tt ∧ history ord fuel (app ops (expiry_ops now keys (length ops))) (ld_db s') ∧
  abs (ld_db s') = without_peers keys (abs (ld_db s)).
Proof.
  unfold expirePeers. revert ops s. induction keys as [|k keys IH]; intros ops s Hinv Hps Hb Hrun Hr.
  - cbn in Hrun. m_unfold. inv_run. rewrite app_nil_r. split_and!; [done..|]. by rewrite without_peers_nil.
  - cbn [expire_loop] in Hrun. unfold try at 1 in Hrun. m_unfold. cbn [length] in Hb.
    destruct (w_Delete _ _ s) as [r1 s1] eqn:E.
    pose proof (expire_one _ _ _ _ _ _ _ _ Hinv Hps ltac:(lia) E) as Hone.
    destruct r1 as [[]|e|p|]; [|done|done|by inv_run]. destruct Hone as (Hinv1 & Hps1 & Ha1).
    destruct (IH _ _ Hinv1 Hps1) as (-> & Hinv2 & Ha2); [rewrite length_app, expiry_ops_length; cbn [length]; lia|done|done|].
    split_and!; [done| |by rewrite Ha2, Ha1, without_peers_app].
    rewrite length_app, <- app_assoc, expiry_ops_length in Hinv2. cbn [length] in Hinv2. rewrite Nat.add_1_r in Hinv2.
    rewrite expiry_ops_cons in Hinv2 |- *. exact Hinv2.
Qed.

Definition expiry_start : logdb :=
  let run o s := (crudLogSink_Apply (H := model_crud sample_ord 1) tx_ok (newOp 7 OpCreate o) false s).2 in
  run sample_peer (run sample_interface (Wrap initial_db)).

Lemma expiry_start_ok : ∃ ops, length ops = 2%nat ∧ history sample_ord 1 ops (ld_db expiry_start) ∧ pubsub_ok (ld_pubsub expiry_start).
Proof.
  set (o1 := newOp 7 OpCreate sample_interface). set (o2 := newOp 7 OpCreate sample_peer).
  set (s1 := (crudLogSink_Apply (H := model_crud sample_ord 1) tx_ok o1 false (Wrap initial_db)).2).
  destruct (Apply_run (CL := model_crud_laws sample_ord 1) tx_ok empty_store [] (Wrap initial_db) o1 false (Ok tt) s1)
    as [H1 P1]; [apply initial_log_inv|apply newPubSub_ok|done|done|done|vm_compute; reflexivity|].
  destruct (Apply_run (CL := model_crud_laws sample_ord 1) tx_ok empty_store _ s1 o2 false (Ok tt) expiry_start H1)
    as [H2 P2]; [rewrite P1; apply emitted_ok, newPubSub_ok|done|done|done|vm_compute; reflexivity|].
  eexists. split; [|split; [exact H2|]]; [done|]. rewrite P2, P1. apply emitted_ok, emitted_ok, newPubSub_ok.
Qed.

Lemma expirePeers_deletes_witness :
  let s' := (expirePeers (newCrudLogWriter (H := model_crud sample_ord 1) tx_ok 9) ["pk"] expiry_start).2 in
  st_peers (abs (ld_db s')) = ∅ ∧ st_intfs (abs (ld_db s')) = st_intfs (abs (ld_db expiry_start)).
Proof.
  destruct expiry_start_ok as (ops & Hl & Hh & Hp). cbn zeta.
  destruct (expirePeers_deletes sample_ord 1 9 ["pk"] ops expiry_start (Ok tt)
    (expirePeers (newCrudLogWriter (H := model_crud sample_ord 1) tx_ok 9) ["pk"] expiry_start).2)
    as (_ & _ & Ha); [exact Hh|exact Hp|rewrite Hl; done|vm_compute; reflexivity|done|].
  rewrite Ha. split; [vm_compute; reflexivity|reflexivity].
Defined.
