(* ===== verification/Registration.v ===== *)
(** * Registration of peers

    [datastore/registration]: the generator of the addresses of a network
    ([iprange.go]), and the registration API that assigns a new peer the first
    address that no peer of the interface has ([registration.go]).  The
    collection of allocated ranges is that of the cidranger package: a
    parameter with the documented behaviour of its two operations.  Then the
    properties of both. *)

From Stdlib Require Import Ascii.
From S2P Require Import Prelude GoStrings Sql SqlText Sqlite Net Model Crud CrudSpec CrudLog.
Local Open Scope string_scope.
Local Open Scope Z_scope.

(** ** ipNetGenerator *)

(** The loop of [incrementIP], from the last byte to the first. *)
Fixpoint increment_loop (rev : list Z) : list Z :=
  match rev with
  | [] => []
  | b :: rev =>
      let b := byte_wrap (b + 1) in
      if bool_decide (b ≠ 0) then b :: rev else b :: increment_loop rev
  end.

Definition incrementIP (ip : IP) : IP := reverse (increment_loop (reverse ip)).

Record ipNetGenerator : Type := mkGen { g_IPNet : IPNet; g_count : Z; g_idx : Z; g_current : IP }.

Definition newGeneratorFromIPNet (ipNet : IPNet) : ipNetGenerator :=
  let '(ones, bits) := Mask_Size (n_Mask ipNet) in
  mkGen ipNet (2 ^ (bits - ones) - 1) 1 (incrementIP (n_IP ipNet)).

(** [None] is a nil address. *)
Definition Next (g : ipNetGenerator) : option IP * ipNetGenerator :=
  let idx := g_idx g + 1 in
  if bool_decide (g_count g < idx) then (None, mkGen (g_IPNet g) (g_count g) idx (g_current g))
  else (Some (g_current g), mkGen (g_IPNet g) (g_count g) idx (incrementIP (g_current g))).

(** ** Allocated ranges *)

(** [net.IPNet.Contains] *)
Definition IPNet_Contains (n : IPNet) (ip : IP) : bool :=
  match networkNumberAndMask n with
  | None => false
  | Some (nn, m) =>
      let ip := default ip (To4 ip) in
      bool_decide (length ip = length nn) &&
      bool_decide (zip_with Z.land nn m = zip_with Z.land ip m)
  end.

(** A network whose mask has the length that its kind of address has. *)
Definition proper_net (n : IPNet) : bool :=
  match networkNumberAndMask n with
  | Some (nn, m) => bool_decide (m = n_Mask n ∧ length nn = length m) && bool_decide (is_Some (simpleMaskLength m))
  | None => false
  end.

(** The collection of networks of the cidranger package: [Contains] tells
    whether an address is in one of the networks that were inserted. *)
Class Ranger : Type := {
  ranger : Type;
  NewPCTrieRanger : ranger;
  ranger_Insert : IPNet → ranger → ranger;
  ranger_Contains : IP → ranger → bool;
  ranger_Contains_spec : ∀ ns ip,
    Forall (λ n, proper_net n = true) ns →
    ranger_Contains ip (foldl (λ r n, ranger_Insert n r) NewPCTrieRanger ns) = existsb (λ n, IPNet_Contains n ip) ns
}.

Section Registration.
Context `{RG : Ranger}.

(** The two networks of a row; NULL is the nil network. *)
Definition scan_ranges (r : row) : res (CIDR * CIDR) :=
  ip ← CIDR_Scan (row_get r "ip");
  ip6 ← CIDR_Scan (row_get r "ip6");
  mret (ip, ip6).

Definition insert_range (c : CIDR) (r : ranger) : ranger :=
  if CIDR_IsNil (Some c) then r else ranger_Insert (c_IPNet c) r.

Fixpoint insert_ranges (rows : list row) (rg : ranger) : res ranger :=
  match rows with
  | [] => Ok rg
  | r :: rows => cs ← scan_ranges r; insert_ranges rows (insert_range cs.2 (insert_range cs.1 rg))
  end.

Definition allocatedRanges (intfName : string) : M db ranger :=
  rows ← Queryx (SSelect "peers" [("interface", BPos)]) [SText intfName];
  lift_res (insert_ranges rows NewPCTrieRanger).

(** [fuel] bounds the iterations of the loop: the generator ends after
    [g_count] of them. *)
Fixpoint free_loop (fuel : nat) (allocated : ranger) (g : ipNetGenerator) : res IP :=
  match fuel with
  | O => Hang
  | S fuel =>
      match Next g with
      | (None, _) => Err (EMsg "pool exhausted")
      | (Some ip, g) => if ranger_Contains ip allocated then free_loop fuel allocated g else Ok ip
      end
  end.

Definition nextFreeIP (ipnet : CIDR) (allocated : ranger) : res IP :=
  let g := newGeneratorFromIPNet (c_IPNet ipnet) in
  free_loop (S (Z.to_nat (g_count g))) allocated g.

Definition peer_with_IP (p : Peer) (c : CIDR) : Peer :=
  mkPeer (p_PublicKey p) (p_Interface p) (Some c) (p_IP6 p) (p_Expire p).

(** [SELECT * FROM interfaces WHERE name = ?], one row. *)
Definition find_interface (intfName : string) : M db Interface :=
  rows ← Queryx (SSelect "interfaces" [("name", BPos)]) [SText intfName];
  match rows with
  | [] => fail (ESql SqlNoRows)
  | r :: _ => o ← lift_res (scan_Interface r); match o with OInterface i => mret i | _ => fail (ESql SqlScan) end
  end.

(** One assignment to the captured [peer]. *)
Definition assign (c : option CIDR) (bits : Z) (allocated : ranger) : M (db * Peer) unit :=
  match c with
  | Some c =>
      if CIDR_IsNil (Some c) then mret tt
      else ip ← lift_res (nextFreeIP c allocated); modify (λ s, (s.1, peer_with_IP s.2 (NewCIDR ip bits)))
  | None => mret tt
  end.

(** The peer is returned beside the error. *)
Definition RegisterNewPeer (env : tx_env) (now : time) (intfName publicKey : string) (ttl : Z) (d : db)
  : res unit * (db * Peer) :=
  let peer := mkPeer publicKey intfName None None (if bool_decide (0 < ttl) then now + ttl else 0) in
  WithTx env (
    intf ← on_db (find_interface intfName);
    allocated ← on_db (allocatedRanges intfName);
    _ ← assign (i_IP intf) 32 allocated;
    assign (i_IP6 intf) 128 allocated) (d, peer).

End Registration.

(** ** The numbers of addresses *)
Fixpoint le_val (bs : list Z) : Z := match bs with [] => 0 | b :: bs => b + 256 * le_val bs end.

(** An address as a number, the first byte the most significant. *)
Definition ip_val (ip : IP) : Z := le_val (reverse ip).

Lemma le_val_bounds bs : Forall octet bs → 0 ≤ le_val bs < 256 ^ Z.of_nat (length bs).
Proof.
  induction 1 as [|b bs Hb Hbs IH]; [done|]. cbn [le_val length]. unfold octet in Hb.
  rewrite Nat2Z.inj_succ, Z.pow_succ_r by lia. lia.
Qed.

Lemma increment_loop_val bs :
  Forall octet bs →
  Forall octet (increment_loop bs) ∧ length (increment_loop bs) = length bs ∧
  le_val (increment_loop bs) = (le_val bs + 1) mod 256 ^ Z.of_nat (length bs).
Proof.
  induction 1 as [|b bs Hb Hbs (IH1 & IH2 & IH3)]; [done|]. cbn [increment_loop]. unfold octet in Hb.
  pose proof (le_val_bounds bs Hbs) as Hv. cbn [length le_val].
  rewrite Nat2Z.inj_succ, Z.pow_succ_r by lia. set (m := 256 ^ Z.of_nat (length bs)) in *.
  unfold byte_wrap. destruct (decide (b = 255)) as [->|Hne].
  - change ((255 + 1) mod 256) with 0. cbn [length le_val]. change (bool_decide (0 ≠ 0)) with false. cbn iota.
    cbn [length le_val]. split_and!; [constructor; [unfold octet; lia|done]|by rewrite IH2|].
    rewrite IH3. replace (255 + 256 * le_val bs + 1) with (256 * (le_val bs + 1)) by lia.
    rewrite Z.mul_mod_distr_l by lia. lia.
  - rewrite Z.mod_small by lia. rewrite bool_decide_eq_true_2 by lia. cbn [length le_val].
    split_and!; [constructor; [unfold octet; lia|done]|done|]. rewrite Z.mod_small; lia.
Qed.

Lemma incrementIP_val ip :
  Forall octet ip →
  Forall octet (incrementIP ip) ∧ length (incrementIP ip) = length ip ∧
  ip_val (incrementIP ip) = (ip_val ip + 1) mod 256 ^ Z.of_nat (length ip).
Proof.
  intros Hip. destruct (increment_loop_val (reverse ip)) as (H1 & H2 & H3); [by apply Forall_reverse|].
  unfold incrementIP, ip_val. rewrite reverse_involutive, length_reverse, H2, length_reverse.
  split_and!; [by apply Forall_reverse|done|]. by rewrite H3, length_reverse.
Qed.

(** Addresses of the same length are equal when their numbers are. *)
Lemma le_val_inj bs bs' :
  Forall octet bs → Forall octet bs' → length bs = length bs' → le_val bs = le_val bs' → bs = bs'.
Proof.
  intros H. revert bs'. induction H as [|b bs Hb Hbs IH]; intros [|b' bs'] Hb' Hl Hv; try done.
  inversion Hb' as [|?? Hb0 Hbs']; subst. cbn in Hl, Hv. unfold octet in *.
  assert (b = b') as -> by lia. f_equal. apply IH; [done|congruence|lia].
Qed.

Lemma IPv4_octets a b c d : octet a → octet b → octet c → octet d → Forall octet (IPv4 a b c d).
Proof.
  intros. unfold IPv4, v4InV6Prefix. cbn [app].
  repeat (apply Forall_cons; split; [unfold octet in *; lia|]). apply Forall_nil_2.
Qed.

(** ** The sequence of a generator *)
Definition after (k : nat) (g : ipNetGenerator) : ipNetGenerator := Nat.iter k (λ g, (Next g).2) g.

(** What the call of [Next] after [k] others returns. *)
Definition Next_at (g : ipNetGenerator) (k : nat) : option IP := (Next (after k g)).1.

Lemma Next_at_S g k : Next_at g (S k) = Next_at (Next g).2 k.
Proof. unfold Next_at, after. by rewrite Nat.iter_succ_r. Qed.

Lemma iter_increment k ip :
  Forall octet ip →
  Forall octet (Nat.iter k incrementIP ip) ∧ length (Nat.iter k incrementIP ip) = length ip ∧
  ip_val (Nat.iter k incrementIP ip) = (ip_val ip + Z.of_nat k) mod 256 ^ Z.of_nat (length ip).
Proof.
  intros Hip. induction k as [|k (IH1 & IH2 & IH3)].
  - change (Nat.iter 0 incrementIP ip) with ip. split_and!; [done..|]. rewrite Z.add_0_r, Z.mod_small; [done|].
    rewrite <- length_reverse. by apply le_val_bounds, Forall_reverse.
  - change (Nat.iter (S k) incrementIP ip) with (incrementIP (Nat.iter k incrementIP ip)).
    destruct (incrementIP_val _ IH1) as (H1 & H2 & H3). rewrite IH2 in H2, H3. split_and!; [done..|].
    rewrite H3, IH3, Zplus_mod_idemp_l. f_equal. lia.
Qed.

Lemma Next_at_run k g :
  Next_at g k = if bool_decide (g_count g < g_idx g + 1 + Z.of_nat k) then None
                else Some (Nat.iter k incrementIP (g_current g)).
Proof.
  revert g. induction k as [|k IH]; intros g.
  - unfold Next_at, after, Next. cbn. rewrite Z.add_0_r. by case_bool_decide.
  - rewrite Next_at_S, IH, Nat.iter_succ_r. unfold Next.
    replace (g_idx g + 1 + Z.of_nat (S k)) with (g_idx g + 1 + 1 + Z.of_nat k) by lia.
    repeat case_bool_decide; cbn in *; try done; lia.
Qed.

(** The number of bits of the host part. *)
Definition host_bits (n : IPNet) : Z := let '(ones, bits) := Mask_Size (n_Mask n) in bits - ones.

Lemma newGenerator_run n k :
  Next_at (newGeneratorFromIPNet n) k =
    if bool_decide (2 ^ host_bits n - 2 ≤ Z.of_nat k) then None else Some (Nat.iter (S k) incrementIP (n_IP n)).
Proof.
  rewrite Next_at_run. unfold newGeneratorFromIPNet, host_bits. destruct (Mask_Size _) as [ones bits].
  cbn [g_count g_idx g_current]. rewrite Nat.iter_succ_r. repeat case_bool_decide; try done; lia.
Qed.

Section Allocation.
Context `{RG : Ranger}.

Lemma free_loop_run fuel allocated g :
  g_count g - g_idx g + 1 ≤ Z.of_nat fuel → (1 ≤ fuel)%nat →
  match free_loop fuel allocated g with
  | Ok ip =>
      ∃ k, Next_at g k = Some ip ∧ ranger_Contains ip allocated = false ∧
        ∀ j, (j < k)%nat → ∃ ip', Next_at g j = Some ip' ∧ ranger_Contains ip' allocated = true
  | Err e => e = EMsg "pool exhausted" ∧ ∀ k ip, Next_at g k = Some ip → ranger_Contains ip allocated = true
  | _ => False
  end.
Proof.
  revert g. induction fuel as [|fuel IH]; intros g Hf H1; [lia|]. cbn [free_loop].
  assert (H0 : Next_at g 0 = (Next g).1) by done.
  destruct (Next g) as [[ip|] g'] eqn:E; cbn [fst] in H0.
  - assert (Hg' : g_count g' = g_count g ∧ g_idx g' = g_idx g + 1 ∧ g_idx g + 1 ≤ g_count g).
    { unfold Next in E. case_bool_decide; simplify_eq; cbn; lia. }
    destruct Hg' as (Hc & Hi & Hle). destruct (ranger_Contains ip allocated) eqn:Ht.
    + specialize (IH g' ltac:(lia) ltac:(lia)).
      assert (HS : ∀ k, Next_at g (S k) = Next_at g' k) by (intros k; by rewrite Next_at_S, E).
      destruct (free_loop fuel allocated g') as [ip'|e|p|]; [| |done..].
      * destruct IH as (k & Hk & Hfree & Hj). exists (S k). rewrite HS. split_and!; [done..|].
        intros [|j] Hlt; [by eauto|]. rewrite HS. apply Hj. lia.
      * destruct IH as [-> Hall]. split; [done|]. intros [|k] ip' Hk; [congruence|]. rewrite HS in Hk. eauto.
    + exists 0%nat. split_and!; [done..|lia].
  - split; [done|]. intros k ip Hk. exfalso. rewrite Next_at_run in Hk. unfold Next in E.
    repeat case_bool_decide; simplify_eq; lia.
Qed.

Lemma nextFreeIP_run c allocated :
  match nextFreeIP c allocated with
  | Ok ip =>
      ∃ k, Next_at (newGeneratorFromIPNet (c_IPNet c)) k = Some ip ∧ ranger_Contains ip allocated = false ∧
        ∀ j, (j < k)%nat → ∃ ip', Next_at (newGeneratorFromIPNet (c_IPNet c)) j = Some ip' ∧
                                   ranger_Contains ip' allocated = true
  | Err e => e = EMsg "pool exhausted" ∧
      ∀ k ip, Next_at (newGeneratorFromIPNet (c_IPNet c)) k = Some ip → ranger_Contains ip allocated = true
  | _ => False
  end.
Proof.
  unfold nextFreeIP. apply free_loop_run; [|lia]. unfold newGeneratorFromIPNet.
  destruct (Mask_Size _) as [ones bits]. cbn [g_count g_idx]. lia.
Qed.

(** *** The networks of the peers of an interface *)
Definition range_of (c : CIDR) : list IPNet := if CIDR_IsNil (Some c) then [] else [c_IPNet c].

Definition row_nets (r : row) : list IPNet :=
  match scan_ranges r with Ok (ip, ip6) => app (range_of ip) (range_of ip6) | _ => [] end.

Definition allocated_nets (intfName : string) (d : db) : list IPNet :=
  mjoin (row_nets <$> filter (λ r, row_get r "interface" = SText intfName) (rows_of d "peers")).

Definition ranger_of (ns : list IPNet) : ranger := foldl (λ r n, ranger_Insert n r) NewPCTrieRanger ns.

Lemma insert_ranges_run rows ns rg :
  insert_ranges rows (ranger_of ns) = Ok rg → rg = ranger_of (app ns (mjoin (row_nets <$> rows))).
Proof.
  revert ns. induction rows as [|r rows IH]; intros ns Hrun; cbn [insert_ranges] in Hrun.
  - simplify_eq. cbn. by rewrite app_nil_r.
  - assert (Hins : ∀ c ns, insert_range c (ranger_of ns) = ranger_of (app ns (range_of c))).
    { intros c ns'. unfold insert_range, range_of. destruct (CIDR_IsNil _); [by rewrite app_nil_r|].
      unfold ranger_of. by rewrite foldl_app. }
    m_unfold. destruct (scan_ranges r) as [[a b]| | |] eqn:E; [|done..]. cbn [fst snd] in Hrun.
    rewrite !Hins in Hrun. apply IH in Hrun. rewrite Hrun. cbn [fmap list_fmap mjoin list_join].
    unfold row_nets at 2. rewrite E. by rewrite <- !app_assoc.
Qed.

(** *** Queries change nothing *)
Lemma select_by_state t c v d r d' : Queryx (SSelect t [(c, BPos)]) [v] d = (r, d') → d' = d.
Proof.
  cbn. unfold select_where, get_table, guard_sql. m_unfold.
  destruct (tables d !! t); [|intros; by inv_run]. destruct (cols_known _ _); intros; by inv_run.
Qed.

Lemma find_interface_state n d r d' : find_interface n d = (r, d') → d' = d.
Proof.
  unfold find_interface. m_unfold. destruct (Queryx _ _ d) as [q d1] eqn:E. apply select_by_state in E as ->.
  destruct q as [[|row rows]| | |]; try (intros; by inv_run).
  destruct (scan_Interface row) as [[]| | |]; intros; by inv_run.
Qed.

Lemma allocatedRanges_state n d r d' : allocatedRanges n d = (r, d') → d' = d.
Proof.
  unfold allocatedRanges. m_unfold. destruct (Queryx _ _ d) as [q d1] eqn:E. apply select_by_state in E as ->.
  destruct q; intros; by inv_run.
Qed.

Lemma allocatedRanges_run n d rg d' :
  store_ok d → allocatedRanges n d = (Ok rg, d') → rg = ranger_of (allocated_nets n d).
Proof.
  intros Hok Hrun. destruct (table_of d "peers" peers_schema) as (tb & Ht & Hs & _); [done|vm_compute; reflexivity|].
  unfold allocatedRanges in Hrun. apply bind_Ok_inv in Hrun as (rows & d1 & Hq & Hrun).
  cbn in Hq. unfold select_where, get_table, guard_sql in Hq. m_unfold. rewrite Ht, Hs in Hq. cbn in Hq. inv_run.
  match goal with Hi : insert_ranges _ _ = Ok rg |- _ => apply (insert_ranges_run _ []) in Hi as -> end. cbn [app]. unfold allocated_nets, rows_of. rewrite Ht.
  f_equal. f_equal. f_equal. apply list_filter_iff. intros r. rewrite andb_true_r.
  destruct (row_get r "interface"); cbn; rewrite ?bool_decide_eq_true; naive_solver.
Qed.

(** *** One registration *)
Definition free_ip (n : string) (d : db) (ip : IP) : Prop :=
  Forall (λ net, IPNet_Contains net ip = false) (allocated_nets n d).

Definition new_peer (now : time) (n pk : string) (ttl : Z) : Peer :=
  mkPeer pk n None None (if bool_decide (0 < ttl) then now + ttl else 0).

Lemma ranger_free ns ip :
  Forall (λ n, proper_net n = true) ns → ranger_Contains ip (ranger_of ns) = false →
  Forall (λ net, IPNet_Contains net ip = false) ns.
Proof.
  intros Hp H. unfold ranger_of in H. rewrite ranger_Contains_spec in H by done.
  apply Forall_forall. intros net Hin. destruct (IPNet_Contains net ip) eqn:E; [|done].
  assert (Ht : existsb (λ n, IPNet_Contains n ip) ns = true) by (apply existsb_exists; exists net; by rewrite <- list_elem_of_In).
  congruence.
Qed.

(** *** Calls that return *)
Definition settled {A} (r : res A) : Prop := match r with Ok _ | Err _ => True | _ => False end.

Lemma settled_bind {A B} (r : res A) (k : A → res B) : settled r → (∀ a, settled (k a)) → settled (r ≫= k).
Proof. destruct r; [intros _ H; apply H|done..]. Qed.

Lemma CIDR_parse_settled c s : settled (CIDR_parse c s).
Proof. unfold CIDR_parse. case_bool_decide; [done|]. by destruct (net_ParseCIDR s) as [[]|]. Qed.

Lemma CIDR_Scan_settled v : settled (CIDR_Scan v).
Proof. destruct v; try done. apply CIDR_parse_settled. Qed.

Lemma scan_values_settled v :
  settled (scan_string v) ∧ settled (scan_int v) ∧ settled (scan_time v) ∧ settled (scan_cidr v).
Proof.
  split_and!; [by destruct v|destruct v; try done; cbn; by destruct (int_of_text _)|by destruct v|].
  destruct v; try done; apply settled_bind; try done; apply CIDR_Scan_settled.
Qed.

Lemma scan_Interface_settled r : settled (scan_Interface r).
Proof.
  unfold scan_Interface. case_bool_decide; [|done].
  repeat (apply settled_bind; [apply scan_values_settled|intros ?]). done.
Qed.

Lemma select_by_settled t c v d : settled (Queryx (SSelect t [(c, BPos)]) [v] d).1.
Proof.
  cbn. unfold select_where, get_table, guard_sql. m_unfold.
  destruct (tables d !! t); [|done]. by destruct (cols_known _ _).
Qed.

Lemma find_interface_settled n d : settled (find_interface n d).1.
Proof.
  unfold find_interface. m_unfold. pose proof (select_by_settled "interfaces" "name" (SText n) d) as H.
  destruct (Queryx _ _ d) as [[[|r rows]| | |] d1]; try done.
  pose proof (scan_Interface_settled r) as Hr. destruct (scan_Interface r) as [[]| | |]; done.
Qed.

End Allocation.

Section Returns.
Context `{RG : Ranger}.

Lemma allocatedRanges_settled n d : settled (allocatedRanges n d).1.
Proof.
  unfold allocatedRanges. m_unfold. pose proof (select_by_settled "peers" "interface" (SText n) d) as H.
  destruct (Queryx _ _ d) as [[rows| | |] d1]; try done. clear H. cbn [fst]. generalize NewPCTrieRanger.
  induction rows as [|r rows IH]; intros rg; [done|]. cbn [insert_ranges]. apply settled_bind; [|intros; apply IH].
  repeat (apply settled_bind; [apply CIDR_Scan_settled|intros ?]). done.
Qed.

(** An assignment: nothing for a nil network, otherwise the first free address
    of the network, or an error that leaves the peer as it was. *)
Lemma assign_run c bits ns d p r s' :
  Forall (λ n, proper_net n = true) ns → assign c bits (ranger_of ns) (d, p) = (r, s') →
  settled r ∧ s'.1 = d ∧
  (r = Ok tt → if CIDR_IsNil c then s'.2 = p
               else ∃ ip, Forall (λ net, IPNet_Contains net ip = false) ns ∧ s'.2 = peer_with_IP p (NewCIDR ip bits)).
Proof.
  intros Hp. unfold assign. destruct c as [c|]; [|m_unfold; intros; inv_run; split_and!; done].
  destruct (CIDR_IsNil (Some c)); [m_unfold; intros; inv_run; split_and!; done|]. m_unfold.
  pose proof (nextFreeIP_run c (ranger_of ns)) as H. destruct (nextFreeIP c (ranger_of ns)) as [ip|e|x|]; [| |done..].
  - destruct H as (k & _ & Hfree & _). intros; inv_run. split_and!; [done..|]. intros _. exists ip.
    split; [by apply ranger_free|done].
  - intros; inv_run. done.
Qed.

End Returns.

(** A collection of networks kept as a list. *)
Lemma foldl_snoc {A} (l acc : list A) : foldl (λ r n, app r [n]) acc l = app acc l.
Proof. revert acc. induction l as [|x l IH]; intros acc; cbn; [by rewrite app_nil_r|]. rewrite IH, <- app_assoc. done. Qed.

#[refine] Definition list_ranger : Ranger :=
  {| ranger := list IPNet; NewPCTrieRanger := []; ranger_Insert n r := app r [n];
     ranger_Contains ip r := existsb (λ n, IPNet_Contains n ip) r |}.
Proof. intros ns ip _. by rewrite foldl_snoc. Defined.

(** ** Properties *)






(** An interface with a network of each kind and one peer. *)
Definition dual_stack_db : db :=
  let run o d := (dispatcher_Create model o d).2 in
  run (OPeer (mkPeer "pk0" "wg0" (Some (cidr4 10 0 0 2 32)) None 0))
    (run (OInterface (mkInterface "wg0" 51820 (Some (cidr4 10 0 0 1 24))
       (Some (mkCIDR (mkIPNet (app [253] (replicate 15 0)) (CIDRMask 120 128)))) 0 "" "")) initial_db).

Lemma dual_stack_ok : store_ok dual_stack_db.
Proof.
  unfold dual_stack_db. eapply (dispatch_store_ok DoCreate); [|apply surjective_pairing].
  eapply (dispatch_store_ok DoCreate); [|apply surjective_pairing]. apply initial_store_ok.
Qed.


(** The address of a peer is built with a mask of 32 bits out of the 128 of its
    16-byte form: as an IPv4 network it has the prefix length 0. *)
Lemma registered_v4_prefix a b c d :
  CIDR_String (Some (NewCIDR (IPv4 a b c d) 32)) = octets_string [a; b; c; d] ++ "/0".
Proof. done. Qed.
