(* ===== verification/Effects.v ===== *)
(** * What calls do to the database

    [respects R m]: on every outcome, the database after the call [m] is
    related by [R] to the one before it.  For a preorder [R] this holds of the
    calls that only read, and is carried over by sequencing, error handling,
    transactions and larger states; the database [keeps] helps to decide who can
    change it, and [db_step] that it stays consistent. *)

From S2P Require Import Prelude GoStrings Sql SqlText Sqlite Net Model Crud CrudSpec CrudLog Follow Sessions Registration.
Local Open Scope string_scope.

Definition respects {S A} `{HasDb S} (R : relation db) (m : M S A) : Prop :=
  ∀ s r s', m s = (r, s') → R (the_db s) (the_db s').

(** The database stays as it is. *)
Abbreviation keeps := (respects eq).

(** The tables keep their schemas, and a consistent database stays
    consistent. *)
Definition db_step (d d' : db) : Prop := schemas d' = schemas d ∧ (db_ok d → db_ok d').

#[global] Instance db_step_preorder : PreOrder db_step.
Proof. split; unfold db_step; [intros d; done|intros d1 d2 d3 [? ?] [? ?]; split; [congruence|tauto]]. Qed.

(** ** Composition *)
Section Respects.
Context {S : Type} `{HasDb S} (R : relation db) `{!PreOrder R}.

Lemma respects_keeps {A} (m : M S A) : keeps m → respects R m.
Proof. intros Hm s r s' Hr. by rewrite (Hm s r s' Hr). Qed.

Lemma respects_mret {A} (a : A) : respects R (mret a : M S A).
Proof. intros s r s' Hr. m_unfold. by inv_run. Qed.

Lemma respects_fail {A} e : respects R (fail e : M S A).
Proof. intros s r s' Hr. m_unfold. by inv_run. Qed.

Lemma respects_panic {A} p : respects R (panic p : M S A).
Proof. intros s r s' Hr. m_unfold. by inv_run. Qed.

Lemma respects_hang {A} : respects R (hang : M S A).
Proof. intros s r s' Hr. m_unfold. by inv_run. Qed.

Lemma respects_gets {A} (f : S → A) : respects R (gets f).
Proof. intros s r s' Hr. m_unfold. by inv_run. Qed.

Lemma respects_lift {A} (q : res A) : respects R (lift_res q : M S A).
Proof. intros s r s' Hr. m_unfold. by inv_run. Qed.

Lemma respects_bind {A B} (m : M S A) (k : A → M S B) :
  respects R m → (∀ a, respects R (k a)) → respects R (m ≫= k).
Proof.
  intros Hm Hk s r s' Hr. m_unfold. destruct (m s) as [[a|e|p|] s1] eqn:E; apply Hm in E; [|by inv_run..].
  apply Hk in Hr. by etrans.
Qed.

Lemma respects_try {A} (m : M S A) : respects R m → respects R (try m).
Proof. intros Hm s r s' Hr. unfold try in Hr. destruct (m s) as [[] s1] eqn:E; apply Hm in E; by inv_run. Qed.

Lemma respects_each {A} (f : A → M S unit) l : (∀ x, respects R (f x)) → respects R (each f l).
Proof. intros Hf. induction l as [|x l IH]; [apply respects_mret|]. apply respects_bind; [apply Hf|done]. Qed.

Lemma respects_WithTx {A} env (m : M S A) : respects R m → respects R (WithTx env m).
Proof.
  intros Hm s r s' Hr. unfold WithTx in Hr. destruct (begin_err env); [by inv_run|].
  destruct (m s) as [[a|e|p|] s1] eqn:E; [destruct (commit_err env)|..]; inv_run; rewrite ?the_set_db; by eauto.
Qed.

(** A transaction that its body rolls back. *)
Lemma respects_rollback {A} env (m : M S A) : respects R (WithTx env (_ ← m; fail (A := unit) ErrRollback)).
Proof.
  intros s r s' Hr. unfold WithTx in Hr. destruct (begin_err env); [by inv_run|]. m_unfold.
  destruct (m s) as [[a|e|p|] s1]; inv_run; by rewrite the_set_db.
Qed.

Lemma respects_on_db {A} (m : M db A) : respects R m → respects R (on_db m : M S A).
Proof.
  intros Hm s r s' Hr. unfold on_db in Hr. destruct (m (the_db s)) as [q d] eqn:E. apply Hm in E. cbn in E. inv_run.
  by rewrite the_set_db.
Qed.

Lemma respects_fst {B A} (m : M S A) : respects R m → respects R (on_fst (F := B) m).
Proof. intros Hm [s b] r [s' b'] Hr. unfold on_fst in Hr. destruct (m _) as [q s1] eqn:E. apply Hm in E. by inv_run. Qed.

Lemma respects_snd {B A} (m : M B A) : respects R (on_snd (P := S) m).
Proof. intros [s b] r [s' b'] Hr. unfold on_snd in Hr. destruct (m _) as [q b1]. by inv_run. Qed.

End Respects.

Create HintDb effects.
#[export] Hint Resolve respects_mret respects_fail respects_panic respects_hang respects_gets respects_lift respects_try
  respects_each respects_WithTx respects_rollback respects_on_db respects_fst respects_snd : effects.
#[export] Hint Extern 0 (PreOrder _) => typeclasses eauto : effects.
#[export] Hint Extern 2 (respects _ (_ ≫= _)) => (apply respects_bind; [typeclasses eauto| |intros ?]) : effects.
#[export] Hint Extern 3 (respects _ (match ?x with _ => _ end)) => destruct x : effects.

(** ** Reading calls *)
Section Reading.
Context (R : relation db) `{!PreOrder R}.

Lemma respects_get_table t : respects R (get_table t).
Proof. unfold get_table. intros s r s' Hr. m_unfold. destruct (tables s !! t); by inv_run. Qed.

Lemma respects_select t w : respects R (select_where t w).
Proof.
  intros d r d' Hr. unfold select_where, get_table, guard_sql in Hr. m_unfold.
  destruct (tables d !! t); [|by inv_run]. destruct (cols_known _ _); by inv_run.
Qed.

Lemma respects_Queryx s args : respects R (Queryx s args).
Proof. pose proof respects_select. unfold Queryx. auto with effects. Qed.

Lemma respects_on_pubsub {A} (m : M pubsub A) : respects R (on_pubsub m).
Proof. intros s r s' Hr. unfold on_pubsub in Hr. destruct (m _). by inv_run. Qed.

End Reading.
#[export] Hint Resolve respects_get_table respects_select respects_Queryx respects_on_pubsub : effects.

(** A search gives the rows to its visitor and changes nothing else. *)
Lemma respects_Find {S} `{HasDb S} (R : relation db) `{!PreOrder R} env r typ query (f : obj → M S unit) :
  (∀ o, respects R (f o)) → respects R (SQLReader_Find env r typ query f).
Proof. intros Hf. unfold SQLReader_Find, adapter_Find, queryBuilder_exec, Queryx_text. auto 12 with effects. Qed.

(** The two ways to read the log. *)
Lemma respects_Snapshot (R : relation db) `{!PreOrder R} `{CRUD} env : respects R (crudLogSource_Snapshot env).
Proof.
  unfold crudLogSource_Snapshot. apply respects_bind; [done| |auto with effects].
  intros s r s' Hr. unfold WithROTransaction in Hr.
  destruct (WithTx env _ (s, _)) as [q [s1 a]] eqn:E. apply (respects_rollback R) in E. cbn in E. destruct q; by inv_run.
Qed.

Lemma respects_Subscribe (R : relation db) `{!PreOrder R} `{Encoding} env start : respects R (crudLogSource_Subscribe env start).
Proof. unfold crudLogSource_Subscribe, WithTransaction, QueryLogSince. auto 14 with effects. Qed.

(** A registration only reads. *)
Lemma RegisterNewPeer_reads `{RG : Ranger} env now n pk ttl d r d' p :
  RegisterNewPeer env now n pk ttl d = (r, (d', p)) → d' = d.
Proof.
  assert (Hf : ∀ n, keeps (find_interface n)) by (intros n' s q s' Hq; by apply find_interface_state in Hq as ->).
  assert (Ha : ∀ n, keeps (allocatedRanges n)) by (intros n' s q s' Hq; by apply allocatedRanges_state in Hq as ->).
  assert (Has : ∀ c bits rg, respects (S := db * Peer) eq (assign c bits rg)).
  { intros c bits rg. unfold assign. destruct c as [c|]; [|auto with effects]. destruct (CIDR_IsNil _); [auto with effects|].
    apply respects_bind; [typeclasses eauto|auto with effects|]. intros ip s q s' Hq. unfold modify in Hq. by inv_run. }
  intros Hr. unfold RegisterNewPeer in Hr. cbv zeta in Hr.
  assert (Hk : keeps (WithTx (S := db * Peer) env (intf ← on_db (find_interface n); allocated ← on_db (allocatedRanges n);
    _ ← assign (i_IP intf) 32 allocated; assign (i_IP6 intf) 128 allocated))) by auto 10 with effects.
  symmetry. exact (Hk _ _ _ Hr).
Qed.

(** ** Writing calls keep the database consistent *)
Lemma sound_NamedExec s args : respects db_step (NamedExec s args).
Proof.
  intros d r d' Hr. split; [by eapply NamedExec_schemas|]. intros Hok.
  destruct (NamedExec_fail s args d r d' Hr) as [-> | ->]; [done|]. by eapply NamedExec_db_ok.
Qed.

Lemma sound_update t vs w : respects db_step (update_where t vs w).
Proof.
  intros d r d' Hr. destruct (update_where_fail t vs w d r d' Hr) as [-> | ->]; [reflexivity|].
  split; [by eapply update_where_schemas|]. intros Hok. by eapply update_where_db_ok.
Qed.

#[export] Hint Resolve sound_NamedExec sound_update : effects.

Lemma sound_adapter_write stmt args : respects db_step (NamedExec_text stmt args).
Proof. unfold NamedExec_text. auto with effects. Qed.

Lemma sound_ApplyOp ord fuel (o : op) : respects db_step (ApplyOp (H := model_crud ord fuel) o).
Proof.
  pose proof sound_adapter_write. unfold ApplyOp.
  cbn [crud_Create crud_Update crud_Delete model_crud]. unfold dispatcher_Create, dispatcher_Update, dispatcher_Delete, adapter_Create, adapter_Update, adapter_Delete.
  repeat case_bool_decide; auto with effects.
Qed.

Lemma sound_Apply `{Encoding} ord fuel env o fromLog : respects db_step (crudLogSink_Apply (H := model_crud ord fuel) env o fromLog).
Proof.
  pose proof (sound_ApplyOp ord fuel). unfold crudLogSink_Apply, WithTransaction, AppendToLog, SetSequence.
  auto 16 with effects.
Qed.

Lemma sound_ReceivePeerStats dbs env now dump : respects db_step (ReceivePeerStats dbs env now dump).
Proof. unfold ReceivePeerStats, write_completed, WriteCompletedSession. auto 12 with effects. Qed.
