(* ===== verification/Http.v ===== *)
(** * HTTP: transport, errors and access control

    [crud/httptransport]: JSON requests and replies ([transport.go]), the codes
    under which errors travel ([errors.go]), the client's credentials
    ([client.go]).  [crud/httpapi]: authentication by token ([auth_bearer.go])
    or by certificate ([auth_mtls.go]), roles and the guard in front of every
    handler ([api.go]).  Requests and replies are values: the query of a URL is
    a map, a body is a sequence of texts and JSON documents. *)

From Stdlib Require Import Ascii.
From S2P Require Import Prelude GoStrings Sql SqlText Sqlite Net Model Crud CrudSpec CrudLog Follow.
Local Open Scope string_scope.
Local Open Scope Z_scope.

(** ** Requests and replies *)

(** A piece of a body: text, or a JSON document that an encoder wrote. *)
Inductive chunk : Type := CText (s : string) | CJson (j : json).

(** [rq_auth] are the basic-auth credentials, [rq_tls] the common names of the
    client's certificates ([None] without TLS), [rq_body] the JSON document of
    the body ([None] when there is none that parses). *)
Record request : Type := mkRequest {
  rq_method : string;
  rq_path : string;
  rq_query : gmap string (list string);
  rq_auth : option (string * string);
  rq_tls : option (list string);
  rq_body : option json }.

Record response : Type := mkResponse { rs_status : Z; rs_json : bool; rs_body : list chunk }.

(** [req.FormValue]: the first value, empty if there is none. *)
Definition FormValue (req : request) (k : string) : string := default "" (head (default [] (rq_query req !! k))).

(** The writer of a reply: the content type set so far, what was sent of the
    header (status and content type), the body. *)
Record rwriter : Type := mkWr { wr_json : bool; wr_sent : option (Z * bool); wr_body : list chunk }.

Definition new_rwriter : rwriter := mkWr false None [].

Definition set_ctype (is_json : bool) : M rwriter unit := modify (λ w, mkWr is_json (wr_sent w) (wr_body w)).

(** Only the first [WriteHeader] counts. *)
Definition WriteHeader (status : Z) : M rwriter unit :=
  modify (λ w, match wr_sent w with
               | Some _ => w
               | None => mkWr (wr_json w) (Some (status, wr_json w)) (wr_body w)
               end).

Definition write (c : chunk) : M rwriter unit :=
  _ ← WriteHeader 200; modify (λ w, mkWr (wr_json w) (wr_sent w) (app (wr_body w) [c])).

(** [http.Error] ends its message with a newline. *)
Definition http_Error (msg : string) (code : Z) : M rwriter unit :=
  _ ← set_ctype false; _ ← WriteHeader code; write (CText (msg ++ String "010" "")).

Definition finish (w : rwriter) : response :=
  match wr_sent w with
  | Some (status, is_json) => mkResponse status is_json (wr_body w)
  | None => mkResponse 200 (wr_json w) (wr_body w)
  end.

(** A decoder reads the first JSON value of a body; the array that a handler
    writes piece by piece is one. *)
Fixpoint decode_array (b : list chunk) (acc : list json) : option json :=
  match b with
  | CJson j :: CText s :: b' =>
      if bool_decide (s = ",") then decode_array b' (app acc [j])
      else if bool_decide (s = "]") then Some (JArr (app acc [j]))
      else None
  | _ => None
  end.

Definition decode_body (b : list chunk) : option json :=
  match b with
  | CJson j :: _ => Some j
  | CText s :: b' => if bool_decide (s = "[") then decode_array b' [] else None
  | [] => None
  end.

(** ** Errors *)

(** The texts of the SQL engine's errors. *)
Class ErrorTexts : Type := sql_text : sqlerr → string.

(** Texts for concrete runs. *)
Definition quiet_texts : ErrorTexts := λ _, "".

Section Errors.
Context `{ErrorTexts}.

(** [err.Error()] *)
Fixpoint Error (e : err) : string :=
  match e with
  | ErrHorizon => "sequence out of horizon"
  | ErrOutOfSequence => "out of sequence (log rewind)"
  | ErrInvalidOpType => "invalid op type in log"
  | ErrUnknownType => "unknown type"
  | ErrReadonly => "read-only"
  | ErrRollback => ""
  | ESql x => sql_text x
  | ENet s => s
  | EMsg s => s
  | EWrap s e => s ++ ": " ++ Error e
  | EPermanent e => Error e
  end.

(** The registry of errors, filled when the program starts: first by [crud],
    then by [crudlog], which imports it. *)
Definition RegisterError (code : string) (e : err) (reg : list (string * err)) : list (string * err) := app reg [(code, e)].

Definition init_crud (reg : list (string * err)) : list (string * err) :=
  RegisterError "readonly" ErrReadonly (RegisterError "unknown-type" ErrUnknownType reg).
Definition init_crudlog (reg : list (string * err)) : list (string * err) :=
  RegisterError "out-of-sequence" ErrOutOfSequence (RegisterError "horizon" ErrHorizon reg).

Definition errorRegistry : list (string * err) := init_crudlog (init_crud []).

(** The code of the first registered error in the chain. *)
Definition error_code (e : err) : option string :=
  fst <$> (list_find (λ p : string * err, errors_Is e p.2 = true) errorRegistry ≫= λ p, Some p.2).

Definition HTTPError (e : err) : M rwriter unit :=
  let '(status, code) := match error_code e with Some c => (400, c) | None => (500, "") end in
  _ ← set_ctype true;
  _ ← WriteHeader status;
  write (CJson (JObj [("message", JStr (Error e)); ("code", JStr code)])).

Definition registered (code : string) : option err :=
  (list_find (λ p : string * err, p.1 = code) errorRegistry) ≫= λ p, Some p.2.2.

Definition status_error (status : Z) : err :=
  let e := EMsg ("HTTP status code " ++ format_dec status) in
  if bool_decide (status ≠ 429) && bool_decide (status < 500) then EPermanent e else e.

Definition UnwrapError (resp : response) : err :=
  if bool_decide (rs_status resp = 400) && rs_json resp then
    match decode_body (rs_body resp) with
    | Some (JObj l) =>
        match get_str (jfield l "message"), get_str (jfield l "code") with
        | Ok _, Ok code =>
            match registered code with
            | Some e => EPermanent e
            | None => status_error (rs_status resp)
            end
        | _, _ => EMsg "malformed remote error response"
        end
    | Some JNull => status_error (rs_status resp)
    | _ => EMsg "malformed remote error response"
    end
  else status_error (rs_status resp).

(** ** Serving JSON *)
Section Serve.
Context {S : Type}.

(** A handler acts on the state of the server and on its reply. *)
Definition handler : Type := request → M (S * rwriter) unit.

(** [decode] is what decoding the body into the request object gives (the
    object is nil for handlers without one); [f] returns the encoding of its
    result, or nothing. *)
Definition ServeJSON {R} (decode : res R) (f : R → M S (option (res json))) : M (S * rwriter) unit :=
  match decode with
  | Err e => on_snd (http_Error (Error e) 400)
  | Panic p => panic p
  | Hang => hang
  | Ok r =>
      out ← try (on_fst (f r));
      match out with
      | inr e => on_snd (HTTPError e)
      | inl None => on_snd (WriteHeader 200)
      | inl (Some enc) =>
          _ ← on_snd (set_ctype true);
          match enc with
          | Ok j => _ ← on_snd (write (CJson j)); on_snd (WriteHeader 200)
          | Err e => on_snd (HTTPError e)
          | Panic p => panic p
          | Hang => hang
          end
      end
  end.

(** Decoding the JSON body of a request. *)
Definition decode_request {R} (req : request) (dec : json → res R) : res R :=
  match rq_body req with Some j => dec j | None => Err (EMsg "EOF") end.

(** The server runs the handler of a request; a handler that panics, or does not
    return, gives no reply. *)
Definition serve (h : handler) (req : request) : M S response := λ s,
  match h req (s, new_rwriter) with
  | (Ok _, (s', w)) | (Err _, (s', w)) => (Ok (finish w), s')
  | (Panic p, (s', _)) => (Err (ENet "EOF"), s')
  | (Hang, (s', _)) => (Hang, s')
  end.

(** ** http.ServeMux: the exact pattern, or the longest subtree *)
Abbreviation mux := (list (string * handler)) (only parsing).

Definition longer (a b : option (string * handler)) : option (string * handler) :=
  match a, b with
  | Some x, Some y => if bool_decide (String.length x.1 < String.length y.1)%nat then b else a
  | None, _ => b
  | _, None => a
  end.

Definition mux_lookup (m : mux) (path : string) : option handler :=
  match list_find (λ p, p.1 = path) m with
  | Some (_, p) => Some p.2
  | None => snd <$> foldl (λ best p, if has_suffix "/" p.1 && has_prefix p.1 path then longer best (Some p) else best) None m
  end.

Definition cleanPath (p : string) : string :=
  let p := if has_prefix "/" p then p else "/" ++ p in
  let np := path_Clean p in
  if has_suffix "/" p && bool_decide (np ≠ "/") then np ++ "/" else np.

(** A path without its final slash, where only the subtree is registered. *)
Definition redirectToPathSlash (m : mux) (path : string) : bool :=
  negb (existsb (λ p, bool_decide (p.1 = path)) m) && existsb (λ p, bool_decide (p.1 = path ++ "/")) m.

(** A path that is not clean, or lacks its slash, is redirected; the reply to a
    redirected request has no content here, nor its new location. *)
Definition mux_handler (m : mux) : handler := λ req,
  let path := if bool_decide (rq_method req = "CONNECT") then rq_path req else cleanPath (rq_path req) in
  if redirectToPathSlash m path || bool_decide (path ≠ rq_path req) then on_snd (WriteHeader 301)
  else match mux_lookup m path with
       | Some h => h req
       | None => on_snd (http_Error "404 page not found" 404)
       end.

End Serve.
End Errors.
Arguments handler S : clear implicits.

(** ** URLs *)
Definition JoinURL (parts : list string) : string :=
  match parts with
  | [] => ""
  | p :: ps => foldl (λ out part, (if has_suffix "/" out then out else out ++ "/") ++ trim_prefix "/" part) p ps
  end.

(** ** Access control *)
Record credentials : Type := mkCreds { cr_Identity : string; cr_Roles : list string }.

(** [None] are the nil credentials of the server without authentication. *)
Abbreviation Authn S := (request → M S (option credentials)) (only parsing).
Abbreviation Authz := (option credentials → string → bool) (only parsing).

Definition NilAuthn {S} : Authn S := λ _, mret None.
Definition NilAuthz : Authz := λ _ _, true.

(** [NewRBAC]: nil credentials have no methods. *)
Definition targetsForRole (rules : gmap string (list string)) (role : string) : list string :=
  default [] (rules !! role).

Definition HasPermission (rules : gmap string (list string)) : Authz := λ creds target,
  match creds with
  | Some c => existsb (λ role, existsb (λ t, bool_decide (t = target)) (targetsForRole rules role)) (cr_Roles c)
  | None => false
  end.

(** *** Bearer tokens *)
Definition find_token (tokenID : string) : M db (string * string) :=
  rows ← Queryx (SSelect "tokens" [("id", BPos)]) [SText tokenID];
  match rows with
  | [] => fail (ESql SqlNoRows)
  | r :: _ =>
      roles ← lift_res (scan_string (row_get r "roles"));
      secret ← lift_res (scan_string (row_get r "secret"));
      mret (roles, secret)
  end.

Definition bearer_CredentialsFromRequest {S} `{HasDb S} (env : tx_env) : Authn S := λ req,
  match rq_auth req with
  | None => fail (EMsg "missing credentials")
  | Some (tokenID, tokenSecret) =>
      t ← WithTx env (on_db (find_token tokenID));
      if bool_decide (tokenSecret ≠ t.2) then fail (EMsg "bad secret")
      else mret (Some (mkCreds tokenID (split "," t.1)))
  end.

(** *** Client certificates *)
Fixpoint parse_rolemap (specs : list string) (m : gmap string (list string)) : res (gmap string (list string)) :=
  match specs with
  | [] => Ok m
  | spec :: specs =>
      match splitN2 "=" spec with
      | [cn; roles] => parse_rolemap specs (<[cn := split "," roles]> m)
      | _ => Err (EMsg "syntax error in mTLS auth spec")
      end
  end.

Definition NewTLSAuthn (s : string) : res (gmap string (list string)) := parse_rolemap (split ";" s) ∅.

Fixpoint known_certificate (rolemap : gmap string (list string)) (cns : list string) : option credentials :=
  match cns with
  | [] => None
  | cn :: cns =>
      match rolemap !! cn with
      | Some roles => Some (mkCreds cn roles)
      | None => known_certificate rolemap cns
      end
  end.

Definition tls_CredentialsFromRequest {S} (rolemap : gmap string (list string)) : Authn S := λ req,
  match rq_tls req with
  | None => fail (EMsg "no TLS")
  | Some cns =>
      match known_certificate rolemap cns with
      | Some c => mret (Some c)
      | None => fail (EMsg "no known TLS credentials")
      end
  end.

(** *** The guard *)
Record API (S : Type) : Type := mkAPI { api_authn : Authn S; api_authz : Authz }.
Arguments mkAPI {S} _ _.
Arguments api_authn {S} _ _.
Arguments api_authz {S} _ _ _.

(** [denied] is the result for a request that does not reach its handler. *)
Definition guard_auth {S A} (a : API S) (target : string) (denied : A) (h : request → M (S * rwriter) A)
  : request → M (S * rwriter) A := λ req,
  r ← try (on_fst (api_authn a req));
  match r with
  | inr _ => _ ← on_snd (http_Error "Unauthenticated" 401); mret denied
  | inl creds =>
      if api_authz a creds target then h req
      else _ ← on_snd (http_Error "Unauthorized" 403); mret denied
  end.

Definition WithAuth {S} (a : API S) (target : string) (h : handler S) : handler S := guard_auth a target tt h.

(** ** The client *)

(** What a client sends a request to. *)
Abbreviation transport S := (request → M S response) (only parsing).

(** [basicAuthTransport] *)
Definition RoundTrip {S} (username password : string) (net : transport S) : transport S := λ req,
  net (if bool_decide (username = "") then req
       else mkRequest (rq_method req) (rq_path req) (rq_query req) (Some (username, password)) (rq_tls req) (rq_body req)).

(** [Do]: [reqObj] is the encoding of the request object if there is one,
    [dec] the decoding of the reply if it is wanted. *)
Definition Do {S R} (net : transport S) (method path : string) (query : gmap string (list string))
    (reqObj : option (res json)) (dec : option (json → res R)) : M S (option R) :=
  body ← lift_res (match reqObj with Some enc => j ← enc; mret (Some j) | None => mret None end);
  resp ← net (mkRequest method path query None None body);
  if bool_decide (rs_status resp ≠ 200) then fail (UnwrapError resp)
  else match dec with
       | None => mret None
       | Some d =>
           r ← lift_res (match decode_body (rs_body resp) with Some j => d j | None => Err (EMsg "invalid JSON") end);
           mret (Some r)
       end.

(** A server under its URL: it is sent the paths behind that. *)
Definition with_path (path : string) (req : request) : request :=
  mkRequest (rq_method req) path (rq_query req) (rq_auth req) (rq_tls req) (rq_body req).

Definition at_host {S} (base : string) (srv : transport S) : transport S := λ req,
  if has_prefix base (rq_path req) then srv (with_path (drop_chars (String.length base) (rq_path req)) req)
  else fail (ENet "no such host").

Lemma Do_at_host {S R} base (srv : transport S) method path query reqObj (dec : option (json → res R)) username password s :
  Do (RoundTrip username password (at_host base srv)) method (base ++ path) query reqObj dec s =
    Do (RoundTrip username password srv) method path query reqObj dec s.
Proof.
  unfold Do, RoundTrip, at_host. m_unfold. destruct (match reqObj with Some _ => _ | None => _ end) as [body|e|p|]; [|done..].
  case_bool_decide; cbn [rq_path rq_method rq_query rq_auth rq_tls rq_body]; by rewrite has_prefix_app, drop_chars_app.
Qed.

Lemma JoinURL_base base p ps : p ≠ "" → JoinURL ((base ++ p) :: ps) = base ++ JoinURL (p :: ps).
Proof.
  unfold JoinURL. revert p. induction ps as [|part ps IH]; intros p Hp; [done|]. cbn [foldl]. rewrite has_suffix_app by done.
  destruct (has_suffix "/" p); rewrite ?str_app_assoc; rewrite <- ?(str_app_assoc p); apply IH; by destruct p.
Qed.

(** ** Lemmas: routing *)
Lemma mux_handler_clean `{ErrorTexts} {S} (m : list (string * handler S)) req :
  cleanPath (rq_path req) = rq_path req → redirectToPathSlash m (rq_path req) = false →
  mux_handler m req =
    match mux_lookup m (rq_path req) with Some h => h req | None => on_snd (http_Error "404 page not found" 404) end.
Proof.
  intros Hc Hr. unfold mux_handler. rewrite Hc. destruct (bool_decide (rq_method req = "CONNECT")).
  - by rewrite Hr, bool_decide_eq_false_2 by tauto.
  - by rewrite Hr, bool_decide_eq_false_2 by tauto.
Qed.

(** ** Lemmas: errors over HTTP *)

(** The error at the end of a chain. *)
Fixpoint err_root (e : err) : err := match e with EWrap _ e | EPermanent e => err_root e | _ => e end.

Lemma errors_Is_root e t : err_root t = t → (∀ s e', t ≠ EWrap s e') → (∀ e', t ≠ EPermanent e') →
  errors_Is e t = bool_decide (err_root e = t).
Proof.
  intros Ht Hw Hp. induction e; cbn; rewrite ?orb_false_r; try done.
  - rewrite IHe, bool_decide_eq_false_2 by (intros E; by apply (Hw s e)). done.
  - rewrite IHe, bool_decide_eq_false_2 by (intros E; by apply (Hp e)). done.
Qed.

(** What a client makes of an error that a handler reports. *)
Definition remote_err (e : err) : err :=
  match error_code e ≫= registered with
  | Some e' => EPermanent e'
  | None => EMsg "HTTP status code 500"
  end.

Lemma error_code_registered e :
  match error_code e with
  | Some c => registered c = Some (err_root e) ∧ err_root e ∈ errorRegistry.*2
  | None => err_root e ∉ errorRegistry.*2
  end.
Proof.
  unfold error_code, errorRegistry. cbn [init_crudlog init_crud RegisterError app list_find]. rewrite !(errors_Is_root e) by done. cbn [snd].
  destruct (err_root e); cbn; (split; [reflexivity|set_solver]) || set_solver.
Qed.

(** A reply that nothing was written to yet. *)
Definition fresh_reply (w : rwriter) : Prop := wr_sent w = None ∧ wr_body w = [].

Definition error_body (e : err) (code : string) `{ErrorTexts} : list chunk :=
  [CJson (JObj [("message", JStr (Error e)); ("code", JStr code)])].

Lemma UnwrapError_code `{ErrorTexts} e c :
  UnwrapError (mkResponse 400 true (error_body e c)) =
    match registered c with Some e' => EPermanent e' | None => status_error 400 end.
Proof. done. Qed.

Lemma HTTPError_run `{ErrorTexts} e w :
  fresh_reply w → ∃ w', HTTPError e w = (Ok tt, w') ∧ UnwrapError (finish w') = remote_err e ∧ rs_status (finish w') ≠ 200.
Proof.
  intros [Hs Hb]. unfold HTTPError, set_ctype, WriteHeader, write. m_unfold. unfold remote_err.
  pose proof (error_code_registered e) as Hc.
  destruct (error_code e) as [c|]; cbn [wr_sent wr_json wr_body]; rewrite Hs, Hb; cbn [wr_sent wr_json wr_body app];
    (eexists; split; [reflexivity|]).
  - destruct Hc as [Hc _]. change (finish _) with (mkResponse 400 true (error_body e c)).
    rewrite UnwrapError_code. cbn [mbind option_bind]. by rewrite Hc.
  - change (finish _) with (mkResponse 500 true (error_body e "")). done.
Qed.

Lemma remote_err_horizon e : errors_Is (remote_err e) ErrHorizon = errors_Is e ErrHorizon.
Proof.
  unfold remote_err. pose proof (error_code_registered e) as Hc. rewrite (errors_Is_root e) by done.
  destruct (error_code e) as [c|]; cbn [mbind option_bind].
  - destruct Hc as [Hc Hin]. rewrite Hc. cbn [errors_Is]. rewrite bool_decide_eq_false_2 by done. cbn [orb]. rewrite (errors_Is_root (err_root e)) by done.
    f_equal. assert (Hr : err_root (err_root e) = err_root e) by (clear; induction e; done). by rewrite Hr.
  - rewrite (bool_decide_eq_false_2 (err_root e = ErrHorizon)); [done|]. intros E. apply Hc. rewrite E. cbn. set_solver.
Qed.

(** The outcome of a call at the other end of the connection. *)
Definition over_http {P A} (out : res A * P) : res A * P :=
  match out with
  | (Ok a, s) => (Ok a, s)
  | (Err e, s) => (Err (remote_err e), s)
  | (Panic _, s) => (Err (ENet "EOF"), s)
  | (Hang, s) => (Hang, s)
  end.

