(* ===== verification/RemoteLog.v ===== *)
(** * The log over HTTP

    [crudlog/remote.go]: the server side of a log source ([handleSnapshot],
    [handleSubscribe]) and the remote source that followers and gateways use,
    with its retries; then what a follower sees of a datastore through them. *)

From Stdlib Require Import Ascii.
From S2P Require Import Prelude GoStrings Sql SqlText Sqlite Net Model Crud CrudSpec CrudLog CrudLogSpec Follow Http.
Local Open Scope string_scope.
Local Open Scope Z_scope.

(** ** Snapshots as JSON *)
Definition marshal_snapshot (snap : memSnapshot) : res json :=
  items ← res_map json_Marshal (Items snap);
  mret (JObj [("seq", JNum (SeqNum snap)); ("items", JArr items)]).

(** The items are decoded without their type. *)
Definition unmarshal_snapshot (j : json) : res memSnapshot :=
  match j with
  | JNull => Ok (mkSnapshot 0 [])
  | JObj l =>
      seq ← get_uint64 (jfield l "seq");
      items ← match jfield l "items" with
              | JNull => Ok []
              | JArr items => Ok items
              | _ => Err json_type_error
              end;
      mret (mkSnapshot seq (OJson <$> items))
  | _ => Err json_type_error
  end.

(** ** The server *)
Definition apiURLSnapshot : string := "/api/v1/log/snapshot".
Definition apiURLSubscribe : string := "/api/v1/log/subscribe".

Section Handler.
Context `{ErrorTexts} {P EP : Type} `{SRC : LogSource P EP}.

Definition handleSnapshot (env : EP) : handler P := λ req,
  r ← try (on_fst (src_Snapshot env));
  match r with
  | inr e => on_snd (HTTPError e)
  | inl None => panic "interface conversion: interface is nil"
  | inl (Some snap) =>
      _ ← on_snd (set_ctype true);
      match marshal_snapshot snap with
      | Ok j => on_snd (write (CJson j))
      | _ => mret tt
      end
  end.

(** Up to the start of the stream: [None] when the reply is complete. *)
Definition handleSubscribe (env : EP) (req : request) : M (P * rwriter) (option src_sub) :=
  match ParseSequence (FormValue req "start") with
  | Ok start =>
      r ← try (on_fst (src_Subscribe env start));
      match r with
      | inr e => _ ← on_snd (HTTPError e); mret None
      | inl sub => _ ← on_snd (set_ctype true); mret (Some sub)
      end
  | _ => _ ← on_snd (http_Error "Bad start parameter" 400); mret None
  end.

(** One turn of the loop: an operation becomes a line, followed by an empty
    one; an operation that cannot be encoded ends the reply. *)
Definition stream_op `{Encoding} (o : op) : res (list chunk) :=
  j ← op_MarshalJSON o; mret [CJson j; CText ""].

(** The two routes. *)
Definition log_routes (hapi : API P) (env : EP) : list (string * handler P) :=
  [(apiURLSnapshot, WithAuth hapi "read-log" (handleSnapshot env));
   (apiURLSubscribe, WithAuth hapi "read-log" (λ req, _ ← handleSubscribe env req; mret tt))].

(** A subscription request: a complete reply, or an open stream. *)
Definition serve_subscribe (hapi : API P) (env : EP) (req : request) : M P (response + src_sub) := λ s,
  match guard_auth hapi "read-log" None (handleSubscribe env) req (s, new_rwriter) with
  | (Ok (Some sub), (s', _)) => (Ok (inr sub), s')
  | (Ok None, (s', w)) => (Ok (inl (finish w)), s')
  | (Err e, (s', w)) => (Ok (inl (finish w)), s')
  | (Panic p, (s', _)) => (Err (ENet "EOF"), s')
  | (Hang, (s', _)) => (Hang, s')
  end.

End Handler.

(** ** Retries *)

(** [errors.Is] with a newly allocated error: no error of a chain is that
    object, and the types in question have no [Is] method. *)
Definition errors_Is_new (e : err) : bool := false.

Definition maybeTempError (e : err) : err :=
  if errors_Is_new e (* &url.Error{} *) then e
  else if errors_Is_new e (* &net.DNSError{} *) then e
  else EPermanent e.

(** [errors.As(err, &permanent)]: the error inside the first permanent one. *)
Fixpoint as_permanent (e : err) : option err :=
  match e with
  | EPermanent e => Some e
  | EWrap _ e => as_permanent e
  | _ => None
  end.

Section Retry.
Context {S E A : Type}.

(** [backoff.Retry] with a policy that never stops: [envs] is what the
    environment decides about each attempt; at the end of the list the call is
    still waiting. *)
Fixpoint Retry (attempt : E → M S A) (envs : list E) : M S A :=
  match envs with
  | [] => hang
  | env :: envs =>
      r ← try (attempt env);
      match r with
      | inl a => mret a
      | inr e => match as_permanent e with Some e => fail e | None => Retry attempt envs end
      end
  end.

Definition with_temp_error (m : M S A) : M S A := λ s,
  match m s with (Err e, s') => (Err (maybeTempError e), s') | p => p end.

End Retry.

(** ** remotePubsubClient *)
Section Remote.
Context `{ErrorTexts} {P EP : Type} `{SRC : LogSource P EP}.
Context (hapi : API P) (username password : string).

(** What the environment decides about one attempt: the network fails, or the
    server answers. *)
Inductive net_env : Type := NetDown (e : string) | NetUp (e : EP).

Definition remote_request (path : string) (query : gmap string (list string)) : request :=
  mkRequest "GET" path query (if bool_decide (username = "") then None else Some (username, password)) None None.

Definition doSnapshot (uri : string) (env : net_env) : M P memSnapshot :=
  let net req := match env with
                 | NetDown e => fail (ENet e)
                 | NetUp env => serve (mux_handler (log_routes hapi env)) req
                 end in
  r ← Do (RoundTrip username password net) "GET" (JoinURL [uri; apiURLSnapshot]) ∅ None (Some unmarshal_snapshot);
  mret (default (mkSnapshot 0 []) r).

Definition doSubscribe (uri : string) (env : net_env) (start : Z) : M P src_sub :=
  let path := JoinURL [uri; apiURLSubscribe] in
  match env with
  | NetDown e => fail (ENet e)
  | NetUp env =>
      r ← (if bool_decide (path = apiURLSubscribe)
           then serve_subscribe hapi env (remote_request path {["start" := [Sequence_String start]]})
           else mret (inl (mkResponse 404 false [CText ("404 page not found" ++ String "010" "")])));
      match r with
      | inl resp => fail (UnwrapError resp)
      | inr sub => mret sub
      end
  end.

Definition remote_Snapshot (uri : string) (envs : list net_env) : M P (option memSnapshot) :=
  snap ← Retry (λ env, with_temp_error (doSnapshot uri env)) envs; mret (Some snap).

Definition remote_Subscribe (uri : string) (envs : list net_env) (start : Z) : M P src_sub :=
  Retry (λ env, with_temp_error (doSubscribe uri env start)) envs.

(** The goroutine of [loop]: what it sends to the channel of [Notify] before it
    closes it.  Empty lines are skipped; a line that does not fit the buffer of
    the scanner, or cannot be decoded, ends the subscription.  [fits] says
    whether the text of a document is shorter than that buffer. *)
Fixpoint remote_loop `{Encoding} (fits : json → bool) (lines : list chunk) : list op :=
  match lines with
  | [] => []
  | CText s :: lines => if bool_decide (s = "") then remote_loop fits lines else []
  | CJson j :: lines =>
      if fits j then match op_UnmarshalJSON j with Ok o => o :: remote_loop fits lines | _ => [] end else []
  end.

(** The remote source.  Closing a subscription closes the stream; the server
    notices when it next writes to it. *)
Definition remote_source (uri : string) : LogSource P (list net_env) :=
  {| src_sub := src_sub; src_Snapshot := remote_Snapshot uri; src_Subscribe := remote_Subscribe uri;
     src_Close := λ _, mret tt |}.

End Remote.
Arguments NetDown {EP} _.
Arguments NetUp {EP} _.

(** ** What a follower sees *)
Section Client.
Context `{ErrorTexts} {P EP : Type} `{SRC : LogSource P EP}.
Context (hapi : API P) (username password : string).

(** The server lets the client read the log in this state. *)
Definition log_reader (s : P) : Prop :=
  ∀ path query, ∃ creds, api_authn hapi (remote_request username password path query) s = (Ok creds, s) ∧
                         api_authz hapi creds "read-log" = true.

Lemma Retry_permanent {E A} (attempt : E → M P A) env envs s :
  (∀ e s', attempt env s = (Err e, s') → ∃ e', e = EPermanent e') →
  Retry attempt (env :: envs) s =
    match attempt env s with (Err e, s') => (Err (default e (as_permanent e)), s') | out => out end.
Proof.
  intros Hp. cbn [Retry]. unfold try. m_unfold. destruct (attempt env s) as [[a|e|p|] s1] eqn:Ha; try done.
  by destruct (Hp e s1 eq_refl) as [e' ->].
Qed.

Lemma Retry_temp {E A} (m : E → M P A) env envs s :
  Retry (λ env, with_temp_error (m env)) (env :: envs) s = m env s.
Proof.
  rewrite Retry_permanent.
  - unfold with_temp_error. destruct (m env s) as [[] ?]; done.
  - unfold with_temp_error. destruct (m env s) as [[] ?]; intros; simplify_eq. by eexists.
Qed.

Lemma serve_subscribe_run env start s :
  log_reader s → uint64_ok start = true →
  serve_subscribe hapi env (remote_request username password apiURLSubscribe {["start" := [Sequence_String start]]}) s =
    match src_Subscribe env start s with
    | (Ok sub, s') => (Ok (inr sub), s')
    | (Err e, s') => (Ok (inl (finish (HTTPError e new_rwriter).2)), s')
    | (Panic _, s') => (Err (ENet "EOF"), s')
    | (Hang, s') => (Hang, s')
    end.
Proof.
  intros Hauth Hst. unfold serve_subscribe, guard_auth, handleSubscribe.
  destruct (Hauth apiURLSubscribe {["start" := [Sequence_String start]]}) as (creds & Ha & Hz).
  set (req := remote_request _ _ _ _) in *. unfold try, on_fst, on_snd. m_unfold. cbn [fst snd]. rewrite Ha. cbn [fst snd]. rewrite Hz.
  change (FormValue req "start") with (Sequence_String start).
  destruct (ParseSequence_roundtrip start Hst) as [-> _]. cbn [fst snd].
  destruct (src_Subscribe env start s) as [[sub|e|p|] s1]; cbn [fst snd]; [done| |done..].
  destruct (HTTPError_run e new_rwriter) as (w' & Hw & _); [done|]. rewrite Hw. done.
Qed.

Lemma doSubscribe_run env start s :
  log_reader s → uint64_ok start = true →
  doSubscribe hapi username password "" (NetUp env) start s = over_http (src_Subscribe env start s).
Proof.
  intros Hauth Hst. unfold doSubscribe. change (JoinURL [""; apiURLSubscribe]) with apiURLSubscribe.
  rewrite bool_decide_eq_true_2 by done. cbv zeta. unfold mbind at 1, M_bind at 1. rewrite serve_subscribe_run by done.
  destruct (src_Subscribe env start s) as [[sub|e|p|] s1]; try done.
  destruct (HTTPError_run e new_rwriter) as (w' & Hw & Hu & _); [done|]. rewrite Hw. cbn. unfold fail. by rewrite Hu.
Qed.

End Client.

(** ** Properties *)


#[local] Existing Instance model_encoding.

#[local] Existing Instance quiet_texts.


(** What the server streams is what the subscriber receives: the lines
    written for a sequence of operations arrive, in order and without loss, as
    equivalent operations, followed by whatever the lines after them give. *)
Theorem remote_stream ord fuel fits ops :
  Forall (λ o, obj_wire_ok (op_value o) = true ∧ uint64_ok (op_seq o) = true ∧ (- 2 ^ 63 ≤ op_typ o < 2 ^ 63) ∧
               ∀ j, op_MarshalJSON o = Ok j → fits j = true) ops →
  ∃ lines ops', res_map stream_op ops = Ok lines ∧
    (∀ more, remote_loop fits (app (mjoin lines) more) = app ops' (remote_loop fits more)) ∧
    Forall2 (op_eqv (EL := model_encoding_laws ord fuel)) ops ops'.
Proof.
  induction 1 as [|o ops (Hw & Hs & Ht & Hf) _ (lines & ops' & Hl & Hd & Heq)]; [by exists [], []|].
  destruct (op_json_roundtrip (EL := model_encoding_laws ord fuel) o Hw Hs Ht) as (j & o' & Hm & Hu & He & _).
  exists ([CJson j; CText ""] :: lines), (o' :: ops'). cbn [res_map].
  assert (Hso : stream_op o = Ok [CJson j; CText ""]) by (unfold stream_op; by rewrite Hm). rewrite Hso, Hl.
  split; [done|]. split; [|by constructor]. intros more.
  change (app (mjoin ([CJson j; CText ""] :: lines)) more) with (CJson j :: CText "" :: app (mjoin lines) more).
  cbn [remote_loop]. by rewrite (Hf j Hm), Hu, bool_decide_eq_true_2, Hd by done.
Qed.

Lemma remote_stream_witness :
  let o := mkOp 3 OpCreate 9 sample_peer in
  ∃ lines ops', res_map stream_op [o] = Ok lines ∧
    (∀ more, remote_loop (λ _, true) (app (mjoin lines) more) = app ops' (remote_loop (λ _, true) more)) ∧
    Forall2 (op_eqv (EL := model_encoding_laws sample_ord 1)) [o] ops'.
Proof.
  apply (remote_stream sample_ord 1 (λ _, true) [mkOp 3 OpCreate 9 sample_peer]). by repeat constructor.
Defined.

(** C35: a failed connection ends replication: a follower of a remote source
    whose first attempt to subscribe meets a network error stops with that
    error, however the later attempts of the retry policy would have gone and
    whatever rounds would have followed. *)
Theorem transport_error_ends_follow `{ErrorTexts} {P EP F EF} `{SRC : LogSource P EP} `{SK : LogSink F EF}
    hapi username password (fenv : follow_env (list net_env) EF) e envs evs rounds (s : P) (k k' : F) seq :
  sink_LatestSequence (fe_latest fenv) k = (Ok seq, k') → fe_subscribe fenv = NetDown (EP := EP) e :: envs →
  Follow (H := remote_source hapi username password "") ((fenv, evs) :: rounds) (s, k) =
    (Err (EWrap "subscription error" (ENet e)), (s, k')).
Proof.
  intros Hseq Hsub. cbn [Follow]. unfold doFollow, follow_start, on_snd, on_fst. m_unfold. cbn [fst snd]. rewrite Hseq.
  cbn [fst snd]. rewrite Hsub. cbn [src_Subscribe remote_source]. unfold remote_Subscribe. rewrite Retry_temp. done.
Qed.

Lemma transport_error_ends_follow_witness :
  let net := [NetDown "connection refused"; NetUp tx_ok] in
  let fenv := FollowEnv tx_ok net net tx_ok net tx_ok in
  Follow (H := remote_source (SRC := sql_source (H := model_crud sample_ord 1)) (mkAPI NilAuthn NilAuthz) "" "" "")
    (H0 := sql_sink (H := model_crud sample_ord 1)) [(fenv, []); (fenv, [])] (Wrap initial_db, Wrap initial_db) =
    (Err (EWrap "subscription error" (ENet "connection refused")), (Wrap initial_db, Wrap initial_db)).
Proof.
  apply (transport_error_ends_follow (SRC := sql_source (H := model_crud sample_ord 1)) (SK := sql_sink (H := model_crud sample_ord 1))
    (mkAPI NilAuthn NilAuthz) "" "" (FollowEnv tx_ok [NetDown "connection refused"; NetUp tx_ok]
      [NetDown "connection refused"; NetUp tx_ok] tx_ok [NetDown "connection refused"; NetUp tx_ok] tx_ok)
    "connection refused" [NetUp tx_ok] [] _ (Wrap initial_db) (Wrap initial_db) _ 0%Z).
  - vm_compute. reflexivity.
  - reflexivity.
Defined.

(** Snapshots lose the types of their objects on the way: no item of a decoded
    snapshot is an object of the model. *)
Lemma snapshot_untyped j snap : unmarshal_snapshot j = Ok snap → Forall (λ o, typed o = false) (Items snap).
Proof.
  assert (Hf : ∀ l, Forall (λ o, typed o = false) (OJson <$> l)) by (intros l; apply Forall_fmap, Forall_true; done).
  destruct j; cbn; try done; [intros; simplify_eq; constructor|].
  m_unfold. destruct (get_uint64 _); try done. destruct (jfield l "items"); intros; simplify_eq; try done; apply Hf.
Qed.
