(* ===== verification/Stream.v ===== *)
(** * The stream of a remote subscription

    The goroutines of [crudlog/remote.go]: the loop of [handleSubscribe] that
    turns the operations of a subscription into lines of the reply, and on the
    other side the two goroutines of [remoteSubscription.loop], one that scans
    the lines and sends operations to the channel of [Notify], and one that
    closes that channel when the scanner is done or the context is.  One turn of
    each is a function; [Cluster] interleaves them with everything else. *)

From Stdlib Require Import Ascii.
From S2P Require Import Prelude GoStrings Sql SqlText Sqlite Net Model Crud CrudSpec CrudLog CrudLogSpec Follow Http RemoteLog.
Local Open Scope string_scope.

(** The body of a reply: what was written to it and not yet read; whether the
    handler has returned; whether the client has closed its end. *)
Record pipe : Type := Pipe { pp_lines : list chunk; pp_ended : bool; pp_gone : bool }.

Definition new_pipe : pipe := Pipe [] false false.
Definition end_pipe (pp : pipe) : pipe := Pipe (pp_lines pp) true (pp_gone pp).
Definition leave_pipe (pp : pipe) : pipe := Pipe (pp_lines pp) (pp_ended pp) true.

(** ** The server

    One turn of the loop of [handleSubscribe]: the next operation of the channel
    becomes lines of the reply.  [None]: an operation that cannot be encoded, or
    a write that fails ([written] is what the network decides), ends the
    handler. *)
Definition handle_iter `{Encoding} (written : bool) (c : conn) : M pipe (option conn) :=
  match cn_out c with
  | [] => hang
  | o :: rest =>
      match stream_op o with
      | Ok lines =>
          if written then
            _ ← modify (λ pp, Pipe (app (pp_lines pp) lines) (pp_ended pp) (pp_gone pp));
            mret (Some (Conn (cn_sub c) (cn_preload c) (cn_hand c) rest))
          else mret None
      | _ => mret None
      end
  end.

(** ** The client

    [remoteSubscription] after [Notify]: whether the scanning goroutine runs,
    the operation that it is sending, the channel and whether it is closed. *)
Record client : Type := Client {
  rs_pipe : nat;
  rs_scanning : bool;
  rs_hand : option op;
  rs_ch : list op;
  rs_closed : bool }.

Definition remote_Notify (h : nat) : client := Client h true None [] false.

Section Loop.
Context `{EN : Encoding} (fits : json → bool).

(** The scanning goroutine, one line: empty lines are skipped; a line that does
    not fit the buffer of the scanner or cannot be decoded, and the end of the
    reply, end it. *)
Definition scan_line : M (client * pipe) unit := λ '(c, pp),
  let stop pp := (Ok tt, (Client (rs_pipe c) false None (rs_ch c) (rs_closed c), pp)) in
  if rs_scanning c then
    match rs_hand c with
    | Some _ => (Hang, (c, pp))
    | None =>
        match pp_lines pp with
        | [] => if pp_ended pp then stop pp else (Hang, (c, pp))
        | CText s :: lines =>
            let pp := Pipe lines (pp_ended pp) (pp_gone pp) in
            if bool_decide (s = "") then (Ok tt, (c, pp)) else stop pp
        | CJson j :: lines =>
            let pp := Pipe lines (pp_ended pp) (pp_gone pp) in
            if fits j then
              match op_UnmarshalJSON j with
              | Ok o => (Ok tt, (Client (rs_pipe c) true (Some o) (rs_ch c) (rs_closed c), pp))
              | _ => stop pp
              end
            else stop pp
        end
    end
  else (Hang, (c, pp)).

(** It sends the operation that it holds. *)
Definition send_op : M (client * pipe) unit := λ '(c, pp),
  match rs_hand c with
  | Some o =>
      if rs_closed c then (Panic "send on closed channel", (c, pp))
      else if bool_decide (Z.of_nat (length (rs_ch c)) < chanBufSize)%Z
      then (Ok tt, (Client (rs_pipe c) (rs_scanning c) None (app (rs_ch c) [o]) false, pp))
      else (Hang, (c, pp))
  | None => (Hang, (c, pp))
  end.

(** A read of the reply fails: the scanner stops at the end of what it has. *)
Definition break_line : M (client * pipe) unit := λ '(c, pp),
  match rs_scanning c, rs_hand c with
  | true, None => (Ok tt, (Client (rs_pipe c) false None (rs_ch c) (rs_closed c), pp))
  | _, _ => (Hang, (c, pp))
  end.

(** [loop] waits for the scanner, or for the context; then it closes the
    channel. *)
Definition loop_done : M (client * pipe) unit := λ '(c, pp),
  match rs_scanning c, rs_hand c, rs_closed c with
  | false, None, false => (Ok tt, (Client (rs_pipe c) false None (rs_ch c) true, pp))
  | _, _, _ => (Hang, (c, pp))
  end.

Definition loop_cancel : M (client * pipe) unit := λ '(c, pp),
  if rs_closed c then (Hang, (c, pp))
  else (Ok tt, (Client (rs_pipe c) (rs_scanning c) (rs_hand c) (rs_ch c) true, leave_pipe pp)).

(** The steps of the scanning goroutine. *)
Inductive scan_step : client * pipe → client * pipe → Prop :=
| do_scan x x' : scan_line x = (Ok tt, x') → scan_step x x'
| do_send x x' : send_op x = (Ok tt, x') → scan_step x x'.

(** ** What the client still receives *)
Definition incoming (c : client) (pp : pipe) : list op :=
  app (rs_ch c) (app (option_list (rs_hand c)) (if rs_scanning c then remote_loop fits (pp_lines pp) else [])).

(** Lines that do not end the subscription. *)
Definition line_ok (l : chunk) : Prop :=
  match l with
  | CText s => s = ""
  | CJson j => fits j = true ∧ ∃ o, op_UnmarshalJSON j = Ok o
  end.

Lemma remote_loop_app l1 l2 : Forall line_ok l1 → remote_loop fits (app l1 l2) = app (remote_loop fits l1) (remote_loop fits l2).
Proof.
  induction 1 as [|l l1 Hl _ IH]; [done|]. destruct l as [s|j]; cbn [app remote_loop].
  - cbn in Hl. by rewrite bool_decide_eq_true_2.
  - destruct Hl as [-> [o ->]]. cbn. by rewrite IH.
Qed.

Lemma scan_line_incoming c pp c' pp' :
  Forall line_ok (pp_lines pp) → scan_line (c, pp) = (Ok tt, (c', pp')) →
  incoming c' pp' = incoming c pp ∧ rs_pipe c' = rs_pipe c ∧ rs_closed c' = rs_closed c ∧ (rs_scanning c' = true → rs_scanning c = true) ∧
  Forall line_ok (pp_lines pp') ∧ pp_ended pp' = pp_ended pp ∧ pp_gone pp' = pp_gone pp.
Proof.
  intros Hl Hrun. unfold scan_line in Hrun. destruct c as [h [] [o|] ch cl], pp as [lines en gn]; cbn in Hrun, Hl; [by inv_run| |by inv_run..].
  destruct lines as [|[s|j] lines].
  - destruct en; inv_run. by split_and!.
  - apply Forall_cons in Hl as [-> Hl]. rewrite bool_decide_eq_true_2 in Hrun by done. inv_run.
    unfold incoming. cbn. by split_and!.
  - apply Forall_cons in Hl as [[Hf [o Hu]] Hl]. rewrite Hf, Hu in Hrun. inv_run.
    unfold incoming. cbn. rewrite Hf, Hu. by split_and!.
Qed.

Lemma send_op_incoming c pp c' pp' :
  send_op (c, pp) = (Ok tt, (c', pp')) →
  incoming c' pp' = incoming c pp ∧ rs_pipe c' = rs_pipe c ∧ rs_scanning c' = rs_scanning c ∧ pp' = pp.
Proof.
  intros Hrun. unfold send_op in Hrun. destruct c as [h sc [o|] ch cl]; cbn in Hrun; [|by inv_run]. destruct cl; [by inv_run|].
  case_bool_decide; inv_run. unfold incoming. cbn. split_and!; [|done..]. by rewrite <- app_assoc.
Qed.

(** Both goroutines at work: as long as there is room, everything that was
    written reaches the channel. *)
Lemma scan_all c pp :
  rs_scanning c = true → rs_closed c = false → Forall line_ok (pp_lines pp) →
  (Z.of_nat (length (incoming c pp)) ≤ chanBufSize)%Z →
  rtc scan_step (c, pp) (Client (rs_pipe c) true None (incoming c pp) false, Pipe [] (pp_ended pp) (pp_gone pp)).
Proof.
  destruct c as [h sc hand ch cl], pp as [lines en gn]. cbn. intros -> -> Hl. revert hand ch.
  assert (Hsend : ∀ hand ch lines, (Z.of_nat (length (incoming (Client h true hand ch false) (Pipe lines en gn))) ≤ chanBufSize)%Z →
    rtc scan_step (Client h true hand ch false, Pipe lines en gn) (Client h true None (app ch (option_list hand)) false, Pipe lines en gn)).
  { intros [o|] ch ls Hb; [|cbn; rewrite app_nil_r; apply rtc_refl]. apply rtc_once, do_send. cbn.
    unfold incoming in Hb. rewrite !length_app in Hb. cbn in Hb. by rewrite bool_decide_eq_true_2 by lia. }
  induction Hl as [|l lines Hlo Hl IH]; intros hand ch Hb.
  { unfold incoming. cbn. rewrite app_nil_r. by apply Hsend. }
  etrans; [by apply Hsend|]. destruct l as [s|j]; cbn in Hlo.
  - subst s. eapply rtc_l; [by apply do_scan|]. unfold incoming in Hb |- *. cbn in Hb |- *.
    specialize (IH None (app ch (option_list hand))). unfold incoming in IH. cbn in IH. rewrite <- app_assoc in IH. by apply IH.
  - destruct Hlo as [Hf [o Hu]]. eapply rtc_l; [apply do_scan; cbn; by rewrite Hf, Hu|].
    specialize (IH (Some o) (app ch (option_list hand))). unfold incoming in Hb, IH |- *. cbn [rs_ch rs_hand rs_scanning pp_lines remote_loop] in Hb, IH |- *.
    rewrite Hf, Hu in Hb |- *. cbn [option_list app] in IH |- *. rewrite <- app_assoc in IH. by apply IH.
Qed.

End Loop.

(** ** The lines of operations *)
Section Lines.
Context `{CR : CRUD} {CL : CrudLaws} `{EN : Encoding} {EL : EncodingLaws} (fits : json → bool).

(** The line of an operation fits the scanner's buffer. *)
Definition op_fits (o : op) : Prop := ∀ j, op_MarshalJSON o = Ok j → fits j = true.

Lemma op_fits_eqv o o' : op_eqv o o' → op_fits o → op_fits o'.
Proof.
  intros (Hs & Ht & Hm & _) Hf j Hj. apply Hf. rewrite <- Hj. unfold op_MarshalJSON, serialize. by rewrite Hs, Ht, Hm.
Qed.

Lemma op_kind_range o k : op_kind_of (op_typ o) = Some k → (- 2 ^ 63 ≤ op_typ o < 2 ^ 63)%Z.
Proof. unfold op_kind_of, OpCreate, OpUpdate, OpDelete. repeat case_bool_decide; intros; simplify_eq; lia. Qed.

(** What the server writes for an operation arrives as one like it. *)
Lemma stream_op_run o k :
  op_wire o → op_fits o → uint64_ok (op_seq o) = true → op_kind_of (op_typ o) = Some k →
  ∃ lines o', stream_op o = Ok lines ∧ Forall (line_ok fits) lines ∧ remote_loop fits lines = [o'] ∧ op_eqv o o'.
Proof.
  intros Hw Hf Hs Hk. destruct (op_json_roundtrip o Hw Hs (op_kind_range o k Hk)) as (j & o' & Hm & Hu & Heq & _).
  exists [CJson j; CText ""], o'. unfold stream_op. m_unfold. rewrite Hm. split_and!; [done| | |done].
  - repeat (apply Forall_cons_2; [cbn; eauto|]). constructor.
  - cbn. by rewrite (Hf j Hm), Hu.
Qed.

End Lines.

(** ** Cancellation *)
Section Cancel.
Context `{EN : Encoding} (fits : json → bool).

Definition blocked (x : client * pipe) : Prop := ∀ y, ¬ scan_step fits x y.

Definition scan_work (x : client * pipe) : nat :=
  2 * length (pp_lines x.2) + length (option_list (rs_hand x.1)) + (if rs_scanning x.1 then 1 else 0).

Lemma scan_step_work x y : scan_step fits x y → (scan_work y < scan_work x)%nat.
Proof.
  intros [[c pp] x' H|[c pp] x' H]; destruct c as [h sc hand ch cl], pp as [lines en gn]; unfold scan_line, send_op in H; cbn in H.
  - destruct sc; [|by inv_run]. destruct hand; [by inv_run|]. destruct lines as [|[s|j] lines]; unfold scan_work; cbn.
    + destruct en; inv_run. cbn. lia.
    + case_bool_decide; inv_run; cbn; lia.
    + destruct (fits j); [destruct (op_UnmarshalJSON j)|]; inv_run; cbn; lia.
  - destruct hand as [o|]; [|by inv_run]. destruct cl; [by inv_run|]. case_bool_decide; inv_run. unfold scan_work. cbn. lia.
Qed.

Lemma scan_step_dec x : (∃ y, scan_step fits x y) ∨ blocked x.
Proof.
  destruct (scan_line fits x) as [[[]|e|p|] y] eqn:E1; [left; exists y; by apply do_scan|..].
  all: destruct (send_op x) as [[[]|e'|p'|] y'] eqn:E2; [left; exists y'; by apply do_send|..].
  all: right; intros z Hz; inversion Hz; congruence.
Qed.

(** The scanner works until it has to wait. *)
Lemma scan_blocks x : ∃ y, rtc (scan_step fits) x y ∧ blocked y.
Proof.
  remember (scan_work x) as n eqn:Hn. revert x Hn. induction n as [n IH] using lt_wf_ind. intros x ->.
  destruct (scan_step_dec x) as [[y Hy]|Hb]; [|by exists x].
  destruct (IH _ (scan_step_work x y Hy) y eq_refl) as (z & Hz & Hb). exists z. split; [by eapply rtc_l|done].
Qed.

(** What the scanner does keeps the client's view. *)
Definition scan_inv (ops : list op) (x : client * pipe) : Prop :=
  incoming fits x.1 x.2 = ops ∧ Forall (line_ok fits) (pp_lines x.2) ∧ rs_closed x.1 = false ∧
  (Z.of_nat (length (rs_ch x.1)) ≤ chanBufSize)%Z ∧ (rs_scanning x.1 = false → rs_hand x.1 = None).

Lemma scan_line_local c pp c' pp' :
  scan_line fits (c, pp) = (Ok tt, (c', pp')) → rs_ch c' = rs_ch c ∧ (rs_scanning c' = false → rs_hand c' = None).
Proof.
  intros H. destruct c as [h [] [o|] ch cl], pp as [[|[s|j] lines] en gn]; unfold scan_line in H; cbn in H; try by inv_run.
  - destruct en; by inv_run.
  - case_bool_decide; by inv_run.
  - destruct (fits j); [destruct (op_UnmarshalJSON j)|]; by inv_run.
Qed.

Lemma scan_step_inv ops x y : scan_inv ops x → scan_step fits x y → scan_inv ops y.
Proof.
  intros Hinv Hstep. revert Hinv. unfold scan_inv.
  destruct Hstep as [[c pp] [c' pp'] H|[c pp] [c' pp'] H]; cbn [fst snd]; intros (Hin & Hl & Hcl & Hb & Hs).
  - destruct (scan_line_incoming fits c pp c' pp' Hl H) as (Hi & _ & Hcl' & _ & Hl' & _). rewrite Hi, Hcl'. split_and!; try done.
    + by rewrite (proj1 (scan_line_local _ _ _ _ H)).
    + exact (proj2 (scan_line_local _ _ _ _ H)).
  - destruct (send_op_incoming fits c pp c' pp' H) as (Hi & _ & Hsc & ->). rewrite Hi. split_and!; try done.
    all: unfold send_op in H; destruct (rs_hand c); [|by inv_run]; destruct (rs_closed c); [by inv_run|].
    all: case_bool_decide; inv_run; try done. rewrite length_app. cbn. lia.
Qed.

Lemma blocked_sends ops x :
  scan_inv ops x → (chanBufSize < Z.of_nat (length ops))%Z → blocked x → is_Some (rs_hand x.1).
Proof.
  intros (Hin & Hl & Hcl & Hb & Hs) Hlen Hbl. destruct x as [[h sc hand ch cl] [lines en gn]]; cbn in *.
  destruct hand as [o|]; [by eexists|]. exfalso. unfold incoming in Hin. cbn in Hin. destruct sc.
  - destruct lines as [|l lines]; [subst ops; rewrite app_nil_r in Hlen; cbn in Hlen; lia|].
    inversion Hl as [|? ? Hlo]; subst. destruct l as [s|j]; cbn in Hlo.
    + subst s. eapply Hbl. by apply do_scan.
    + destruct Hlo as [Hf [o Hu]]. eapply Hbl. apply do_scan. cbn. by rewrite Hf, Hu.
  - rewrite app_nil_r in Hin. subst ops. lia.
Qed.

(** C37: a follower or gateway that stops while the channel of its subscription
    is full crashes: when more operations have been streamed than the channel
    holds and nobody receives any more (a failed application has ended
    [doFollow], and its error cancels the context), the scanning goroutine ends
    up waiting to send; [loop] then closes the channel, and the waiting send
    panics. *)
Theorem cancel_crashes_client h lines en gn :
  Forall (line_ok fits) lines → (chanBufSize < Z.of_nat (length (remote_loop fits lines)))%Z →
  (∃ x, rtc (scan_step fits) (remote_Notify h, Pipe lines en gn) x ∧ blocked x) ∧
  ∀ x, rtc (scan_step fits) (remote_Notify h, Pipe lines en gn) x → blocked x →
    ∃ x', loop_cancel x = (Ok tt, x') ∧ (send_op x').1 = Panic "send on closed channel".
Proof.
  intros Hl Hlen. split; [apply scan_blocks|]. intros x Hx Hb.
  assert (Hinv : scan_inv (remote_loop fits lines) x).
  { assert (Hinit : scan_inv (remote_loop fits lines) (remote_Notify h, Pipe lines en gn)) by done.
    clear -Hx Hinit. induction Hx as [|x y z Hxy _ IH]; [done|]. apply IH. by eapply scan_step_inv. }
  destruct (blocked_sends _ _ Hinv Hlen Hb) as [o Ho]. destruct Hinv as (_ & _ & Hcl & _).
  destruct x as [c pp]; cbn [fst snd] in *. unfold loop_cancel. rewrite Hcl. eexists. split; [done|]. cbn. by rewrite Ho.
Qed.

End Cancel.

#[local] Existing Instance model_encoding.

Lemma cancel_crashes_client_witness :
  let line := match op_MarshalJSON (mkOp 3 OpCreate 9 sample_peer) with Ok j => CJson j | _ => CText "" end in
  let x0 := (remote_Notify 0, Pipe (replicate 1001 line) false false) in
  ∃ x x', rtc (scan_step (λ _, true)) x0 x ∧ loop_cancel x = (Ok tt, x') ∧ (send_op x').1 = Panic "send on closed channel".
Proof.
  intros line x0.
  destruct (cancel_crashes_client (λ _, true) 0 (replicate 1001 line) false false) as [(x & Hx & Hb) Hall].
  - apply Forall_replicate. split; [done|]. eexists. vm_compute. reflexivity.
  - vm_compute. reflexivity.
  - destruct (Hall x Hx Hb) as (x' & H1 & H2). by exists x, x'.
Defined.
