(* ===== verification/Locks.v ===== *)
(** * Locks and the connection

    What happens inside a transaction of the datastore, goroutine by goroutine.
    [crudlog/log.go] runs a change under the lock of [dbImpl], on the only
    connection of the pool ([sqlite/sqlite.go] limits it to one), and announces
    it under the lock of [pubsub] with sends that block while a channel is full;
    everything else that uses the database waits for the connection, and a
    subscription that ends waits for the lock of [pubsub].  The other files take
    a transaction as one step: here it is many, and the theorems say when that
    is justified, when transactions can always finish, and how they can stop
    for good. *)

From Stdlib Require Import Ascii.
From S2P Require Import Prelude GoStrings Sql SqlText Sqlite Net Model Crud CrudSpec CrudLog CrudLogSpec Follow Http RemoteLog Stream.
Local Open Scope string_scope.

Section Locks.
Context `{CR : CRUD} {CL : CrudLaws} `{EN : Encoding} {EL : EncodingLaws} (st0 : cstate).

(** The statements of [Apply], up to the announcement: the operation with its
    number. *)
Definition apply_stmts (o : op) : M db op :=
  d ← getS;
  let o := WithSequence o (GetNextSequence d) in
  _ ← ApplyOp o;
  _ ← AppendToLog o;
  _ ← SetSequence (op_seq o);
  mret o.

(** The statements of [Subscribe]. *)
Definition subscribe_stmts (start : Z) : M db (list op) :=
  d ← getS;
  if bool_decide (uint64_wrap (GetSequence d + 1) < start)%Z then fail ErrHorizon else QueryLogSince start.

(** The first part of [Emit]. *)
Definition close_pending : M pubsub unit :=
  p ← getS;
  if bool_decide (0 < length (toClose p))%nat then _ ← each close_chan (toClose p); clear_toClose else mret tt.

(** ** Goroutines

    Where a call on the primary datastore is: [Apply] for its writer, [Subscribe],
    a call of [WithROTransaction] ([LatestSequence], [Snapshot]), or a transaction
    beside the lock ([SQLReader.Find] and the queries of the other packages;
    those that write tables of their own are left out).  Each waits first; [d] is
    what the transaction has written. *)
Inductive task : Type :=
| ApLock (env : tx_env) (o : op)
| ApBegin (env : tx_env) (o : op)
| ApRun (env : tx_env) (o : op)
| ApEmit (env : tx_env) (o : op) (d : db)
| ApSend (env : tx_env) (o : op) (d : db) (rest : list nat)
| ApCommit (env : tx_env) (o : op) (d : db)
| SbLock (env : tx_env) (start : Z)
| SbBegin (env : tx_env) (start : Z)
| SbRun (env : tx_env) (start : Z)
| SbAdd (env : tx_env) (preload : list op)
| SbCommit (env : tx_env) (sub : subscription)
| RoLock (env : tx_env)
| RoBegin (env : tx_env)
| RoRun (env : tx_env)
| TxBegin (env : tx_env)
| TxRun (env : tx_env).

(** A lock is held by who is between its [Lock] and its [Unlock]: the lock of
    [dbImpl] for writing and for reading, the connection, the lock of
    [pubsub]. *)
Definition holds_mx (k : task) : bool :=
  match k with
  | ApBegin _ _ | ApRun _ _ | ApEmit _ _ _ | ApSend _ _ _ _ | ApCommit _ _ _ | SbBegin _ _ | SbRun _ _ | SbAdd _ _ | SbCommit _ _ => true
  | _ => false
  end.
Definition holds_rd (k : task) : bool := match k with RoBegin _ | RoRun _ => true | _ => false end.
Definition holds_cn (k : task) : bool :=
  match k with
  | ApRun _ _ | ApEmit _ _ _ | ApSend _ _ _ _ | ApCommit _ _ _ | SbRun _ _ | SbAdd _ _ | SbCommit _ _ | RoRun _ | TxRun _ => true
  | _ => false
  end.
Definition holds_pm (k : task) : bool := match k with ApSend _ _ _ _ => true | _ => false end.

(** A call that begins; values are those that can be encoded. *)
Definition starting (k : task) : Prop :=
  match k with
  | ApLock _ o => op_wire o
  | SbLock _ start => uint64_ok start = true
  | RoLock _ | TxBegin _ => True
  | _ => False
  end.

(** The handler of a subscription: the goroutine of [Notify] with its channels,
    the reply, and whether the loop has ended. *)
Record stream_handler : Type := Handler { hd_conn : conn; hd_pipe : pipe; hd_leaving : bool }.

Record locks : Type := Locks {
  lk_db : db;
  lk_ps : pubsub;
  lk_tasks : gmap nat task;
  lk_handlers : gmap nat stream_handler }.

Definition lk_free (holds : task → bool) (x : locks) : Prop := ∀ t k, lk_tasks x !! t = Some k → holds k = false.

Definition goto (t : nat) (k : task) (x : locks) : locks :=
  Locks (lk_db x) (lk_ps x) (<[t := k]> (lk_tasks x)) (lk_handlers x).
Definition finish (t : nat) (x : locks) : locks := Locks (lk_db x) (lk_ps x) (delete t (lk_tasks x)) (lk_handlers x).
Definition with_ps (p : pubsub) (x : locks) : locks := Locks (lk_db x) p (lk_tasks x) (lk_handlers x).
Definition with_handler (h : nat) (hd : stream_handler) (x : locks) : locks :=
  Locks (lk_db x) (lk_ps x) (lk_tasks x) (<[h := hd]> (lk_handlers x)).

(** How a call goes on. *)
Inductive task_step (t : nat) (x : locks) : task → locks → Prop :=
| ap_lock env o : lk_free holds_mx x → lk_free holds_rd x → task_step t x (ApLock env o) (goto t (ApBegin env o) x)
| ap_begin env o : lk_free holds_cn x → begin_err env = None → task_step t x (ApBegin env o) (goto t (ApRun env o) x)
| ap_begin_fails env o e : lk_free holds_cn x → begin_err env = Some e → task_step t x (ApBegin env o) (finish t x)
| ap_run env o o' d : apply_stmts o (lk_db x) = (Ok o', d) → task_step t x (ApRun env o) (goto t (ApEmit env o' d) x)
| ap_fails env o e d : apply_stmts o (lk_db x) = (Err e, d) → task_step t x (ApRun env o) (finish t x)
| ap_emit env o d p : lk_free holds_pm x → close_pending (lk_ps x) = (Ok tt, p) →
    task_step t x (ApEmit env o d) (goto t (ApSend env o d (subscribers p)) (with_ps p x))
| ap_send env o d c rest p : send_chan o c (lk_ps x) = (Ok tt, p) →
    task_step t x (ApSend env o d (c :: rest)) (goto t (ApSend env o d rest) (with_ps p x))
| ap_unlock env o d : task_step t x (ApSend env o d []) (goto t (ApCommit env o d) x)
| ap_commit env o d : commit_err env = None →
    task_step t x (ApCommit env o d) (finish t (Locks d (lk_ps x) (lk_tasks x) (lk_handlers x)))
| ap_commit_fails env o d e : commit_err env = Some e → task_step t x (ApCommit env o d) (finish t x)
| sb_lock env start : lk_free holds_mx x → lk_free holds_rd x → task_step t x (SbLock env start) (goto t (SbBegin env start) x)
| sb_begin env start : lk_free holds_cn x → begin_err env = None → task_step t x (SbBegin env start) (goto t (SbRun env start) x)
| sb_begin_fails env start e : lk_free holds_cn x → begin_err env = Some e → task_step t x (SbBegin env start) (finish t x)
| sb_run env start pre d : subscribe_stmts start (lk_db x) = (Ok pre, d) → task_step t x (SbRun env start) (goto t (SbAdd env pre) x)
| sb_fails env start e d : subscribe_stmts start (lk_db x) = (Err e, d) → task_step t x (SbRun env start) (finish t x)
| sb_add env pre ch p1 p2 : lk_free holds_pm x → make_chan (lk_ps x) = (Ok ch, p1) → AddSubscriber ch p1 = (Ok tt, p2) →
    task_step t x (SbAdd env pre) (goto t (SbCommit env (mkSub pre ch)) (with_ps p2 x))
| sb_commit env sub h : commit_err env = None → lk_handlers x !! h = None →
    task_step t x (SbCommit env sub) (finish t (with_handler h (Handler (Notify sub) new_pipe false) x))
| sb_commit_fails env sub e : commit_err env = Some e → task_step t x (SbCommit env sub) (finish t x)
| ro_lock env : lk_free holds_mx x → task_step t x (RoLock env) (goto t (RoBegin env) x)
| ro_begin env : lk_free holds_cn x → begin_err env = None → task_step t x (RoBegin env) (goto t (RoRun env) x)
| ro_begin_fails env e : lk_free holds_cn x → begin_err env = Some e → task_step t x (RoBegin env) (finish t x)
| ro_done env : task_step t x (RoRun env) (finish t x)
| tx_begin env : lk_free holds_cn x → begin_err env = None → task_step t x (TxBegin env) (goto t (TxRun env) x)
| tx_begin_fails env e : lk_free holds_cn x → begin_err env = Some e → task_step t x (TxBegin env) (finish t x)
| tx_done env : task_step t x (TxRun env) (finish t x).

(** A step: a new call, a step of one, the goroutine of a subscription, its
    handler, which writes, leaves its loop (a write fails, an operation cannot be
    encoded, or the server ends) and closes the subscription. *)
Inductive lk_step : locks → locks → Prop :=
| lk_call x t k : lk_tasks x !! t = None → starting k → lk_step x (goto t k x)
| lk_task x t k x' : lk_tasks x !! t = Some k → task_step t x k x' → lk_step x x'
| lk_notify x h c pp b c' p :
    lk_handlers x !! h = Some (Handler c pp b) → notify_step c (lk_ps x) = (Ok c', p) →
    lk_step x (with_ps p (with_handler h (Handler c' pp b) x))
| lk_handle x h c pp c' pp' :
    lk_handlers x !! h = Some (Handler c pp false) → handle_iter true c pp = (Ok (Some c'), pp') →
    lk_step x (with_handler h (Handler c' pp' false) x)
| lk_leave x h c pp :
    lk_handlers x !! h = Some (Handler c pp false) → lk_step x (with_handler h (Handler c (end_pipe pp) true) x)
| lk_close x h c pp p :
    lk_handlers x !! h = Some (Handler c pp true) → lk_free holds_pm x → removeSubscriber (sub_ch (cn_sub c)) (lk_ps x) = (Ok tt, p) →
    lk_step x (Locks (lk_db x) p (lk_tasks x) (delete h (lk_handlers x))).

(** ** Lemmas: the pieces are the operations *)
Definition body_stmts (o : op) : M db unit := _ ← ApplyOp o; _ ← AppendToLog o; SetSequence (op_seq o).

Lemma apply_stmts_body ops o d :
  log_inv st0 ops d →
  let o' := sequenced o false (length ops) in
  apply_stmts o d = match body_stmts o' d with (Ok _, d') => (Ok o', d') | (Err e, d') => (Err e, d') | (Panic p, d') => (Panic p, d') | (Hang, d') => (Hang, d') end.
Proof.
  intros Hl o'. unfold apply_stmts. rewrite (bind_Ok _ _ d d d) by done. cbn zeta. rewrite (log_inv_next _ _ _ Hl).
  change (WithSequence o (1 + Z.of_nat (length ops))) with o'. unfold body_stmts. m_unfold.
  destruct (ApplyOp o' d) as [[[]|?|?|] d1]; [|done..]. destruct (AppendToLog o' d1) as [[[]|?|?|] d2]; [|done..].
  by destruct (SetSequence (op_seq o') d2) as [[[]|?|?|] d3].
Qed.

Lemma apply_body_stmts o d :
  apply_body o (Wrap d) = match body_stmts o d with (Ok _, d') => (Ok tt, Wrap d') | (Err e, d') => (Err e, Wrap d') | (Panic p, d') => (Panic p, Wrap d') | (Hang, d') => (Hang, Wrap d') end.
Proof.
  unfold apply_body, body_stmts, on_db. m_unfold. cbn.
  destruct (ApplyOp o d) as [[[]|?|?|] d1]; [|done..]. cbn. destruct (AppendToLog o d1) as [[[]|?|?|] d2]; [|done..]. cbn.
  by destruct (SetSequence (op_seq o) d2) as [[[]|?|?|] d3].
Qed.

(** The whole call, for nobody listening. *)
Lemma apply_stmts_whole ops o o' d d' :
  log_inv st0 ops d → apply_stmts o d = (Ok o', d') → crudLogSink_Apply tx_ok o false (Wrap d) = (Ok tt, Wrap d').
Proof.
  intros Hl Hrun. rewrite (Apply_body _ st0 ops) by done. rewrite (apply_stmts_body _ _ _ Hl) in Hrun.
  unfold WithTx. cbn [begin_err tx_ok]. rewrite apply_body_stmts.
  destruct (body_stmts _ d) as [[[]| | |] d1]; by inv_run.
Qed.

Lemma AppendToLog_full o d :
  (2 ^ 63 ≤ op_seq o)%Z → ∃ e, AppendToLog o d = (Err e, d).
Proof.
  intros Hb. unfold AppendToLog, serialize. m_unfold. destruct (enc_total (op_value o)) as [[j ->]|[e ->]]; [|by eexists].
  unfold ops_args, uint64_param. m_unfold. rewrite bool_decide_eq_false_2 by (cbn; lia). by eexists.
Qed.

Lemma apply_stmts_run ops o d r d' :
  log_inv st0 ops d → Forall op_wire ops → op_wire o → apply_stmts o d = (r, d') →
  match r with
  | Ok o' => o' = sequenced o false (length ops) ∧ log_inv st0 (app ops [o']) d' ∧ Forall op_wire (app ops [o'])
  | Err _ => True
  | _ => False
  end.
Proof.
  intros Hl Hw Hwo Hrun. rewrite (apply_stmts_body _ _ _ Hl) in Hrun. set (o' := sequenced _ _ _) in *.
  destruct (enc_roundtrip _ Hwo) as (j & _ & Hj & _).
  assert (Hb1 := apply_body_stmts o' d). pose proof (li_bound _ _ _ Hl) as Hb.
  destruct (spec_op o' (cabs d)) as [st'|] eqn:Hsp; [destruct (decide (op_seq o' < 2 ^ 63)%Z) as [Hlt|Hge]|].
  - destruct (apply_body_ok st0 ops (Wrap d) o' j st') as (d1 & Hl1 & Hres); [done|apply newPubSub_ok|done..|].
    rewrite decide_False in Hres by (intros Hex; inversion Hex). rewrite Hb1 in Hres.
    destruct (body_stmts o' d) as [[[]| | |] d2]; unfold Wrap in Hres; [|by inv_run..]. injection Hres as <-. injection Hrun as <- <-.
    split_and!; [done|done|]. apply Forall_app_2; [done|by constructor].
  - unfold body_stmts in Hrun. m_unfold. destruct (ApplyOp o' d) as [r1 d1] eqn:Hap.
    destruct (ApplyOp_run _ _ _ _ (li_cinv _ _ _ Hl) Hap) as (_ & _ & _ & Hr1). destruct r1 as [[]|e1| |]; [|by inv_run|done..].
    destruct (AppendToLog_full o' d1) as [e He]; [lia|]. rewrite He in Hrun. by inv_run.
  - destruct (apply_body_err st0 ops (Wrap d) o' Hl ltac:(by left)) as (e & d1 & Hres). rewrite Hb1 in Hres.
    destruct (body_stmts o' d) as [[[]| | |] d2]; by inv_run.
Qed.

(** Operations that a handler can write. *)
Definition sendable (o : op) : Prop := ∃ lines, stream_op o = Ok lines.

Lemma wire_sendable o : op_wire o → sendable o.
Proof.
  intros Hw. destruct (enc_roundtrip _ Hw) as (j & _ & Hj & _). unfold sendable, stream_op, op_MarshalJSON, serialize. m_unfold.
  rewrite Hj. by eexists.
Qed.

Lemma subscribe_stmts_run ops start d r d' :
  log_inv st0 ops d → Forall op_wire ops → uint64_ok start = true → subscribe_stmts start d = (r, d') →
  match r with Ok pre => Forall sendable pre | Err _ => True | _ => False end.
Proof.
  intros Hl Hw Hs Hrun.
  destruct (crudLogSource_Subscribe tx_ok start (Wrap d)) as [r1 s1] eqn:Hsub.
  pose proof (Subscribe_run tx_ok st0 ops (Wrap d) start r1 s1 Hl Hw eq_refl Hs Hsub) as Hres.
  unfold crudLogSource_Subscribe, WithTransaction, WithTx, subscribe_stmts in *. cbn [begin_err commit_err tx_ok] in Hsub.
  rewrite (bind_Ok _ _ (Wrap d) d (Wrap d)) in Hsub by done. rewrite (bind_Ok _ _ d d d) in Hrun by done.
  case_bool_decide; [m_unfold; by inv_run|]. destruct (QueryLogSince start d) as [r2 d2] eqn:Hq. injection Hrun as <- <-.
  destruct r2 as [pre|e|p|]; [|done|..].
  - rewrite (bind_Ok _ _ _ _ _ (on_db_run _ (Wrap d) _ _ Hq)) in Hsub. unfold on_pubsub, make_chan, AddSubscriber in Hsub. m_unfold.
    cbn in Hsub. inv_run. destruct Hres as (_ & Hall & _). cbn [sub_preload] in Hall.
    pose proof (eqv_wire _ _ Hall (Forall_drop _ _ _ Hw)) as Hpre. eapply Forall_impl; [exact Hpre|]. apply wire_sendable.
  - unfold mbind, M_bind in Hsub. rewrite (on_db_run _ (Wrap d) _ _ Hq) in Hsub. by inv_run.
  - rewrite (bind_Hang _ _ _ _ (on_db_run _ (Wrap d) _ _ Hq)) in Hsub. by inv_run.
Qed.

(** ** Lemmas: the channels *)
Definition buf_ok (b : list op) : Prop := Forall sendable b ∧ (Z.of_nat (length b) ≤ chanBufSize)%Z.

Definition ps_ok (p : pubsub) : Prop := pubsub_ok p ∧ ∀ c ch, chans p !! c = Some ch → buf_ok (ch_buf ch).

Lemma ps_open p c : ps_ok p → c ∈ subscribers p → ∃ b, chans p !! c = Some (Chan b false).
Proof.
  intros [(_ & Hopen & _) _] Hc. apply Forall_app in Hopen as [Hopen _]. rewrite Forall_forall in Hopen. by apply Hopen.
Qed.

Lemma ps_close p r p' :
  ps_ok p → close_pending p = (r, p') → r = Ok tt ∧ ps_ok p' ∧ subscribers p' = subscribers p.
Proof.
  intros [Hok Hs] Hrun. pose proof Hok as (Hnd & Hopen & Hnx). apply NoDup_app in Hnd as (Hnd & Hdis & Hnd').
  apply Forall_app in Hopen as [Hopen Hopen'].
  assert (Hp : close_pending p = (Ok tt, PubSub [] (subscribers p) (alter_all close_of (toClose p) (chans p)) (next_chan p))).
  { unfold close_pending. rewrite (bind_Ok _ _ p p p) by done. case_bool_decide as Hlen.
    - rewrite (bind_Ok _ _ _ tt (with_chans (alter_all close_of (toClose p)) p)); [done|].
      apply (each_alter _ _ (λ ch, ch_closed ch = false)); [intros; by eapply close_chan_run|done|].
      eapply Forall_impl; [exact Hopen'|]. intros c [b Hb]. by exists (Chan b false).
    - destruct p as [tc ? ? ?]; cbn in *. destruct tc; [done|cbn in Hlen; lia]. }
  rewrite Hp in Hrun. injection Hrun as <- <-. split_and!; [done| |done].
  assert (Hlk : ∀ c, alter_all close_of (toClose p) (chans p) !! c = if decide (c ∈ toClose p) then close_of <$> chans p !! c else chans p !! c)
    by (intros c; by apply alter_all_lookup).
  split; [split_and!|]; cbn [subscribers toClose chans next_chan].
  - by rewrite app_nil_r.
  - rewrite app_nil_r. rewrite Forall_forall in *. intros c Hc. unfold chan_open. cbn. rewrite Hlk, decide_False by (by apply Hdis). by apply Hopen.
  - intros c Hc. apply Hnx. rewrite Hlk in Hc. case_decide; [|done]. by apply fmap_is_Some in Hc.
  - intros c ch Hc. rewrite Hlk in Hc. case_decide; [|by eapply Hs]. apply fmap_Some in Hc as (ch0 & Hc & ->). by eapply (Hs c ch0).
Qed.

Lemma ps_insert p p' c b b' :
  ps_ok p → chans p !! c = Some (Chan b false) → subscribers p' = subscribers p → toClose p' = toClose p → next_chan p' = next_chan p →
  chans p' = <[c := Chan b' false]> (chans p) → buf_ok b' → ps_ok p'.
Proof.
  intros [Hok Hs] Hc H1 H2 H3 H4 Hb. split; [by eapply pubsub_ok_chan|]. intros c' ch. rewrite H4.
  intros [[<- <-]|[_ Hc']]%lookup_insert_Some; [done|by eapply Hs].
Qed.

Lemma ps_send o c p p' :
  ps_ok p → sendable o → c ∈ subscribers p → send_chan o c p = (Ok tt, p') → ps_ok p' ∧ subscribers p' = subscribers p.
Proof.
  intros Hps Ho Hc Hrun. destruct (ps_open _ _ Hps Hc) as [b Hb]. unfold send_chan in Hrun. m_unfold. rewrite Hb in Hrun.
  case_bool_decide; [|by inv_run]. injection Hrun as <-. split; [|done].
  destruct (proj2 Hps c _ Hb) as [Hsd _]. eapply ps_insert; [done|done|done..|]. split; [apply Forall_app_2; [done|by constructor]|].
  rewrite length_app. cbn. lia.
Qed.

Lemma notify_shrinks c p c' p' b b' :
  chans p !! sub_ch (cn_sub c) = Some (Chan b false) → notify_step c p = (Ok c', p') →
  chans p' = <[sub_ch (cn_sub c) := Chan b' false]> (chans p) → (length b' ≤ length b)%nat.
Proof.
  intros Hb Hrun Hch. unfold notify_step in Hrun.
  assert (Hsame : p' = p → (length b' ≤ length b)%nat).
  { intros ->. apply (f_equal (lookup (sub_ch (cn_sub c)))) in Hch. rewrite lookup_insert_eq, Hb in Hch. by injection Hch as ->. }
  destruct (cn_hand c); [case_bool_decide; m_unfold; inv_run; by apply Hsame|].
  destruct (cn_preload c); [|m_unfold; inv_run; by apply Hsame]. destruct b as [|o b].
  - rewrite (bind_Hang _ _ _ _ (recv_chan_empty _ _ Hb)) in Hrun. by inv_run.
  - rewrite (bind_Ok _ _ _ _ _ (recv_chan_Some _ _ _ _ _ Hb)) in Hrun. m_unfold. injection Hrun as _ <-. cbn in Hch.
    apply (f_equal (lookup (sub_ch (cn_sub c)))) in Hch. rewrite !lookup_insert_eq in Hch. injection Hch as ->. cbn. lia.
Qed.

Lemma ps_notify c p c' p' :
  ps_ok p → sub_ch (cn_sub c) ∈ subscribers p → Forall sendable (pending c) → notify_step c p = (Ok c', p') →
  ps_ok p' ∧ subscribers p' = subscribers p ∧ cn_sub c' = cn_sub c ∧ Forall sendable (pending c').
Proof.
  intros Hps Hin Hpe Hrun. destruct (ps_open _ _ Hps Hin) as [b Hb].
  destruct (notify_step_run _ _ _ _ _ Hb Hrun eq_refl) as (c2 & b' & [= <-] & Hsub & Hpend & Hs & Ht & Hn & Hch).
  assert (Hall : Forall sendable (app (pending c') b')).
  { rewrite Hpend. apply Forall_app_2; [done|apply (proj2 Hps _ _ Hb)]. }
  apply Forall_app in Hall as [H1 H2]. split_and!; [|done..]. eapply ps_insert; [done|done|done..|]. split; [done|].
  destruct (proj2 Hps _ _ Hb) as [_ Hlen]. cbn in Hlen. pose proof (notify_shrinks _ _ _ _ _ _ Hb Hrun Hch). lia.
Qed.

Lemma ps_add p : ps_ok p → ps_ok (subscribed p).
Proof.
  intros [Hok Hs]. split; [by apply subscribe_ok|]. intros c ch. cbn.
  intros [[<- <-]|[_ Hc]]%lookup_insert_Some; [by split; [constructor|]|by eapply Hs].
Qed.

Lemma ps_remove p c : ps_ok p → c ∈ subscribers p → ps_ok (removeSubscriber c p).2.
Proof. intros [Hok Hs] Hc. split; [by apply removeSubscriber_ok|exact Hs]. Qed.

(** ** The invariant *)
Definition exclusive (holds : task → bool) (x : locks) : Prop :=
  ∀ t t' k k', lk_tasks x !! t = Some k → lk_tasks x !! t' = Some k' → holds k = true → holds k' = true → t = t'.

Definition staged (o : op) (d : db) (x : locks) : Prop := ∃ o0, op_wire o0 ∧ apply_stmts o0 (lk_db x) = (Ok o, d).

Definition hd_ch (hd : stream_handler) : nat := sub_ch (cn_sub (hd_conn hd)).

Definition task_ok (x : locks) (k : task) : Prop :=
  match k with
  | ApLock _ o | ApBegin _ o | ApRun _ o => op_wire o
  | ApEmit _ o d | ApCommit _ o d => staged o d x
  | ApSend _ o d rest => staged o d x ∧ rest ⊆ subscribers (lk_ps x)
  | SbLock _ start | SbBegin _ start | SbRun _ start => uint64_ok start = true
  | SbAdd _ pre => Forall sendable pre
  | SbCommit _ sub => Forall sendable (sub_preload sub) ∧ sub_ch sub ∈ subscribers (lk_ps x) ∧
      ∀ h hd, lk_handlers x !! h = Some hd → hd_ch hd ≠ sub_ch sub
  | _ => True
  end.

Record lk_inv (x : locks) : Prop := {
  lv_mx : exclusive holds_mx x;
  lv_cn : exclusive holds_cn x;
  lv_rw t t' k k' : lk_tasks x !! t = Some k → lk_tasks x !! t' = Some k' → holds_mx k = true → holds_rd k' = false;
  lv_log : ∃ ops, log_inv st0 ops (lk_db x) ∧ Forall op_wire ops;
  lv_ps : ps_ok (lk_ps x);
  lv_tasks t k : lk_tasks x !! t = Some k → task_ok x k;
  lv_handlers h hd : lk_handlers x !! h = Some hd → hd_ch hd ∈ subscribers (lk_ps x) ∧ Forall sendable (pending (hd_conn hd));
  lv_own h h' hd hd' : lk_handlers x !! h = Some hd → lk_handlers x !! h' = Some hd' → hd_ch hd = hd_ch hd' → h = h'
}.

(** ** Lemmas: steps *)
Lemma task_ok_frame x x' k :
  task_ok x k → lk_db x' = lk_db x → subscribers (lk_ps x) ⊆ subscribers (lk_ps x') →
  (∀ h hd', lk_handlers x' !! h = Some hd' → ∃ hd, lk_handlers x !! h = Some hd ∧ hd_ch hd' = hd_ch hd) → task_ok x' k.
Proof.
  intros Hk Hdb Hps Hhd. destruct k; cbn in *; unfold staged in *; rewrite ?Hdb; try done.
  - destruct Hk as [Hk Hsub]. split; [done|]. set_solver.
  - destruct Hk as (H1 & H2 & H3). split_and!; [done|by apply Hps|]. intros h hd' Hhd'.
    destruct (Hhd h hd' Hhd') as (hd & Hh & ->). by eapply H3.
Qed.

Lemma exclusive_goto holds x t k :
  exclusive holds x → (holds k = true → (∃ k0, lk_tasks x !! t = Some k0 ∧ holds k0 = true) ∨ lk_free holds x) →
  exclusive holds (goto t k x).
Proof.
  intros He Hk t1 t2 k1 k2. cbn. intros [[<- <-]|[Hn1 H1]]%lookup_insert_Some [[<- <-]|[Hn2 H2]]%lookup_insert_Some E1 E2; [done|..|by eapply He].
  - destruct (Hk E1) as [(k0 & Hk0 & E0)|Hf]; [by eapply He|]. by rewrite (Hf _ _ H2) in E2.
  - destruct (Hk E2) as [(k0 & Hk0 & E0)|Hf]; [by eapply He|]. by rewrite (Hf _ _ H1) in E1.
Qed.

Lemma goto_inv x t k p :
  lk_inv x → ps_ok p → subscribers (lk_ps x) ⊆ subscribers p → task_ok (with_ps p x) k →
  (holds_mx k = true → (∃ k0, lk_tasks x !! t = Some k0 ∧ holds_mx k0 = true) ∨ lk_free holds_mx x ∧ lk_free holds_rd x) →
  (holds_rd k = true → (∃ k0, lk_tasks x !! t = Some k0 ∧ holds_rd k0 = true) ∨ lk_free holds_mx x) →
  (holds_cn k = true → (∃ k0, lk_tasks x !! t = Some k0 ∧ holds_cn k0 = true) ∨ lk_free holds_cn x) →
  lk_inv (goto t k (with_ps p x)).
Proof.
  intros [Hmx Hcn Hrw Hlog Hps Ht Hh Ho] Hp Hsub Hk Kmx Krd Kcn. split.
  - apply (exclusive_goto holds_mx (with_ps p x)); [exact Hmx|]. intros E. destruct (Kmx E) as [?|[? _]]; [by left|by right].
  - by apply (exclusive_goto holds_cn (with_ps p x)).
  - intros t1 t2 k1 k2. cbn. intros [[<- <-]|[Hn1 H1]]%lookup_insert_Some [[<- <-]|[Hn2 H2]]%lookup_insert_Some E1.
    + by destruct k.
    + destruct (Kmx E1) as [(k0 & Hk0 & E0)|[_ Hf]]; [exact (Hrw _ _ _ _ Hk0 H2 E0)|by eapply Hf].
    + destruct (holds_rd k) eqn:E; [|done]. destruct (Krd eq_refl) as [(k0 & Hk0 & E0)|Hf].
      * by rewrite (Hrw _ _ _ _ H1 Hk0 E1) in E0.
      * by rewrite (Hf _ _ H1) in E1.
    + exact (Hrw _ _ _ _ H1 H2 E1).
  - done.
  - done.
  - intros t1 k1. cbn. intros [[<- <-]|[Hn1 H1]]%lookup_insert_Some; [exact Hk|].
    eapply task_ok_frame; [by eapply Ht|done|done|by eauto].
  - intros h hd Hhd. destruct (Hh h hd Hhd) as [H1 H2]. split; [by apply Hsub|done].
  - exact Ho.
Qed.

Lemma goto_pure_inv x t k k0 :
  lk_inv x → lk_tasks x !! t = Some k0 → task_ok x k →
  (holds_mx k = true → holds_mx k0 = true ∨ lk_free holds_mx x ∧ lk_free holds_rd x) →
  (holds_rd k = true → holds_rd k0 = true ∨ lk_free holds_mx x) →
  (holds_cn k = true → holds_cn k0 = true ∨ lk_free holds_cn x) → lk_inv (goto t k x).
Proof.
  intros Hinv Ht Hk Kmx Krd Kcn. change (goto t k x) with (goto t k (with_ps (lk_ps x) x)).
  apply goto_inv; [done|apply Hinv|done|done|intros E; destruct (Kmx E)|intros E; destruct (Krd E)|intros E; destruct (Kcn E)]; by eauto.
Qed.

Lemma finish_inv x t : lk_inv x → lk_inv (finish t x).
Proof.
  intros [Hmx Hcn Hrw Hlog Hps Ht Hh Ho]. split; try done.
  - intros t1 t2 k1 k2. cbn. intros [_ H1]%lookup_delete_Some [_ H2]%lookup_delete_Some. by eapply Hmx.
  - intros t1 t2 k1 k2. cbn. intros [_ H1]%lookup_delete_Some [_ H2]%lookup_delete_Some. by eapply Hcn.
  - intros t1 t2 k1 k2. cbn. intros [_ H1]%lookup_delete_Some [_ H2]%lookup_delete_Some E1. exact (Hrw _ _ _ _ H1 H2 E1).
  - intros t1 k1. cbn. intros [_ H1]%lookup_delete_Some. exact (Ht _ _ H1).
Qed.

Lemma staged_run x o d :
  lk_inv x → staged o d x → sendable o ∧ ∃ ops, log_inv st0 ops d ∧ Forall op_wire ops.
Proof.
  intros Hinv (o0 & Hw & Hrun). destruct (lv_log _ Hinv) as (ops & Hl & Hws).
  destruct (apply_stmts_run _ _ _ _ _ Hl Hws Hw Hrun) as (-> & Hl' & Hws'). split; [by apply wire_sendable|by eauto].
Qed.

Lemma commit_inv x t env o d :
  lk_inv x → lk_tasks x !! t = Some (ApCommit env o d) →
  lk_inv (finish t (Locks d (lk_ps x) (lk_tasks x) (lk_handlers x))).
Proof.
  intros Hinv Ht0. pose proof Hinv as [Hmx Hcn Hrw Hlog Hps Ht Hh Ho].
  destruct (staged_run _ _ _ Hinv (Ht _ _ Ht0)) as [_ Hlog']. pose proof (finish_inv x t Hinv) as [Hmx' Hcn' Hrw' _ _ _ _ _].
  split; try done. intros t1 k1. cbn. intros [Hne H1]%lookup_delete_Some. specialize (Ht _ _ H1).
  assert (Hno : holds_mx k1 = false).
  { destruct (holds_mx k1) eqn:E; [|done]. destruct Hne. by eapply (Hmx _ _ _ _ Ht0 H1). }
  by destruct k1.
Qed.

Lemma sb_commit_inv x t env sub h :
  lk_inv x → lk_tasks x !! t = Some (SbCommit env sub) → lk_handlers x !! h = None →
  lk_inv (finish t (with_handler h (Handler (Notify sub) new_pipe false) x)).
Proof.
  intros Hinv Ht0 Hh0. pose proof Hinv as [Hmx Hcn Hrw Hlog Hps Ht Hh Ho]. destruct (Ht _ _ Ht0) as (Hpre & Hin & Hno).
  pose proof (finish_inv x t Hinv) as [Hmx' Hcn' Hrw' _ _ Ht' _ _]. split; try done.
  - intros t1 k1 H1. specialize (Ht' t1 k1 H1). cbn in H1. apply lookup_delete_Some in H1 as [Hne H1].
    destruct k1; try exact Ht'. by destruct (Hne (Hmx _ _ _ _ Ht0 H1 eq_refl eq_refl)).
  - intros h1 hd. cbn. intros [[<- <-]|[_ H1]]%lookup_insert_Some; [|by eapply Hh]. split; [exact Hin|].
    unfold pending. cbn. done.
  - intros h1 h2 hd1 hd2. cbn. intros [[<- <-]|[Hn1 H1]]%lookup_insert_Some [[<- <-]|[Hn2 H2]]%lookup_insert_Some E; [done|..|by eapply Ho].
    + by destruct (Hno h2 hd2 H2).
    + by destruct (Hno h1 hd1 H1).
Qed.

Lemma handler_inv x h hd hd' p :
  lk_inv x → lk_handlers x !! h = Some hd → ps_ok p → subscribers p = subscribers (lk_ps x) →
  hd_ch hd' = hd_ch hd → Forall sendable (pending (hd_conn hd')) → lk_inv (with_ps p (with_handler h hd' x)).
Proof.
  intros [Hmx Hcn Hrw Hlog Hps Ht Hh Ho] Hhd Hp Hsub Hch Hpe. split; try done.
  - intros t k Hk. eapply task_ok_frame; [by eapply Ht|done|cbn; by rewrite Hsub|]. cbn. intros h1 hd1.
    intros [[<- <-]|[_ H1]]%lookup_insert_Some; by eauto.
  - intros h1 hd1. cbn. rewrite Hsub. intros [[<- <-]|[_ H1]]%lookup_insert_Some; [|by eapply Hh]. rewrite Hch. by split; [eapply (Hh h)|].
  - intros h1 h2 hd1 hd2. cbn. intros [[<- <-]|[Hn1 H1]]%lookup_insert_Some [[<- <-]|[Hn2 H2]]%lookup_insert_Some E; [done|..|by eapply Ho].
    + rewrite Hch in E. by eapply Ho.
    + rewrite Hch in E. by eapply Ho.
Qed.

Lemma close_inv x h hd p :
  lk_inv x → lk_handlers x !! h = Some hd → lk_free holds_pm x → removeSubscriber (hd_ch hd) (lk_ps x) = (Ok tt, p) →
  lk_inv (Locks (lk_db x) p (lk_tasks x) (delete h (lk_handlers x))).
Proof.
  intros [Hmx Hcn Hrw Hlog Hps Ht Hh Ho] Hhd Hfree Hrun. destruct (Hh h hd Hhd) as [Hin _].
  pose proof (ps_remove _ _ Hps Hin) as Hp. rewrite Hrun in Hp. cbn [snd] in Hp.
  assert (Hsub : ∀ c, c ∈ subscribers (lk_ps x) → c ≠ hd_ch hd → c ∈ subscribers p).
  { unfold removeSubscriber in Hrun. m_unfold. injection Hrun as <-. intros c Hc Hne. cbn. by apply list_elem_of_filter. }
  split; try done.
  - intros t k Hk. cbn in Hk. specialize (Ht _ _ Hk). pose proof (Hfree _ _ Hk) as Hnp. destruct k; try exact Ht; [done|].
    destruct Ht as (H1 & H2 & H3). split_and!; [done|apply Hsub; [done|]|].
    + intros E. by apply (H3 h hd Hhd).
    + intros h1 hd1. cbn. intros [_ H4]%lookup_delete_Some. by eapply H3.
  - intros h1 hd1. cbn. intros [Hne H1]%lookup_delete_Some. destruct (Hh _ _ H1) as [H2 H3]. split; [|done]. apply Hsub; [done|].
    intros E. apply Hne. symmetry. by eapply Ho.
  - intros h1 h2 hd1 hd2. cbn. intros [_ H1]%lookup_delete_Some [_ H2]%lookup_delete_Some. by eapply Ho.
Qed.

Lemma task_step_inv x t k x' : lk_inv x → lk_tasks x !! t = Some k → task_step t x k x' → lk_inv x'.
Proof.
  intros Hinv Ht Hstep. pose proof (lv_tasks _ Hinv _ _ Ht) as Hk. pose proof (lv_ps _ Hinv) as Hps.
  destruct (lv_log _ Hinv) as (ops & Hl & Hw).
  destruct Hstep; try (by apply finish_inv); cbn [task_ok] in Hk;
    try (by eapply goto_pure_inv; [done|exact Ht|..]; cbn; auto).
  - eapply goto_pure_inv; [done|exact Ht|by exists o|by cbn; auto..].
  - destruct (ps_close _ _ _ Hps H0) as (_ & Hp & Hsub). apply goto_inv; [done|done|by rewrite Hsub| |by intros _; left; eauto|done|by intros _; left; eauto].
    cbn. split; [done|done].
  - destruct Hk as [Hst Hsub]. destruct (staged_run _ _ _ Hinv Hst) as [Ho _].
    destruct (ps_send _ _ _ _ Hps Ho (Hsub c ltac:(by left)) H) as [Hp Hs].
    apply goto_inv; [done|done|by rewrite Hs| |by intros _; left; eauto|done|by intros _; left; eauto].
    cbn. split; [done|]. rewrite Hs. set_solver.
  - eapply goto_pure_inv; [done|exact Ht|apply Hk|by cbn; auto..].
  - by eapply commit_inv.
  - eapply goto_pure_inv; [done|exact Ht|exact (subscribe_stmts_run _ _ _ _ _ Hl Hw Hk H)|by cbn; auto..].
  - unfold make_chan, AddSubscriber in *. m_unfold. injection H0 as <- <-. injection H1 as <-.
    apply goto_inv; [done|exact (ps_add _ Hps)|cbn; set_solver| |by intros _; left; eauto|done|by intros _; left; eauto].
    cbn. split_and!; [done|left|]. intros h hd Hhd E. destruct (lv_handlers _ Hinv _ _ Hhd) as [Hin _].
    destruct (ps_open _ _ Hps Hin) as [b Hb]. destruct Hps as [(_ & _ & Hnx) _]. specialize (Hnx _ (ex_intro _ _ Hb)). lia.
  - by eapply sb_commit_inv.
Qed.

Lemma lk_step_inv x x' : lk_inv x → lk_step x x' → lk_inv x'.
Proof.
  intros Hinv Hstep. destruct Hstep as [x t k Ht Hk|x t k x' Ht Hk|x h c pp b c' p Hh Hrun|x h c pp c' pp' Hh Hrun|x h c pp Hh|x h c pp p Hh Hf Hrun].
  - change (goto t k x) with (goto t k (with_ps (lk_ps x) x)). apply goto_inv; [done|apply Hinv|done|by destruct k|by destruct k..].
  - by eapply task_step_inv.
  - destruct (lv_handlers _ Hinv _ _ Hh) as [Hin Hpe]. destruct (ps_notify _ _ _ _ (lv_ps _ Hinv) Hin Hpe Hrun) as (Hp & Hs & Hsub & Hpe').
    eapply handler_inv; [done|exact Hh|done|done|unfold hd_ch; cbn; by rewrite Hsub|done].
  - destruct (lv_handlers _ Hinv _ _ Hh) as [Hin Hpe]. unfold handle_iter in Hrun. cbn [hd_conn] in Hpe. unfold pending in Hpe.
    destruct (cn_out c) as [|o rest] eqn:Hout; [by inv_run|]. destruct (stream_op o); [|by inv_run..]. m_unfold. injection Hrun as <- _.
    change (with_handler h ?hd x) with (with_ps (lk_ps x) (with_handler h hd x)).
    eapply handler_inv; [done|exact Hh|apply Hinv|done|done|]. unfold pending. cbn in Hpe |- *. by apply Forall_cons in Hpe as [_ ?].
  - change (with_handler h ?hd x) with (with_ps (lk_ps x) (with_handler h hd x)).
    eapply handler_inv; [done|exact Hh|apply Hinv|done|done|]. apply (lv_handlers _ Hinv _ _ Hh).
  - by eapply (close_inv x h _ p Hinv Hh).
Qed.

Lemma lk_steps_inv x x' : lk_inv x → rtc lk_step x x' → lk_inv x'.
Proof. intros Hinv Hsteps. induction Hsteps; [done|]. eauto using lk_step_inv. Qed.

(** Nobody is there yet. *)
Definition lk_start (d : db) : locks := Locks d newPubSub ∅ ∅.

Lemma lk_start_inv d ops : log_inv st0 ops d → Forall op_wire ops → lk_inv (lk_start d).
Proof.
  intros Hl Hw. split; try (by intros ? ? ? ? H1; cbn in H1; rewrite lookup_empty in H1); try (by intros ? ? H1; cbn in H1; rewrite lookup_empty in H1).
  - by exists ops.
  - split; [apply newPubSub_ok|]. intros c ch Hc. cbn in Hc. by rewrite lookup_empty in Hc.
Qed.

(** ** Transactions one after the other *)
Definition applied (d d' : db) : Prop := ∃ o, op_wire o ∧ crudLogSink_Apply tx_ok o false (Wrap d) = (Ok tt, Wrap d').

Lemma staged_applied x o d : lk_inv x → staged o d x → applied (lk_db x) d.
Proof.
  intros Hinv (o0 & Hw & Hrun). destruct (lv_log _ Hinv) as (ops & Hl & _). exists o0. split; [done|]. by eapply apply_stmts_whole.
Qed.

Lemma lk_step_db x x' : lk_inv x → lk_step x x' → lk_db x' = lk_db x ∨ applied (lk_db x) (lk_db x').
Proof.
  intros Hinv Hstep. destruct Hstep as [| x t k x' Ht Hk| | | |]; try (by left). destruct Hk; try (by left).
  right. cbn. eapply staged_applied; [done|]. exact (lv_tasks _ Hinv _ _ Ht).
Qed.

Lemma lk_steps_db x x' : lk_inv x → rtc lk_step x x' → rtc applied (lk_db x) (lk_db x').
Proof.
  intros Hinv Hsteps. induction Hsteps as [x|x y z Hxy _ IH]; [done|]. pose proof (lk_step_inv _ _ Hinv Hxy) as Hinv'.
  destruct (lk_step_db _ _ Hinv Hxy) as [<-|Hd]; [by apply IH|]. eapply rtc_l; [done|by apply IH].
Qed.

(** ** Calls can finish

    Every subscription is being served: no handler has left its loop, every
    subscribed channel has a handler or is about to get one. *)
Definition sb_env (k : task) : option tx_env :=
  match k with SbLock env _ | SbBegin env _ | SbRun env _ | SbAdd env _ | SbCommit env _ => Some env | _ => None end.

Record calm (x : locks) : Prop := {
  cm_loops h hd : lk_handlers x !! h = Some hd → hd_leaving hd = false;
  cm_served c : c ∈ subscribers (lk_ps x) →
    (∃ h hd, lk_handlers x !! h = Some hd ∧ hd_ch hd = c) ∨
    (∃ t env sub, lk_tasks x !! t = Some (SbCommit env sub) ∧ sub_ch sub = c);
  cm_commits t k env : lk_tasks x !! t = Some k → sb_env k = Some env → commit_err env = None
}.

Lemma calm_handler x h hd hd' p :
  calm x → lk_handlers x !! h = Some hd → subscribers p = subscribers (lk_ps x) → hd_ch hd' = hd_ch hd → hd_leaving hd' = false →
  calm (with_ps p (with_handler h hd' x)).
Proof.
  intros [H1 H2 H3] Hh Hs Hc Hl. split; cbn; [| |exact H3].
  - intros h1 hd1 [[<- <-]|[_ Hh1]]%lookup_insert_Some; [done|by eapply H1].
  - rewrite Hs. intros c Hin. destruct (H2 c Hin) as [(h1 & hd1 & Hh1 & <-)|?]; [left|by right].
    destruct (decide (h1 = h)) as [->|Hne].
    + rewrite Hh in Hh1. injection Hh1 as ->. exists h, hd'. by rewrite lookup_insert_eq.
    + exists h1, hd1. by rewrite lookup_insert_ne.
Qed.

Lemma calm_goto x t k k' p :
  calm x → lk_tasks x !! t = Some k → subscribers p = subscribers (lk_ps x) → (∀ env sub, k ≠ SbCommit env sub) →
  (∀ env, sb_env k' = Some env → sb_env k = Some env) → calm (goto t k' (with_ps p x)).
Proof.
  intros [H1 H2 H3] Ht Hs Hk Henv. split; cbn; [exact H1|..].
  - rewrite Hs. intros c Hin. destruct (H2 c Hin) as [?|(t1 & env & sub & Ht1 & <-)]; [by left|right].
    exists t1, env, sub. rewrite lookup_insert_ne; [done|]. intros ->. rewrite Ht1 in Ht. injection Ht as <-. by eapply Hk.
  - intros t1 k1 env [[<- <-]|[_ Ht1]]%lookup_insert_Some E; [by eapply (H3 t); [|apply Henv]|by eapply H3].
Qed.

Lemma calm_finish x t k d :
  calm x → lk_tasks x !! t = Some k → (∀ env sub, k ≠ SbCommit env sub) →
  calm (finish t (Locks d (lk_ps x) (lk_tasks x) (lk_handlers x))).
Proof.
  intros [H1 H2 H3] Ht Hk. split; cbn; [exact H1|..].
  - intros c Hin. destruct (H2 c Hin) as [?|(t1 & env & sub & Ht1 & <-)]; [by left|right].
    exists t1, env, sub. rewrite lookup_delete_ne; [done|]. intros ->. rewrite Ht1 in Ht. injection Ht as <-. by eapply Hk.
  - intros t1 k1 env [_ Ht1]%lookup_delete_Some. by eapply H3.
Qed.

Lemma calm_task x t k x' : lk_inv x → calm x → lk_tasks x !! t = Some k → task_step t x k x' → calm x'.
Proof.
  intros Hinv Hc Ht Hstep. pose proof (lv_ps _ Hinv) as Hps. pose proof Hc as [H1 H2 H3].
  destruct Hstep; try (by eapply (calm_goto x t _ _ (lk_ps x)));
    try (by eapply (calm_finish x t _ (lk_db x))).
  - destruct (ps_close _ _ _ Hps H0) as (_ & _ & Hs). by eapply calm_goto.
  - destruct (lv_tasks _ Hinv _ _ Ht) as [Hst Hsub]. destruct (staged_run _ _ _ Hinv Hst) as [Ho _].
    destruct (ps_send _ _ _ _ Hps Ho (Hsub c ltac:(by left)) H) as [_ Hs]. by eapply calm_goto.
  - by eapply calm_finish.
  - unfold make_chan, AddSubscriber in *. m_unfold. injection H0 as <- <-. injection H4 as <-. split; cbn; [exact H1|..].
    + intros c [->|Hin]%elem_of_cons; [right; eexists t, env, _; by rewrite lookup_insert_eq|].
      destruct (H2 c Hin) as [?|(t1 & env1 & sub & Ht1 & <-)]; [by left|right]. exists t1, env1, sub.
      rewrite lookup_insert_ne; [done|]. intros ->. congruence.
    + intros t1 k1 env1 [[<- <-]|[_ Ht1]]%lookup_insert_Some E; [|by eapply H3]. eapply (H3 t); [exact Ht|exact E].
  - split; cbn.
    + intros h1 hd1 [[<- <-]|[_ Hh1]]%lookup_insert_Some; [done|by eapply H1].
    + intros c Hin. left. destruct (H2 c Hin) as [(h1 & hd1 & Hh1 & <-)|(t1 & env1 & sub1 & Ht1 & <-)].
      * exists h1, hd1. rewrite lookup_insert_ne; [done|]. intros ->. congruence.
      * pose proof (lv_mx _ Hinv _ _ _ _ Ht Ht1 eq_refl eq_refl) as <-. rewrite Ht in Ht1. injection Ht1 as <- <-.
        eexists h, _. by rewrite lookup_insert_eq.
    + intros t1 k1 env1 [_ Ht1]%lookup_delete_Some. by eapply H3.
  - by rewrite (H3 t _ env Ht eq_refl) in H.
Qed.

Definition can_finish (x : locks) (t : nat) : Prop :=
  ∃ x', rtc lk_step x x' ∧ lk_inv x' ∧ calm x' ∧ lk_tasks x' = delete t (lk_tasks x).

Lemma then_finish x x1 t k k1 :
  lk_inv x → calm x → lk_tasks x !! t = Some k → task_step t x k x1 → lk_tasks x1 = <[t := k1]> (lk_tasks x) →
  (lk_inv x1 → calm x1 → lk_tasks x1 !! t = Some k1 → can_finish x1 t) → can_finish x t.
Proof.
  intros Hinv Hc Ht Hstep Heq Hnext. destruct Hnext as (x' & Hs & Hinv' & Hc' & Htk);
    [by eapply task_step_inv|by eapply calm_task|by rewrite Heq, lookup_insert_eq|].
  exists x'. split_and!; [by eapply rtc_l; [by eapply lk_task|]|done|done|]. by rewrite Htk, Heq, delete_insert_eq.
Qed.

Lemma finish_now x x1 t k :
  lk_inv x → calm x → lk_tasks x !! t = Some k → task_step t x k x1 → lk_tasks x1 = delete t (lk_tasks x) → can_finish x t.
Proof.
  intros Hinv Hc Ht Hstep Heq. exists x1. split_and!; [by apply rtc_once; eapply lk_task|by eapply task_step_inv|by eapply calm_task|done].
Qed.

(** The goroutines of a subscription make room in its channel. *)
Definition conn_load (c : conn) : nat := 3 * length (cn_preload c) + 2 * length (option_list (cn_hand c)) + length (cn_out c).

Lemma make_room n x h hd :
  lk_inv x → calm x → lk_handlers x !! h = Some hd → (conn_load (hd_conn hd) ≤ n)%nat →
  ∃ x', rtc lk_step x x' ∧ lk_inv x' ∧ calm x' ∧ lk_tasks x' = lk_tasks x ∧
    ∃ ch, chans (lk_ps x') !! hd_ch hd = Some ch ∧ has_room ch.
Proof.
  revert x hd. induction n as [n IH] using lt_wf_ind. intros x hd Hinv Hc Hh Hn.
  destruct (lv_handlers _ Hinv _ _ Hh) as [Hin Hpe]. destruct (ps_open _ _ (lv_ps _ Hinv) Hin) as [b Hb].
  destruct (decide (Z.of_nat (length b) < chanBufSize)%Z) as [Hroom|Hfull]; [exists x; split_and!; [done..|]; by exists (Chan b false)|].
  destruct hd as [[sub pre hand out] pp lv]. pose proof (cm_loops _ Hc _ _ Hh) as Hlv. cbn in Hlv. subst lv. cbn [hd_conn hd_ch cn_sub] in *.
  assert (Hgo : ∀ c' pp' p, lk_step x (with_ps p (with_handler h (Handler c' pp' false) x)) → cn_sub c' = sub →
    subscribers p = subscribers (lk_ps x) → (conn_load c' < conn_load (Conn sub pre hand out))%nat →
    ∃ x', rtc lk_step x x' ∧ lk_inv x' ∧ calm x' ∧ lk_tasks x' = lk_tasks x ∧
      ∃ ch, chans (lk_ps x') !! sub_ch sub = Some ch ∧ has_room ch).
  { intros c' pp' p Hstep Hsub Hs Hlt. set (x1 := with_ps _ _) in Hstep.
    assert (Hc1 : calm x1) by (eapply calm_handler; [done|done|done|unfold hd_ch; cbn; by rewrite Hsub|done]).
    destruct (IH (conn_load c') ltac:(lia) x1 (Handler c' pp' false) (lk_step_inv _ _ Hinv Hstep) Hc1) as (x' & Hs' & Hinv' & Hc' & Ht & Hr);
      [unfold x1; cbn; by rewrite lookup_insert_eq|done|].
    exists x'. split_and!; [by eapply rtc_l|done|done|done|]. unfold hd_ch in Hr. cbn in Hr. by rewrite Hsub in Hr. }
  destruct out as [|o out].
  - destruct hand as [o|]; [|destruct pre as [|o pre]].
    + apply (Hgo (Conn sub pre None [o]) pp (lk_ps x)); [eapply lk_notify; [exact Hh|done]|done|done|cbn; lia].
    + destruct b as [|o b]; [unfold chanBufSize in Hfull; cbn in Hfull; lia|]. clear IH Hgo.
      set (p' := PubSub (toClose (lk_ps x)) (subscribers (lk_ps x)) (<[sub_ch sub := Chan b false]> (chans (lk_ps x))) (next_chan (lk_ps x))).
      assert (Hrun : notify_step (Conn sub [] None []) (lk_ps x) = (Ok (Conn sub [] (Some o) []), p')).
      { unfold notify_step. cbn [cn_hand cn_preload cn_sub]. by rewrite (bind_Ok _ _ _ _ _ (recv_chan_Some _ _ _ _ _ Hb)). }
      pose proof (lk_notify _ _ _ _ _ _ _ Hh Hrun) as Hstep. eexists. split_and!; [by apply rtc_once|by eapply lk_step_inv| |done|].
      * by eapply calm_handler.
      * exists (Chan b false). cbn. rewrite lookup_insert_eq. split; [done|]. split; [done|]. cbn.
        destruct (proj2 (lv_ps _ Hinv) _ _ Hb) as [_ Hlen]. cbn in Hlen. lia.
    + apply (Hgo (Conn sub pre (Some o) []) pp (lk_ps x)); [eapply lk_notify; [exact Hh|done]|done|done|cbn; lia].
  - unfold pending in Hpe. cbn in Hpe. apply Forall_cons in Hpe as [[lines Hli] _].
    apply (Hgo (Conn sub pre hand out) (Pipe (app (pp_lines pp) lines) (pp_ended pp) (pp_gone pp)) (lk_ps x)); [|done|done|cbn; lia].
    apply (lk_handle x h (Conn sub pre hand (o :: out)) pp); [exact Hh|]. unfold handle_iter. cbn [cn_out]. by rewrite Hli.
Qed.

(** Who is announcing, is alone with it. *)
Lemma send_served x t env o d rest c :
  lk_inv x → calm x → lk_tasks x !! t = Some (ApSend env o d rest) → c ∈ subscribers (lk_ps x) →
  ∃ h hd, lk_handlers x !! h = Some hd ∧ hd_ch hd = c.
Proof.
  intros Hinv Hc Ht Hin. destruct (cm_served _ Hc c Hin) as [?|(t1 & env1 & sub & Ht1 & _)]; [done|].
  pose proof (lv_mx _ Hinv _ _ _ _ Ht Ht1 eq_refl eq_refl) as <-. congruence.
Qed.

Lemma commit_finishes x t env o d : lk_inv x → calm x → lk_tasks x !! t = Some (ApCommit env o d) → can_finish x t.
Proof.
  intros Hinv Hc Ht. destruct (commit_err env) as [e|] eqn:He.
  - by eapply finish_now; [..|by eapply ap_commit_fails|].
  - by eapply finish_now; [..|by eapply ap_commit|].
Qed.

Lemma send_finishes rest x t env o d :
  lk_inv x → calm x → lk_tasks x !! t = Some (ApSend env o d rest) → can_finish x t.
Proof.
  revert x. induction rest as [|c rest IH]; intros x Hinv Hc Ht.
  - eapply then_finish; [done|done|done|by eapply ap_unlock|done|]. intros. by eapply commit_finishes.
  - destruct (lv_tasks _ Hinv _ _ Ht) as [_ Hsub]. destruct (send_served _ _ _ _ _ _ c Hinv Hc Ht (Hsub c ltac:(by left))) as (h & hd & Hh & <-).
    destruct (make_room _ x h hd Hinv Hc Hh (Nat.le_refl _)) as (x1 & Hs & Hinv1 & Hc1 & Ht1 & ch & Hch & Hr).
    destruct (then_finish x1 (goto t (ApSend env o d rest) (with_ps (with_chans (alter (push o) (hd_ch hd)) (lk_ps x1)) x1)) t
      (ApSend env o d (hd_ch hd :: rest)) (ApSend env o d rest)) as (x' & Hs' & Hinv' & Hc' & Ht'); try done.
    + by rewrite Ht1.
    + eapply ap_send. by eapply send_chan_run.
    + intros. by eapply IH.
    + exists x'. split_and!; [by etrans|done|done|by rewrite Ht', Ht1].
Qed.

(** Nobody else announces while a transaction of the log runs. *)
Lemma pm_free x t k : lk_inv x → lk_tasks x !! t = Some k → holds_mx k = true → holds_pm k = false → lk_free holds_pm x.
Proof.
  intros Hinv Ht Hmx Hpm t1 k1 Ht1. destruct (holds_pm k1) eqn:E; [|done].
  assert (Hmx1 : holds_mx k1 = true) by (by destruct k1). pose proof (lv_mx _ Hinv _ _ _ _ Ht Ht1 Hmx Hmx1) as <-. congruence.
Qed.

(** Who has the connection, gives it back. *)
Lemma holder_finishes x t k : lk_inv x → calm x → lk_tasks x !! t = Some k → holds_cn k = true → can_finish x t.
Proof.
  assert (Hemit : ∀ x t env o d, lk_inv x → calm x → lk_tasks x !! t = Some (ApEmit env o d) → can_finish x t).
  { intros x0 t0 env o d Hinv Hc Ht. destruct (close_pending (lk_ps x0)) as [r p] eqn:Hp.
    destruct (ps_close _ _ _ (lv_ps _ Hinv) Hp) as (-> & _ & _).
    eapply then_finish; [done|done|done|eapply ap_emit; [by eapply pm_free|done]|done|]. intros. by eapply send_finishes. }
  assert (Hsbc : ∀ x t env sub, lk_inv x → calm x → lk_tasks x !! t = Some (SbCommit env sub) → can_finish x t).
  { intros x0 t0 env sub Hinv Hc Ht. eapply finish_now; [done|done|done|eapply (sb_commit _ _ _ _ (fresh (dom (lk_handlers x0))))|done].
    - by eapply (cm_commits _ Hc).
    - apply not_elem_of_dom, is_fresh. }
  assert (Hadd : ∀ x t env pre, lk_inv x → calm x → lk_tasks x !! t = Some (SbAdd env pre) → can_finish x t).
  { intros x0 t0 env pre Hinv Hc Ht. eapply then_finish; [done|done|done|eapply sb_add; [by eapply pm_free|done|done]|done|].
    intros. by eapply Hsbc. }
  intros Hinv Hc Ht Hk. destruct (lv_log _ Hinv) as (ops & Hl & Hw). pose proof (lv_tasks _ Hinv _ _ Ht) as Hok.
  destruct k; try discriminate Hk.
  - destruct (apply_stmts o (lk_db x)) as [r d] eqn:Hrun. pose proof (apply_stmts_run _ _ _ _ _ Hl Hw Hok Hrun) as Hres.
    destruct r as [o'|e| |]; [|by eapply finish_now; [..|by eapply ap_fails|]|done..].
    eapply then_finish; [done|done|done|by eapply ap_run|done|]. intros. by eapply Hemit.
  - by eapply Hemit.
  - by eapply send_finishes.
  - by eapply commit_finishes.
  - destruct (subscribe_stmts start (lk_db x)) as [r d] eqn:Hrun. pose proof (subscribe_stmts_run _ _ _ _ _ Hl Hw Hok Hrun) as Hres.
    destruct r as [pre|e| |]; [|by eapply finish_now; [..|by eapply sb_fails|]|done..].
    eapply then_finish; [done|done|done|by eapply sb_run|done|]. intros. by eapply Hadd.
  - by eapply Hadd.
  - by eapply Hsbc.
  - by eapply finish_now; [..|eapply ro_done|].
  - by eapply finish_now; [..|eapply tx_done|].
Qed.

(** A call returns, perhaps after others; those with [keep] have not moved. *)
Definition returns (keep : task → bool) (x : locks) (t : nat) : Prop :=
  ∃ x', rtc lk_step x x' ∧ lk_inv x' ∧ calm x' ∧ lk_tasks x' ⊆ delete t (lk_tasks x) ∧
    ∀ t' k', t' ≠ t → lk_tasks x !! t' = Some k' → keep k' = true → lk_tasks x' !! t' = Some k'.

Lemma can_finish_returns keep x t : can_finish x t → returns keep x t.
Proof.
  intros (x' & Hs & Hinv & Hc & Ht). exists x'. rewrite Ht. split_and!; [done..|]. intros t' k' Hne Hk _. by rewrite lookup_delete_ne.
Qed.

(** A lock is free once all who hold it have returned. *)
Lemma clear holds keep x :
  (∀ x t k, lk_inv x → calm x → lk_tasks x !! t = Some k → holds k = true → returns keep x t) → lk_inv x → calm x →
  ∃ x', rtc lk_step x x' ∧ lk_inv x' ∧ calm x' ∧ lk_free holds x' ∧ lk_tasks x' ⊆ lk_tasks x ∧
    ∀ t k, lk_tasks x !! t = Some k → holds k = false → keep k = true → lk_tasks x' !! t = Some k.
Proof.
  intros Hfin. remember (size (lk_tasks x)) as n eqn:Hn. revert x Hn. induction n as [n IH] using lt_wf_ind. intros x -> Hinv Hc.
  destruct (decide (map_Forall (λ _ k, holds k = false) (lk_tasks x))) as [Hf|Hf]; [exists x; by split_and!|].
  apply map_not_Forall in Hf as (t & k & Ht & Hk); [|intros; solve_decision]. apply not_false_is_true in Hk.
  destruct (Hfin x t k Hinv Hc Ht Hk) as (x1 & Hs1 & Hinv1 & Hc1 & Hsub1 & Hkeep1).
  assert (Hsz : (size (lk_tasks x1) < size (lk_tasks x))%nat).
  { eapply Nat.le_lt_trans; [by apply map_subseteq_size|]. rewrite map_size_delete_Some by (by eexists).
    assert (size (lk_tasks x) ≠ 0%nat); [|lia]. intros E%map_size_empty_inv. by rewrite E, lookup_empty in Ht. }
  destruct (IH _ Hsz x1 eq_refl Hinv1 Hc1) as (x' & Hs & Hinv' & Hc' & Hf' & Hsub & Hkeep).
  exists x'. split_and!; [by etrans|done|done|done|etrans; [exact Hsub|etrans; [exact Hsub1|apply delete_subseteq]]|].
  intros t' k' Ht' Hk' Hkp. apply Hkeep; [|done..]. apply Hkeep1; [|done..]. intros ->. congruence.
Qed.

Lemma free_mono holds x x' : lk_tasks x' ⊆ lk_tasks x → lk_free holds x → lk_free holds x'.
Proof. intros Hs Hf t k Hk. eapply Hf. by eapply lookup_weaken. Qed.

Lemma returns_later keep x x1 t :
  rtc lk_step x x1 → lk_tasks x1 ⊆ lk_tasks x → (∀ t' k', lk_tasks x !! t' = Some k' → keep k' = true → lk_tasks x1 !! t' = Some k') →
  returns keep x1 t → returns keep x t.
Proof.
  intros Hs Hsub Hk (x' & Hs' & Hinv & Hc & Hsub' & Hk'). exists x'. split_and!; [by etrans|done|done| |by auto].
  etrans; [exact Hsub'|]. by apply delete_mono.
Qed.

Definition idle (k : task) : bool := negb (holds_cn k).

Lemma begin_returns x t k k1 :
  lk_inv x → calm x → lk_tasks x !! t = Some k → holds_cn k = false → holds_cn k1 = true →
  (∀ x, lk_inv x → lk_tasks x !! t = Some k → lk_free holds_cn x → task_step t x k (goto t k1 x) ∨ task_step t x k (finish t x)) →
  returns idle x t.
Proof.
  intros Hinv Hc Ht Hk Hk1 Hgo.
  destruct (clear holds_cn idle x) as (x1 & Hs & Hinv1 & Hc1 & Hf & Hsub & Hkeep); [|done|done|].
  { intros x0 t0 k0 H0 H1 H2 H3. apply can_finish_returns. by eapply holder_finishes. }
  assert (Ht1 : lk_tasks x1 !! t = Some k) by (apply Hkeep; [done..|unfold idle; by rewrite Hk]).
  eapply returns_later; [exact Hs|exact Hsub|intros t' k' Hk' Hi; apply Hkeep; [done|by apply negb_true_iff in Hi|done]|].
  apply can_finish_returns. destruct (Hgo x1 Hinv1 Ht1 Hf) as [Hstep|Hstep]; [|by eapply finish_now].
  eapply then_finish; [done|done|exact Ht1|exact Hstep|done|]. intros Hinv2 Hc2 Ht2. by eapply holder_finishes.
Qed.

(** The calls at [Beginx]. *)
Lemma beginner_returns x t k :
  lk_inv x → calm x → lk_tasks x !! t = Some k → holds_mx k = true ∨ holds_rd k = true ∨ holds_cn k = true ∨ (∃ env, k = TxBegin env) →
  returns idle x t.
Proof.
  intros Hinv Hc Ht Hk. destruct (holds_cn k) eqn:Hcn; [apply can_finish_returns; by eapply holder_finishes|].
  destruct k; try (by destruct Hk as [Hk|[Hk|[Hk|[? Hk]]]]); try discriminate Hcn.
  - eapply (begin_returns x t _ (ApRun env o)); [done..|]. intros x1 _ _ Hf. destruct (begin_err env) eqn:He; [right|left]; by econstructor.
  - eapply (begin_returns x t _ (SbRun env start)); [done..|]. intros x1 _ _ Hf. destruct (begin_err env) eqn:He; [right|left]; by econstructor.
  - eapply (begin_returns x t _ (RoRun env)); [done..|]. intros x1 _ _ Hf. destruct (begin_err env) eqn:He; [right|left]; by econstructor.
  - eapply (begin_returns x t _ (TxRun env)); [done..|]. intros x1 _ _ Hf. destruct (begin_err env) eqn:He; [right|left]; by econstructor.
Qed.

Lemma clear_lock holds x t k :
  (∀ k, holds k = true → holds_mx k = true ∨ holds_rd k = true) → lk_inv x → calm x →
  lk_tasks x !! t = Some k → holds k = false → holds_cn k = false →
  ∃ x', rtc lk_step x x' ∧ lk_inv x' ∧ calm x' ∧ lk_free holds x' ∧ lk_tasks x' ⊆ lk_tasks x ∧ lk_tasks x' !! t = Some k.
Proof.
  intros Hh Hinv Hc Ht Hk Hcn. destruct (clear holds idle x) as (x1 & Hs & Hinv1 & Hc1 & Hf & Hsub & Hkeep); [|done|done|].
  { intros x0 t0 k0 H0 H1 H2 H3. eapply beginner_returns; [done..|]. destruct (Hh k0 H3); by auto. }
  exists x1. split_and!; [done..|]. apply Hkeep; [done..|unfold idle; by rewrite Hcn].
Qed.

Lemma locked_returns x x0 t k k1 :
  rtc lk_step x0 x → lk_inv x → calm x → lk_tasks x !! t = Some k → task_step t x k (goto t k1 x) → holds_mx k1 = true ∨ holds_rd k1 = true →
  ∃ x', rtc lk_step x0 x' ∧ lk_inv x' ∧ calm x' ∧ lk_tasks x' !! t = None.
Proof.
  intros Hs Hinv Hc Ht Hstep Hk1. pose proof (task_step_inv _ _ _ _ Hinv Ht Hstep) as Hinv1. pose proof (calm_task _ _ _ _ Hinv Hc Ht Hstep) as Hc1.
  destruct (beginner_returns (goto t k1 x) t k1) as (x' & Hs' & Hinv' & Hc' & Hsub & _); [done|done|by cbn; rewrite lookup_insert_eq|by destruct Hk1; auto|].
  exists x'. split_and!; [etrans; [exact Hs|by eapply rtc_l; [by eapply lk_task|]]|done|done|].
  destruct (lk_tasks x' !! t) as [k'|] eqn:E; [|done]. eapply lookup_weaken in E; [|exact Hsub]. by rewrite lookup_delete_eq in E.
Qed.

Lemma call_returns x t k :
  lk_inv x → calm x → lk_tasks x !! t = Some k →
  ∃ x', rtc lk_step x x' ∧ lk_inv x' ∧ calm x' ∧ lk_tasks x' !! t = None.
Proof.
  intros Hinv Hc Ht.
  assert (Hdone : holds_mx k = true ∨ holds_rd k = true ∨ holds_cn k = true ∨ (∃ env, k = TxBegin env) →
    ∃ x', rtc lk_step x x' ∧ lk_inv x' ∧ calm x' ∧ lk_tasks x' !! t = None).
  { intros Hk. destruct (beginner_returns x t k Hinv Hc Ht Hk) as (x' & Hs' & Hinv' & Hc' & Hsub & _). exists x'. split_and!; [done..|].
    destruct (lk_tasks x' !! t) as [k'|] eqn:E; [|done]. eapply lookup_weaken in E; [|exact Hsub]. by rewrite lookup_delete_eq in E. }
  assert (Hmx : holds_mx k = false → holds_cn k = false →
    ∃ x', rtc lk_step x x' ∧ lk_inv x' ∧ calm x' ∧ lk_free holds_mx x' ∧ lk_tasks x' ⊆ lk_tasks x ∧ lk_tasks x' !! t = Some k)
    by (intros; apply clear_lock; auto).
  assert (Hboth : holds_mx k = false → holds_rd k = false → holds_cn k = false →
    ∃ x', rtc lk_step x x' ∧ lk_inv x' ∧ calm x' ∧ lk_free holds_mx x' ∧ lk_free holds_rd x' ∧ lk_tasks x' !! t = Some k).
  { intros E1 E2 E3. destruct (Hmx E1 E3) as (x1 & Hs1 & Hinv1 & Hc1 & Hf1 & _ & Ht1).
    destruct (clear_lock holds_rd x1 t k) as (x2 & Hs2 & Hinv2 & Hc2 & Hf2 & Hsub2 & Ht2); [by auto|done..|].
    exists x2. split_and!; [by etrans|done|done|by eapply free_mono|done|done]. }
  destruct k; try (by apply Hdone; eauto).
  - destruct Hboth as (x1 & Hs & Hinv1 & Hc1 & Hf1 & Hf2 & Ht1); [done..|].
    by eapply (locked_returns x1 x t _ (ApBegin env o)); [..|constructor|left].
  - destruct Hboth as (x1 & Hs & Hinv1 & Hc1 & Hf1 & Hf2 & Ht1); [done..|].
    by eapply (locked_returns x1 x t _ (SbBegin env start)); [..|constructor|left].
  - destruct Hmx as (x1 & Hs & Hinv1 & Hc1 & Hf1 & _ & Ht1); [done..|].
    by eapply (locked_returns x1 x t _ (RoBegin env)); [..|constructor|right].
Qed.

(** ** Calls that never finish

    A call announces a change on a channel that is full; what would empty the
    channel waits to pass on an operation to a handler that has left its loop
    and waits for the lock that the announcement holds. *)
Definition full (b : list op) : Prop := (chanBufSize ≤ Z.of_nat (length b))%Z.

Definition wedged (t h : nat) (x : locks) : Prop :=
  ∃ env o d rest hd o' b,
    lk_tasks x !! t = Some (ApSend env o d (hd_ch hd :: rest)) ∧ lk_handlers x !! h = Some hd ∧ hd_leaving hd = true ∧
    chans (lk_ps x) !! hd_ch hd = Some (Chan b false) ∧ full b ∧ cn_hand (hd_conn hd) = Some o' ∧ full (cn_out (hd_conn hd)).

Lemma wedged_step t h x x' :
  lk_inv x → wedged t h x → lk_step x x' →
  wedged t h x' ∧ lk_db x' = lk_db x ∧ ∀ t' k, lk_tasks x !! t' = Some k → lk_tasks x' !! t' = Some k.
Proof.
  intros Hinv (env & o & d & rest & hd & o' & b & Ht & Hh & Hlv & Hb & Hfb & Hhand & Hfo) Hstep.
  assert (Hpm : ¬ lk_free holds_pm x) by (intros Hf; by specialize (Hf _ _ Ht)).
  assert (Hmx : ¬ lk_free holds_mx x) by (intros Hf; by specialize (Hf _ _ Ht)).
  assert (Hcn : ¬ lk_free holds_cn x) by (intros Hf; by specialize (Hf _ _ Ht)).
  assert (Hns : notify_step (hd_conn hd) (lk_ps x) = (Hang, lk_ps x)).
  { unfold notify_step. rewrite Hhand, bool_decide_eq_false_2; [done|]. unfold full in Hfo. lia. }
  destruct Hstep as [x t1 k1 Ht1 Hk1|x t1 k1 x' Ht1 Hk1|x h1 c1 pp1 b1 c' p Hh1 Hrun|x h1 c1 pp1 c' pp' Hh1 Hrun|x h1 c1 pp1 Hh1|x h1 c1 pp1 p Hh1 Hf Hrun].
  - assert (Hkeep : ∀ t' k, lk_tasks x !! t' = Some k → <[t1 := k1]> (lk_tasks x) !! t' = Some k).
    { intros t' k Hk. rewrite lookup_insert_ne; [done|]. intros ->. congruence. }
    split_and!; [|done|done]. exists env, o, d, rest, hd, o', b. split_and!; [by apply Hkeep|done..].
  - assert (Hwho : holds_mx k1 = true ∨ holds_cn k1 = true → t1 = t).
    { intros [E|E]; [by eapply (lv_mx _ Hinv)|by eapply (lv_cn _ Hinv)]. }
    destruct (decide (t1 = t)) as [->|Hne].
    + rewrite Ht in Ht1. injection Ht1 as <-. inversion Hk1; subst. rewrite (send_chan_full _ _ _ _ Hb Hfb) in *. done.
    + destruct Hk1; try done; try (by destruct Hne; apply Hwho; cbn; auto).
  - destruct (decide (h1 = h)) as [->|Hne]; [rewrite Hh in Hh1; injection Hh1 as ->; cbn in Hns; congruence|].
    destruct (lv_handlers _ Hinv _ _ Hh1) as [Hin1 _]. destruct (ps_open _ _ (lv_ps _ Hinv) Hin1) as [b2 Hb2].
    destruct (notify_step_run _ _ _ _ _ Hb2 Hrun eq_refl) as (c2 & b' & [= <-] & _ & _ & _ & _ & _ & Hch).
    split_and!; [|done|done]. exists env, o, d, rest, hd, o', b. cbn. rewrite lookup_insert_ne by done. split_and!; try done.
    rewrite Hch, lookup_insert_ne; [done|]. intros E. apply Hne. exact (lv_own _ Hinv _ _ _ _ Hh1 Hh E).
  - split_and!; [|done|done]. exists env, o, d, rest, hd, o', b. cbn. rewrite lookup_insert_ne; [done|]. intros ->.
    rewrite Hh in Hh1. by injection Hh1 as ->.
  - split_and!; [|done|done]. exists env, o, d, rest, hd, o', b. cbn. rewrite lookup_insert_ne; [done|]. intros ->.
    rewrite Hh in Hh1. by injection Hh1 as ->.
  - done.
Qed.

Lemma wedged_forever t h x x' :
  lk_inv x → wedged t h x → rtc lk_step x x' →
  wedged t h x' ∧ lk_db x' = lk_db x ∧ ∀ t' k, lk_tasks x !! t' = Some k → lk_tasks x' !! t' = Some k.
Proof.
  intros Hinv Hw Hsteps. induction Hsteps as [x|x y z Hxy _ IH]; [done|].
  destruct (wedged_step _ _ _ _ Hinv Hw Hxy) as (Hw1 & Hd1 & Hk1). destruct (IH (lk_step_inv _ _ Hinv Hxy) Hw1) as (Hw2 & Hd2 & Hk2).
  split_and!; [done|congruence|by auto].
Qed.

(** *** Such a state is reached *)
Section Reach.
Context (o0 : op) (Hwire : op_wire o0) (Halways : ∀ n st, is_Some (spec_op (WithSequence o0 n) st)).

Lemma stmts_accept ops d :
  log_inv st0 ops d → Forall op_wire ops → (Z.of_nat (length ops) + 1 < 2 ^ 63)%Z →
  ∃ o' d', apply_stmts o0 d = (Ok o', d') ∧ log_inv st0 (app ops [o']) d' ∧ Forall op_wire (app ops [o']).
Proof.
  intros Hl Hw Hb. destruct (apply_stmts o0 d) as [r d'] eqn:Hrun. pose proof (apply_stmts_run _ _ _ _ _ Hl Hw Hwire Hrun) as Hres.
  destruct r as [o'|e| |]; [|exfalso|done..].
  - destruct Hres as (_ & Hl' & Hw'). by exists o', d'.
  - rewrite (apply_stmts_body _ _ _ Hl) in Hrun. set (o' := sequenced _ _ _) in *. destruct (Halways (1 + Z.of_nat (length ops)) (cabs d)) as [st' Hsp].
    destruct (enc_roundtrip _ Hwire) as (j & _ & Hj & _).
    destruct (apply_body_ok st0 ops (Wrap d) o' j st') as (d1 & _ & Hres'); [done|apply newPubSub_ok|done|cbn; lia|done|done|].
    rewrite decide_False in Hres' by (intros Hex; inversion Hex). rewrite apply_body_stmts in Hres'.
    destruct (body_stmts o' d) as [[[]| | |] d2]; by inv_run.
Qed.

(** One subscriber, nobody else. *)
Definition lone (d : db) (b : list op) (hand : option op) (out : list op) : locks :=
  Locks d (PubSub [] [0%nat] {[0%nat := Chan b false]} 1) ∅ {[0%nat := Handler (Conn (mkSub [] 0) [] hand out) new_pipe false]}.

Definition lone_at (k : task) (d : db) (b : list op) (hand : option op) (out : list op) : locks :=
  Locks d (PubSub [] [0%nat] {[0%nat := Chan b false]} 1) {[0%nat := k]} {[0%nat := Handler (Conn (mkSub [] 0) [] hand out) new_pipe false]}.

Lemma lone_step k k' d d' b b' hand out x :
  task_step 0 (lone_at k d b hand out) k x → x = goto 0 k' (lone_at k d' b' hand out) →
  lk_step (lone_at k d b hand out) (lone_at k' d' b' hand out).
Proof.
  intros Hstep ->. apply (lk_task _ 0 k); [apply lookup_insert_eq|]. unfold goto in Hstep. cbn in Hstep.
  by rewrite insert_singleton_eq in Hstep.
Qed.

Lemma lone_free holds k d b hand out : holds k = false → lk_free holds (lone_at k d b hand out).
Proof. intros Hk t k' Ht. cbn in Ht. by apply lookup_singleton_Some in Ht as [_ <-]. Qed.

(** A change up to its announcement. *)
Lemma lone_announces d b hand out ops :
  log_inv st0 ops d → Forall op_wire ops → (Z.of_nat (length ops) + 1 < 2 ^ 63)%Z →
  ∃ o' d', rtc lk_step (lone d b hand out) (lone_at (ApSend tx_ok o' d' [0%nat]) d b hand out) ∧
    log_inv st0 (app ops [o']) d' ∧ Forall op_wire (app ops [o']).
Proof.
  intros Hl Hw Hb. destruct (stmts_accept _ _ Hl Hw Hb) as (o' & d' & Hrun & Hl' & Hw'). exists o', d'. split; [|done].
  eapply rtc_l with (lone_at (ApLock tx_ok o0) d b hand out).
  { by apply (lk_call (lone d b hand out) 0 (ApLock tx_ok o0)). }
  eapply rtc_l; [eapply (lone_step _ (ApBegin tx_ok o0) d d b b); [apply ap_lock; by apply lone_free|done]|].
  eapply rtc_l; [eapply (lone_step _ (ApRun tx_ok o0) d d b b); [apply ap_begin; [by apply lone_free|done]|done]|].
  eapply rtc_l; [eapply (lone_step _ (ApEmit tx_ok o' d') d d b b); [by apply ap_run|done]|].
  apply rtc_once. eapply (lone_step _ (ApSend tx_ok o' d' [0%nat]) d d b b); [apply ap_emit; [by apply lone_free|done]|done].
Qed.

Lemma lone_writes d b hand out ops :
  log_inv st0 ops d → Forall op_wire ops → (Z.of_nat (length ops) + 1 < 2 ^ 63)%Z → (Z.of_nat (length b) < chanBufSize)%Z →
  ∃ o' d', rtc lk_step (lone d b hand out) (lone d' (app b [o']) hand out) ∧ log_inv st0 (app ops [o']) d' ∧ Forall op_wire (app ops [o']).
Proof.
  intros Hl Hw Hb Hroom. destruct (lone_announces d b hand out ops Hl Hw Hb) as (o' & d' & Hs & Hl' & Hw'). exists o', d'. split; [|done].
  etrans; [exact Hs|].
  eapply rtc_l; [eapply (lone_step _ (ApSend tx_ok o' d' []) d d b (app b [o'])); [apply ap_send with (p := PubSub [] [0%nat] {[0%nat := Chan (app b [o']) false]} 1)|done]|].
  { unfold send_chan. m_unfold. cbn [chans lk_ps lone_at toClose subscribers next_chan]. rewrite lookup_singleton_eq, bool_decide_eq_true_2 by done.
    by rewrite insert_singleton_eq. }
  eapply rtc_l; [eapply (lone_step _ (ApCommit tx_ok o' d') d d _ _); [apply ap_unlock|done]|].
  apply rtc_once.
  assert (Hc : lk_step (lone_at (ApCommit tx_ok o' d') d (app b [o']) hand out)
    (finish 0 (lone_at (ApCommit tx_ok o' d') d' (app b [o']) hand out))) by (apply (lk_task _ 0 (ApCommit tx_ok o' d')); [apply lookup_insert_eq|by apply ap_commit]).
  unfold finish in Hc. cbn in Hc. by rewrite delete_singleton_eq in Hc.
Qed.

(** The goroutine of the subscription takes an operation, and passes it on. *)
Lemma lone_takes d o b out : lk_step (lone d (o :: b) None out) (lone d b (Some o) out).
Proof.
  assert (Hs := lk_notify (lone d (o :: b) None out) 0 (Conn (mkSub [] 0) [] None out) new_pipe false (Conn (mkSub [] 0) [] (Some o) out)
    (PubSub [] [0%nat] {[0%nat := Chan b false]} 1)).
  unfold with_ps, with_handler in Hs. cbn in Hs. rewrite insert_singleton_eq in Hs. apply Hs; [by rewrite lookup_singleton_eq|].
  unfold notify_step, recv_chan. m_unfold. cbn. rewrite lookup_singleton_eq. by rewrite insert_singleton_eq.
Qed.

Lemma lone_passes d b o out : (Z.of_nat (length out) < chanBufSize)%Z → lk_step (lone d b (Some o) out) (lone d b None (app out [o])).
Proof.
  intros Hlen. assert (Hs := lk_notify (lone d b (Some o) out) 0 (Conn (mkSub [] 0) [] (Some o) out) new_pipe false (Conn (mkSub [] 0) [] None (app out [o]))
    (PubSub [] [0%nat] {[0%nat := Chan b false]} 1)).
  unfold with_ps, with_handler in Hs. cbn in Hs. rewrite insert_singleton_eq in Hs. apply Hs; [by rewrite lookup_singleton_eq|].
  unfold notify_step. cbn [cn_hand cn_out]. by rewrite bool_decide_eq_true_2.
Qed.

(** Both channels fill up. *)
Lemma lone_fills n d ops out :
  log_inv st0 ops d → Forall op_wire ops → (Z.of_nat (length ops + n) < 2 ^ 63)%Z → (Z.of_nat (length out + n) ≤ chanBufSize)%Z →
  ∃ ops' d' out', rtc lk_step (lone d [] None out) (lone d' [] None out') ∧ log_inv st0 ops' d' ∧ Forall op_wire ops' ∧
    length ops' = (length ops + n)%nat ∧ length out' = (length out + n)%nat.
Proof.
  revert d ops out. induction n as [|n IH]; intros d ops out Hl Hw Hb Hc; [exists ops, d, out; split_and!; [done..|lia|lia]|].
  destruct (lone_writes d [] None out ops Hl Hw) as (o & d1 & Hs & Hl1 & Hw1); [lia|done|].
  destruct (IH d1 (app ops [o]) (app out [o]) Hl1 Hw1) as (ops' & d' & out' & Hs' & Hl' & Hw' & Hn1 & Hn2); [rewrite length_app; cbn; lia..|].
  rewrite length_app in Hn1, Hn2. cbn in Hn1, Hn2. exists ops', d', out'. split_and!; [|done|done|lia|lia].
  etrans; [exact Hs|]. eapply rtc_l; [apply lone_takes|]. eapply rtc_l; [apply lone_passes; lia|done].
Qed.

Lemma lone_queues n d ops b o out :
  log_inv st0 ops d → Forall op_wire ops → (Z.of_nat (length ops + n) < 2 ^ 63)%Z → (Z.of_nat (length b + n) ≤ chanBufSize)%Z →
  ∃ ops' d' b', rtc lk_step (lone d b (Some o) out) (lone d' b' (Some o) out) ∧ log_inv st0 ops' d' ∧ Forall op_wire ops' ∧
    length ops' = (length ops + n)%nat ∧ length b' = (length b + n)%nat.
Proof.
  revert d ops b. induction n as [|n IH]; intros d ops b Hl Hw Hb Hc; [exists ops, d, b; split_and!; [done..|lia|lia]|].
  destruct (lone_writes d b (Some o) out ops Hl Hw) as (o1 & d1 & Hs & Hl1 & Hw1); [lia|lia|].
  destruct (IH d1 (app ops [o1]) (app b [o1]) Hl1 Hw1) as (ops' & d' & b' & Hs' & Hl' & Hw' & Hn1 & Hn2); [rewrite length_app; cbn; lia..|].
  rewrite length_app in Hn1, Hn2. cbn in Hn1, Hn2. exists ops', d', b'. split_and!; [by etrans|done|done|lia|lia].
Qed.

Lemma lone_subscribes d ops :
  log_inv st0 ops d → Forall op_wire ops → (Z.of_nat (length ops) + 1 < 2 ^ 63)%Z → rtc lk_step (lk_start d) (lone d [] None []).
Proof.
  intros Hl Hw Hb. set (start := (1 + Z.of_nat (length ops))%Z).
  assert (Hrun : subscribe_stmts start d = (Ok [], d)).
  { unfold subscribe_stmts. rewrite (bind_Ok _ _ d d d) by done. fold (GetNextSequence d). rewrite (log_inv_next _ _ _ Hl).
    rewrite bool_decide_eq_false_2 by (unfold start; lia). destruct (QueryLogSince_run st0 ops d start) as (pre & Hq & Hall); [done|done|unfold start; lia|].
    rewrite drop_ge in Hall by (unfold start; lia). inversion Hall; subst. done. }
  set (at_k := λ k p, Locks d p ({[0%nat := k]} : gmap nat task) (∅ : gmap nat stream_handler)).
  assert (Hgo : ∀ k k' p p', task_step 0 (at_k k p) k (goto 0 k' (with_ps p' (at_k k p))) → lk_step (at_k k p) (at_k k' p')).
  { intros k k' p p' Hstep. unfold at_k at 2. rewrite <- (insert_singleton_eq 0%nat k' k). apply (lk_task (at_k k p) 0 k); [apply lookup_singleton_eq|done]. }
  assert (Hfree : ∀ holds k p, holds k = false → lk_free holds (at_k k p)).
  { intros holds k p Hk t k' Ht. cbn in Ht. by apply lookup_singleton_Some in Ht as [_ <-]. }
  eapply rtc_l with (at_k (SbLock tx_ok start) newPubSub).
  { apply (lk_call (lk_start d) 0 (SbLock tx_ok start)); [done|]. apply bool_decide_eq_true. unfold start. lia. }
  eapply rtc_l; [apply (Hgo _ (SbBegin tx_ok start) _ newPubSub), sb_lock; by apply Hfree|].
  eapply rtc_l; [apply (Hgo _ (SbRun tx_ok start) _ newPubSub), sb_begin; [by apply Hfree|done]|].
  eapply rtc_l; [apply (Hgo _ (SbAdd tx_ok []) _ newPubSub); by eapply sb_run|].
  eapply rtc_l; [apply (Hgo _ (SbCommit tx_ok (mkSub [] 0)) _ (subscribed newPubSub)); by eapply sb_add; [apply Hfree|..]|].
  apply rtc_once. assert (Hc : lk_step (at_k (SbCommit tx_ok (mkSub [] 0)) (subscribed newPubSub))
    (finish 0 (with_handler 0 (Handler (Notify (mkSub [] 0)) new_pipe false) (at_k (SbCommit tx_ok (mkSub [] 0)) (subscribed newPubSub)))))
    by (apply (lk_task _ 0 (SbCommit tx_ok (mkSub [] 0))); [apply lookup_singleton_eq|by apply sb_commit]).
  unfold finish in Hc. cbn in Hc. by rewrite delete_singleton_eq in Hc.
Qed.

(** A client subscribes, reads nothing while the datastore changes, and goes. *)
Lemma wedged_reached d ops :
  log_inv st0 ops d → Forall op_wire ops → (Z.of_nat (length ops) + 3000 < 2 ^ 63)%Z →
  ∃ x, rtc lk_step (lk_start d) x ∧ wedged 0 0 x.
Proof.
  intros Hl Hw Hb. pose proof (lone_subscribes d ops Hl Hw ltac:(lia)) as Hsub.
  destruct (lone_fills 1000 d ops [] Hl Hw) as (ops1 & d1 & out & Hs1 & Hl1 & Hw1 & Hn1 & Ho1); [lia|done|].
  destruct (lone_writes d1 [] None out ops1 Hl1 Hw1) as (o & d2 & Hs2 & Hl2 & Hw2); [lia|done|].
  destruct (lone_queues 1000 d2 (app ops1 [o]) [] o out Hl2 Hw2) as (ops3 & d3 & b & Hs3 & Hl3 & Hw3 & Hn3 & Hb3); [rewrite length_app; cbn; lia|done|].
  rewrite length_app in Hn3. cbn in Hn3, Hb3.
  destruct (lone_announces d3 b (Some o) out ops3 Hl3 Hw3) as (o4 & d4 & Hs4 & _); [lia|].
  set (x := lone_at _ _ _ _ _) in Hs4. set (hd := Handler (Conn (mkSub [] 0) [] (Some o) out) (end_pipe new_pipe) true).
  exists (with_handler 0 hd x). split.
  - etrans; [exact Hsub|]. etrans; [exact Hs1|]. etrans; [exact Hs2|]. eapply rtc_l; [apply lone_takes|]. etrans; [exact Hs3|].
    etrans; [exact Hs4|]. apply rtc_once, lk_leave. apply lookup_singleton_eq.
  - exists tx_ok, o4, d4, [], hd, o, b. unfold full, chanBufSize.
    split_and!; [apply lookup_singleton_eq|apply lookup_insert_eq|done|apply lookup_singleton_eq|lia|done|cbn in *; lia].
Qed.

End Reach.

End Locks.

(** ** Properties *)
Section Wig.
Context (ord : list sqlTableAdapter) (fuel : nat).
#[local] Existing Instance model_encoding.
#[local] Instance locks_crud : CRUD := model_crud ord fuel.
#[local] Instance locks_crud_laws : CrudLaws := model_crud_laws ord fuel.
#[local] Instance locks_encoding_laws : EncodingLaws := model_encoding_laws ord fuel.

Lemma wig_locks_inv ops d x :
  history ord fuel ops d → Forall op_wire ops → rtc lk_step (lk_start d) x → lk_inv empty_store x.
Proof. intros Hh Hw Hs. eapply lk_steps_inv; [|exact Hs]. by eapply lk_start_inv. Qed.

(** C11: transactions are serial: however the goroutines of the datastore
    interleave (calls of [Apply], [Subscribe], [LatestSequence], [Snapshot] and
    [Find] at every point of their way through the locks and the connection,
    announcements channel by channel, the goroutines of all subscriptions), the
    database is what a sequence of whole, successful calls of [Apply] makes of
    the first one; never are two calls inside the lock of the log, or on the
    connection, at a time; and what a transaction is about to commit is what the
    whole call makes of the database as it is. *)
Theorem transactions_serial ops d x :
  history ord fuel ops d → Forall op_wire ops → rtc lk_step (lk_start d) x →
  rtc applied d (lk_db x) ∧ exclusive holds_mx x ∧ exclusive holds_cn x ∧
  ∀ t env o d', lk_tasks x !! t = Some (ApCommit env o d') → applied (lk_db x) d'.
Proof.
  intros Hh Hw Hs. pose proof (wig_locks_inv _ _ _ Hh Hw Hs) as Hinv.
  split_and!; [|apply (lv_mx _ _ Hinv)|apply (lv_cn _ _ Hinv)|].
  - exact (lk_steps_db _ _ _ (wig_locks_inv _ _ _ Hh Hw (rtc_refl _ _)) Hs).
  - intros t env o d' Ht. eapply staged_applied; [exact Hinv|]. exact (lv_tasks _ _ Hinv _ _ Ht).
Qed.

(** C12: no call is stuck as long as subscribers are served: in every reachable
    state in which every subscribed channel has a handler that is in its loop,
    every call, wherever it is on its way, can return: the locks are taken in an
    order that allows it, and an announcement that waits for a full channel goes
    on when the handler writes. *)
Theorem calls_can_return ops d x t k :
  history ord fuel ops d → Forall op_wire ops → rtc lk_step (lk_start d) x → calm x → lk_tasks x !! t = Some k →
  ∃ x', rtc lk_step x x' ∧ calm x' ∧ lk_tasks x' !! t = None.
Proof.
  intros Hh Hw Hs Hc Ht. pose proof (wig_locks_inv _ _ _ Hh Hw Hs) as Hinv.
  destruct (call_returns _ x t k Hinv Hc Ht) as (x' & Hs' & _ & Hc' & Hn). by exists x'.
Qed.

(** C39: one slow subscriber can stop a datastore for good: whatever the datastore
    holds, a client that subscribes and stops reading until the channels of its
    subscription are full, and then goes away during the next change, leaves the
    datastore in a state after which nothing ever happens again, whatever the
    other goroutines do: the database stays as it is, no call that has begun
    returns, and no later one gets anywhere, because the announcement holds the
    locks and the connection while it waits for a channel that only the end of
    the handler, which waits for one of the locks, could free. *)
Theorem stalled_subscriber_stops_datastore ops d :
  history ord fuel ops d → Forall op_wire ops → (Z.of_nat (length ops) + 3000 < 2 ^ 63)%Z →
  ∃ x t h, rtc lk_step (lk_start d) x ∧ wedged t h x ∧
    ∀ x' x'', rtc lk_step x x' → rtc lk_step x' x'' →
      wedged t h x'' ∧ lk_db x'' = lk_db x ∧ ∀ t' k, lk_tasks x' !! t' = Some k → lk_tasks x'' !! t' = Some k.
Proof.
  intros Hh Hw Hb. destruct (wedged_reached (CL := locks_crud_laws) (EL := locks_encoding_laws) empty_store (newOp 0 OpDelete (OPeer zero_Peer)) eq_refl) with (d := d) (ops := ops) as (x & Hs & Hwd);
    [intros n st; by eexists|done|done|done|]. exists x, 0%nat, 0%nat. split_and!; [done|done|]. intros x' x'' H1 H2.
  pose proof (wig_locks_inv _ _ _ Hh Hw Hs) as Hinv. destruct (wedged_forever _ _ _ _ _ Hinv Hwd H1) as (Hw1 & Hd1 & _).
  destruct (wedged_forever _ _ _ _ _ (lk_steps_inv _ _ _ Hinv H1) Hw1 H2) as (Hw2 & Hd2 & Hk). split_and!; [done|congruence|done].
Qed.

End Wig.

(** *** A change while a client is subscribed *)
#[local] Existing Instance model_encoding.
#[local] Instance demo_crud : CRUD := model_crud sample_ord 1.
#[local] Instance demo_crud_laws : CrudLaws := model_crud_laws sample_ord 1.
#[local] Instance demo_encoding_laws : EncodingLaws := model_encoding_laws sample_ord 1.

Definition demo_call : task := ApLock tx_ok (newOp 0 OpDelete (OPeer zero_Peer)).
Definition demo_x : locks := lone_at demo_call initial_db [] None [].

Lemma demo_reached : rtc lk_step (lk_start initial_db) demo_x.
Proof.
  etrans; [apply (lone_subscribes (CL := demo_crud_laws) (EL := demo_encoding_laws) empty_store initial_db []); [apply initial_log_inv|constructor|done]|].
  apply rtc_once. by apply (lk_call (lone initial_db [] None []) 0 demo_call).
Qed.

Lemma transactions_serial_witness : rtc applied initial_db (lk_db demo_x) ∧ exclusive holds_cn demo_x.
Proof.
  destruct (transactions_serial sample_ord 1 [] initial_db demo_x) as (H1 & _ & H2 & _);
    [apply initial_log_inv|constructor|exact demo_reached|]. split; [exact H1|exact H2].
Defined.

Lemma calls_can_return_witness : ∃ x', rtc lk_step demo_x x' ∧ lk_tasks x' !! 0%nat = None.
Proof.
  destruct (calls_can_return sample_ord 1 [] initial_db demo_x 0 demo_call) as (x' & H1 & _ & H2);
    [apply initial_log_inv|constructor|exact demo_reached| |exact (lookup_singleton_eq _ _)|].
  - split.
    + intros h hd Hh. cbn in Hh. apply lookup_singleton_Some in Hh as [_ <-]. reflexivity.
    + intros c Hc. left. cbn in Hc. apply list_elem_of_singleton in Hc as ->. eexists 0%nat, _. split; [exact (lookup_singleton_eq _ _)|reflexivity].
    + intros t k env Ht He. cbn in Ht. apply lookup_singleton_Some in Ht as [_ <-]. discriminate He.
  - exists x'. split; [exact H1|exact H2].
Defined.

Lemma stalled_subscriber_stops_datastore_witness :
  ∃ x t h, rtc lk_step (lk_start initial_db) x ∧ wedged t h x.
Proof.
  destruct (stalled_subscriber_stops_datastore sample_ord 1 [] initial_db) as (x & t & h & H1 & H2 & _);
    [apply initial_log_inv|apply List.Forall_nil|vm_compute; reflexivity|]. exists x, t, h. split; [exact H1|exact H2].
Defined.
