(* ===== verification/Cluster.v ===== *)
(** * Replication over HTTP

    A datastore and any number of nodes (read-only datastores, gateways) that
    follow its log through [crudlog/remote.go], as the commands set them up
    ([cmd/wig/api.go], [gw.go]).  The steps interleave: on the server, for every
    subscription, the goroutine of [Notify] and the loop of [handleSubscribe]; on
    a node, the goroutines of the remote subscription and the loop of [doFollow];
    failures of reads and writes, the end of handlers and cancellations.  Writes
    and restarts are steps of the whole deployment ([Tree]).  A handler whose
    client has gone stays subscribed until a write fails.  The headers of a reply
    are sent with its first line, until which a subscriber is still waiting in
    [Subscribe]; the model lets it wait in [Notify] instead. *)

From Stdlib Require Import Ascii.
From S2P Require Import Prelude GoStrings Sql SqlText Sqlite Net Model Crud CrudSpec CrudLog CrudLogSpec Follow Http RemoteLog Stream.
Local Open Scope string_scope.

Record node (F : Type) : Type := Node { nd_sink : F; nd_sub : option client }.
Arguments Node {F} _ _.
Arguments nd_sink {F} _.
Arguments nd_sub {F} _.

(** The datastore; the handlers of subscriptions and the bodies of their replies,
    by the number of the request; the nodes. *)
Record cluster (F : Type) : Type := Cluster {
  cl_src : logdb;
  cl_handlers : gmap nat conn;
  cl_pipes : gmap nat pipe;
  cl_nodes : gmap nat (node F) }.
Arguments Cluster {F} _ _ _ _.
Arguments cl_src {F} _.
Arguments cl_handlers {F} _.
Arguments cl_pipes {F} _.
Arguments cl_nodes {F} _.

Section Steps.
Context `{ErrorTexts} `{CR : CRUD} {CL : CrudLaws} `{EN : Encoding} {EL : EncodingLaws}.
Context {F EF : Type} `{SK : LogSink F EF} (st0 : cstate) {SL : SinkLaws st0}.
Context (hapi : API logdb) (username password : string) (fits : json → bool).

(** The calls of a node go to the remote source. *)
Definition node_start (env : follow_env (list (net_env (EP := tx_env))) EF) : M (logdb * F) subscription :=
  follow_start (H := remote_source hapi username password "") env.

Definition env_commits (env : list (net_env (EP := tx_env))) : Prop :=
  Forall (λ e, match e with NetUp e => commit_err e = None | NetDown _ => True end) env.

(** A handler returns: the deferred [Close], and the end of the reply. *)
Definition end_handler (h : nat) (c : conn) (x : cluster F) : cluster F :=
  Cluster (subscription_Close (cn_sub c) (cl_src x)).2 (delete h (cl_handlers x)) (alter end_pipe h (cl_pipes x)) (cl_nodes x).

(** A node leaves its subscription: the deferred [Close] closes the reply. *)
Definition leave (i : nat) (k : F) (cl : client) (x : cluster F) : cluster F :=
  Cluster (cl_src x) (cl_handlers x) (alter leave_pipe (rs_pipe cl) (cl_pipes x)) (<[i := Node k None]> (cl_nodes x)).

Inductive cl_serve : cluster F → cluster F → Prop :=
| cl_connect s hs ps ns i k env h sub s' k' :
    ns !! i = Some (Node k None) → sink_up (fe_latest env) → env_commits (fe_subscribe env) →
    ps !! h = None → node_start env (s, k) = (Ok sub, (s', k')) →
    cl_serve (Cluster s hs ps ns)
      (Cluster s' (<[h := Notify sub]> hs) (<[h := new_pipe]> ps) (<[i := Node k' (Some (remote_Notify h))]> ns))
| cl_refused s hs ps ns i k env e s' k' :
    ns !! i = Some (Node k None) → sink_up (fe_latest env) → env_commits (fe_subscribe env) →
    node_start env (s, k) = (Err e, (s', k')) →
    cl_serve (Cluster s hs ps ns) (Cluster s' hs ps (<[i := Node k' None]> ns))
| cl_notify s hs ps ns h c c' s' :
    hs !! h = Some c → on_pubsub (notify_step c) s = (Ok c', s') →
    cl_serve (Cluster s hs ps ns) (Cluster s' (<[h := c']> hs) ps ns)
| cl_handle s hs ps ns h c pp c' pp' :
    hs !! h = Some c → ps !! h = Some pp → handle_iter true c pp = (Ok (Some c'), pp') →
    cl_serve (Cluster s hs ps ns) (Cluster s (<[h := c']> hs) (<[h := pp']> ps) ns)
| cl_handler_fails x h c pp b pp' :
    cl_handlers x !! h = Some c → cl_pipes x !! h = Some pp → handle_iter b c pp = (Ok None, pp') →
    cl_serve x (end_handler h c x)
| cl_server_done x h c :
    cl_handlers x !! h = Some c → cl_serve x (end_handler h c x)
| cl_client s hs ps ns i k c pp c' pp' :
    ns !! i = Some (Node k (Some c)) → ps !! rs_pipe c = Some pp →
    scan_line fits (c, pp) = (Ok tt, (c', pp')) ∨ send_op (c, pp) = (Ok tt, (c', pp')) ∨
      break_line (c, pp) = (Ok tt, (c', pp')) ∨ loop_done (c, pp) = (Ok tt, (c', pp')) →
    cl_serve (Cluster s hs ps ns) (Cluster s hs (<[rs_pipe c := pp']> ps) (<[i := Node k (Some c')]> ns))
| cl_receive s hs ps ns i k c env o rest k' :
    ns !! i = Some (Node k (Some c)) → sink_commits env → rs_ch c = o :: rest →
    follow_iter env (EvOp o) k = (Ok true, k') →
    cl_serve (Cluster s hs ps ns)
      (Cluster s hs ps (<[i := Node k' (Some (Client (rs_pipe c) (rs_scanning c) (rs_hand c) rest (rs_closed c)))]> ns))
| cl_apply_fails x i k c env o rest e k' :
    cl_nodes x !! i = Some (Node k (Some c)) → sink_commits env → rs_ch c = o :: rest →
    follow_iter env (EvOp o) k = (Err e, k') → cl_serve x (leave i k' c x)
| cl_closed x i k c :
    cl_nodes x !! i = Some (Node k (Some c)) → rs_ch c = [] → rs_closed c = true → cl_serve x (leave i k c x)
| cl_cancel x i k c :
    cl_nodes x !! i = Some (Node k (Some c)) → cl_serve x (leave i k c x).

(** ** The invariant *)

(** Operations that agree with the beginning of the history. *)
Definition prefix_ops (ops l : list op) : Prop := Forall2 op_eqv (take (length l) ops) l.

(** What a handler has still to write. *)
Definition backlog (p : pubsub) (c : conn) : list op :=
  app (pending c) (from_option ch_buf [] (chans p !! sub_ch (cn_sub c))).

Definition handler_ok (ops : list op) (p : pubsub) (ps : gmap nat pipe) (h : nat) (c : conn) : Prop :=
  sub_ch (cn_sub c) ∈ subscribers p ∧ is_Some (ps !! h) ∧
  Forall2 op_eqv (drop (length ops - length (backlog p c)) ops) (backlog p c).

(** A node has a prefix of the history, what is on its way continues it, and a
    handler that it is attached to has the rest. *)
Definition node_ok (ops : list op) (p : pubsub) (hs : gmap nat conn) (ps : gmap nat pipe) (n : node F) : Prop :=
  ∃ fops, sink_rep fops (nd_sink n) ∧
  match nd_sub n with
  | None => prefix_ops ops fops
  | Some c => ∃ pp, ps !! rs_pipe c = Some pp ∧ prefix_ops ops (app fops (incoming fits c pp)) ∧
      (rs_scanning c = true → ∀ hc, hs !! rs_pipe c = Some hc →
        (length fops + length (incoming fits c pp) + length (backlog p hc) = length ops)%nat)
  end.

Record cl_inv (ops : list op) (x : cluster F) : Prop := {
  ci_log : log_inv st0 ops (ld_db (cl_src x));
  ci_pubsub : pubsub_ok (ld_pubsub (cl_src x));
  ci_wire : Forall op_wire ops;
  ci_fits : Forall (op_fits fits) ops;
  ci_takes : takes_all st0 ops;
  ci_handlers h c : cl_handlers x !! h = Some c → handler_ok ops (ld_pubsub (cl_src x)) (cl_pipes x) h c;
  ci_chans h h' c c' : cl_handlers x !! h = Some c → cl_handlers x !! h' = Some c' →
    sub_ch (cn_sub c) = sub_ch (cn_sub c') → h = h';
  ci_pipes h pp : cl_pipes x !! h = Some pp → Forall (line_ok fits) (pp_lines pp);
  ci_nodes i n : cl_nodes x !! i = Some n → node_ok ops (ld_pubsub (cl_src x)) (cl_handlers x) (cl_pipes x) n;
  ci_owner i j n n' c c' : cl_nodes x !! i = Some n → cl_nodes x !! j = Some n' →
    nd_sub n = Some c → nd_sub n' = Some c' → rs_pipe c = rs_pipe c' → i = j
}.

(** ** Lemmas: prefixes *)
Lemma prefix_all ops l b :
  prefix_ops ops l → (length l + length b = length ops)%nat → Forall2 op_eqv (drop (length ops - length b) ops) b →
  Forall2 op_eqv ops (app l b).
Proof.
  intros Hl Hlen Hb. replace (length ops - length b)%nat with (length l) in Hb by lia.
  rewrite <- (take_drop (length l) ops). by apply Forall2_app.
Qed.

Lemma prefix_le ops l1 l2 : prefix_ops ops (app l1 l2) → prefix_ops ops l1.
Proof.
  unfold prefix_ops. intros Hp. rewrite length_app in Hp. apply Forall2_app_inv_r in Hp as (k1 & k2 & H1 & _ & Heq).
  rewrite <- (Forall2_length _ _ _ H1) in Heq |- *.
  assert (Hk : take (length k1) ops = k1); [|by rewrite Hk].
  apply (f_equal (take (length k1))) in Heq. rewrite take_take, take_app_length in Heq. by rewrite Nat.min_l in Heq by lia.
Qed.

Lemma prefix_length ops l : prefix_ops ops l → (length l ≤ length ops)%nat.
Proof. intros Hp. apply Forall2_length in Hp. rewrite length_take in Hp. lia. Qed.

Lemma prefix_snoc ops o l : prefix_ops ops l → prefix_ops (app ops [o]) l.
Proof. intros Hp. unfold prefix_ops. rewrite take_app_le; [done|]. by apply prefix_length. Qed.

Lemma prefix_refl ops : prefix_ops ops ops.
Proof. unfold prefix_ops. by rewrite take_ge. Qed.

Lemma prefix_trans ops l l' : prefix_ops ops l → prefix_ops l l' → prefix_ops ops l'.
Proof.
  unfold prefix_ops. intros H1 H2. pose proof (Forall2_length _ _ _ H2) as Hlen. rewrite length_take in Hlen.
  etrans; [|exact H2]. apply (Forall2_take _ _ _ (length l')) in H1. rewrite take_take in H1. by rewrite Nat.min_l in H1 by lia.
Qed.

Lemma prefix_eqv ops l l' : prefix_ops ops l → Forall2 op_eqv l l' → prefix_ops ops l'.
Proof. unfold prefix_ops. intros H1 H2. rewrite <- (Forall2_length _ _ _ H2). by etrans. Qed.

(** A prefix that goes on is one link of the history. *)
Lemma prefix_link ops fops l : prefix_ops ops (app fops l) → ∃ rest, Forall2 op_eqv ops (app fops (app l rest)).
Proof.
  intros Hp. exists (drop (length (app fops l)) ops). rewrite app_assoc. rewrite <- (take_drop (length (app fops l)) ops) at 1.
  apply Forall2_app; [done|reflexivity].
Qed.

(** ** Lemmas: frames *)
Lemma incoming_lines c pp pp' : pp_lines pp' = pp_lines pp → incoming fits c pp' = incoming fits c pp.
Proof. unfold incoming. by intros ->. Qed.

Lemma node_ok_frame ops p p' hs hs' ps ps' n :
  node_ok ops p hs ps n →
  (∀ c pp, nd_sub n = Some c → ps !! rs_pipe c = Some pp →
    (∃ pp', ps' !! rs_pipe c = Some pp' ∧ pp_lines pp' = pp_lines pp) ∧
    (∀ hc', hs' !! rs_pipe c = Some hc' → ∃ hc, hs !! rs_pipe c = Some hc ∧ length (backlog p' hc') = length (backlog p hc))) →
  node_ok ops p' hs' ps' n.
Proof.
  intros (fops & Hrep & Hn) Hfr. exists fops. split; [done|]. destruct (nd_sub n) as [c|]; [|done].
  destruct Hn as (pp & Hpp & Hpre & Hlen). destruct (Hfr c pp eq_refl Hpp) as [(pp' & Hpp' & Hli) Hh].
  exists pp'. rewrite (incoming_lines _ _ _ Hli). split_and!; [done..|]. intros Hsc hc' Hhc'.
  destruct (Hh hc' Hhc') as (hc & Hhc & ->). by apply Hlen.
Qed.

Lemma backlog_chan p p' c : chans p' !! sub_ch (cn_sub c) = chans p !! sub_ch (cn_sub c) → backlog p' c = backlog p c.
Proof. unfold backlog. by intros ->. Qed.

Lemma handler_open ops p ps h c :
  pubsub_ok p → handler_ok ops p ps h c → ∃ b, chans p !! sub_ch (cn_sub c) = Some (Chan b false) ∧ backlog p c = app (pending c) b.
Proof.
  intros (_ & Hopen & _) (Hin & _ & _). apply Forall_app in Hopen as [Hopen _]. rewrite Forall_forall in Hopen.
  destruct (Hopen _ Hin) as [b Hb]. exists b. unfold backlog. by rewrite Hb.
Qed.

Lemma handler_ok_frame ops p p' ps ps' h c :
  handler_ok ops p ps h c → backlog p' c = backlog p c → sub_ch (cn_sub c) ∈ subscribers p' → is_Some (ps' !! h) →
  handler_ok ops p' ps' h c.
Proof. intros (_ & _ & Hb) Heq Hin Hps. unfold handler_ok. by rewrite Heq. Qed.

(** ** Lemmas: writes *)
Lemma write_handler ops p ps h c o :
  pubsub_ok p → handler_ok ops p ps h c →
  handler_ok (app ops [o]) (emitted o p) ps h c ∧ length (backlog (emitted o p) c) = S (length (backlog p c)).
Proof.
  intros Hp Hok. destruct (handler_open _ _ _ _ _ Hp Hok) as (b & Hb & Hbl). destruct Hok as (Hin & Hps & Hall).
  assert (Hbl' : backlog (emitted o p) c = app (backlog p c) [o]).
  { unfold backlog. rewrite emitted_lookup by done. rewrite Hb. cbn. by rewrite app_assoc. }
  split; [|rewrite Hbl', length_app; cbn; lia]. split_and!; [done..|]. rewrite Hbl', !length_app. cbn [length].
  pose proof (Forall2_length _ _ _ Hall) as Hlen. rewrite length_drop in Hlen.
  replace (length ops + 1 - (length (backlog p c) + 1))%nat with (length ops - length (backlog p c))%nat by lia.
  rewrite drop_app_le by lia. apply Forall2_app; [done|]. constructor; [reflexivity|constructor].
Qed.

(** The datastore applies an operation, its own or one of its log source. *)
Lemma src_apply_inv ops s hs ps ns env o fromLog r s' :
  cl_inv ops (Cluster s hs ps ns) → commit_err env = None → (Z.of_nat (length ops) + 1 < 2 ^ 63)%Z →
  (fromLog = true → op_seq o = (1 + Z.of_nat (length ops))%Z) →
  let o' := sequenced o fromLog (length ops) in
  op_wire o' → op_fits fits o' → sink_takes (cabs (ld_db s)) o' →
  crudLogSink_Apply env o fromLog s = (r, s') → returned r = true →
  cl_inv (match r with Ok _ => app ops [o'] | _ => ops end) (Cluster s' hs ps ns).
Proof.
  intros [Hl Hp Hw Hf Ht Hh Hch Hpi Hn Ho] Hcommit Hb Hseq o' Hwo Hfo Htk Hrun Hret.
  cbn [cl_src cl_handlers cl_pipes cl_nodes] in *.
  pose proof (Apply_run env st0 ops s o fromLog r s' Hl Hp Hcommit Hb Hseq Hrun) as Hres.
  cbn zeta in Hres. fold o' in Hres. destruct r as [[]|e| |]; try done; [|by destruct Hres as [-> _]].
  destruct Hres as [Hl' Hp'].
  split; cbn [cl_src cl_handlers cl_pipes cl_nodes]; rewrite ?Hp'.
  - done.
  - by apply emitted_ok.
  - apply Forall_app_2; [done|]. by apply Forall_singleton.
  - apply Forall_app_2; [done|]. by apply Forall_singleton.
  - eapply takes_all_snoc; [done|apply Hl|done].
  - intros h c Hc. by apply write_handler, Hh.
  - done.
  - done.
  - intros i n Hi. destruct (Hn i n Hi) as (fops & Hrep & Hok). exists fops. split; [done|].
    destruct (nd_sub n) as [c|]; [|by apply prefix_snoc]. destruct Hok as (pp & Hpp & Hpre & Hlen).
    exists pp. split_and!; [done|by apply prefix_snoc|]. intros Hsc hc Hhc. specialize (Hlen Hsc hc Hhc).
    destruct (write_handler ops _ ps _ hc o' Hp (Hh _ _ Hhc)) as [_ ->]. rewrite length_app. cbn. lia.
  - done.
Qed.

(** ** Lemmas: the server's goroutines *)
Lemma cl_notify_inv ops s hs ps ns h c c' s' :
  cl_inv ops (Cluster s hs ps ns) → hs !! h = Some c → on_pubsub (notify_step c) s = (Ok c', s') →
  cl_inv ops (Cluster s' (<[h := c']> hs) ps ns).
Proof.
  intros [Hl Hp Hw Hf Ht Hh Hch Hpi Hn Ho] Hc Hrun. cbn [cl_src cl_handlers cl_pipes cl_nodes] in *.
  destruct (handler_open _ _ _ _ _ Hp (Hh h c Hc)) as (b & Hb & Hbl).
  unfold on_pubsub in Hrun. destruct (notify_step c (ld_pubsub s)) as [r p'] eqn:Hns. inv_run.
  destruct (notify_step_run _ _ _ _ _ Hb Hns eq_refl) as (c2 & b' & [= <-] & Hsub & Hpend & Hs & Htc & Hnx & Hcs).
  assert (Hbl' : backlog p' c' = backlog (ld_pubsub s) c).
  { rewrite Hbl. unfold backlog. by rewrite Hsub, Hcs, lookup_insert_eq. }
  assert (Hother : ∀ h2 c2, hs !! h2 = Some c2 → h2 ≠ h → backlog p' c2 = backlog (ld_pubsub s) c2).
  { intros h2 c2 Hc2 Hne. apply backlog_chan. rewrite Hcs, lookup_insert_ne; [done|]. intros E. apply Hne. by eapply Hch. }
  split; cbn [cl_src cl_handlers cl_pipes cl_nodes ld_db ld_pubsub]; try done.
  - by eapply pubsub_ok_chan.
  - intros h2 c2 [[<- <-]|[Hne Hc2]]%lookup_insert_Some.
    + destruct (Hh h c Hc) as (Hin & Hps & Hall). split_and!; [by rewrite Hsub, Hs|done|by rewrite Hbl'].
    + eapply handler_ok_frame; [by apply Hh|by apply (Hother h2)|rewrite Hs; by apply (Hh h2)|by apply (Hh h2 c2)].
  - intros h1 h2 c1 c2 [[<- <-]|[Hn1 Hc1]]%lookup_insert_Some [[<- <-]|[Hn2 Hc2]]%lookup_insert_Some E; [done|..].
    + rewrite Hsub in E. by eapply Hch.
    + rewrite Hsub in E. by eapply Hch.
    + by eapply Hch.
  - intros i n Hi. eapply node_ok_frame; [by eapply Hn|]. intros cl pp Hcl Hpp. split; [by exists pp|].
    intros hc' [[<- <-]|[Hne Hc2]]%lookup_insert_Some.
    + exists c. by rewrite Hbl'.
    + exists hc'. split; [done|]. by erewrite (Hother (rs_pipe cl)).
Qed.

(** Every operation of the history can be sent. *)
Lemma replay_kinds ops st o : is_Some (spec_replay ops st) → o ∈ ops → ∃ k, op_kind_of (op_typ o) = Some k.
Proof.
  intros Hsp Ho. apply list_elem_of_split in Ho as (l1 & l2 & ->). rewrite cons_middle, app_assoc in Hsp.
  apply spec_replay_prefix in Hsp. rewrite spec_replay_snoc in Hsp. destruct Hsp as [st' Hsp].
  destruct (spec_replay l1 st) as [st1|]; [|done]. cbn in Hsp. unfold spec_op in Hsp.
  destruct (op_kind_of (op_typ o)); [by eexists|done].
Qed.

Lemma backlog_head ops d n o l :
  log_inv st0 ops d → Forall op_wire ops → Forall (op_fits fits) ops → Forall2 op_eqv (drop n ops) (o :: l) →
  (∃ lines o', stream_op o = Ok lines ∧ Forall (line_ok fits) lines ∧ remote_loop fits lines = [o'] ∧ op_eqv o o') ∧
  Forall2 op_eqv (drop (S n) ops) l.
Proof.
  intros Hl Hw Hf Hall. destruct (drop n ops) as [|o0 rest] eqn:Hd; [by inversion Hall|].
  apply Forall2_cons in Hall as [Heq Hall].
  assert (Hin : ops !! n = Some o0) by (rewrite <- (Nat.add_0_r n), <- lookup_drop, Hd; done).
  assert (Ho : o0 ∈ ops) by (by eapply list_elem_of_lookup_2).
  split; [|rewrite (drop_S _ _ _ Hin) in Hd; injection Hd as ->; exact Hall].
  rewrite Forall_forall in Hw, Hf.
  destruct (replay_kinds ops st0 o0) as [k Hk]; [rewrite (li_data _ _ _ Hl); by eexists|done|].
  pose proof Heq as (Hs & Hty & _ & Hwi & _).
  apply (stream_op_run fits o k); [unfold op_wire; rewrite Hwi; by apply Hw|eapply op_fits_eqv; [done|by apply Hf]| |by rewrite Hty].
  rewrite Hs, (li_numbered _ _ _ Hl _ _ Hin). pose proof (li_bound _ _ _ Hl). apply lookup_lt_Some in Hin.
  apply bool_decide_eq_true. lia.
Qed.

Lemma handle_iter_run b c pp c' pp' :
  handle_iter b c pp = (Ok (Some c'), pp') →
  ∃ o rest lines, cn_out c = o :: rest ∧ stream_op o = Ok lines ∧
    c' = Conn (cn_sub c) (cn_preload c) (cn_hand c) rest ∧ pp' = Pipe (app (pp_lines pp) lines) (pp_ended pp) (pp_gone pp).
Proof.
  intros Hrun. unfold handle_iter in Hrun. destruct (cn_out c) as [|o rest]; [by inv_run|].
  destruct (stream_op o) as [lines| | |] eqn:E; [|by inv_run..]. destruct b; m_unfold; inv_run. eauto 10.
Qed.

Lemma cl_handle_inv ops s hs ps ns h c pp c' pp' :
  cl_inv ops (Cluster s hs ps ns) → hs !! h = Some c → ps !! h = Some pp → handle_iter true c pp = (Ok (Some c'), pp') →
  cl_inv ops (Cluster s (<[h := c']> hs) (<[h := pp']> ps) ns).
Proof.
  intros [Hl Hp Hw Hf Ht Hh Hch Hpi Hn Ho] Hc Hpp Hrun. cbn [cl_src cl_handlers cl_pipes cl_nodes] in *.
  destruct (handle_iter_run _ _ _ _ _ Hrun) as (o & rest & lines & Hout & Hso & -> & ->). set (c' := Conn _ _ _ _).
  destruct (Hh h c Hc) as (Hin & Hps & Hall).
  assert (Hbl : backlog (ld_pubsub s) c = o :: backlog (ld_pubsub s) c') by (unfold backlog, pending; by rewrite Hout).
  pose proof (Forall2_length _ _ _ Hall) as Hlen. rewrite length_drop in Hlen. rewrite Hbl in Hall, Hlen. cbn [length] in Hall, Hlen.
  destruct (backlog_head _ _ _ _ _ Hl Hw Hf Hall) as [(ls & o' & Hso' & Hlo & Hloop & Heq) Hrest].
  rewrite Hso in Hso'. injection Hso' as ->.
  replace (S (length ops - S (length (backlog (ld_pubsub s) c')))) with (length ops - length (backlog (ld_pubsub s) c'))%nat in Hrest by lia.
  split; cbn [cl_src cl_handlers cl_pipes cl_nodes]; try done.
  - intros h2 c2 [[<- <-]|[Hne Hc2]]%lookup_insert_Some.
    + split_and!; [done| |done]. rewrite lookup_insert_eq. by eexists.
    + eapply handler_ok_frame; [by apply Hh|done|by apply (Hh h2)|]. rewrite lookup_insert_ne by done. by apply (Hh h2 c2).
  - intros h1 h2 c1 c2 [[<- <-]|[Hn1 Hc1]]%lookup_insert_Some [[<- <-]|[Hn2 Hc2]]%lookup_insert_Some E; [done|..]; by eapply Hch.
  - intros h2 pp2 [[<- <-]|[Hne Hp2]]%lookup_insert_Some; [|by eapply Hpi]. apply Forall_app_2; [by eapply Hpi|done].
  - intros i n Hi. destruct (Hn i n Hi) as (fops & Hrep & Hok). exists fops. split; [done|].
    destruct (nd_sub n) as [cl|]; [|done]. destruct Hok as (pp0 & Hpp0 & Hpre & Hln).
    destruct (decide (rs_pipe cl = h)) as [Eh|Hne].
    2: { exists pp0. rewrite !lookup_insert_ne by done. done. }
    rewrite Eh in Hpp0, Hln |- *. rewrite Hpp in Hpp0. injection Hpp0 as <-. eexists. rewrite lookup_insert_eq. split; [done|].
    rewrite lookup_insert_eq. destruct (rs_scanning cl) eqn:Hsc.
    + specialize (Hln eq_refl c Hc). rewrite Hbl in Hln. cbn [length] in Hln.
      assert (Hinc : incoming fits cl (Pipe (app (pp_lines pp) ls) (pp_ended pp) (pp_gone pp)) = app (incoming fits cl pp) [o']).
      { unfold incoming. rewrite Hsc. cbn [pp_lines]. rewrite remote_loop_app by (by eapply Hpi). rewrite Hloop. by rewrite <- !app_assoc. }
      rewrite Hinc. split.
      * rewrite app_assoc. apply (prefix_le _ _ (backlog (ld_pubsub s) c')). rewrite <- app_assoc.
        assert (Hf2 : Forall2 op_eqv ops (app (app fops (incoming fits cl pp)) (o :: backlog (ld_pubsub s) c'))).
        { apply prefix_all; [done|rewrite length_app; cbn [length]; lia|done]. }
        unfold prefix_ops. rewrite (take_ge ops).
        2: { rewrite (Forall2_length _ _ _ Hf2), !length_app. cbn [length]. lia. }
        apply Forall2_app_inv_r in Hf2 as (k1 & k2 & H1 & H2 & ->). apply Forall2_app; [done|].
        inversion H2; subst. cbn [app]. apply Forall2_cons. split; [by etrans|done].
      * intros _ hc [= <-]. rewrite length_app. cbn [length]. lia.
    + assert (Hinc : incoming fits cl (Pipe (app (pp_lines pp) ls) (pp_ended pp) (pp_gone pp)) = incoming fits cl pp) by (unfold incoming; by rewrite Hsc).
      rewrite Hinc. split; done.
Qed.

(** Ending or leaving a reply does not change what is in it. *)
Lemma alter_lines f h (ps : gmap nat pipe) h2 pp :
  (∀ pp, pp_lines (f pp) = pp_lines pp) → ps !! h2 = Some pp → ∃ pp', alter f h ps !! h2 = Some pp' ∧ pp_lines pp' = pp_lines pp.
Proof.
  intros Hf Hpp. destruct (decide (h = h2)) as [->|Hne].
  - exists (f pp). by rewrite lookup_alter_eq, Hpp.
  - exists pp. by rewrite lookup_alter_ne.
Qed.

Lemma alter_lines_inv f h (ps : gmap nat pipe) h2 pp' :
  (∀ pp, pp_lines (f pp) = pp_lines pp) → alter f h ps !! h2 = Some pp' → ∃ pp, ps !! h2 = Some pp ∧ pp_lines pp' = pp_lines pp.
Proof.
  intros Hf Hpp. destruct (decide (h = h2)) as [->|Hne].
  - rewrite lookup_alter_eq in Hpp. destruct (ps !! h2) as [pp|]; [|done]. injection Hpp as <-. by exists pp.
  - rewrite lookup_alter_ne in Hpp by done. by exists pp'.
Qed.

Lemma end_handler_inv ops x h c : cl_inv ops x → cl_handlers x !! h = Some c → cl_inv ops (end_handler h c x).
Proof.
  intros [Hl Hp Hw Hf Ht Hh Hch Hpi Hn Ho] Hc. destruct x as [s hs ps ns]. cbn [cl_src cl_handlers cl_pipes cl_nodes] in *.
  destruct (Hh h c Hc) as (Hin & Hps & Hall). unfold end_handler. cbn [cl_src cl_handlers cl_pipes cl_nodes].
  change (subscription_Close (cn_sub c) s).2 with (LogDb (ld_db s) (removeSubscriber (sub_ch (cn_sub c)) (ld_pubsub s)).2).
  pose proof (λ h2 pp, alter_lines end_pipe h ps h2 pp (λ _, eq_refl)) as Hlines.
  split; cbn [cl_src cl_handlers cl_pipes cl_nodes ld_db ld_pubsub]; try done.
  - by apply removeSubscriber_ok.
  - intros h2 c2 [Hne Hc2]%lookup_delete_Some. eapply handler_ok_frame; [by apply Hh|done| |].
    + cbn. apply list_elem_of_filter. split; [|by apply (Hh h2)]. intros E. apply Hne. symmetry. by eapply Hch.
    + destruct (Hh h2 c2 Hc2) as (_ & [pp Hpp] & _). destruct (Hlines h2 pp Hpp) as (pp' & -> & _). by eexists.
  - intros h1 h2 c1 c2 [_ Hc1]%lookup_delete_Some [_ Hc2]%lookup_delete_Some. by eapply Hch.
  - intros h2 pp Hpp. destruct (alter_lines_inv end_pipe h ps h2 pp (λ _, eq_refl) Hpp) as (pp0 & Hpp0 & ->). by eapply Hpi.
  - intros i n Hi. eapply node_ok_frame; [by eapply Hn|]. intros cl pp Hcl Hpp. split; [by apply Hlines|].
    intros hc' [_ Hhc]%lookup_delete_Some. by exists hc'.
Qed.

(** ** Lemmas: connecting *)

(** A subscription request is refused for its credentials, or has the outcome of
    the source's own call. *)
Lemma doSubscribe_cases env start s :
  (∀ req s, (api_authn hapi req s).2 = s) → uint64_ok start = true →
  doSubscribe hapi username password "" (NetUp env) start s = over_http (crudLogSource_Subscribe env start s) ∨
  (∃ e, doSubscribe hapi username password "" (NetUp env) start s = (Err e, s) ∧ errors_Is e ErrHorizon = false) ∨
  doSubscribe hapi username password "" (NetUp env) start s = (Hang, s).
Proof.
  intros Hread Hst. unfold doSubscribe. change (JoinURL [""; apiURLSubscribe]) with apiURLSubscribe.
  rewrite bool_decide_eq_true_2 by done. cbv zeta. set (req := remote_request _ _ _ _).
  unfold serve_subscribe, guard_auth, try, on_fst, on_snd. m_unfold. cbn [fst snd].
  pose proof (Hread req s) as Hs. destruct (api_authn hapi req s) as [[creds|e|p|] s1]; cbn [fst snd] in *; subst s1.
  - destruct (api_authz hapi creds "read-log").
    + left. unfold handleSubscribe. change (FormValue req "start") with (Sequence_String start).
      destruct (ParseSequence_roundtrip start Hst) as [-> _]. unfold try, on_fst, on_snd. m_unfold. cbn [fst snd].
      change (src_Subscribe env start s) with (crudLogSource_Subscribe env start s).
      destruct (crudLogSource_Subscribe env start s) as [[sub|e|p|] s1]; cbn [fst snd]; [done| |done..].
      destruct (HTTPError_run e new_rwriter) as (w' & Hw & Hu & _); [done|]. rewrite Hw. cbn. by rewrite Hu.
    + right. left. eexists. split; [reflexivity|]. done.
  - right. left. eexists. split; [reflexivity|]. done.
  - right. left. by eexists.
  - by right; right.
Qed.

Lemma node_start_run ops s k fops env r s' k' :
  (∀ req s, (api_authn hapi req s).2 = s) →
  log_inv st0 ops (ld_db s) → Forall op_wire ops → sink_rep fops k → prefix_ops ops fops →
  sink_up (fe_latest env) → env_commits (fe_subscribe env) → node_start env (s, k) = (r, (s', k')) →
  k' = k ∧
  match r with
  | Ok sub => Forall2 op_eqv (drop (length fops) ops) (sub_preload sub) ∧
      sub_ch sub = next_chan (ld_pubsub s) ∧ s' = LogDb (ld_db s) (subscribed (ld_pubsub s))
  | Err _ | Hang => s' = s
  | Panic _ => False
  end.
Proof.
  intros Hread Hl Hw Hrep Hpre Hup Hcom Hrun. pose proof (prefix_length _ _ Hpre) as Hlen. pose proof (li_bound _ _ _ Hl) as Hb.
  assert (Hwrap : uint64_wrap (Z.of_nat (length fops) + 1) = (Z.of_nat (length fops) + 1)%Z)
    by (unfold uint64_wrap; rewrite Z.mod_small; lia).
  assert (Hu : uint64_ok (Z.of_nat (length fops) + 1) = true) by (apply bool_decide_eq_true; lia).
  unfold node_start, follow_start in Hrun. erewrite bind_Ok in Hrun;
    [|unfold on_snd; cbn [fst snd]; rewrite (sink_latest _ _ _ Hrep Hup); reflexivity].
  rewrite Hwrap in Hrun. cbn [src_Subscribe remote_source] in Hrun. unfold remote_Subscribe in Hrun.
  unfold try, on_fst in Hrun. m_unfold. cbn [fst snd] in Hrun.
  destruct (fe_subscribe env) as [|[e|e] envs]; [by inv_run| |].
  - rewrite Retry_temp in Hrun. cbn in Hrun. by inv_run.
  - apply Forall_cons in Hcom as [Hcom _]. rewrite Retry_temp in Hrun.
    destruct (doSubscribe_cases e _ s Hread Hu) as [Hd|[(e' & Hd & Hnh)|Hd]]; rewrite Hd in Hrun; clear Hd.
    2: { rewrite Hnh in Hrun. by inv_run. }
    2: { by inv_run. }
    destruct (crudLogSource_Subscribe e (Z.of_nat (length fops) + 1) s) as [r1 s1] eqn:Hsub.
    pose proof (Subscribe_run _ _ _ _ _ _ _ Hl Hw Hcom Hu Hsub) as Hres.
    destruct r1 as [sub|e1| |]; [| |done..]; cbn [over_http] in Hrun.
    + inv_run. destruct Hres as (_ & Hall & Hch & ->). split_and!; try done.
      by replace (Z.to_nat (Z.of_nat (length fops) + 1 - 1)) with (length fops) in Hall by lia.
    + rewrite remote_err_horizon in Hrun. destruct Hres as [-> [(e2 & _ & ->)|[[_ Hlt]|[-> _]]]]; [|lia|]; cbn in Hrun; by inv_run.
Qed.

Lemma cl_connect_inv ops s hs ps ns i k env h sub s' k' :
  (∀ req s, (api_authn hapi req s).2 = s) →
  cl_inv ops (Cluster s hs ps ns) → ns !! i = Some (Node k None) → sink_up (fe_latest env) → env_commits (fe_subscribe env) →
  ps !! h = None → node_start env (s, k) = (Ok sub, (s', k')) →
  cl_inv ops (Cluster s' (<[h := Notify sub]> hs) (<[h := new_pipe]> ps) (<[i := Node k' (Some (remote_Notify h))]> ns)).
Proof.
  intros Hread [Hl Hp Hw Hf Ht Hh Hch Hpi Hn Ho] Hi Hup Hcom Hfree Hrun. cbn [cl_src cl_handlers cl_pipes cl_nodes] in *.
  destruct (Hn i _ Hi) as (fops & Hrep & Hpre). cbn [nd_sub nd_sink] in *.
  destruct (node_start_run _ _ _ _ _ _ _ _ Hread Hl Hw Hrep Hpre Hup Hcom Hrun) as [-> (Hall & Hsc & ->)].
  set (p := ld_pubsub s) in *. pose proof (prefix_length _ _ Hpre) as Hle.
  assert (Hbl : backlog (subscribed p) (Notify sub) = sub_preload sub).
  { unfold backlog, pending. cbn. by rewrite Hsc, lookup_insert_eq, app_nil_r. }
  assert (Hother : ∀ h2 c2, hs !! h2 = Some c2 → sub_ch (cn_sub c2) ≠ next_chan p ∧ backlog (subscribed p) c2 = backlog p c2 ∧ h2 ≠ h).
  { intros h2 c2 Hc2. destruct (handler_open _ _ _ _ _ Hp (Hh _ _ Hc2)) as (b & Hb & _).
    assert (Hlt : sub_ch (cn_sub c2) ≠ next_chan p) by (destruct Hp as (_ & _ & Hnx); specialize (Hnx _ (ex_intro _ _ Hb)); lia).
    split_and!; [done|apply backlog_chan; cbn; by rewrite lookup_insert_ne|]. intros ->.
    destruct (Hh _ _ Hc2) as (_ & [? Hps] & _). congruence. }
  pose proof (Forall2_length _ _ _ Hall) as Hlen. rewrite length_drop in Hlen.
  split; cbn [cl_src cl_handlers cl_pipes cl_nodes ld_db ld_pubsub]; try done.
  - by apply subscribe_ok.
  - intros h2 c2 [[<- <-]|[Hne Hc2]]%lookup_insert_Some.
    + split_and!; [cbn; rewrite Hsc; left|rewrite lookup_insert_eq; by eexists|]. rewrite Hbl.
      by replace (length ops - length (sub_preload sub))%nat with (length fops) by lia.
    + destruct (Hother _ _ Hc2) as (_ & Hb2 & _). eapply handler_ok_frame; [by apply Hh|done|right; by apply (Hh h2)|].
      rewrite lookup_insert_ne by done. by apply (Hh h2 c2).
  - intros h1 h2 c1 c2 [[<- <-]|[Hn1 Hc1]]%lookup_insert_Some [[<- <-]|[Hn2 Hc2]]%lookup_insert_Some E; [done|..].
    + cbn in E. rewrite Hsc in E. by destruct (Hother _ _ Hc2) as [[] _].
    + cbn in E. rewrite Hsc in E. by destruct (Hother _ _ Hc1) as [[] _].
    + by eapply Hch.
  - intros h2 pp [[<- <-]|[Hne Hpp]]%lookup_insert_Some; [constructor|by eapply Hpi].
  - intros j n [[<- <-]|[Hne Hj]]%lookup_insert_Some.
    + exists fops. split; [done|]. cbn [nd_sub remote_Notify rs_pipe]. exists new_pipe. rewrite !lookup_insert_eq.
      change (incoming fits (remote_Notify h) new_pipe) with (@nil op). rewrite app_nil_r. split_and!; [done..|].
      intros _ hc [= <-]. rewrite Hbl. cbn [length]. lia.
    + eapply node_ok_frame; [by eapply Hn|]. intros c pp Hc Hpp.
      assert (Hne2 : h ≠ rs_pipe c) by (intros ->; congruence). rewrite !lookup_insert_ne by done. split; [by exists pp|].
      intros hc Hhc. exists hc. split; [done|]. by destruct (Hother _ _ Hhc) as (_ & -> & _).
  - intros j1 j2 n1 n2 c1 c2 [[<- <-]|[Hne1 H1]]%lookup_insert_Some [[<- <-]|[Hne2 H2]]%lookup_insert_Some Hc1 Hc2 E; [done|..].
    + cbn in Hc1. simplify_eq. cbn in E. destruct (Hn _ _ H2) as (? & _ & Hok). rewrite Hc2 in Hok. destruct Hok as (? & Hok & _). congruence.
    + cbn in Hc2. simplify_eq. cbn in E. destruct (Hn _ _ H1) as (? & _ & Hok). rewrite Hc1 in Hok. destruct Hok as (? & Hok & _). congruence.
    + by eapply Ho.
Qed.

(** ** Lemmas: nodes *)

(** A node changes, and with it at most the lines of its own reply. *)
Lemma node_update ops s hs ps ps' ns i n n' :
  cl_inv ops (Cluster s hs ps ns) → ns !! i = Some n →
  (∀ c, nd_sub n' = Some c → ∃ c0, nd_sub n = Some c0 ∧ rs_pipe c = rs_pipe c0) →
  (∀ h pp, ps' !! h = Some pp → Forall (line_ok fits) (pp_lines pp)) →
  (∀ h pp, ps !! h = Some pp → ∃ pp', ps' !! h = Some pp' ∧
    ((∀ c, nd_sub n = Some c → rs_pipe c ≠ h) → pp_lines pp' = pp_lines pp)) →
  node_ok ops (ld_pubsub s) hs ps' n' →
  cl_inv ops (Cluster s hs ps' (<[i := n']> ns)).
Proof.
  intros [Hl Hp Hw Hf Ht Hh Hch Hpi Hn Ho] Hi Hsub Hlo Hps Hok. cbn [cl_src cl_handlers cl_pipes cl_nodes] in *.
  split; cbn [cl_src cl_handlers cl_pipes cl_nodes]; try done.
  - intros h c Hc. pose proof (Hh h c Hc) as (Hin & [pp Hpp] & _). destruct (Hps h pp Hpp) as (pp' & Hpp' & _).
    eapply handler_ok_frame; [by apply Hh|done|done|by eexists].
  - intros j m [[<- <-]|[Hne Hj]]%lookup_insert_Some; [done|]. eapply node_ok_frame; [by eapply Hn|].
    intros c pp Hc Hpp. destruct (Hps _ _ Hpp) as (pp' & Hpp' & Hli). split; [|by eauto].
    exists pp'. split; [done|]. apply Hli. intros c0 Hc0 E. apply Hne. by eapply Ho.
  - intros j1 j2 m1 m2 c1 c2 [[<- <-]|[Hne1 H1]]%lookup_insert_Some [[<- <-]|[Hne2 H2]]%lookup_insert_Some Hc1 Hc2 E; [done|..].
    + destruct (Hsub _ Hc1) as (c0 & Hc0 & E0). rewrite E0 in E. by eapply Ho.
    + destruct (Hsub _ Hc2) as (c0 & Hc0 & E0). rewrite E0 in E. by eapply Ho.
    + by eapply Ho.
Qed.

Lemma leave_inv ops x i k k' c fops :
  cl_inv ops x → cl_nodes x !! i = Some (Node k (Some c)) → sink_rep fops k' → prefix_ops ops fops → cl_inv ops (leave i k' c x).
Proof.
  intros Hinv Hi Hrep Hpre. destruct x as [s hs ps ns]. cbn [cl_nodes] in Hi. unfold leave. cbn [cl_src cl_handlers cl_pipes cl_nodes].
  eapply node_update; [done|done|done| | |by exists fops].
  - intros h pp Hpp. destruct (alter_lines_inv leave_pipe _ _ _ _ (λ _, eq_refl) Hpp) as (pp0 & Hpp0 & ->).
    by eapply (ci_pipes _ _ Hinv).
  - intros h pp Hpp. destruct (alter_lines leave_pipe (rs_pipe c) ps h pp (λ _, eq_refl) Hpp) as (pp' & ? & ?). by exists pp'.
Qed.

Lemma cl_client_inv ops s hs ps ns i k c pp c' pp' :
  cl_inv ops (Cluster s hs ps ns) → ns !! i = Some (Node k (Some c)) → ps !! rs_pipe c = Some pp →
  scan_line fits (c, pp) = (Ok tt, (c', pp')) ∨ send_op (c, pp) = (Ok tt, (c', pp')) ∨
    break_line (c, pp) = (Ok tt, (c', pp')) ∨ loop_done (c, pp) = (Ok tt, (c', pp')) →
  cl_inv ops (Cluster s hs (<[rs_pipe c := pp']> ps) (<[i := Node k (Some c')]> ns)).
Proof.
  intros Hinv Hi Hpp Hstep. pose proof (ci_pipes _ _ Hinv _ _ Hpp) as Hlo.
  assert (Hkey : rs_pipe c' = rs_pipe c ∧ Forall (line_ok fits) (pp_lines pp') ∧
    (∃ l, incoming fits c pp = app (incoming fits c' pp') l) ∧
    (rs_scanning c' = true → rs_scanning c = true ∧ incoming fits c' pp' = incoming fits c pp)).
  { destruct Hstep as [H'|[H'|[H'|H']]].
    - destruct (scan_line_incoming fits _ _ _ _ Hlo H') as (Hin & -> & _ & Hsc & Hl & _). split_and!; [done..| |by auto].
      exists []. by rewrite app_nil_r.
    - destruct (send_op_incoming fits _ _ _ _ H') as (Hin & -> & -> & ->). split_and!; [done..| |done]. exists []. by rewrite app_nil_r.
    - unfold break_line in H'. destruct c as [h [] [o|] ch cl]; cbn in H'; inv_run. split_and!; [done..| |done].
      unfold incoming. cbn. exists (remote_loop fits (pp_lines pp')). by rewrite app_nil_r.
    - unfold loop_done in H'. destruct c as [h [] [o|] ch []]; cbn in H'; inv_run. split_and!; [done..| |done].
      exists []. by rewrite app_nil_r. }
  destruct Hkey as (Hpipe & Hlo' & [l Hinc] & Hsc).
  eapply node_update; [done|done| | | |].
  - intros c1 [= <-]. by exists c.
  - intros h pp0 [[<- <-]|[_ Hpp0]]%lookup_insert_Some; [done|]. by eapply (ci_pipes _ _ Hinv).
  - intros h pp0 Hpp0. destruct (decide (rs_pipe c = h)) as [<-|Hne].
    + exists pp'. rewrite lookup_insert_eq. split; [done|]. intros Hc. by destruct (Hc c eq_refl).
    + exists pp0. by rewrite lookup_insert_ne.
  - destruct (ci_nodes _ _ Hinv i _ Hi) as (fops & Hrep & Hok). cbn [nd_sub nd_sink cl_pipes cl_handlers cl_src] in Hok, Hrep.
    destruct Hok as (pp0 & Hpp0 & Hpre & Hlen). rewrite Hpp in Hpp0. injection Hpp0 as <-.
    exists fops. split; [done|]. cbn [nd_sub]. exists pp'. rewrite Hpipe, lookup_insert_eq. split_and!; [done| |].
    + rewrite Hinc, app_assoc in Hpre. by apply prefix_le in Hpre.
    + intros Hs hc Hhc. destruct (Hsc Hs) as [Hs0 ->]. by apply Hlen.
Qed.

(** Applying what was received. *)
Lemma receive_apply ops d fops k e o l r k' :
  log_inv st0 ops d → takes_all st0 ops → sink_rep fops k → sink_commits e → prefix_ops ops (app fops (o :: l)) →
  follow_iter e (EvOp o) k = (r, k') →
  match r with Ok _ => r = Ok true ∧ sink_rep (app fops [o]) k' | Err _ => sink_rep fops k' | Panic _ => False | Hang => True end.
Proof.
  intros Hl Ht Hrep Hcm Hpre Hrun. destruct (prefix_link _ _ _ Hpre) as [rest Hall]. cbn [app] in Hall.
  destruct (link_next _ _ _ _ (li_numbered _ _ _ Hl) Hall) as [Hseq Hlen]. destruct (link_takes _ _ _ _ _ _ Hl Ht Hall) as [Hsp Htk].
  pose proof (li_bound _ _ _ Hl) as Hb. unfold follow_iter, wrap_err in Hrun. m_unfold.
  destruct (sink_Apply e o true k) as [r1 k1] eqn:Hap.
  pose proof (sink_apply _ _ _ _ _ _ Hrep Hcm Hseq ltac:(lia) Hsp Htk Hap) as Hk. destruct r1; by inv_run.
Qed.

Lemma cl_receive_inv ops s hs ps ns i k c env o rest k' :
  cl_inv ops (Cluster s hs ps ns) → ns !! i = Some (Node k (Some c)) → sink_commits env → rs_ch c = o :: rest →
  follow_iter env (EvOp o) k = (Ok true, k') →
  cl_inv ops (Cluster s hs ps (<[i := Node k' (Some (Client (rs_pipe c) (rs_scanning c) (rs_hand c) rest (rs_closed c)))]> ns)).
Proof.
  intros Hinv Hi Hcm Hch Hrun. destruct (ci_nodes _ _ Hinv i _ Hi) as (fops & Hrep & pp & Hpp & Hpre & Hlen).
  cbn [nd_sink cl_pipes cl_handlers cl_src] in *. set (c' := Client _ _ _ _ _).
  assert (Hinc : incoming fits c pp = o :: incoming fits c' pp) by (unfold incoming; by rewrite Hch). rewrite Hinc in Hpre.
  pose proof (receive_apply _ _ _ _ _ _ _ _ _ (ci_log _ _ Hinv) (ci_takes _ _ Hinv) Hrep Hcm Hpre Hrun) as [_ Hrep'].
  eapply node_update; [done|done| | | |].
  - intros c1 [= <-]. by exists c.
  - intros h pp0 Hpp0. by eapply (ci_pipes _ _ Hinv).
  - intros h pp0 Hpp0. by exists pp0.
  - exists (app fops [o]). split; [done|]. cbn [nd_sub]. exists pp. rewrite <- app_assoc. split_and!; [done..|].
    intros Hs hc Hhc. rewrite length_app. specialize (Hlen Hs hc Hhc). rewrite Hinc in Hlen. cbn [length] in *. lia.
Qed.

Lemma node_prefix ops x i n : cl_inv ops x → cl_nodes x !! i = Some n → ∃ fops, sink_rep fops (nd_sink n) ∧ prefix_ops ops fops.
Proof.
  intros Hinv Hi. destruct (ci_nodes _ _ Hinv i n Hi) as (fops & Hrep & Hok). exists fops. split; [done|].
  destruct (nd_sub n) as [c|]; [|done]. destruct Hok as (pp & _ & Hpre & _). by eapply prefix_le.
Qed.

Context (authn_reads : ∀ req s, (api_authn hapi req s).2 = s).

Lemma cl_serve_inv ops x x' : cl_inv ops x → cl_serve x x' → cl_inv ops x'.
Proof.
  intros Hinv Hstep. destruct Hstep.
  - by eapply cl_connect_inv.
  - destruct (node_prefix _ _ _ _ Hinv H0) as (fops & Hrep & Hpre). cbn [nd_sink] in Hrep.
    destruct (node_start_run _ _ _ _ _ _ _ _ authn_reads (ci_log _ _ Hinv) (ci_wire _ _ Hinv) Hrep Hpre H1 H2 H3) as [-> ->].
    eapply node_update; [done|done|done|by apply (ci_pipes _ _ Hinv)|by eauto|by exists fops].
  - by eapply cl_notify_inv.
  - by eapply cl_handle_inv.
  - by apply end_handler_inv.
  - by apply end_handler_inv.
  - by eapply cl_client_inv.
  - by eapply cl_receive_inv.
  - destruct (ci_nodes _ _ Hinv i _ H0) as (fops & Hrep & pp & Hpp & Hpre & _). cbn [nd_sink] in *.
    unfold incoming in Hpre. rewrite H2 in Hpre.
    pose proof (receive_apply _ _ _ _ _ _ _ _ _ (ci_log _ _ Hinv) (ci_takes _ _ Hinv) Hrep H1 Hpre H3) as Hrep'.
    eapply leave_inv; [done|done|exact Hrep'|by eapply prefix_le].
  - destruct (node_prefix _ _ _ _ Hinv H0) as (fops & Hrep & Hpre). by eapply leave_inv.
  - destruct (node_prefix _ _ _ _ Hinv H0) as (fops & Hrep & Hpre). by eapply leave_inv.
Qed.

(** What a step leaves alone: the tables of the datastore, and the sinks of all
    nodes but one that applies the operation it receives. *)
Definition node_step (n n' : node F) : Prop :=
  nd_sink n' = nd_sink n ∨
  ∃ c env o rest r, nd_sub n = Some c ∧ sink_commits env ∧ rs_ch c = o :: rest ∧
    follow_iter env (EvOp o) (nd_sink n) = (r, nd_sink n') ∧ returned r = true.

#[global] Instance node_step_refl : Reflexive node_step.
Proof. by left. Qed.

Lemma nodes_insert (ns : gmap nat (node F)) i n n' :
  ns !! i = Some n → node_step n n' → ∀ j, option_Forall2 node_step (ns !! j) (<[i := n']> ns !! j).
Proof.
  intros Hi Hn j. destruct (decide (i = j)) as [<-|Hne]; [rewrite lookup_insert_eq, Hi; by constructor|].
  by rewrite lookup_insert_ne.
Qed.

Lemma cl_serve_frame ops x x' :
  cl_inv ops x → cl_serve x x' →
  ld_db (cl_src x') = ld_db (cl_src x) ∧ ∀ j, option_Forall2 node_step (cl_nodes x !! j) (cl_nodes x' !! j).
Proof.
  intros Hinv Hstep. destruct Hstep; cbn [cl_src cl_nodes end_handler leave] in *.
  - destruct (node_prefix _ _ _ _ Hinv H0) as (fops & Hrep & Hpre). cbn [nd_sink] in Hrep.
    destruct (node_start_run _ _ _ _ _ _ _ _ authn_reads (ci_log _ _ Hinv) (ci_wire _ _ Hinv) Hrep Hpre H1 H2 H4) as [-> (_ & _ & ->)].
    split; [done|]. eapply nodes_insert; [done|by left].
  - destruct (node_prefix _ _ _ _ Hinv H0) as (fops & Hrep & Hpre). cbn [nd_sink] in Hrep.
    destruct (node_start_run _ _ _ _ _ _ _ _ authn_reads (ci_log _ _ Hinv) (ci_wire _ _ Hinv) Hrep Hpre H1 H2 H3) as [-> ->].
    split; [done|]. eapply nodes_insert; [done|by left].
  - split; [|done]. unfold on_pubsub in H1. destruct (notify_step c (ld_pubsub s)). by inv_run.
  - done.
  - done.
  - done.
  - split; [done|]. eapply nodes_insert; [done|by left].
  - split; [done|]. eapply nodes_insert; [done|]. right. by exists c, env, o, rest, (Ok true).
  - split; [done|]. eapply nodes_insert; [done|]. right. by exists c, env, o, rest, (Err e).
  - split; [done|]. eapply nodes_insert; [done|by left].
  - split; [done|]. eapply nodes_insert; [done|by left].
Qed.

(** The process of the datastore ends and is started again on its file. *)
Lemma src_restart_inv ops s hs ps ns :
  cl_inv ops (Cluster s hs ps ns) → cl_inv ops (Cluster (Wrap (ld_db s)) ∅ (end_pipe <$> ps) ns).
Proof.
  intros [Hl Hp Hw Hf Ht Hh Hch Hpi Hn Ho]. cbn [cl_src cl_handlers cl_pipes cl_nodes] in *.
  split; cbn [cl_src cl_handlers cl_pipes cl_nodes]; try done.
  - apply newPubSub_ok.
  - intros h pp (pp0 & <- & Hpp)%lookup_fmap_Some. change (pp_lines (end_pipe pp0)) with (pp_lines pp0). by eapply Hpi.
  - intros i n Hi. eapply node_ok_frame; [by eapply Hn|]. intros c pp _ Hpp. split; [|done].
    exists (end_pipe pp). by rewrite lookup_fmap, Hpp.
Qed.

(** A node receives the next operation of the history. *)
Lemma next_op ops x i k c o rest :
  cl_inv ops x → cl_nodes x !! i = Some (Node k (Some c)) → rs_ch c = o :: rest →
  ∃ fops l, sink_rep fops k ∧ prefix_ops ops (app fops (o :: l)) ∧
    op_seq o = (1 + Z.of_nat (length fops))%Z ∧ (Z.of_nat (length fops) + 1 < 2 ^ 63)%Z ∧ op_wire o ∧ op_fits fits o ∧
    (∀ st, spec_replay fops st0 = Some st → sink_takes st o).
Proof.
  intros Hinv Hi Hch. destruct (ci_nodes _ _ Hinv i _ Hi) as (fops & Hrep & pp & Hpp & Hpre & _). cbn [nd_sink] in *.
  unfold incoming in Hpre. rewrite Hch in Hpre. cbn [app] in Hpre. eexists fops, _. split_and!; [done|exact Hpre|..];
    destruct (prefix_link _ _ _ Hpre) as [post Hall]; cbn [app] in Hall.
  - by apply (link_next _ _ _ _ (li_numbered _ _ _ (ci_log _ _ Hinv)) Hall).
  - destruct (link_next _ _ _ _ (li_numbered _ _ _ (ci_log _ _ Hinv)) Hall) as [_ Hlen]. pose proof (li_bound _ _ _ (ci_log _ _ Hinv)). lia.
  - pose proof (eqv_wire _ _ Hall (ci_wire _ _ Hinv)) as Hw. by apply Forall_app in Hw as [_ [Hw' _]%Forall_cons].
  - apply Forall2_app_inv_r in Hall as (k1 & k2 & _ & H2 & Hops). inversion H2; subst.
    eapply op_fits_eqv; [done|]. pose proof (ci_fits _ _ Hinv) as Hf. by apply Forall_app in Hf as [_ [Hf' _]%Forall_cons].
  - by apply (link_takes _ _ _ _ _ _ (ci_log _ _ Hinv) (ci_takes _ _ Hinv) Hall).
Qed.

(** ** Catching up *)
Section CatchUp.
Context {SP : SinkProgress st0}.

Definition stage_weight (c : client) (pp : pipe) (hc : conn) (p : pubsub) : nat :=
  length (rs_ch c) + 2 * length (option_list (rs_hand c)) + 3 * length (pp_lines pp) + 7 * length (cn_out hc) +
  8 * length (option_list (cn_hand hc)) +
  9 * (length (cn_preload hc) + length (from_option ch_buf [] (chans p !! sub_ch (cn_sub hc)))).

(** A node whose subscription is alive at both ends. *)
Definition attached (x : cluster F) (i : nat) (k : F) (c : client) (pp : pipe) (hc : conn) : Prop :=
  cl_nodes x !! i = Some (Node k (Some c)) ∧ cl_pipes x !! rs_pipe c = Some pp ∧ cl_handlers x !! rs_pipe c = Some hc ∧
  rs_scanning c = true ∧ rs_closed c = false.

Definition node_caught_up (ops : list op) (x : cluster F) (i : nat) : Prop :=
  ∃ n fops, cl_nodes x !! i = Some n ∧ sink_rep fops (nd_sink n) ∧ Forall2 op_eqv ops fops.

Lemma stream_op_lines o lines : stream_op o = Ok lines → length lines = 2%nat.
Proof. unfold stream_op. m_unfold. destruct (op_MarshalJSON o); intros; by inv_run. Qed.

(** The goroutine of [Notify] moves operations on. *)
Lemma notify_weight hc p b hc' p' b' :
  cn_out hc = [] → chans p !! sub_ch (cn_sub hc) = Some (Chan b false) → notify_step hc p = (Ok hc', p') →
  chans p' !! sub_ch (cn_sub hc') = Some (Chan b' false) →
  (7 * length (cn_out hc') + 8 * length (option_list (cn_hand hc')) + 9 * (length (cn_preload hc') + length b') <
   8 * length (option_list (cn_hand hc)) + 9 * (length (cn_preload hc) + length b))%nat.
Proof.
  intros Hout Hb E Hb'. unfold notify_step in E. destruct hc as [sub pre [o|] out]; cbn in *; subst out.
  - m_unfold. injection E as <- <-. cbn in Hb' |- *. rewrite Hb in Hb'. injection Hb' as ->. lia.
  - destruct pre as [|o pre]; [destruct b as [|o b]|].
    + rewrite (bind_Hang _ _ _ _ (recv_chan_empty _ _ Hb)) in E. done.
    + rewrite (bind_Ok _ _ _ _ _ (recv_chan_Some _ _ _ _ _ Hb)) in E. m_unfold. injection E as <- <-.
      cbn in Hb' |- *. rewrite lookup_insert_eq in Hb'. injection Hb' as ->. lia.
    + m_unfold. injection E as <- <-. cbn in Hb' |- *. rewrite Hb in Hb'. injection Hb' as ->. lia.
Qed.

(** A step of the replication of node [i] that brings it nearer. *)
Definition advances (x : cluster F) (i : nat) (c : client) (pp : pipe) (hc : conn) : Prop :=
  ∃ x' k' c' pp' hc', cl_serve x x' ∧ ld_db (cl_src x') = ld_db (cl_src x) ∧ attached x' i k' c' pp' hc' ∧ sink_ready st0 k' ∧
    (stage_weight c' pp' hc' (ld_pubsub (cl_src x')) < stage_weight c pp hc (ld_pubsub (cl_src x)))%nat.

Ltac attach := split_and!; cbn; rewrite ?lookup_insert_eq; done.

(** The scanner sends, or reads a line. *)
Lemma client_turn ops x i k c pp hc :
  cl_inv ops x → attached x i k c pp hc → sink_ready st0 k → rs_ch c = [] → is_Some (rs_hand c) ∨ pp_lines pp ≠ [] →
  advances x i c pp hc.
Proof.
  intros Hinv (Hi & Hpp & Hhc & Hsc & Hcl) Hrd Hch Hwork. pose proof (ci_pipes _ _ Hinv _ _ Hpp) as Hlo.
  destruct x as [s hs ps ns], c as [h sc hand ch cl], pp as [lines en gn].
  cbn [cl_src cl_handlers cl_pipes cl_nodes rs_pipe rs_scanning rs_closed rs_ch rs_hand pp_lines] in *. subst sc cl ch.
  destruct hand as [o|]; [|destruct lines as [|[t|j] lines]; [by destruct Hwork as [[]|]|..]].
  - eexists _, k, (Client h true None [o] false), (Pipe lines en gn), hc.
    split_and!; [eapply cl_client; [done|done|by right; left]|done|attach|done|unfold stage_weight; cbn; lia].
  - apply Forall_cons in Hlo as [Hlo _]. cbn in Hlo. subst t.
    eexists _, k, (Client h true None [] false), (Pipe lines en gn), hc.
    split_and!; [eapply cl_client; [done|done|by left]|done|attach|done|unfold stage_weight; cbn; lia].
  - apply Forall_cons in Hlo as [[Hfj [o Hu]] _].
    eexists _, k, (Client h true (Some o) [] false), (Pipe lines en gn), hc.
    split_and!; [eapply cl_client; [done|done|left; cbn; by rewrite Hfj, Hu]|done|attach|done|unfold stage_weight; cbn; lia].
Qed.

(** [doFollow] applies what it receives. *)
Lemma receive_turn ops x i k c pp hc o ch :
  cl_inv ops x → attached x i k c pp hc → sink_ready st0 k → rs_ch c = o :: ch → advances x i c pp hc.
Proof.
  intros Hinv (Hi & Hpp & Hhc & Hsc & Hcl) Hrd Hch. destruct (ci_nodes _ _ Hinv i _ Hi) as (fops & Hrep & pp0 & Hpp0 & Hpre & _).
  destruct x as [s hs ps ns]. cbn [cl_src cl_handlers cl_pipes cl_nodes nd_sink] in *.
  rewrite Hpp in Hpp0. injection Hpp0 as <-. unfold incoming in Hpre. rewrite Hch in Hpre.
  destruct (prefix_link _ _ _ Hpre) as [rest Hall]. cbn [app] in Hall.
  destruct (apply_next st0 ops (ld_db s) fops k o _ (ci_log _ _ Hinv) (ci_wire _ _ Hinv) (ci_takes _ _ Hinv) Hrep Hrd Hall) as (k' & Hap & Hrd' & _).
  assert (Hit : follow_iter (sink_env st0) (EvOp o) k = (Ok true, k')) by (unfold follow_iter, wrap_err; m_unfold; by rewrite Hap).
  eexists _, k', (Client (rs_pipe c) (rs_scanning c) (rs_hand c) ch (rs_closed c)), pp, hc.
  split_and!; [by eapply cl_receive; [|apply (sink_env_commits st0)| |]|done|attach|done|unfold stage_weight; rewrite Hch; cbn; lia].
Qed.

(** The handler writes the next operation. *)
Lemma handle_turn ops x i k c pp hc o out :
  cl_inv ops x → attached x i k c pp hc → sink_ready st0 k → cn_out hc = o :: out → advances x i c pp hc.
Proof.
  intros Hinv (Hi & Hpp & Hhc & Hsc & Hcl) Hrd Hout. destruct (ci_handlers _ _ Hinv _ _ Hhc) as (_ & _ & Hall).
  destruct x as [s hs ps ns]. cbn [cl_src cl_handlers cl_pipes cl_nodes] in *.
  set (hc' := Conn (cn_sub hc) (cn_preload hc) (cn_hand hc) out).
  assert (Hbo : backlog (ld_pubsub s) hc = o :: backlog (ld_pubsub s) hc') by (unfold backlog, pending; by rewrite Hout).
  rewrite Hbo in Hall. cbn [length] in Hall.
  destruct (backlog_head _ _ _ _ _ (ci_log _ _ Hinv) (ci_wire _ _ Hinv) (ci_fits _ _ Hinv) Hall) as [(lines & o' & Hso & _) _].
  set (pp' := Pipe (app (pp_lines pp) lines) (pp_ended pp) (pp_gone pp)).
  assert (Hit : handle_iter true hc pp = (Ok (Some hc'), pp')) by (unfold handle_iter; by rewrite Hout, Hso).
  eexists _, k, c, pp', hc'.
  split_and!; [by eapply cl_handle|done|attach|done|unfold stage_weight; cbn; rewrite Hout, length_app, (stream_op_lines _ _ Hso); cbn; lia].
Qed.

(** The goroutine of the subscription takes the next operation. *)
Lemma notify_turn ops x i k c pp hc :
  cl_inv ops x → attached x i k c pp hc → sink_ready st0 k → cn_out hc = [] → backlog (ld_pubsub (cl_src x)) hc ≠ [] →
  advances x i c pp hc.
Proof.
  intros Hinv (Hi & Hpp & Hhc & Hsc & Hcl) Hrd Hout Hne.
  destruct (handler_open _ _ _ _ _ (ci_pubsub _ _ Hinv) (ci_handlers _ _ Hinv _ _ Hhc)) as (b & Hb & Hbl). rewrite Hbl in Hne.
  destruct x as [s hs ps ns]. cbn [cl_src cl_handlers cl_pipes cl_nodes] in *.
  destruct (notify_run s (Follower k (Some hc)) hc b eq_refl Hout Hb Hne) as (s' & hc' & b' & Hrun & Hdb & Hb' & _).
  unfold fl_notify in Hrun. cbn [fl_conn] in Hrun.
  destruct (on_pubsub (notify_step hc) s) as [[c1| | |] s1] eqn:Hns; [|by inv_run..]. cbn in Hrun. injection Hrun as -> ->.
  eexists _, k, c, pp, hc'. split_and!; [by eapply cl_notify|done|attach|done|].
  unfold on_pubsub in Hns. destruct (notify_step hc (ld_pubsub s)) as [r p'] eqn:E. injection Hns as -> <-.
  unfold stage_weight. cbn [cl_src]. rewrite Hb, Hb', Hout. cbn [from_option ch_buf length].
  pose proof (notify_weight _ _ _ _ _ _ Hout Hb E Hb'). lia.
Qed.

(** A node that is behind can advance. *)
Lemma attached_step ops x i k c pp hc :
  cl_inv ops x → attached x i k c pp hc → sink_ready st0 k → node_caught_up ops x i ∨ advances x i c pp hc.
Proof.
  intros Hinv Hat Hrd. destruct (rs_ch c) as [|o ch] eqn:Hch; [|right; by eapply receive_turn].
  destruct (decide (is_Some (rs_hand c) ∨ pp_lines pp ≠ [])) as [Hw|Hw]; [right; by eapply client_turn|].
  destruct (cn_out hc) as [|o out] eqn:Hout; [|right; by eapply handle_turn].
  destruct (decide (backlog (ld_pubsub (cl_src x)) hc = [])) as [Hb|Hb]; [left|right; by eapply notify_turn].
  destruct Hat as (Hi & Hpp & Hhc & Hsc & _). destruct (ci_nodes _ _ Hinv i _ Hi) as (fops & Hrep & pp0 & Hpp0 & Hpre & Hlen).
  rewrite Hpp in Hpp0. injection Hpp0 as <-. specialize (Hlen Hsc hc Hhc). exists (Node k (Some c)), fops. split_and!; [done..|].
  assert (Hinc : incoming fits c pp = []).
  { unfold incoming. rewrite Hch. destruct (rs_hand c); [by destruct Hw; left|]. destruct (pp_lines pp); [by destruct (rs_scanning c)|].
    by destruct Hw; right. }
  rewrite Hinc, app_nil_r in Hpre. rewrite Hinc, Hb in Hlen. cbn in Hlen. unfold prefix_ops in Hpre. by rewrite take_ge in Hpre by lia.
Qed.

Lemma catch_up_attached ops i n x k c pp hc :
  cl_inv ops x → attached x i k c pp hc → sink_ready st0 k → (stage_weight c pp hc (ld_pubsub (cl_src x)) ≤ n)%nat →
  ∃ x', rtc cl_serve x x' ∧ ld_db (cl_src x') = ld_db (cl_src x) ∧ cl_inv ops x' ∧ node_caught_up ops x' i.
Proof.
  revert x k c pp hc. induction n as [n IH] using lt_wf_ind. intros x k c pp hc Hinv Hat Hrd Hn.
  destruct (attached_step _ _ _ _ _ _ _ Hinv Hat Hrd) as [Hc|(x1 & k1 & c1 & pp1 & hc1 & Hstep & Hdb & Hat1 & Hrd1 & Hwt)]; [by exists x|].
  pose proof (cl_serve_inv _ _ _ Hinv Hstep) as Hinv1.
  destruct (IH (stage_weight c1 pp1 hc1 (ld_pubsub (cl_src x1))) ltac:(lia) x1 k1 c1 pp1 hc1 Hinv1 Hat1 Hrd1 ltac:(lia)) as (x' & Hs & Hdb' & Hinv' & Hc).
  exists x'. split_and!; [by eapply rtc_l|congruence|done|done].
Qed.

(** What an undisturbed node meets. *)
Definition calm_env : follow_env (list (net_env (EP := tx_env))) EF :=
  FollowEnv (sink_env st0) [NetUp tx_ok] [NetUp tx_ok] (sink_env st0) [NetUp tx_ok] (sink_env st0).

Lemma calm_commits : env_commits (fe_subscribe calm_env).
Proof. by repeat constructor. Qed.

Lemma node_start_ok ops s k fops :
  log_inv st0 ops (ld_db s) → Forall op_wire ops → sink_rep fops k → prefix_ops ops fops →
  (Z.of_nat (length ops) + 1 < 2 ^ 63)%Z → log_reader hapi username password s →
  ∃ sub s', node_start calm_env (s, k) = (Ok sub, (s', k)) ∧ ld_db s' = ld_db s.
Proof.
  intros Hl Hw Hrep Hpre Hb Hauth. pose proof (prefix_length _ _ Hpre) as Hlen.
  assert (Hu : uint64_ok (Z.of_nat (length fops) + 1) = true) by (apply bool_decide_eq_true; lia).
  assert (Hsub : ∃ sub s', crudLogSource_Subscribe tx_ok (Z.of_nat (length fops) + 1) s = (Ok sub, s') ∧ ld_db s' = ld_db s).
  { destruct (crudLogSource_Subscribe tx_ok (Z.of_nat (length fops) + 1) s) as [r1 s1] eqn:Hsub.
    pose proof (Subscribe_run tx_ok _ _ _ _ _ _ Hl Hw eq_refl Hu Hsub) as Hr1. destruct r1 as [sub|e| |]; [| |done..].
    - destruct Hr1 as (_ & _ & _ & ->). by eexists _, _.
    - destruct Hr1 as [_ [(? & ? & _)|[[_ ?]|[_ ?]]]]; [done|lia|lia]. }
  destruct Hsub as (sub & s' & Hsub & Hdb). exists sub, s'. split; [|done].
  unfold node_start, follow_start. erewrite bind_Ok;
    [|unfold on_snd; cbn [fst snd fe_latest calm_env]; rewrite (sink_latest _ _ _ Hrep (sink_env_up st0)); reflexivity].
  replace (uint64_wrap _) with (Z.of_nat (length fops) + 1)%Z by (unfold uint64_wrap; rewrite Z.mod_small; lia).
  cbn [src_Subscribe remote_source calm_env fe_subscribe]. unfold remote_Subscribe, try, on_fst. m_unfold. cbn [fst snd].
  rewrite Retry_temp, doSubscribe_run by done. change (src_Subscribe tx_ok) with (crudLogSource_Subscribe tx_ok). by rewrite Hsub.
Qed.

(** A node that is not connected connects. *)
Lemma catch_up_detached ops i x k :
  cl_inv ops x → cl_nodes x !! i = Some (Node k None) → sink_ready st0 k → (Z.of_nat (length ops) + 1 < 2 ^ 63)%Z →
  log_reader hapi username password (cl_src x) →
  ∃ x', rtc cl_serve x x' ∧ ld_db (cl_src x') = ld_db (cl_src x) ∧ cl_inv ops x' ∧ node_caught_up ops x' i.
Proof.
  intros Hinv Hi Hrd Hb Hauth. destruct (node_prefix _ _ _ _ Hinv Hi) as (fops & Hrep & Hpre). cbn [nd_sink] in Hrep.
  destruct (node_start_ok _ _ _ _ (ci_log _ _ Hinv) (ci_wire _ _ Hinv) Hrep Hpre Hb Hauth) as (sub & s' & Hrun & Hdb).
  destruct x as [s hs ps ns]. cbn [cl_src cl_nodes] in *. set (h := fresh (dom ps)).
  assert (Hfree : ps !! h = None) by (apply not_elem_of_dom, is_fresh). clearbody h.
  assert (Hstep := cl_connect s hs ps ns i k calm_env h sub s' k Hi (sink_env_up st0) calm_commits Hfree Hrun).
  assert (Hinv1 := cl_connect_inv ops s hs ps ns i k calm_env h sub s' k authn_reads Hinv Hi (sink_env_up st0) calm_commits Hfree Hrun).
  set (x1 := Cluster s' _ _ _) in *.
  assert (Hat : attached x1 i k (remote_Notify h) new_pipe (Notify sub)) by (unfold x1; attach).
  destruct (catch_up_attached ops i _ x1 k _ _ _ Hinv1 Hat Hrd (Nat.le_refl _)) as (x' & Hs & Hdb' & Hinv' & Hc).
  exists x'. split_and!; [by eapply rtc_l|by rewrite Hdb'|done|done].
Qed.

(** Any node can start over and catch up. *)
Lemma cl_catch_up ops i x n :
  cl_inv ops x → cl_nodes x !! i = Some n → sink_ready st0 (nd_sink n) → (Z.of_nat (length ops) + 1 < 2 ^ 63)%Z →
  log_reader hapi username password (cl_src x) →
  ∃ x', rtc cl_serve x x' ∧ ld_db (cl_src x') = ld_db (cl_src x) ∧ cl_inv ops x' ∧ node_caught_up ops x' i.
Proof.
  intros Hinv Hi Hrd Hb Hauth. destruct n as [k [c|]]; [|by eapply catch_up_detached]. cbn [nd_sink] in Hrd.
  destruct (node_prefix _ _ _ _ Hinv Hi) as (fops & Hrep & Hpre). cbn [nd_sink] in Hrep.
  pose proof (leave_inv _ _ _ _ _ _ _ Hinv Hi Hrep Hpre) as Hinv1.
  destruct (catch_up_detached ops i (leave i k c x) k Hinv1) as (x' & Hs & Hdb & Hinv' & Hc);
    [cbn; by rewrite lookup_insert_eq|done|done|done|].
  exists x'. split_and!; [|done|done|done]. eapply rtc_l; [by eapply cl_cancel|done].
Qed.

End CatchUp.

End Steps.
