(* ===== verification/Api.v ===== *)
(** * The CRUD API over HTTP

    The server's handlers for the object types ([crud/remote.go]), the client
    ([crud/client.go]) and the commands built on it ([crud/command.go]), then
    the properties of the three together.  URLs are given without their scheme
    and host. *)

From Stdlib Require Import Ascii.
From S2P Require Import Prelude GoStrings Sql SqlText Sqlite Net Model Crud CrudSpec CrudLog CrudLogSpec Follow Http.
Local Open Scope string_scope.

(** ** typeHandler *)
Section Server.
Context `{ErrorTexts} {S : Type} `{HasDb S}.

(** [crud.API]: a writer, and what the engine answers to the reader's
    transactions; [qord] is the order in which a query map is visited. *)
Context (w : Writer S) (renv : tx_env) (qord : gmap string string → list (string * string)).

Definition handle_write (t : sqlTableAdapter) (call : obj → M S unit) : handler S := λ req,
  ServeJSON (decode_request req (json_Unmarshal (ty_new t))) (λ o, _ ← call o; mret None).

Definition handleCreate (t : sqlTableAdapter) : handler S := handle_write t (w_Create w).
Definition handleUpdate (t : sqlTableAdapter) : handler S := handle_write t (w_Update w).
Definition handleDelete (t : sqlTableAdapter) : handler S := handle_write t (w_Delete w).

(** The visitor of [handleFind]: the number of objects written so far is a
    captured variable. *)
Definition find_visit (o : obj) : M ((S * rwriter) * nat) unit :=
  i ← gets snd;
  _ ← on_fst (on_snd (write (CText (if bool_decide (i = 0%nat) then "[" else ","))));
  _ ← modify (λ p, (p.1, Datatypes.S i));
  j ← lift_res (json_Marshal o);
  on_fst (on_snd (write (CJson j))).

Definition query_args (req : request) : gmap string string := omap head (rq_query req).

Definition handleFind (t : sqlTableAdapter) : handler S := λ req,
  _ ← on_snd (set_ctype true);
  r ← try (λ s, match SQLReader_Find renv model (ty_name t) (qord (query_args req)) find_visit (s, 0%nat) with
                | (r, (s', _)) => (r, s')
                end);
  _ ← match r with inr e => on_snd (http_Error (Error e) 500) | inl _ => mret tt end;
  on_snd (write (CText "]")).

(** *** Routes *)
Definition newTypeHTTPHandler (hapi : API S) (t : sqlTableAdapter) (urlPrefix : string) : handler S :=
  mux_handler
    [(JoinURL [urlPrefix; "create"], WithAuth hapi ("write-" ++ ty_name t) (handleCreate t));
     (JoinURL [urlPrefix; "update"], WithAuth hapi ("write-" ++ ty_name t) (handleUpdate t));
     (JoinURL [urlPrefix; "delete"], WithAuth hapi ("write-" ++ ty_name t) (handleDelete t));
     (JoinURL [urlPrefix; "find"], WithAuth hapi ("read-" ++ ty_name t) (handleFind t))].

Definition Model_API (hapi : API S) (ord : list sqlTableAdapter) (urlPrefix : string) : list (string * handler S) :=
  (λ t, let pfx := JoinURL [urlPrefix; ty_name t] ++ "/" in (pfx, newTypeHTTPHandler hapi t pfx)) <$> ord.

End Server.

(** ** typeClient *)
Section Client.
Context {S : Type} (net : request → M S response) (uri : string).

Definition verbURL (t : sqlTableAdapter) (verb : string) : string := JoinURL [uri; ty_name t; verb].

Definition requestWithObj (t : sqlTableAdapter) (method verb : string) (o : obj) : M S unit :=
  _ ← Do (R := unit) net method (verbURL t verb) ∅ (Some (json_Marshal o)) None; mret tt.

Definition client_Create (t : sqlTableAdapter) (o : obj) : M S unit := requestWithObj t "POST" "create" o.
Definition client_Update (t : sqlTableAdapter) (o : obj) : M S unit := requestWithObj t "POST" "update" o.
Definition client_Delete (t : sqlTableAdapter) (o : obj) : M S unit := requestWithObj t "POST" "delete" o.

(** The reply is decoded into a [reflect.Value], a struct without exported
    fields, which no JSON array fits. *)
Definition decode_reflect_Value (j : json) : res unit :=
  match j with JObj _ | JNull => Ok tt | _ => Err json_type_error end.

(** The slice behind it keeps its element type and is no [[]interface{}]. *)
Definition client_Find (t : sqlTableAdapter) (query : gmap string string) (f : obj → M S unit) : M S unit :=
  _ ← Do net "GET" (verbURL t "find") ((λ v, [v]) <$> query) None (Some decode_reflect_Value);
  panic "interface conversion: interface {} is not []interface {}".

End Client.

(** ** Commands

    Exit statuses: 0 success, 1 failure, 2 usage error.  [client] is what
    building the HTTP client from the flags gives. *)
Definition ExitSuccess : Z := 0.
Definition ExitFailure : Z := 1.
Definition ExitUsageError : Z := 2.

Section Commands.
Context {S : Type} (urlPrefix : string).

Definition fatalErr (m : M S unit) : M S Z :=
  r ← try m; mret (match r with inl _ => ExitSuccess | inr _ => ExitFailure end).

Definition syntaxErr : M S Z := mret ExitUsageError.

(** [Model.Client]: a client per type. *)
Record typeClient : Type := newTypeClient { tc_uri : string; tc_t : sqlTableAdapter; tc_client : transport S }.

Definition Model_Client (uri : string) (httpc : transport S) : gmap string typeClient :=
  (λ t, newTypeClient uri t httpc) <$> byName model.

(** Calling a method on what is not there is an error of the program. *)
Definition Client_Get (c : gmap string typeClient) (typ : string) : M S typeClient :=
  match c !! typ with Some tc => mret tc | None => panic "invalid memory address or nil pointer dereference" end.

Definition command_client (t : sqlTableAdapter) (urlFlag : string) (client : res (transport S)) : M S typeClient :=
  if bool_decide (urlFlag = "") then fail (EMsg "must specify --url")
  else
    httpc ← lift_res client;
    let url := JoinURL [urlFlag; urlPrefix] in
    Client_Get (Model_Client url httpc) (ty_name t).

Context `{WgKeys}.

(** [NewInstanceFromValues] of the three types *)
Definition NewInstanceFromValues (t : gotype) (v : gmap string string) : res obj :=
  match t with
  | TPeer => Peer_from_values v
  | TInterface => Interface_from_values v
  | TToken => Token_from_values v
  | TJson => Err ErrUnknownType
  end.

Definition create_Execute (urlFlag : string) (client : res (transport S)) (t : sqlTableAdapter) (fieldValues : gmap string string) : M S Z :=
  fatalErr (o ← lift_res (NewInstanceFromValues (ty_new t) fieldValues);
            c ← command_client t urlFlag client;
            client_Create (tc_client c) (tc_uri c) (tc_t c) o).

Definition update_Execute (urlFlag : string) (client : res (transport S)) (t : sqlTableAdapter) (fieldValues : gmap string string) : M S Z :=
  fatalErr (o ← lift_res (NewInstanceFromValues (ty_new t) fieldValues);
            c ← command_client t urlFlag client;
            client_Update (tc_client c) (tc_uri c) (tc_t c) o).

(** The argument itself is sent, not an object. *)
Definition delete_Execute (urlFlag : string) (client : res (transport S)) (t : sqlTableAdapter) (args : list string) : M S Z :=
  match args with
  | [arg] => fatalErr (c ← command_client t urlFlag client; client_Delete (tc_client c) (tc_uri c) (tc_t c) (OJson (JStr arg)))
  | _ => syntaxErr
  end.

(** [f] writes an object to the standard output. *)
Definition get_Execute (f : obj → M S unit) (urlFlag : string) (client : res (transport S)) (t : sqlTableAdapter)
    (args : list string) : M S Z :=
  match args with
  | [arg] => fatalErr (c ← command_client t urlFlag client; client_Find (tc_client c) (tc_uri c) (tc_t c) {[PrimaryKeyField t := arg]} f)
  | _ => syntaxErr
  end.

Fixpoint parse_query (args : list string) (q : gmap string string) : res (gmap string string) :=
  match args with
  | [] => Ok q
  | arg :: args =>
      match splitN2 "=" arg with
      | [k; v] => parse_query args (<[k := v]> q)
      | _ => Err (EMsg "could not parse query as attr=value")
      end
  end.

Definition find_Execute (f : obj → M S unit) (urlFlag : string) (client : res (transport S)) (t : sqlTableAdapter)
    (args : list string) : M S Z :=
  fatalErr (c ← command_client t urlFlag client;
            q ← lift_res (parse_query args ∅);
            client_Find (tc_client c) (tc_uri c) (tc_t c) q f).

End Commands.

(** ** Lemmas: routing *)
Section Routing.
Context {S : Type}.

Definition subtree (path : string) (p : string * handler S) : bool := has_suffix "/" p.1 && has_prefix p.1 path.

Lemma longest_unique (m : list (string * handler S)) path p best :
  (best = None ∨ best = Some p) → (∀ q, q ∈ m → subtree path q = true → q = p) →
  p ∈ m ∨ best = Some p → subtree path p = true →
  foldl (λ best p, if subtree path p then longer best (Some p) else best) best m = Some p.
Proof.
  revert best. induction m as [|q m IH]; intros best Hb Hu Hp Hs; cbn.
  - destruct Hp as [Hp|Hp]; [by apply elem_of_nil in Hp|done].
  - destruct (subtree path q) eqn:Hq.
    + assert (q = p) as -> by (apply Hu; [left|done]).
      assert (Hl : longer best (Some p) = Some p) by (destruct Hb as [-> | ->]; cbn; [done|by case_bool_decide]).
      rewrite Hl. apply IH; [by right|by intros q Hq'; apply Hu; right|by right|done].
    + apply IH; [done|by intros q' Hq'; apply Hu; right| |done]. destruct Hp as [Hp|Hp]; [|by right].
      apply elem_of_cons in Hp as [->|Hp]; [congruence|by left].
Qed.

Lemma mux_subtree (m : list (string * handler S)) path p :
  (∀ q, q ∈ m → q.1 ≠ path) → p ∈ m → subtree path p = true →
  (∀ q, q ∈ m → subtree path q = true → q = p) → mux_lookup m path = Some p.2.
Proof.
  intros Hne Hp Hs Hu. unfold mux_lookup. destruct (list_find (λ p, p.1 = path) m) as [[i q]|] eqn:Hf.
  - apply list_find_Some in Hf as (Hi & Heq & _). apply list_elem_of_lookup_2 in Hi. by destruct (Hne q Hi).
  - pose proof (longest_unique m path p None (or_introl eq_refl) Hu (or_introl Hp) Hs) as Hl.
    unfold subtree in Hl. by rewrite Hl.
Qed.

End Routing.

(** The types of an iteration are the three of the model. *)
Lemma iteration_types ord t : iteration_of model ord → t ∈ ord ↔ t ∈ [PeerType; InterfaceType; TokenType].
Proof.
  unfold iteration_of. intros Hord. rewrite Hord.
  assert (E : (map_to_list (byName model)).*2 ≡ₚ [PeerType; InterfaceType; TokenType]); [|by rewrite E].
  change [PeerType; InterfaceType; TokenType] with
    ([("peer", PeerType); ("interface", InterfaceType); ("token", TokenType)].*2).
  apply fmap_Permutation. unfold model, Register. cbn [byName newRegistry].
  rewrite !map_to_list_insert by (vm_compute; reflexivity).
  rewrite map_to_list_empty. apply (Permutation_rev [_; _; _]).
Qed.

Definition verb_of (k : op_kind) : string := match k with DoCreate => "create" | DoUpdate => "update" | DoDelete => "delete" end.

Definition w_write {S} (w : Writer S) (k : op_kind) : obj → M S unit :=
  match k with DoCreate => w_Create w | DoUpdate => w_Update w | DoDelete => w_Delete w end.

Definition client_write {S} (net : request → M S response) (uri : string) (t : sqlTableAdapter) (k : op_kind) : obj → M S unit :=
  match k with
  | DoCreate => client_Create net uri t
  | DoUpdate => client_Update net uri t
  | DoDelete => client_Delete net uri t
  end.

Definition verbs : list string := ["create"; "update"; "delete"; "find"].

Definition type_prefix (t : sqlTableAdapter) : string := JoinURL ["/api/v1"; ty_name t] ++ "/".

Lemma model_byName t : t ∈ [PeerType; InterfaceType; TokenType] → byName model !! ty_name t = Some t.
Proof. intros Ht. repeat (apply elem_of_cons in Ht as [->|Ht]; [reflexivity|]). by apply elem_of_nil in Ht. Qed.

(** The client of a command. *)
Lemma command_client_run {S} urlPrefix t url (net : transport S) s :
  t ∈ [PeerType; InterfaceType; TokenType] → url ≠ "" →
  command_client urlPrefix t url (Ok net) s = (Ok (newTypeClient (JoinURL [url; urlPrefix]) t net), s).
Proof.
  intros Ht Hu. unfold command_client. rewrite bool_decide_eq_false_2 by done. m_unfold. unfold Client_Get, Model_Client.
  by rewrite lookup_fmap, (model_byName t Ht).
Qed.

(** The paths of the API are clean, and each belongs to the prefix of its type
    only (checked on all of them). *)
Lemma routes_distinct t t' verb :
  t ∈ [PeerType; InterfaceType; TokenType] → t' ∈ [PeerType; InterfaceType; TokenType] → verb ∈ verbs →
  type_prefix t' ≠ JoinURL ["/api/v1"; ty_name t; verb] ∧
  type_prefix t' ≠ JoinURL ["/api/v1"; ty_name t; verb] ++ "/" ∧
  cleanPath (JoinURL ["/api/v1"; ty_name t; verb]) = JoinURL ["/api/v1"; ty_name t; verb] ∧
  (has_suffix "/" (type_prefix t') && has_prefix (type_prefix t') (JoinURL ["/api/v1"; ty_name t; verb]) = true ↔ t = t').
Proof.
  intros Ht Ht' Hv.
  assert (Hall : forallb (λ t, forallb (λ t', forallb (λ v,
    negb (bool_decide (type_prefix t' = JoinURL ["/api/v1"; ty_name t; v])) &&
    negb (bool_decide (type_prefix t' = JoinURL ["/api/v1"; ty_name t; v] ++ "/")) &&
    bool_decide (cleanPath (JoinURL ["/api/v1"; ty_name t; v]) = JoinURL ["/api/v1"; ty_name t; v]) &&
    Bool.eqb (has_suffix "/" (type_prefix t') && has_prefix (type_prefix t') (JoinURL ["/api/v1"; ty_name t; v]))
      (bool_decide (ty_name t = ty_name t'))) verbs) [PeerType; InterfaceType; TokenType]) [PeerType; InterfaceType; TokenType] = true)
    by (vm_compute; reflexivity).
  rewrite forallb_forall in Hall. specialize (Hall t ltac:(by apply list_elem_of_In)).
  rewrite forallb_forall in Hall. specialize (Hall t' ltac:(by apply list_elem_of_In)).
  rewrite forallb_forall in Hall. specialize (Hall verb ltac:(by apply list_elem_of_In)).
  rewrite !andb_true_iff, !negb_true_iff, !bool_decide_eq_false, bool_decide_eq_true in Hall.
  destruct Hall as [[[Hne Hs] Hc] Heq]. split_and!; [done..|].
  apply Bool.eqb_prop in Heq. rewrite Heq, bool_decide_eq_true. split; [|by intros ->]. intros Hn.
  pose proof (model_byName t Ht) as H1. rewrite Hn, (model_byName t' Ht') in H1. by simplify_eq.
Qed.

Section EndToEnd.
Context `{ErrorTexts} {S : Type} `{HasDb S}.
Context (w : Writer S) (renv : tx_env) (qord : gmap string string → list (string * string)).
Context (hapi : API S) (username password : string).

(** A client's connection to the server. *)
Definition api_net (ord : list sqlTableAdapter) : request → M S response :=
  RoundTrip username password (serve (mux_handler (Model_API w renv qord hapi ord "/api/v1"))).

(** The same under the URL of the server. *)
Definition api_at (base : string) (ord : list sqlTableAdapter) : request → M S response :=
  RoundTrip username password (at_host base (serve (mux_handler (Model_API w renv qord hapi ord "/api/v1")))).

Definition auth_header : option (string * string) :=
  if bool_decide (username = "") then None else Some (username, password).

(** The server grants the client the target in this state. *)
Definition may (target : string) (s : S) : Prop :=
  ∀ req, rq_auth req = auth_header →
    ∃ creds, api_authn hapi req s = (Ok creds, s) ∧ api_authz hapi creds target = true.

Lemma route_type ord t verb :
  iteration_of model ord → t ∈ ord → verb ∈ verbs →
  mux_lookup (Model_API w renv qord hapi ord "/api/v1") (JoinURL ["/api/v1"; ty_name t; verb]) =
    Some (newTypeHTTPHandler w renv qord hapi t (type_prefix t)).
Proof.
  intros Hord Ht Hv. set (entry := λ t, (type_prefix t, newTypeHTTPHandler w renv qord hapi t (type_prefix t))).
  assert (Hin : ∀ q, q ∈ Model_API w renv qord hapi ord "/api/v1" → ∃ t', q = entry t' ∧ t' ∈ ord).
  { intros q Hq. unfold Model_API in Hq. apply list_elem_of_fmap in Hq as (t' & -> & Ht'). by exists t'. }
  assert (Hsub : ∀ t', t' ∈ ord → type_prefix t' ≠ JoinURL ["/api/v1"; ty_name t; verb] ∧
    (subtree (JoinURL ["/api/v1"; ty_name t; verb]) (entry t') = true ↔ t = t')).
  { intros t' Ht'. apply (iteration_types ord) in Ht, Ht'; [|done..]. by destruct (routes_distinct t t' verb) as (? & _ & _ & ?). }
  apply (mux_subtree _ _ (entry t)).
  - intros q Hq. destruct (Hin q Hq) as (t' & -> & Ht'). by apply Hsub.
  - unfold Model_API. apply list_elem_of_fmap. by exists t.
  - by apply Hsub.
  - intros q Hq Hs. destruct (Hin q Hq) as (t' & -> & Ht'). apply Hsub in Hs as <-; done.
Qed.

Lemma route_direct ord t verb :
  iteration_of model ord → t ∈ ord → verb ∈ verbs →
  let path := JoinURL ["/api/v1"; ty_name t; verb] in
  cleanPath path = path ∧ redirectToPathSlash (Model_API w renv qord hapi ord "/api/v1") path = false.
Proof.
  intros Hord Ht Hv path. pose proof (proj1 (iteration_types ord t Hord) Ht) as Ht3. split.
  - by destruct (routes_distinct t t verb Ht3 Ht3 Hv) as (_ & _ & Hc & _).
  - unfold redirectToPathSlash. apply andb_false_iff. right. apply not_true_is_false. intros Hex.
    apply existsb_exists in Hex as (q & Hq & Heq). apply bool_decide_eq_true in Heq.
    apply list_elem_of_In in Hq. unfold Model_API in Hq. apply list_elem_of_fmap in Hq as (t' & -> & Ht').
    apply (iteration_types ord t' Hord) in Ht'. by destruct (routes_distinct t t' verb Ht3 Ht' Hv) as (_ & Hs & _).
Qed.

(** A request to write, from the client to its handler. *)
Lemma write_routed ord t k req :
  iteration_of model ord → t ∈ ord → rq_path req = verbURL "/api/v1" t (verb_of k) →
  mux_handler (Model_API w renv qord hapi ord "/api/v1") req =
    WithAuth hapi ("write-" ++ ty_name t) (handle_write t (w_write w k)) req.
Proof.
  intros Hord Ht Hp. assert (Hv : verb_of k ∈ verbs) by (unfold verbs; destruct k; cbn; set_solver).
  destruct (route_direct ord t (verb_of k) Hord Ht Hv) as [Hc Hr].
  rewrite mux_handler_clean by (by rewrite Hp). rewrite Hp. unfold verbURL. rewrite (route_type ord t) by done.
  unfold newTypeHTTPHandler. rewrite mux_handler_clean; rewrite Hp; [|done|];
    (apply (iteration_types ord) in Ht; [|done]; unfold verbURL;
     repeat (apply elem_of_cons in Ht as [->|Ht]); [..|by apply elem_of_nil in Ht]; destruct k; reflexivity).
Qed.

(** A handler for writing, run by the server. *)
Lemma serve_write t k req s o :
  may ("write-" ++ ty_name t) s → rq_auth req = auth_header →
  decode_request req (json_Unmarshal (ty_new t)) = Ok o →
  ∃ resp, serve (WithAuth hapi ("write-" ++ ty_name t) (handle_write t (w_write w k))) req s =
    match w_write w k o s with
    | (Ok _, s') => (Ok (mkResponse 200 false []), s')
    | (Err e, s') => (Ok (resp e), s')
    | (Panic _, s') => (Err (ENet "EOF"), s')
    | (Hang, s') => (Hang, s')
    end ∧ ∀ e, UnwrapError (resp e) = remote_err e ∧ rs_status (resp e) ≠ 200%Z.
Proof.
  intros Hmay Hreq Hdec. destruct (Hmay req Hreq) as (creds & Ha & Hz).
  exists (λ e, finish (HTTPError e new_rwriter).2). split.
  - unfold serve, WithAuth, guard_auth, handle_write, ServeJSON, try, on_fst, on_snd. m_unfold. cbn [fst snd].
    rewrite Ha. cbn [fst snd]. rewrite Hz, Hdec. cbn [fst snd].
    destruct (w_write w k o s) as [[[]|e|p|] s1]; cbn [fst snd]; [done| |done..].
    destruct (HTTPError_run e new_rwriter) as (w' & Hw & _); [done|]. by rewrite Hw.
  - intros e. destruct (HTTPError_run e new_rwriter) as (w' & Hw & Hu & Hst); [done|]. by rewrite Hw.
Qed.

Lemma client_write_run ord t k o j o' s :
  iteration_of model ord → t ∈ ord → json_Marshal o = Ok j → json_Unmarshal (ty_new t) j = Ok o' →
  may ("write-" ++ ty_name t) s →
  client_write (api_net ord) "/api/v1" t k o s = over_http (w_write w k o' s).
Proof.
  intros Hord Ht Hm Hu Hmay.
  assert (Hc : client_write (api_net ord) "/api/v1" t k o s = requestWithObj (api_net ord) "/api/v1" t "POST" (verb_of k) o s)
    by (by destruct k).
  rewrite Hc. unfold requestWithObj, Do. rewrite Hm. unfold api_net, RoundTrip. m_unfold.
  set (req := if bool_decide (username = "") then _ else _).
  assert (Hreq : rq_auth req = auth_header ∧ rq_path req = verbURL "/api/v1" t (verb_of k) ∧ rq_body req = Some j)
    by (unfold req, auth_header; by case_bool_decide).
  destruct Hreq as (Hra & Hrp & Hrb).
  assert (Hd : decode_request req (json_Unmarshal (ty_new t)) = Ok o') by (unfold decode_request; by rewrite Hrb).
  destruct (serve_write t k req s o' Hmay Hra Hd) as (resp & Hrun & Hresp).
  unfold serve in Hrun |- *. rewrite (write_routed ord t k req Hord Ht Hrp), Hrun.
  destruct (w_write w k o' s) as [[[]|e|p|] s1]; [done| |done..]. destruct (Hresp e) as [He Hst].
  rewrite bool_decide_eq_true_2 by done. unfold over_http. by rewrite He.
Qed.

(** The URL of the server goes before the paths. *)
Lemma client_write_at base ord t k o s :
  has_suffix "/" base = false →
  client_write (api_at base ord) (JoinURL [base; "/api/v1"]) t k o s = client_write (api_net ord) "/api/v1" t k o s.
Proof.
  intros Hb. assert (Hu : ∀ verb, verbURL (JoinURL [base; "/api/v1"]) t verb = base ++ verbURL "/api/v1" t verb).
  { intros verb. unfold verbURL. cbn [JoinURL foldl]. rewrite Hb. change (trim_prefix "/" "/api/v1") with "api/v1".
    rewrite str_app_assoc. change ("/" ++ "api/v1") with "/api/v1". by apply (JoinURL_base base "/api/v1" [ty_name t; verb]). }
  destruct k; cbn [client_write]; unfold client_Create, client_Update, client_Delete, requestWithObj; rewrite Hu; m_unfold;
    unfold api_at; by rewrite Do_at_host.
Qed.

End EndToEnd.

(** ** Properties *)

(** Writing through the API is writing: for an object that JSON represents,
    a client that the server grants the target has the outcome of the server's
    writer on an object of the same type with the same SQL parameters, and the
    server ends in the same state; an error arrives as its registered code or
    as a server error. *)
Theorem remote_write_refines `{ErrorTexts} {S} `{HasDb S} (w : Writer S) renv qord hapi username password ord t k o :
  iteration_of model ord → getType model o = Some t → obj_wire_ok o = true →
  ∃ o', typeOf o' = typeOf o ∧ named_args o' = named_args o ∧
    ∀ s, may hapi username password ("write-" ++ ty_name t) s →
      client_write (api_net w renv qord hapi username password ord) "/api/v1" t k o s = over_http (w_write w k o' s).
Proof.
  intros Hord Ht Hw. destruct (wire_roundtrip o Hw) as (j & o' & Hm & Hu & Hty & Ha & _).
  destruct (byName_typeOf o t Ht) as [_ Hnew]. exists o'. split_and!; [done..|]. intros s Hmay.
  apply (client_write_run w renv qord hapi username password ord t k o j o'); try done; [|by rewrite Hnew].
  apply (iteration_types ord); [done|]. destruct o; vm_compute in Ht; simplify_eq; set_solver.
Qed.

#[local] Existing Instance quiet_texts.
#[local] Existing Instance model_encoding.

Lemma remote_write_refines_witness :
  let w := newCrudLogWriter (H := model_crud sample_ord 1) tx_ok 7 in
  let net := api_net w tx_ok map_to_list (mkAPI NilAuthn NilAuthz) "" "" (map_to_list (byName model)).*2 in
  ∃ o', typeOf o' = TInterface ∧ named_args o' = named_args sample_interface ∧
    client_write net "/api/v1" InterfaceType DoCreate sample_interface (Wrap initial_db) =
      over_http (w_Create w o' (Wrap initial_db)).
Proof.
  cbn zeta.
  destruct (remote_write_refines (newCrudLogWriter (H := model_crud sample_ord 1) tx_ok 7) tx_ok map_to_list
    (mkAPI NilAuthn NilAuthz) "" "" (map_to_list (byName model)).*2 InterfaceType DoCreate sample_interface) as (o' & Ht & Ha & Hrun).
  - apply Permutation_refl.
  - vm_compute. reflexivity.
  - vm_compute. reflexivity.
  - exists o'. split; [exact Ht|]. split; [exact Ha|]. apply Hrun. intros req _. by exists None.
Defined.

(** A request whose body does not decode is refused before the writer. *)
Lemma client_write_malformed `{ErrorTexts} {S} `{HasDb S} (w : Writer S) renv qord hapi username password ord t k o j e s :
  iteration_of model ord → t ∈ ord → json_Marshal o = Ok j → json_Unmarshal (ty_new t) j = Err e →
  may hapi username password ("write-" ++ ty_name t) s →
  ∃ e', client_write (api_net w renv qord hapi username password ord) "/api/v1" t k o s = (Err e', s).
Proof.
  intros Hord Ht Hm Hu Hmay. set (net := api_net _ _ _ _ _ _ _).
  assert (Hc : client_write net "/api/v1" t k o s = requestWithObj net "/api/v1" t "POST" (verb_of k) o s) by (by destruct k).
  rewrite Hc. unfold requestWithObj, Do. rewrite Hm. unfold net, api_net, RoundTrip. m_unfold.
  set (req := if bool_decide (username = "") then _ else _).
  assert (Hreq : rq_auth req = auth_header username password ∧ rq_path req = verbURL "/api/v1" t (verb_of k) ∧ rq_body req = Some j)
    by (unfold req, auth_header; by case_bool_decide).
  destruct Hreq as (Hra & Hrp & Hrb). destruct (Hmay req Hra) as (creds & Ha & Hz).
  unfold serve. rewrite (write_routed w renv qord hapi ord t k req Hord Ht Hrp).
  unfold WithAuth, guard_auth, handle_write, ServeJSON, decode_request, try, on_fst, on_snd. m_unfold. cbn [fst snd].
  rewrite Ha. cbn [fst snd]. rewrite Hz, Hrb, Hu. cbn. by eexists.
Qed.

(** Three of the five object commands cannot work: [delete] sends its
    argument as a JSON string, which is no object, so that the server refuses
    it and nothing is deleted; [get] and [find] never succeed, whatever the
    server answers, because the client decodes the list of results into a
    value that holds no list. *)
Theorem object_commands_fail `{ErrorTexts} {S} `{HasDb S} (w : Writer S) renv qord hapi username password ord t url arg s :
  iteration_of model ord → t ∈ ord → url ≠ "" → has_suffix "/" url = false → may hapi username password ("write-" ++ ty_name t) s →
  delete_Execute "/api/v1" url (Ok (api_at w renv qord hapi username password url ord)) t [arg] s = (Ok ExitFailure, s) ∧
  ∀ net f args, (get_Execute "/api/v1" f url (Ok net) t args s).1 ≠ Ok ExitSuccess ∧
                (find_Execute "/api/v1" f url (Ok net) t args s).1 ≠ Ok ExitSuccess.
Proof.
  intros Hord Ht Hurl Hsl Hmay. split.
  - assert (Hu : json_Unmarshal (ty_new t) (JStr arg) = Err json_type_error).
    { pose proof (proj1 (iteration_types ord t Hord) Ht) as Ht'.
      repeat (apply elem_of_cons in Ht' as [->|Ht']; [reflexivity|]). by apply elem_of_nil in Ht'. }
    destruct (client_write_malformed w renv qord hapi username password ord t DoDelete (OJson (JStr arg)) (JStr arg) _ s
      Hord Ht eq_refl Hu Hmay) as (e' & Hrun). rewrite <- (client_write_at w renv qord hapi username password url) in Hrun by done.
    unfold delete_Execute, fatalErr, try. m_unfold. rewrite command_client_run by (done || by apply (iteration_types ord)).
    cbn [client_write tc_client tc_uri tc_t] in Hrun |- *. by rewrite Hrun.
  - assert (Hfind : ∀ (net : request → M S response) uri q (f : obj → M S unit) (s' : S), (fatalErr (client_Find net uri t q f) s').1 ≠ Ok ExitSuccess).
    { intros net uri q f s'. unfold fatalErr, client_Find, try. m_unfold. by destruct (Do _ _ _ _ _ _ s') as [[] ?]. }
    assert (Hcl : ∀ (net : transport S) (k : typeClient → M S unit), (∀ uri s', (fatalErr (k (newTypeClient uri t net)) s').1 ≠ Ok ExitSuccess) →
      (fatalErr (c ← command_client "/api/v1" t url (Ok net); k c) s).1 ≠ Ok ExitSuccess).
    { intros net k Hk. unfold fatalErr, try. m_unfold. rewrite command_client_run by (done || by apply (iteration_types ord)). apply Hk. }
    intros net f args. split.
    + destruct args as [|a [|b args]]; [done| |done]. apply Hcl. intros uri s'. apply Hfind.
    + apply Hcl. intros uri s'. destruct (parse_query args ∅) as [q|e|p|] eqn:Hq; [|done..]. apply Hfind.
Qed.

Lemma object_commands_fail_witness :
  let w := newCrudLogWriter (H := model_crud sample_ord 1) tx_ok 7 in
  let net := api_at w tx_ok map_to_list (mkAPI NilAuthn NilAuthz) "" "" "http://localhost:5005" (map_to_list (byName model)).*2 in
  delete_Execute "/api/v1" "http://localhost:5005" (Ok net) PeerType ["pk"] (Wrap initial_db) = (Ok ExitFailure, Wrap initial_db).
Proof.
  apply (object_commands_fail (newCrudLogWriter (H := model_crud sample_ord 1) tx_ok 7) tx_ok map_to_list
    (mkAPI NilAuthn NilAuthz) "" "" (map_to_list (byName model)).*2 PeerType "http://localhost:5005" "pk" (Wrap initial_db)).
  - apply Permutation_refl.
  - apply iteration_types; [apply Permutation_refl|left].
  - done.
  - done.
  - intros req _. by exists None.
Defined.
