(* ===== verification/Server.v ===== *)
(** * The datastore server

    The HTTP handlers of the session manager ([sessions/manager.go]) and of the
    registration API ([registration/registration.go]), the client of the
    former ([sessions/client.go]), and the server that [cmd/wig/api.go] puts
    together: its access rules, its authentication, its routes.  Then who can
    change the datastore. *)

From Stdlib Require Import Ascii.
From S2P Require Import Prelude GoStrings Sql SqlText Sqlite Net Model Crud CrudSpec CrudLog CrudLogSpec Follow Gateway Sessions Registration Effects Http Api RemoteLog.
Local Open Scope string_scope.
Local Open Scope Z_scope.

(** ** The state of a server: the datastore and the session finder *)
Abbreviation server := (logdb * finder)%type (only parsing).

(** A call of the session manager, on the database and the finder. *)
Definition on_sessions {A} (m : M (db * finder) A) : M server A := λ s,
  match m (ld_db s.1, s.2) with (r, (d, f)) => (r, (LogDb d (ld_pubsub s.1), f)) end.

(** ** Sessions and statistics as JSON *)
Definition unmarshal_PeerStats (j : json) : res PeerStats :=
  match j with
  | JNull => Ok (mkPeerStats "" 0 0 0 "")
  | JObj l =>
      pk ← get_str (jfield l "public_key");
      ht ← get_time (jfield l "last_handshake_time");
      rx ← get_int (jfield l "rx_bytes");
      tx ← get_int (jfield l "tx_bytes");
      ep ← get_str (jfield l "endpoint");
      mret (mkPeerStats pk ht rx tx ep)
  | _ => Err json_type_error
  end.

Definition unmarshal_StatsDump (j : json) : res (list PeerStats) :=
  match j with
  | JNull => Ok []
  | JArr l => res_map unmarshal_PeerStats l
  | _ => Err json_type_error
  end.

Definition marshal_PeerStats (s : PeerStats) : res json :=
  ht ← marshal_time (ps_LastHandshakeTime s);
  mret (JObj [("public_key", JStr (ps_PublicKey s)); ("last_handshake_time", ht); ("rx_bytes", JNum (ps_RxBytes s));
              ("tx_bytes", JNum (ps_TxBytes s)); ("endpoint", JStr (ps_Endpoint s))]).

Definition marshal_Session (s : Session) : res json :=
  b ← marshal_time (se_Begin s);
  e ← marshal_time (se_End s);
  mret (JObj [("peer_public_key", JStr (se_PeerPublicKey s)); ("src_as_num", JStr (se_SrcASNum s));
              ("src_as_org", JStr (se_SrcASOrg s)); ("src_country", JStr (se_SrcCountry s));
              ("begin", b); ("end", e); ("active", JBool (se_Active s))]).

Definition get_bool (j : json) : res bool :=
  match j with JNull => Ok false | JBool b => Ok b | _ => Err json_type_error end.

(** A session decoded from JSON; [null] in the list is a nil pointer. *)
Definition unmarshal_Session (j : json) : res (option Session) :=
  match j with
  | JNull => Ok None
  | JObj l =>
      pk ← get_str (jfield l "peer_public_key");
      num ← get_str (jfield l "src_as_num");
      org ← get_str (jfield l "src_as_org");
      country ← get_str (jfield l "src_country");
      b ← get_time (jfield l "begin");
      e ← get_time (jfield l "end");
      active ← get_bool (jfield l "active");
      mret (Some (mkSession pk num org country b e active))
  | _ => Err json_type_error
  end.

Definition unmarshal_Sessions (j : json) : res (list (option Session)) :=
  match j with
  | JNull => Ok []
  | JArr l => res_map unmarshal_Session l
  | _ => Err json_type_error
  end.

(** A nil slice is [null]. *)
Definition marshal_Sessions (l : list Session) : res json :=
  match l with [] => Ok JNull | _ => js ← res_map marshal_Session l; mret (JArr js) end.

(** ** Handlers *)
Definition apiURLReceive : string := "/api/v1/receive-stats".
Definition apiURLGetSessions : string := "/api/v1/sessions/find".
Definition apiURLRegisterPeer : string := "/api/v1/register-peer".

Record RegisterPeerRequest : Type := mkRegReq { rr_Interface : string; rr_PublicKey : string; rr_TTL : Z }.

Definition unmarshal_RegisterPeerRequest (j : json) : res RegisterPeerRequest :=
  match j with
  | JNull => Ok (mkRegReq "" "" 0)
  | JObj l =>
      intf ← get_str (jfield l "interface");
      pk ← get_str (jfield l "public_key");
      ttl ← get_int (jfield l "ttl");
      mret (mkRegReq intf pk ttl)
  | _ => Err json_type_error
  end.

(** A duration is a 64-bit number of nanoseconds. *)
Definition int64_wrap (z : Z) : Z := (z + 2 ^ 63) mod 2 ^ 64 - 2 ^ 63.

Section Handlers.
Context `{ErrorTexts} `{RG : Ranger} (dbs : list (IP → res geo_record)).

Definition handleReceive (env : tx_env) (now : time) : handler server := λ req,
  ServeJSON (decode_request req unmarshal_StatsDump)
    (λ dump, _ ← on_sessions (ReceivePeerStats dbs env now dump); mret None).

Definition handleGetSessions (env : tx_env) : handler server := λ req,
  ServeJSON (Ok tt) (λ _,
    let pkey := FormValue req "pkey" in
    if bool_decide (pkey = "") then fail (EMsg "no 'pkey' argument")
    else gets (λ s, Some (marshal_Sessions (manager_FindSessions env pkey (ld_db s.1, s.2))))).

Definition call_RegisterNewPeer (env : tx_env) (now : time) (rr : RegisterPeerRequest) : M server (option (res json)) := λ s,
  match RegisterNewPeer env now (rr_Interface rr) (rr_PublicKey rr) (int64_wrap (10 ^ 9 * rr_TTL rr)) (ld_db s.1) with
  | (Ok _, (d, p)) => (Ok (Some (json_Marshal (OPeer p))), (LogDb d (ld_pubsub s.1), s.2))
  | (Err e, (d, _)) => (Err e, (LogDb d (ld_pubsub s.1), s.2))
  | (Panic x, (d, _)) => (Panic x, (LogDb d (ld_pubsub s.1), s.2))
  | (Hang, (d, _)) => (Hang, (LogDb d (ld_pubsub s.1), s.2))
  end.

Definition handleRegisterPeer (env : tx_env) (now : time) : handler server := λ req,
  ServeJSON (decode_request req unmarshal_RegisterPeerRequest) (call_RegisterNewPeer env now).

Definition sessions_routes (hapi : API server) (env : tx_env) (now : time) : list (string * handler server) :=
  [(apiURLGetSessions, WithAuth hapi "read-sessions" (handleGetSessions env));
   (apiURLReceive, WithAuth hapi "write-sessions" (handleReceive env now))].

Definition registration_routes (hapi : API server) (env : tx_env) (now : time) : list (string * handler server) :=
  [(apiURLRegisterPeer, WithAuth hapi "register-peer" (handleRegisterPeer env now))].

End Handlers.

(** ** The client of the session manager *)
Section StatsClient.
Context {S : Type} (net : request → M S response) (uri : string).

Definition stub_ReceivePeerStats (stats : list PeerStats) : M S unit :=
  _ ← Do (R := unit) net "POST" (uri ++ apiURLReceive) ∅
        (Some (match stats with [] => Ok JNull | _ => js ← res_map marshal_PeerStats stats; mret (JArr js) end)) None;
  mret tt.

(** The key is not sent. *)
Definition stub_GetSessions (pkey : string) : M S (list (option Session)) :=
  r ← Do net "GET" (uri ++ apiURLGetSessions) ∅ None (Some unmarshal_Sessions); mret (default [] r).

End StatsClient.

(** ** The server of [wig api] *)
Definition rbacRules : gmap string (list string) :=
  list_to_map [("admin", ["write-peer"; "read-peer"; "write-interface"; "read-interface"; "write-token"; "read-token";
                          "write-sessions"; "read-sessions"; "read-log"; "register-peer"]);
               ("follower", ["read-log"]); ("registrar", ["register-peer"])].

Definition apiURLBase : string := "/api/v1".

(** The authentication that the flags select. *)
Definition apiCommand_api {S} `{HasDb S} (env : tx_env) (authType authTLSRoleSpec : string) : res (API S) :=
  if bool_decide (authType = "none") then Ok (mkAPI NilAuthn NilAuthz)
  else if bool_decide (authType = "bearer") then Ok (mkAPI (bearer_CredentialsFromRequest env) (HasPermission rbacRules))
  else if bool_decide (authType = "mtls" ∨ authType = "tls") then
    if bool_decide (authTLSRoleSpec = "") then Err (EMsg "must specify --tls-roles")
    else m ← NewTLSAuthn authTLSRoleSpec; mret (mkAPI (tls_CredentialsFromRequest m) (HasPermission rbacRules))
  else Err (EMsg "unknown authentication type").

Section Server.
Context `{ErrorTexts} `{RG : Ranger} `{CR : CRUD} `{EN : Encoding} (dbs : list (IP → res geo_record)).

(** The writer behind the API: the log on a primary, none on a follower. *)
Definition server_writer (logURL : string) (env : tx_env) (now : time) : Writer server :=
  if bool_decide (logURL = "") then
    let w := newCrudLogWriter env now in
    mkWriter (λ o, on_fst (w_Create w o)) (λ o, on_fst (w_Update w o)) (λ o, on_fst (w_Delete w o))
  else ReadOnlyWriter.

(** The log source of the server. *)
Definition server_source : LogSource server tx_env :=
  {| src_sub := subscription; src_Snapshot env := on_fst (crudLogSource_Snapshot env);
     src_Subscribe env start := on_fst (crudLogSource_Subscribe env start);
     src_Close sub := on_fst (subscription_Close sub) |}.

(** The routes: sessions and registration on a primary only. *)
Definition server_routes (hapi : API server) (logURL : string) (env : tx_env) (now : time)
    (qord : gmap string string → list (string * string)) (ord : list sqlTableAdapter) : list (string * handler server) :=
  app (Model_API (server_writer logURL env now) env qord hapi ord apiURLBase)
    (app (log_routes (SRC := server_source) hapi env)
      (if bool_decide (logURL = "") then app (sessions_routes dbs hapi env now) (registration_routes hapi env now) else [])).

Definition server_handler (hapi : API server) (logURL : string) (env : tx_env) (now : time)
    (qord : gmap string string → list (string * string)) (ord : list sqlTableAdapter) : handler server :=
  mux_handler (server_routes hapi logURL env now qord ord).

End Server.

(** ** The effects of the handlers *)
Lemma respects_find_token (R : relation db) `{!PreOrder R} id : respects R (find_token id).
Proof. unfold find_token. auto 12 with effects. Qed.
#[export] Hint Resolve respects_find_token : effects.

Section HandlerEffects.
Context `{ErrorTexts} (R : relation db) `{!PreOrder R}.

Lemma respects_ServeJSON {S A} `{HasDb S} (dec : res A) (f : A → M S (option (res json))) :
  (∀ r, respects R (f r)) → respects R (ServeJSON dec f).
Proof. intros Hf. unfold ServeJSON. destruct dec; auto 10 with effects. Qed.

Lemma respects_WithAuth {S} `{HasDb S} (hapi : API S) target h req :
  respects R (api_authn hapi req) → respects R (h req) → respects R (WithAuth hapi target h req).
Proof. intros Ha Hh. unfold WithAuth, guard_auth. auto 12 with effects. Qed.

Lemma respects_handleSnapshot `{CRUD} (env : tx_env) req : respects R (handleSnapshot (SRC := server_source) env req).
Proof. pose proof (respects_Snapshot R env). unfold handleSnapshot. cbn [src_Snapshot server_source]. auto 12 with effects. Qed.

Lemma respects_handleSubscribe `{CR : CRUD} `{EN : Encoding} (env : tx_env) req :
  respects R (_ ← handleSubscribe (SRC := server_source) env req; mret tt).
Proof.
  unfold handleSubscribe. pose proof (respects_Subscribe R env). cbn [src_Subscribe server_source]. auto 14 with effects.
Qed.

Lemma respects_call_RegisterNewPeer `{RG : Ranger} env now rr : respects R (call_RegisterNewPeer env now rr).
Proof.
  intros s r s' Hr. unfold call_RegisterNewPeer in Hr.
  destruct (RegisterNewPeer _ _ _ _ _ _) as [q [d p]] eqn:E. apply RegisterNewPeer_reads in E as ->.
  destruct q; inv_run; cbn; by destruct s as [[] ?].
Qed.

Lemma respects_handleFind {S} `{HasDb S} renv qord t req : respects R (handleFind (S := S) renv qord t req).
Proof.
  assert (Hf : respects R (λ s, match SQLReader_Find (S := (S * rwriter) * nat) renv model (ty_name t) (qord (query_args req)) find_visit (s, 0%nat) with
                                | (r, (s', _)) => (r, s') end)).
  { intros s r s' Hr. destruct (SQLReader_Find _ _ _ _ _ _) as [q [s1 n]] eqn:E.
    apply (respects_Find R) in E; [by inv_run|]. intros o. unfold find_visit.
    repeat (apply respects_bind; [done|auto with effects|intros ?]); auto with effects.
    intros s2 r2 s2' Hr2. unfold modify in Hr2. by inv_run. }
  unfold handleFind. auto 12 with effects.
Qed.

End HandlerEffects.

(** ** Who can change the datastore *)

(** A request that the server's authentication gives the role of an
    administrator. *)
Definition admin_request {S} (hapi : API S) (req : request) (s : S) : Prop :=
  ∃ c, api_authn hapi req s = (Ok (Some c), s) ∧ "admin" ∈ cr_Roles c.

(** The targets that only administrators have. *)
Definition admin_only (target : string) : bool := negb (bool_decide (target = "read-log" ∨ target = "register-peer")).

Lemma role_cases role target :
  target ∈ targetsForRole rbacRules role → role = "admin" ∨ target = "read-log" ∨ target = "register-peer".
Proof.
  intros Hin. unfold targetsForRole, rbacRules in Hin. cbn [list_to_map foldr uncurry] in Hin.
  destruct (decide (role = "admin")) as [|Ha]; [by left|]. right. rewrite lookup_insert_ne in Hin by done.
  destruct (decide (role = "follower")) as [->|Hb]; [rewrite lookup_insert_eq in Hin; cbn in Hin; set_solver|].
  rewrite lookup_insert_ne in Hin by done.
  destruct (decide (role = "registrar")) as [->|Hc]; [rewrite lookup_insert_eq in Hin; cbn in Hin; set_solver|].
  rewrite lookup_insert_ne, lookup_empty in Hin by done. cbn in Hin. by apply elem_of_nil in Hin.
Qed.

Lemma existsb_target rules role target :
  existsb (λ t, bool_decide (t = target)) (targetsForRole rules role) = true ↔ target ∈ targetsForRole rules role.
Proof.
  rewrite existsb_exists. setoid_rewrite <- list_elem_of_In. split.
  - by intros (t & Hin & ->%bool_decide_eq_true).
  - intros Hin. exists target. split; [done|]. by apply bool_decide_eq_true.
Qed.

Lemma admin_only_role role target :
  admin_only target = true → existsb (λ t, bool_decide (t = target)) (targetsForRole rbacRules role) = true → role = "admin".
Proof.
  unfold admin_only. rewrite negb_true_iff, bool_decide_eq_false, existsb_target. intros Hne Hin.
  destruct (role_cases role target Hin) as [|[]]; tauto.
Qed.

(** An administrator has the permissions of every role. *)
Lemma admin_has_all role target : target ∈ targetsForRole rbacRules role → target ∈ targetsForRole rbacRules "admin".
Proof.
  intros Hin. pose proof (role_cases role target Hin) as [->|Ht]; [done|].
  change (targetsForRole rbacRules "admin") with ["write-peer"; "read-peer"; "write-interface"; "read-interface"; "write-token";
    "read-token"; "write-sessions"; "read-sessions"; "read-log"; "register-peer"].
  destruct Ht as [-> | ->]; set_solver.
Qed.

Lemma admin_permission creds target :
  admin_only target = true → HasPermission rbacRules creds target = true → ∃ c, creds = Some c ∧ "admin" ∈ cr_Roles c.
Proof.
  intros Ht. destruct creds as [c|]; [|done]. cbn. intros Hex. exists c. split; [done|].
  apply existsb_exists in Hex as (role & Hin & Hr). apply (admin_only_role role target Ht) in Hr as ->. by apply list_elem_of_In.
Qed.

(** The server's authentication does not change its state, and its rules are
    the roles', unless there is none. *)
Lemma apiCommand_api_rules {S} `{HasDb S} env authType spec (hapi : API S) :
  apiCommand_api env authType spec = Ok hapi → authType ≠ "none" →
  api_authz hapi = HasPermission rbacRules ∧ ∀ req s r s', api_authn hapi req s = (r, s') → s' = s.
Proof.
  unfold apiCommand_api. intros Hapi Hn. rewrite bool_decide_eq_false_2 in Hapi by done. case_bool_decide.
  - simplify_eq. split; [done|]. intros req s r s' Hr. cbn in Hr. unfold bearer_CredentialsFromRequest in Hr.
    destruct (rq_auth req) as [[id secret]|]; [|m_unfold; by inv_run]. m_unfold.
    destruct (WithTx env (on_db (find_token id)) s) as [q s1] eqn:E.
    assert (s1 = s) as ->.
    { unfold WithTx, on_db in E. destruct (begin_err env); [by inv_run|].
      destruct (find_token id (the_db s)) as [t d] eqn:Et. apply (respects_find_token eq) in Et. cbn in Et. subst d.
      rewrite set_the_db in E. destruct t; [destruct (commit_err env)|..]; inv_run; by rewrite ?set_the_db. }
    destruct q; [|by inv_run..]. case_bool_decide; by inv_run.
  - case_bool_decide; [|by inv_run]. case_bool_decide; [by inv_run|]. destruct (NewTLSAuthn spec) as [m| | |]; [|done..].
    injection Hapi as <-. split; [done|]. intros req s r s' Hr. cbn in Hr. unfold tls_CredentialsFromRequest in Hr.
    destruct (rq_tls req) as [cns|]; [destruct (known_certificate m cns)|]; m_unfold; by inv_run.
Qed.

Section Access.
Context {S : Type} `{HasDb S} (hapi : API S).

(** A handler through which only administrators change the database. *)
Definition protected (h : handler S) : Prop :=
  ∀ req s w r s' w', h req (s, w) = (r, (s', w')) → the_db s' = the_db s ∨ admin_request hapi req s.

Lemma protected_keeps (h : handler S) : (∀ req, keeps (h req)) → protected h.
Proof. intros Hk req s w r s' w' Hr. left. by apply Hk in Hr. Qed.

Lemma mux_lookup_elem (m : list (string * handler S)) path h : mux_lookup m path = Some h → ∃ p, p ∈ m ∧ p.2 = h.
Proof.
  unfold mux_lookup. destruct (list_find _ m) as [[i p]|] eqn:Hf.
  - intros [= <-]. apply list_find_Some in Hf as (Hi & _). exists p. split; [by eapply list_elem_of_lookup_2|done].
  - assert (Hg : ∀ m' best, m' ⊆ m → (∀ p, best = Some p → p ∈ m) → ∀ p,
      foldl (λ best p, if has_suffix "/" p.1 && has_prefix p.1 path then longer best (Some p) else best) best m' = Some p → p ∈ m).
    { induction m' as [|q m' IH]; intros best Hsub Hb p; cbn; [apply Hb|]. apply IH; [set_solver|].
      destruct (_ && _); [|done]. intros x Hx. assert (q ∈ m) by (apply Hsub; left).
      destruct best as [b|]; cbn in Hx; [|by simplify_eq]. case_bool_decide; simplify_eq; [done|by apply Hb]. }
    destruct (foldl _ None m) as [p|] eqn:E; cbn; [|done]. intros [= <-]. exists p. split; [|done].
    by apply (Hg m None ltac:(done) ltac:(done) p).
Qed.

Lemma protected_mux (m : list (string * handler S)) : Forall (λ p, protected p.2) m → protected (mux_handler m).
Proof.
  intros Hm req s w r s' w' Hr. unfold mux_handler in Hr. cbv zeta in Hr.
  destruct (_ || _); [left; by apply (respects_snd eq) in Hr|]. destruct (mux_lookup m _) as [h|] eqn:E.
  - apply mux_lookup_elem in E as (p & Hp & <-). rewrite Forall_forall in Hm. by eapply Hm.
  - left. by apply (respects_snd eq) in Hr.
Qed.

Context (Hrules : api_authz hapi = HasPermission rbacRules)
        (Hauthn : ∀ req s r s', api_authn hapi req s = (r, s') → s' = s).

Lemma protected_guard target (h : handler S) :
  admin_only target = true ∨ (∀ req, keeps (h req)) → protected (WithAuth hapi target h).
Proof.
  intros Ht req s w r s' w' Hr. unfold WithAuth, guard_auth in Hr. unfold try, on_fst in Hr. m_unfold. cbn [fst snd] in Hr.
  destruct (api_authn hapi req s) as [q s1] eqn:E. pose proof (Hauthn _ _ _ _ E) as ->.
  assert (Hdeny : ∀ msg code q, (_ ← on_snd (P := S) (http_Error msg code); mret tt) (s, w) = (q, (s', w')) → the_db s' = the_db s).
  { intros msg code q' Hq. assert (Hk : keeps (_ ← on_snd (P := S) (http_Error msg code); mret tt)) by auto with effects.
    by apply Hk in Hq. }
  destruct q as [creds|e|p|]; cbn [fst snd] in Hr; [|left; by eapply Hdeny|by inv_run; left|by inv_run; left].
  destruct (api_authz hapi creds target) eqn:Hz; [|left; by eapply Hdeny].
  destruct Ht as [Ht|Hk]; [|left; by apply Hk in Hr]. right. rewrite Hrules in Hz.
  destruct (admin_permission creds target Ht Hz) as (c & -> & Hin). by exists c.
Qed.

End Access.

Lemma protected_routes `{ErrorTexts} `{RG : Ranger} `{CR : CRUD} `{EN : Encoding} dbs (hapi : API server) logURL env now qord ord :
  api_authz hapi = HasPermission rbacRules → (∀ req s r s', api_authn hapi req s = (r, s') → s' = s) → iteration_of model ord →
  Forall (λ p, protected hapi p.2) (server_routes dbs hapi logURL env now qord ord).
Proof.
  intros Hrules Hauthn Hord. unfold server_routes. repeat rewrite Forall_app. repeat split.
  - unfold Model_API. apply Forall_fmap, Forall_forall. intros t Ht. cbn. apply protected_mux.
    assert (Hw : admin_only ("write-" ++ ty_name t) = true ∧ admin_only ("read-" ++ ty_name t) = true).
    { apply (iteration_types ord t Hord) in Ht. rewrite !elem_of_cons in Ht. destruct Ht as [-> | [-> | [-> | []%elem_of_nil]]]; by vm_compute. }
    destruct Hw as [Hw Hr]. repeat (apply Forall_cons_2; [apply protected_guard; auto|]). apply Forall_nil_2.
  - repeat (apply Forall_cons_2; [apply protected_guard; auto; right; intros req|]); [| |apply Forall_nil_2].
    + exact (respects_handleSnapshot eq env req).
    + exact (respects_handleSubscribe eq env req).
  - destruct (bool_decide _); [|apply Forall_nil_2].
    repeat (apply Forall_cons_2; [apply protected_guard; auto|]); [by left..| |apply Forall_nil_2].
    right. intros req. apply respects_ServeJSON; [typeclasses eauto|]. apply (respects_call_RegisterNewPeer eq).
Qed.

(** ** What the routes do to the database *)
Lemma respects_mux `{ErrorTexts} {S} `{HasDb S} (R : relation db) `{!PreOrder R} (m : list (string * handler S)) req :
  Forall (λ p, respects R (p.2 req)) m → respects R (mux_handler m req).
Proof.
  intros Hm. unfold mux_handler. cbv zeta. destruct (_ || _); [auto with effects|].
  destruct (mux_lookup m _) as [h|] eqn:E; [|auto with effects].
  apply mux_lookup_elem in E as (p & Hp & <-). rewrite Forall_forall in Hm. by apply Hm.
Qed.

Lemma respects_authn {S} `{HasDb S} (R : relation db) `{!PreOrder R} env authType spec (hapi : API S) req :
  apiCommand_api env authType spec = Ok hapi → respects R (api_authn hapi req).
Proof.
  unfold apiCommand_api. intros Hapi. case_bool_decide; [injection Hapi as <-; apply respects_mret; done|].
  case_bool_decide.
  - injection Hapi as <-. cbn. unfold bearer_CredentialsFromRequest. auto 12 with effects.
  - case_bool_decide; [|done]. case_bool_decide; [done|]. destruct (NewTLSAuthn spec) as [m| | |]; [|done..].
    injection Hapi as <-. cbn. unfold tls_CredentialsFromRequest. auto with effects.
Qed.

Lemma sound_writer `{Encoding} ord fuel logURL env now k o :
  respects db_step (w_write (server_writer (CR := model_crud ord fuel) logURL env now) k o).
Proof.
  pose proof (sound_Apply ord fuel env) as Ha.
  unfold server_writer. destruct (bool_decide _); [|destruct k; cbn; auto with effects].
  destruct k; cbn; apply respects_fst; apply Ha.
Qed.

Lemma sound_handle_write `{ErrorTexts} {S} `{HasDb S} t call req :
  (∀ o, respects (S := S) db_step (call o)) → respects db_step (handle_write t call req).
Proof. intros Hc. apply respects_ServeJSON; [typeclasses eauto|auto with effects]. Qed.

Lemma sound_on_sessions {A} (m : M (db * finder) A) : respects db_step m → respects db_step (on_sessions m).
Proof.
  intros Hm [[d p] f] r s' Hr. unfold on_sessions in Hr. cbn in Hr. destruct (m (d, f)) as [q [d' f']] eqn:E.
  apply Hm in E. by inv_run.
Qed.

Lemma sound_routes `{ErrorTexts} `{RG : Ranger} `{EN : Encoding} dbs (hapi : API server) logURL ord fuel env now qord ord' req :
  respects db_step (api_authn hapi req) →
  Forall (λ p, respects db_step (p.2 req)) (server_routes (CR := model_crud ord fuel) dbs hapi logURL env now qord ord').
Proof.
  intros Ha. unfold server_routes. repeat rewrite Forall_app. repeat split.
  - unfold Model_API. apply Forall_fmap, Forall_forall. intros t Ht. apply respects_mux; [typeclasses eauto|].
    pose proof (λ k, sound_writer ord fuel logURL env now k) as Hw.
    repeat (apply Forall_cons_2; [apply respects_WithAuth; [typeclasses eauto|done|]|]); [..|apply Forall_nil_2].
    + apply sound_handle_write. exact (Hw DoCreate).
    + apply sound_handle_write. exact (Hw DoUpdate).
    + apply sound_handle_write. exact (Hw DoDelete).
    + apply (respects_handleFind db_step).
  - repeat (apply Forall_cons_2; [apply respects_WithAuth; [typeclasses eauto|done|]|]); [..|apply Forall_nil_2].
    + exact (respects_handleSnapshot db_step env req).
    + exact (respects_handleSubscribe db_step env req).
  - destruct (bool_decide _); [|apply Forall_nil_2].
    repeat (apply Forall_cons_2; [apply respects_WithAuth; [typeclasses eauto|done|]|]); [..|apply Forall_nil_2];
      apply respects_ServeJSON; try typeclasses eauto.
    + intros []. cbv zeta. auto with effects.
    + intros dump. pose proof (sound_on_sessions _ (sound_ReceivePeerStats dbs env now dump)). auto with effects.
    + apply (respects_call_RegisterNewPeer db_step).
Qed.

(** ** Properties *)

(** C7: only administrators change the datastore: with authentication by token
    or by certificate, every request to the server, on whatever path, by
    whatever method and with whatever body, leaves the database as it is unless
    the server's authentication gives the request the role of an
    administrator; followers and registrars can only read. *)
Theorem only_admins_write `{ErrorTexts} `{RG : Ranger} `{CR : CRUD} `{EN : Encoding} dbs authType spec (hapi : API server)
    logURL env now qord ord req s r s' :
  iteration_of model ord → apiCommand_api env authType spec = Ok hapi → authType ≠ "none" →
  serve (server_handler dbs hapi logURL env now qord ord) req s = (r, s') →
  the_db s' = the_db s ∨ admin_request hapi req s.
Proof.
  intros Hord Hapi Hn Hs. destruct (apiCommand_api_rules env authType spec hapi Hapi Hn) as [Hrules Hauthn].
  pose proof (protected_mux hapi _ (protected_routes dbs hapi logURL env now qord ord Hrules Hauthn Hord)) as Hp.
  unfold serve in Hs. fold (server_handler dbs hapi logURL env now qord ord) in Hp.
  destruct (server_handler dbs hapi logURL env now qord ord req (s, new_rwriter)) as [q [s1 w]] eqn:E.
  apply Hp in E. destruct q; by inv_run.
Qed.


(** A datastore with one follower's token. *)
Definition follower_db : db := (adapter_Create TokenType (OToken (mkToken "f" "x" (Some ["follower"]))) initial_db).2.

(** The follower asks for a new interface. *)
Definition follower_request : request :=
  mkRequest "POST" "/api/v1/interface/create" ∅ (Some ("f", "x")) None
    (match json_Marshal sample_interface with Ok j => Some j | _ => None end).

#[local] Existing Instances quiet_texts model_encoding list_ranger.

Lemma only_admins_write_witness :
  let s := (Wrap follower_db, fresh_finder) in
  let hapi := mkAPI (bearer_CredentialsFromRequest tx_ok) (HasPermission rbacRules) in
  let run := serve (server_handler (CR := model_crud sample_ord 1) [] hapi "" tx_ok 7 map_to_list (map_to_list (byName model)).*2)
               follower_request s in
  run.1 = Ok (mkResponse 403 false [CText ("Unauthorized" ++ String "010" "")]) ∧ the_db run.2 = follower_db.
Proof.
  cbn zeta. set (hapi := mkAPI _ _). set (s := (_, _)).
  set (run := serve _ follower_request s). split; [vm_compute; reflexivity|].
  destruct (only_admins_write (CR := model_crud sample_ord 1) [] "bearer" "" hapi "" tx_ok 7 map_to_list
    (map_to_list (byName model)).*2 follower_request s run.1 run.2) as [Hk|(c & Hc & Hin)].
  - apply Permutation_refl.
  - reflexivity.
  - discriminate.
  - fold run. by destruct run.
  - exact Hk.
  - exfalso. vm_compute in Hc. injection Hc as <-. cbn in Hin. set_solver.
Defined.

