(* ===== verification/Nodes.v ===== *)
(** * Datastores and gateways

    The nodes of a deployment: [wig api] with a log URL keeps a copy of the
    datastore, [wig gateway] keeps network devices.  Both follow the log of a
    datastore over HTTP: the operations and laws of a sink of either kind, what
    a restart does to it, and what it shows of a history. *)

From Stdlib Require Import Ascii.
From S2P Require Import Prelude GoStrings Sql SqlText Sqlite Net Model Crud CrudSpec CrudLog CrudLogSpec Follow Gateway GatewaySpec GatewaySync GatewaySink Effects Http RemoteLog Stream Cluster Server.
Local Open Scope string_scope.

(** ** A sink of one kind or the other *)
Section Either.
Context {F1 E1 F2 E2 : Type} `{SK1 : LogSink F1 E1} `{SK2 : LogSink F2 E2}.

Definition on_either {A} (m1 : M F1 A) (m2 : M F2 A) : M (F1 + F2) A := λ f,
  match f with
  | inl f => match m1 f with (r, f') => (r, inl f') end
  | inr f => match m2 f with (r, f') => (r, inr f') end
  end.

Definition either_sink : LogSink (F1 + F2) (E1 * E2) :=
  {| sink_Apply e o b := on_either (sink_Apply e.1 o b) (sink_Apply e.2 o b);
     sink_LatestSequence e := on_either (sink_LatestSequence e.1) (sink_LatestSequence e.2);
     sink_LoadSnapshot e snap := on_either (sink_LoadSnapshot e.1 snap) (sink_LoadSnapshot e.2 snap) |}.

Context `{CR : CRUD} {CL : CrudLaws} `{EN : Encoding} {EL : EncodingLaws} (st0 : cstate).
Context {SL1 : SinkLaws (F := F1) (EF := E1) st0} {SL2 : SinkLaws (F := F2) (EF := E2) st0}.

#[local] Existing Instance either_sink.

#[program] Definition either_laws : SinkLaws (F := F1 + F2) (EF := E1 * E2) st0 :=
  {| sink_rep ops f := match f with inl f => sink_rep ops f | inr f => sink_rep ops f end;
     sink_takes st o := sink_takes (SinkLaws := SL1) st o ∧ sink_takes (SinkLaws := SL2) st o;
     sink_commits e := sink_commits (SinkLaws := SL1) e.1 ∧ sink_commits (SinkLaws := SL2) e.2;
     sink_up e := sink_up (SinkLaws := SL1) e.1 ∧ sink_up (SinkLaws := SL2) e.2 |}.
Next Obligation. intros st o o' Ho [H1 H2]. split; by eapply sink_takes_eqv. Qed.
Next Obligation. intros ops [f|f] e Hrep [H1 H2]; cbn; by rewrite (sink_latest _ _ _ Hrep). Qed.
Next Obligation.
  intros ops [f|f] e o r f' Hrep [H1 H2] Hs Hb Hsp Ht Hrun; cbn in Hrun; destruct (sink_Apply _ o true f) as [r1 f1] eqn:E; inv_run;
    eapply (sink_apply _ _ _ _ _ _ Hrep) in E; try done; intros st Hst; by apply (Ht st).
Qed.

Context {SP1 : SinkProgress (SL := SL1) st0} {SP2 : SinkProgress (SL := SL2) st0}.

#[program] Definition either_progress : SinkProgress (SL := either_laws) st0 :=
  {| sink_ready f := match f with inl f => sink_ready (SL := SL1) st0 f | inr f => sink_ready (SL := SL2) st0 f end;
     sink_env := (sink_env (SL := SL1) st0, sink_env (SL := SL2) st0) |}.
Next Obligation. split; apply sink_env_commits. Qed.
Next Obligation. split; apply sink_env_up. Qed.
Next Obligation.
  intros fops [f|f] o Hrep Hrd Hw Hs Hb Hsp Ht; cbn.
  - destruct (sink_progress (SL := SL1) st0 fops f o Hrep Hrd Hw Hs Hb Hsp) as (f' & -> & Hrd'); [intros st Hst; by apply (Ht st)|]. by exists (inl f').
  - destruct (sink_progress (SL := SL2) st0 fops f o Hrep Hrd Hw Hs Hb Hsp) as (f' & -> & Hrd'); [intros st Hst; by apply (Ht st)|]. by exists (inr f').
Qed.

End Either.

(** What may happen to the sink of a process that ends and is started again. *)
Class Restarts (F : Type) : Type := { sink_restart : F → F → Prop }.

(** ** Restarts

    A datastore keeps its file; a gateway starts with nothing, on a kernel that
    it may have cleaned up before. *)
#[export] Instance datastore_restarts : Restarts logdb := {| sink_restart s s' := s' = Wrap (ld_db s) |}.

#[export] Instance gateway_restarts `{WK : WgKeys} {K : Type} {KN : Kernel K} : Restarts (gateway * K) :=
  {| sink_restart s s' := s' = (new_gateway, s.2) ∨ ∃ ord, s' = (new_gateway, (gateway_Close ord s).2.2) |}.

Definition either_restarts {F1 F2} `{Restarts F1} `{Restarts F2} : Restarts (F1 + F2) :=
  {| sink_restart f f' := match f, f' with
                          | inl f, inl f' => sink_restart f f'
                          | inr f, inr f' => sink_restart f f'
                          | _, _ => False
                          end |}.

(** ** The nodes of wig *)
Section Wig.
Context `{ErrorTexts} `{WK : WgKeys} {WL : WgKeysLaws} {K : Type} {KN : Kernel K} {KL : KernelLaws}.
Context (ord : list sqlTableAdapter) (fuel : nat).
#[local] Existing Instance model_encoding.
#[local] Instance wig_crud : CRUD := model_crud ord fuel.
#[local] Instance wig_crud_laws : CrudLaws := model_crud_laws ord fuel.
#[local] Instance wig_encoding_laws : EncodingLaws := model_encoding_laws ord fuel.

Abbreviation wig_sink := (logdb + gateway * K)%type.

#[export] Instance wig_ops : LogSink wig_sink (tx_env * list Interface) := either_sink (SK1 := sql_sink) (SK2 := gateway_sink).
#[export] Instance wig_restarts : Restarts wig_sink := either_restarts.

#[export] Instance wig_laws : SinkLaws (F := wig_sink) (EF := tx_env * list Interface) empty_store :=
  either_laws (SK1 := sql_sink) (SK2 := gateway_sink) empty_store (SL1 := sql_sink_laws empty_store) (SL2 := gateway_sink_laws ord fuel).

Definition wig_progress (KR : kernel_reliable (K := K)) : SinkProgress (F := wig_sink) (EF := tx_env * list Interface) (SL := wig_laws) empty_store :=
  either_progress (SK1 := sql_sink) (SK2 := gateway_sink) empty_store (SL1 := sql_sink_laws empty_store) (SL2 := gateway_sink_laws ord fuel)
    (SP1 := sql_sink_progress empty_store) (SP2 := gateway_sink_progress ord fuel KR).

Lemma gw_rep_new k : gw_rep ord fuel [] (new_gateway, k).
Proof. exists empty_store, (mkObjects ∅ ∅). split_and!; [done|done| |done]. by split; cbn. Qed.

(** The server's authentication only reads. *)
Lemma api_reads env authType spec (hapi : API logdb) :
  apiCommand_api env authType spec = Ok hapi → ∀ req s, (api_authn hapi req s).2 = s.
Proof.
  intros Hapi req s. destruct (decide (authType = "none")) as [->|Hne].
  - by injection Hapi as <-.
  - destruct (apiCommand_api_rules _ _ _ _ Hapi Hne) as [_ Hr]. destruct (api_authn hapi req s) as [r s'] eqn:E. by apply Hr in E.
Qed.

(** What a node shows of the first [n] changes: a datastore has the data, the log
    and the sequence of exactly these; a gateway's devices are in step with the
    objects that they leave, and it waits for the change after them. *)
Definition shows (ops : list op) (d : db) (n : nat) (f : wig_sink) : Prop :=
  match f with
  | inl s => spec_replay (take n ops) empty_store = Some (abs (ld_db s)) ∧ rows_of (ld_db s) "log" = take n (rows_of d "log") ∧
             GetSequence (ld_db s) = Z.of_nat n
  | inr g => ∃ st gs, spec_replay (take n ops) empty_store = Some st ∧ objects_of st gs ∧ gw_sync gs g ∧ gw_seq g.1 = Z.of_nat n
  end.

Lemma rep_shows ops d fops f :
  history ord fuel ops d → prefix_ops ops fops → sink_rep fops f → shows ops d (length fops) f.
Proof.
  intros Hl Hpre Hrep. destruct f as [s|g]; cbn in Hrep |- *.
  - destruct Hrep as [Hl' _]. by destruct (prefix_tables ord fuel _ _ _ _ Hl Hl' Hpre) as (_ & ? & ? & ?).
  - destruct Hrep as (st & gs & Hst & Hrest). exists st, gs. split; [|done]. by rewrite <- (spec_replay_eqv _ _ _ Hpre).
Qed.

(** A process with the whole history shows the primary as it is. *)
Lemma rep_shows_all ops d fops (f : wig_sink) :
  history ord fuel ops d → Forall2 op_eqv ops fops → sink_rep fops f →
  match f with
  | inl s => abs (ld_db s) = abs d ∧ rows_of (ld_db s) "log" = rows_of d "log" ∧ GetSequence (ld_db s) = Z.of_nat (length ops)
  | inr g => (∃ gs, objects_of (abs d) gs ∧ gw_sync gs g) ∧ gw_seq g.1 = Z.of_nat (length ops)
  end.
Proof.
  intros Hl Hall Hrep. assert (Hpre : prefix_ops ops fops) by (by eapply prefix_eqv; [apply prefix_refl|]).
  pose proof (rep_shows ops d fops f Hl Hpre Hrep) as Hsh. rewrite <- (Forall2_length _ _ _ Hall) in Hsh.
  assert (Hsp : spec_replay (take (length ops) ops) empty_store = Some (abs d)) by (rewrite take_ge by done; apply Hl).
  destruct f as [s|g]; cbn [shows] in Hsh.
  - destruct Hsh as (Hst & Hrows & Hsq). split_and!; [congruence| |done]. rewrite Hrows. apply take_ge.
    pose proof (li_rows _ _ _ Hl) as Hr. apply (f_equal length) in Hr. rewrite !length_fmap in Hr. lia.
  - destruct Hsh as (st & gs & Hst & Hgs & Hsync & Hsq). split; [|done]. exists gs. split; [|done]. congruence.
Qed.

End Wig.
