(* ===== verification/Tree.v ===== *)
(** * Trees of datastores and gateways

    Every datastore serves its log ([wig api]), one that follows another included,
    so that datastores and gateways form trees of any depth: a process follows
    its [--log-url], and the primary datastore, which has none, takes the writes
    (the others have a [ReadOnlyWriter]).  Each datastore with its followers is
    a [Cluster]; the steps of the tree are the steps of its clusters, writes on
    the primary, and restarts of any process.  The invariant of the clusters makes
    every process of the tree show a prefix of the history of its primary. *)

From Stdlib Require Import Ascii.
From S2P Require Import Prelude GoStrings Sql SqlText Sqlite Net Model Crud CrudSpec CrudLog CrudLogSpec Follow Gateway GatewaySpec GatewaySync GatewaySink Effects Http RemoteLog Stream Cluster Server Nodes.
Local Open Scope string_scope.

(** A process: a datastore or another kind of sink, its subscription, and the
    handlers of its own subscribers. *)
Record proc (F : Type) : Type := Proc {
  pr_sink : F;
  pr_sub : option client;
  pr_handlers : gmap nat conn;
  pr_pipes : gmap nat pipe }.
Arguments Proc {F} _ _ _ _.
Arguments pr_sink {F} _.
Arguments pr_sub {F} _.
Arguments pr_handlers {F} _.
Arguments pr_pipes {F} _.

Section Tree.
Context `{ErrorTexts} `{CR : CRUD} {CL : CrudLaws} `{EN : Encoding} {EL : EncodingLaws}.
Context {G EG : Type} {SG : LogSink G EG} (st0 : cstate) {LG : SinkLaws (F := G) (EF := EG) st0} {RG : Restarts G}.
#[local] Instance tree_sink : LogSink (logdb + G) (tx_env * EG) := either_sink (SK1 := sql_sink) (SK2 := SG).
#[local] Instance tree_laws : SinkLaws (F := logdb + G) (EF := tx_env * EG) st0 :=
  either_laws (SK1 := sql_sink) (SK2 := SG) st0 (SL1 := sql_sink_laws st0) (SL2 := LG).
#[local] Instance tree_restarts : Restarts (logdb + G) := either_restarts.

(** The server of a process and the credentials of its followers; whom a process
    follows. *)
Context (hapi : nat → API logdb) (user pass : nat → string) (fits : json → bool) (up : nat → option nat).

Abbreviation tree := (gmap nat (proc (logdb + G))).

Definition as_node (p : proc (logdb + G)) : node (logdb + G) := Node (pr_sink p) (pr_sub p).

Definition children (i : nat) (x : tree) : gmap nat (node (logdb + G)) :=
  as_node <$> filter (λ jp, up jp.1 = Some i) x.

(** A datastore and its followers. *)
Definition view (i : nat) (x : tree) : option (cluster (logdb + G)) :=
  p ← x !! i;
  match pr_sink p with inl s => Some (Cluster s (pr_handlers p) (pr_pipes p) (children i x)) | inr _ => None end.

Definition put_proc (i : nat) (c : cluster (logdb + G)) (j : nat) (p : proc (logdb + G)) : proc (logdb + G) :=
  if decide (j = i) then Proc (inl (cl_src c)) (pr_sub p) (cl_handlers c) (cl_pipes c)
  else match cl_nodes c !! j with Some n => Proc (nd_sink n) (nd_sub n) (pr_handlers p) (pr_pipes p) | None => p end.

Definition put (i : nat) (c : cluster (logdb + G)) (x : tree) : tree := map_imap (λ j p, Some (put_proc i c j p)) x.

(** A process ends and is started again: its handlers are gone, and the process
    that it follows finds its connection closed. *)
Definition leave_at (h : nat) (p : proc (logdb + G)) : proc (logdb + G) :=
  Proc (pr_sink p) (pr_sub p) (pr_handlers p) (alter leave_pipe h (pr_pipes p)).

Definition restart (i : nat) (p : proc (logdb + G)) (k : logdb + G) (x : tree) : tree :=
  <[i := Proc k None ∅ (end_pipe <$> pr_pipes p)]>
    (match up i, pr_sub p with Some j, Some c => alter (leave_at (rs_pipe c)) j x | _, _ => x end).

Inductive tr_step : tree → tree → Prop :=
| tr_write i x c env typ v now r s' :
    up i = None → view i x = Some c →
    commit_err env = None → wire_ok v = true → (GetSequence (ld_db (cl_src c)) + 1 < 2 ^ 63)%Z →
    let o := WithSequence (newOp now typ v) (GetNextSequence (ld_db (cl_src c))) in
    sink_takes (cabs (ld_db (cl_src c))) o → op_fits fits o →
    crudLogSink_Apply env (newOp now typ v) false (cl_src c) = (r, s') → returned r = true →
    tr_step x (put i (Cluster s' (cl_handlers c) (cl_pipes c) (cl_nodes c)) x)
| tr_serve i x c c' :
    view i x = Some c → cl_serve st0 (hapi i) (user i) (pass i) fits c c' → tr_step x (put i c' x)
| tr_restart i x p k :
    x !! i = Some p → sink_restart (pr_sink p) k → tr_step x (restart i p k x).

(** ** Lemmas: views *)
Context (up_lt : ∀ i j, up i = Some j → (j < i)%nat).

Lemma up_irrefl i j : up i = Some j → i ≠ j.
Proof. intros Hup%up_lt. lia. Qed.

Lemma up_asym i j : up i = Some j → up j ≠ Some i.
Proof. intros H1%up_lt H2%up_lt. lia. Qed.

Lemma lookup_children i x j : children i x !! j = if decide (up j = Some i) then as_node <$> x !! j else None.
Proof.
  unfold children. rewrite lookup_fmap, map_lookup_filter. destruct (x !! j) as [p|]; cbn; [|by case_decide].
  case_decide; case_guard; cbn in *; done.
Qed.

Lemma lookup_child i x j n : children i x !! j = Some n ↔ up j = Some i ∧ ∃ p, x !! j = Some p ∧ n = as_node p.
Proof.
  rewrite lookup_children. case_decide as Hup; [|by split; [|intros []]]. rewrite fmap_Some. by split; [|intros []].
Qed.

Lemma view_Some i x c :
  view i x = Some c → ∃ sub, x !! i = Some (Proc (inl (cl_src c)) sub (cl_handlers c) (cl_pipes c)) ∧ cl_nodes c = children i x.
Proof. unfold view. destruct (x !! i) as [[[s|g] sub hs ps]|]; cbn; [|done..]. intros [= <-]. by exists sub. Qed.

Lemma view_intro i x s sub hs ps : x !! i = Some (Proc (inl s) sub hs ps) → view i x = Some (Cluster s hs ps (children i x)).
Proof. unfold view. by intros ->. Qed.

Lemma view_child i j x c p : view j x = Some c → x !! i = Some p → up i = Some j → cl_nodes c !! i = Some (as_node p).
Proof. intros (sub & _ & ->)%view_Some Hi Hup. apply lookup_child. eauto. Qed.

Lemma lookup_put i c x j : put i c x !! j = put_proc i c j <$> x !! j.
Proof. unfold put. rewrite map_lookup_imap. by destruct (x !! j). Qed.

(** A step of one kind of sink stays with that kind. *)
Definition same_side (f f' : logdb + G) : Prop :=
  match f, f' with inl _, inl _ | inr _, inr _ => True | _, _ => False end.

Lemma step_side n n' : node_step st0 n n' → same_side (nd_sink n) (nd_sink n').
Proof.
  intros [->|(c & env & o & rest & r & _ & _ & _ & Hrun & _)]; [by destruct (nd_sink n)|].
  destruct (nd_sink n) as [s|g]; unfold follow_iter, wrap_err in Hrun; m_unfold; cbn in Hrun.
  - destruct (crudLogSink_Apply env.1 o true s) as [[] s']; inv_run; by rewrite <- H1.
  - destruct (sink_Apply env.2 o true g) as [[] s']; inv_run; by rewrite <- H1.
Qed.

(** One cluster of the tree moves on. *)
Section Put.
Context (x : tree) (i : nat) (c c' : cluster (logdb + G)).
Context (Hview : view i x = Some c) (Hnodes : ∀ j, option_Forall2 (node_step st0) (cl_nodes c !! j) (cl_nodes c' !! j)).

Lemma put_node j p : up j = Some i → x !! j = Some p → ∃ n', cl_nodes c' !! j = Some n' ∧ node_step st0 (as_node p) n'.
Proof.
  intros Hup Hj. specialize (Hnodes j). rewrite (view_child _ _ _ _ _ Hview Hj Hup) in Hnodes. inversion Hnodes. eauto.
Qed.

Lemma put_nobody j : up j ≠ Some i ∨ x !! j = None → cl_nodes c' !! j = None.
Proof.
  intros Hj. specialize (Hnodes j). destruct (view_Some _ _ _ Hview) as (sub & _ & Hch).
  assert (Hno : cl_nodes c !! j = None) by (rewrite Hch, lookup_children; case_decide; [|done]; by destruct Hj as [ | -> ]).
  rewrite Hno in Hnodes. by inversion Hnodes.
Qed.

Lemma put_self : view i (put i c' x) = Some c'.
Proof.
  destruct (view_Some _ _ _ Hview) as (sub & Hi & _).
  erewrite view_intro; [|rewrite lookup_put, Hi; cbn; unfold put_proc; by rewrite decide_True].
  assert (Hch : children i (put i c' x) = cl_nodes c'); [|rewrite Hch; by destruct c'].
  apply map_eq. intros j. rewrite lookup_children, lookup_put. case_decide as Hup; [|rewrite put_nobody; by auto].
  destruct (x !! j) as [p|] eqn:Hj; [|rewrite put_nobody; by auto]. destruct (put_node j p Hup Hj) as (n' & Hn' & _).
  cbn. unfold put_proc. rewrite decide_False by (by apply up_irrefl). rewrite Hn'. by destruct n'.
Qed.

(** The cluster that process [i] follows. *)
Lemma put_parent m d sub :
  up i = Some m → view m x = Some d → x !! i = Some (Proc (inl (cl_src c)) sub (cl_handlers c) (cl_pipes c)) →
  view m (put i c' x) = Some (Cluster (cl_src d) (cl_handlers d) (cl_pipes d) (<[i := Node (inl (cl_src c')) sub]> (cl_nodes d))).
Proof.
  intros Hup (sub' & Hm & Hd)%view_Some Hi. pose proof (up_irrefl _ _ Hup) as Hne.
  erewrite view_intro; [|rewrite lookup_put, Hm; cbn; unfold put_proc; rewrite decide_False by done; rewrite put_nobody; [done|left; by apply up_asym]].
  do 2 f_equal. rewrite Hd. apply map_eq. intros j. rewrite lookup_children, lookup_put. destruct (decide (j = i)) as [->|Hj].
  - rewrite decide_True, Hi, lookup_insert_eq by done. cbn. unfold put_proc. by rewrite decide_True.
  - rewrite lookup_insert_ne, lookup_children by done. case_decide as Hupj; [|done]. destruct (x !! j) as [p|]; [|done]. cbn.
    unfold put_proc. rewrite decide_False by done. rewrite put_nobody; [done|left]. congruence.
Qed.

(** A datastore that follows process [i]. *)
Lemma put_child m d' :
  up m = Some i → view m (put i c' x) = Some d' →
  ∃ d n', view m x = Some d ∧ cl_nodes c' !! m = Some n' ∧ nd_sink n' = inl (cl_src d') ∧
    d' = Cluster (cl_src d') (cl_handlers d) (cl_pipes d) (cl_nodes d).
Proof.
  intros Hup (sub' & Hm & Hd)%view_Some. rewrite lookup_put in Hm. pose proof (up_irrefl _ _ Hup) as Hne.
  destruct (x !! m) as [p|] eqn:Hxm; [|done]. cbn in Hm. destruct (put_node m p Hup Hxm) as (n' & Hn' & Hst).
  unfold put_proc in Hm. rewrite decide_False in Hm by (by apply up_irrefl). rewrite Hn' in Hm. injection Hm as Hsk Hsub Hhs Hps.
  apply step_side in Hst. rewrite Hsk in Hst. destruct p as [[s|g] sub hs ps]; [|done].
  eexists _, n'. split_and!; [by apply view_intro with sub|done|done|]. cbn in *. destruct d' as [s' hs' ps' ns']. cbn in *. subst.
  f_equal. apply map_eq. intros j. rewrite !lookup_children, lookup_put. case_decide as Hj; [|done].
  destruct (x !! j) as [q|]; [|done]. cbn. unfold put_proc. rewrite decide_False, put_nobody; [done|left; congruence|].
  intros ->. by apply up_asym in Hup.
Qed.

Lemma put_other m : m ≠ i → up i ≠ Some m → up m ≠ Some i → view m (put i c' x) = view m x.
Proof.
  intros Hne Hup Hup'. unfold view. rewrite lookup_put. destruct (x !! m) as [p|]; [|done]. cbn.
  unfold put_proc. rewrite decide_False, put_nobody by auto. destruct (pr_sink p); [|done]. do 2 f_equal. apply map_eq. intros j.
  rewrite !lookup_children, lookup_put. case_decide as Hj; [|done]. destruct (x !! j) as [q|]; [|done]. cbn.
  unfold put_proc. rewrite decide_False, put_nobody; [done|left; congruence|]. congruence.
Qed.

End Put.

(** A process is restarted. *)
Section Restart.
Context (x : tree) (i : nat) (p : proc (logdb + G)) (k : logdb + G) (Hi : x !! i = Some p).

Lemma restart_nodes j : j ≠ i → as_node <$> restart i p k x !! j = as_node <$> x !! j.
Proof.
  intros Hne. unfold restart. rewrite lookup_insert_ne by done. destruct (up i) as [m|], (pr_sub p) as [c|]; try done.
  destruct (decide (m = j)) as [->|Hj]; [|by rewrite lookup_alter_ne]. rewrite lookup_alter_eq. by destruct (x !! j).
Qed.

Lemma restart_children m :
  children m (restart i p k x) = if decide (up i = Some m) then <[i := Node k None]> (children m x) else children m x.
Proof.
  apply map_eq. intros j. rewrite lookup_children. destruct (decide (j = i)) as [->|Hne].
  - unfold restart. rewrite lookup_insert_eq. case_decide; [by rewrite lookup_insert_eq|]. by rewrite lookup_children, decide_False.
  - rewrite restart_nodes by done. destruct (decide (up i = Some m)); rewrite ?lookup_insert_ne by done; by rewrite lookup_children.
Qed.

Lemma restart_self : view i (restart i p k x) =
  match k with inl s => Some (Cluster s ∅ (end_pipe <$> pr_pipes p) (children i x)) | inr _ => None end.
Proof.
  unfold view. rewrite restart_children, decide_False by (intros Hup; by apply up_irrefl in Hup).
  unfold restart. rewrite lookup_insert_eq. by destruct k.
Qed.

Lemma restart_parent m d :
  up i = Some m → view m x = Some d →
  view m (restart i p k x) = Some (match pr_sub p with Some c => leave i k c d
    | None => Cluster (cl_src d) (cl_handlers d) (cl_pipes d) (<[i := Node k None]> (cl_nodes d)) end).
Proof.
  intros Hup (sub & Hm & Hd)%view_Some. pose proof (up_irrefl _ _ Hup) as Hne. unfold view. rewrite restart_children, decide_True by done.
  unfold restart. rewrite lookup_insert_ne, Hup by done. destruct (pr_sub p) as [c|].
  - rewrite lookup_alter_eq, Hm. cbn. unfold leave. by rewrite Hd.
  - rewrite Hm. cbn. by rewrite Hd.
Qed.

Lemma restart_other m : m ≠ i → up i ≠ Some m → view m (restart i p k x) = view m x.
Proof.
  intros Hne Hup. unfold view. rewrite restart_children, decide_False by done. unfold restart. rewrite lookup_insert_ne by done.
  destruct (up i) as [j|], (pr_sub p) as [c|]; try done. by rewrite lookup_alter_ne by congruence.
Qed.

End Restart.

(** ** The invariant *)
Record tr_inv (x : tree) : Prop := {
  ti_up i j p : x !! i = Some p → up i = Some j → is_Some (view j x);
  ti_views i c : view i x = Some c → ∃ ops, cl_inv st0 fits ops c
}.

(** ** Lemmas: steps *)
Context (authn_reads : ∀ i req s, (api_authn (hapi i) req s).2 = s).
Context (restart_rep : ∀ ops (k k' : G), sink_rep (SinkLaws := LG) ops k → sink_restart k k' →
  sink_rep (SinkLaws := LG) ops k' ∨ sink_rep (SinkLaws := LG) [] k').

(** A datastore's subscribers come and go without its source taking notice. *)
Lemma sink_same_db ops d i s s' sub :
  cl_inv st0 fits ops d → cl_nodes d !! i = Some (Node (inl s) sub) → ld_db s' = ld_db s → pubsub_ok (ld_pubsub s') →
  cl_inv st0 fits ops (Cluster (cl_src d) (cl_handlers d) (cl_pipes d) (<[i := Node (inl s') sub]> (cl_nodes d))).
Proof.
  intros Hinv Hi Hdb Hp. destruct d as [s0 hs ps ns]. cbn [cl_src cl_handlers cl_pipes cl_nodes] in *.
  eapply node_update; [done|done|by eauto|by apply (ci_pipes _ _ _ _ Hinv)|by eauto|].
  destruct (ci_nodes _ _ _ _ Hinv i _ Hi) as (fops & [Hl _] & Hok). exists fops. split; [|done]. split; [|done].
  cbn [nd_sink]. by rewrite Hdb.
Qed.

(** A datastore applies what it receives, and passes it on. *)
Lemma child_step ops ops' c d m n n' s' :
  cl_inv st0 fits ops c → cl_nodes c !! m = Some n → node_step st0 n n' → nd_sink n = inl (cl_src d) → nd_sink n' = inl s' →
  cl_inv st0 fits ops' d →
  ∃ ops'', cl_inv st0 fits ops'' (Cluster s' (cl_handlers d) (cl_pipes d) (cl_nodes d)).
Proof.
  intros Hc Hm Hst Hn Hn' Hd. destruct n as [k sub], n' as [k' sub']. cbn in Hn, Hn'. subst k k'.
  destruct d as [s hs ps ns]. cbn [cl_src cl_handlers cl_pipes cl_nodes] in *.
  destruct Hst as [[= ->]|(cl & env & o & rest & r & [= ->] & Hcm & Hch & Hrun & Hret)]; [by eauto|]. cbn [nd_sink] in Hrun.
  destruct (next_op _ _ _ _ _ _ _ _ _ Hc Hm Hch) as (fops & l & [Hl Hp] & Hpre & Hseq & Hb & Hw & Hf & Htk).
  assert (Heq : Forall2 op_eqv fops ops').
  { eapply log_inv_history; [exact Hl|apply Hd| |apply Hd]. destruct (prefix_link _ _ _ Hpre) as [post Hall].
    pose proof (eqv_wire _ _ Hall (ci_wire _ _ _ _ Hc)) as Hws. by apply Forall_app in Hws as [? _]. }
  rewrite (Forall2_length _ _ _ Heq) in Hseq, Hb.
  unfold follow_iter, wrap_err in Hrun. m_unfold. cbn in Hrun.
  destruct (crudLogSink_Apply env.1 o true s) as [r1 s1] eqn:Hap.
  assert (Hs1 : s1 = s' ∧ returned r1 = true) by (destruct r1; inv_run; done). destruct Hs1 as [-> Hr1].
  eexists. eapply (src_apply_inv st0 fits ops' s hs ps ns env.1 o true r1 s' Hd); try done; [apply Hcm|]. apply Htk. apply Hl.
Qed.

Lemma put_kinds x i c c' j :
  view i x = Some c → (∀ j, option_Forall2 (node_step st0) (cl_nodes c !! j) (cl_nodes c' !! j)) →
  is_Some (view j x) → is_Some (view j (put i c' x)).
Proof.
  intros Hv Hn [d Hd]. destruct (decide (j = i)) as [->|Hji]; [rewrite (put_self x i c c'); by eauto|].
  destruct (decide (up i = Some j)) as [Hup|Hup].
  { destruct (view_Some _ _ _ Hv) as (sub & Hi & _). rewrite (put_parent x i c c' Hv Hn j d sub); by eauto. }
  destruct (decide (up j = Some i)) as [Huj|Huj]; [|rewrite (put_other x i c c'); by eauto].
  destruct (view_Some _ _ _ Hd) as (sub & Hj & _). destruct (put_node x i c c' Hv Hn j _ Huj Hj) as (n' & Hn' & Hst).
  apply step_side in Hst. cbn in Hst. destruct (nd_sink n') as [s'|] eqn:Hs; [|done].
  erewrite view_intro; [by eauto|]. rewrite lookup_put, Hj. cbn. unfold put_proc. rewrite decide_False by done. by rewrite Hn', Hs.
Qed.

Lemma put_inv x i c c' ops ops' :
  tr_inv x → view i x = Some c → cl_inv st0 fits ops c → cl_inv st0 fits ops' c' →
  up i = None ∨ ld_db (cl_src c') = ld_db (cl_src c) →
  (∀ j, option_Forall2 (node_step st0) (cl_nodes c !! j) (cl_nodes c' !! j)) → tr_inv (put i c' x).
Proof.
  intros [Hk Hvs] Hv Hc Hc' Hdb Hn. split.
  - intros j m p Hj Hup. rewrite lookup_put in Hj. apply fmap_Some in Hj as (p0 & Hj & _). eapply put_kinds; [done|done|by eauto].
  - intros m d' Hd'. destruct (decide (m = i)) as [->|Hmi].
    { rewrite (put_self x i c c' Hv Hn) in Hd'. injection Hd' as <-. by eauto. }
    destruct (decide (up i = Some m)) as [Hup|Hup].
    { destruct (view_Some _ _ _ Hv) as (sub & Hi & _). destruct (Hk _ _ _ Hi Hup) as [d Hd].
      rewrite (put_parent x i c c' Hv Hn m d sub Hup Hd Hi) in Hd'. injection Hd' as <-. destruct (Hvs m d Hd) as [opsm Hinv].
      exists opsm. eapply sink_same_db; [done|exact (view_child _ _ _ _ _ Hd Hi Hup)|destruct Hdb; [congruence|done]|apply Hc']. }
    destruct (decide (up m = Some i)) as [Hum|Hum]; [|rewrite (put_other x i c c' Hv Hn) in Hd' by done; by eauto].
    destruct (put_child x i c c' Hv Hn m d' Hum Hd') as (d & n' & Hd & Hn' & Hs & ->). destruct (Hvs m d Hd) as [opsm Hinv].
    destruct (view_Some _ _ _ Hd) as (sub & Hm & _). pose proof (view_child _ _ _ _ _ Hv Hm Hum) as Hnm.
    specialize (Hn m). rewrite Hnm, Hn' in Hn. inversion Hn as [? ? Hst|]; subst. exact (child_step _ _ _ _ _ _ _ _ Hc Hnm Hst eq_refl Hs Hinv).
Qed.

(** A restarted process has a prefix of the history still. *)
Lemma node_restart_inv ops d i p k :
  cl_inv st0 fits ops d → cl_nodes d !! i = Some (as_node p) → sink_restart (pr_sink p) k →
  cl_inv st0 fits ops (match pr_sub p with Some c => leave i k c d
    | None => Cluster (cl_src d) (cl_handlers d) (cl_pipes d) (<[i := Node k None]> (cl_nodes d)) end).
Proof.
  intros Hinv Hi Hr. destruct p as [f sub hs ps]. cbn [pr_sink pr_sub as_node] in *.
  destruct (node_prefix _ _ _ _ _ _ Hinv Hi) as (fops & Hrep & Hpre). cbn [nd_sink as_node pr_sink] in Hrep.
  assert (Hk : ∃ fops', sink_rep fops' k ∧ prefix_ops ops fops').
  { destruct f as [s|g], k as [s'|g']; cbn in Hr; try done.
    - exists fops. subst s'. destruct Hrep as [Hl _]. by split; [split; [|apply newPubSub_ok]|].
    - destruct (restart_rep _ _ _ Hrep Hr) as [Hrep'|Hrep']; [by exists fops|exists []; by split; [|constructor]]. }
  destruct Hk as (fops' & Hrep' & Hpre'). destruct sub as [c|]; [by eapply leave_inv|]. destruct d as [s1 hs1 ps1 ns1].
  eapply node_update; [done|done|done|by apply (ci_pipes _ _ _ _ Hinv)|by eauto|by exists fops'].
Qed.

Lemma restart_kinds x i p k m :
  x !! i = Some p → sink_restart (pr_sink p) k → is_Some (view m x) → is_Some (view m (restart i p k x)).
Proof.
  intros Hi Hr [d Hd]. destruct (decide (m = i)) as [->|Hmi].
  - destruct (view_Some _ _ _ Hd) as (sub & Hi' & _). rewrite Hi' in Hi. injection Hi as <-. rewrite restart_self.
    destruct k; [by eauto|done].
  - destruct (decide (up i = Some m)); [erewrite restart_parent by done; by eauto|rewrite restart_other by done; by eauto].
Qed.

Lemma restart_inv x i p k : tr_inv x → x !! i = Some p → sink_restart (pr_sink p) k → tr_inv (restart i p k x).
Proof.
  intros [Hk Hvs] Hi Hr. split.
  - intros j m q Hj Hup. assert (Hj' : is_Some (x !! j)).
    { destruct (decide (j = i)) as [->|Hne]; [by eauto|]. pose proof (restart_nodes x i p k j Hne) as E. rewrite Hj in E.
      destruct (x !! j); [by eauto|done]. }
    destruct Hj' as [q0 Hj']. eapply restart_kinds; [done|done|by eauto].
  - intros m d Hd. destruct (decide (m = i)) as [->|Hmi].
    + rewrite restart_self in Hd. destruct k as [s'|]; [|done]. injection Hd as <-. destruct p as [[s|] sub hs ps]; [|done].
      cbn in Hr. subst s'. destruct (Hvs i _ (view_intro _ _ _ _ _ _ Hi)) as [ops Hinv]. exists ops. by apply src_restart_inv in Hinv.
    + destruct (decide (up i = Some m)) as [Hup|Hup]; [|rewrite restart_other in Hd by done; by eauto].
      destruct (Hk _ _ _ Hi Hup) as [d0 Hd0]. rewrite (restart_parent x i p k m d0 Hup Hd0) in Hd. injection Hd as <-.
      destruct (Hvs _ _ Hd0) as [ops Hinv]. exists ops. apply node_restart_inv; [done| |done]. by eapply view_child.
Qed.

Lemma tr_step_inv x x' : tr_inv x → tr_step x x' → tr_inv x'.
Proof.
  intros Hinv Hstep. destruct Hstep as [i x c env typ v now r s' Hup Hv Hcommit Hw Hb o Htk Hf Hrun Hret|i x c c' Hv Hst|i x p k Hi Hr].
  - destruct (ti_views _ Hinv _ _ Hv) as [ops Hc]. pose proof (ci_log _ _ _ _ Hc) as Hl. destruct c as [s hs ps ns].
    cbn [cl_src cl_handlers cl_pipes cl_nodes] in *. rewrite (log_inv_sequence _ _ _ Hl) in Hb.
    unfold o in Htk, Hf. rewrite (log_inv_next _ _ _ Hl) in Htk, Hf.
    eapply put_inv; [done|done|done| |by left|done].
    by eapply (src_apply_inv st0 fits ops s hs ps ns env (newOp now typ v) false r s' Hc).
  - destruct (ti_views _ Hinv _ _ Hv) as [ops Hc]. destruct (cl_serve_frame _ _ _ _ _ (authn_reads i) _ _ _ Hc Hst) as [Hdb Hn].
    eapply put_inv; [done|done|done|by eapply cl_serve_inv|by right|done].
  - by apply restart_inv.
Qed.

Lemma tr_steps_inv x x' : tr_inv x → rtc tr_step x x' → tr_inv x'.
Proof. intros Hinv Hsteps. induction Hsteps; [done|]. eauto using tr_step_inv. Qed.

(** ** Prefixes along the tree *)

(** Process [i] follows [r], directly or through other datastores. *)
Definition follows : nat → nat → Prop := rtc (λ i j, up i = Some j).

Lemma follows_prefix x i r p c ops :
  tr_inv x → follows i r → x !! i = Some p → view r x = Some c → cl_inv st0 fits ops c →
  ∃ fops, sink_rep fops (pr_sink p) ∧ prefix_ops ops fops.
Proof.
  intros Hinv Hf. revert p. induction Hf as [i|i j r Hup Hf IH]; intros p Hi Hr Hops.
  - destruct (view_Some _ _ _ Hr) as (sub & Hi' & _). rewrite Hi' in Hi. injection Hi as <-. exists ops.
    split; [split; apply Hops|apply prefix_refl].
  - destruct (ti_up _ Hinv _ _ _ Hi Hup) as [d Hd]. destruct (view_Some _ _ _ Hd) as (sub & Hj & _).
    destruct (IH _ Hj Hr Hops) as (fj & [Hlj _] & Hpj). destruct (ti_views _ Hinv _ _ Hd) as [opsj Hdj].
    destruct (node_prefix _ _ _ _ _ _ Hdj (view_child _ _ _ _ _ Hd Hi Hup)) as (fops & Hrep & Hpre). exists fops. split; [done|].
    eapply prefix_trans; [exact Hpj|]. eapply prefix_trans; [|exact Hpre].
    assert (Heq : Forall2 op_eqv fj opsj); [|by eapply prefix_eqv; [apply prefix_refl|]].
    eapply log_inv_history; [exact Hlj|apply Hdj| |apply Hdj].
    destruct (prefix_link ops fj []) as [post Hall]; [by rewrite app_nil_r|]. pose proof (eqv_wire _ _ Hall (ci_wire _ _ _ _ Hops)) as Hw.
    by apply Forall_app in Hw as [? _].
Qed.

(** ** Catching up *)

(** The primaries have the same tables. *)
Definition keeps_primaries (x x' : tree) : Prop :=
  ∀ r d, up r = None → view r x = Some d → ∃ d', view r x' = Some d' ∧ ld_db (cl_src d') = ld_db (cl_src d).

#[local] Instance keeps_primaries_preorder : PreOrder keeps_primaries.
Proof.
  split; [intros x r d _ Hd; by exists d|]. intros x y z H1 H2 r d Hup Hd. destruct (H1 r d Hup Hd) as (d1 & Hd1 & <-). by apply H2.
Qed.

Lemma put_keeps x i c c' :
  view i x = Some c → ld_db (cl_src c') = ld_db (cl_src c) →
  (∀ j, option_Forall2 (node_step st0) (cl_nodes c !! j) (cl_nodes c' !! j)) → keeps_primaries x (put i c' x).
Proof.
  intros Hv Hdb Hn r d Hup Hd. destruct (decide (r = i)) as [->|Hri].
  { rewrite Hv in Hd. injection Hd as <-. exists c'. by rewrite (put_self x i c c' Hv Hn). }
  destruct (decide (up i = Some r)) as [Hui|Hui].
  - destruct (view_Some _ _ _ Hv) as (sub & Hi & _). rewrite (put_parent x i c c' Hv Hn r d sub Hui Hd Hi). by eexists.
  - exists d. rewrite (put_other x i c c' Hv Hn); [done|done|done|congruence].
Qed.

Lemma restart_keeps x i p k :
  x !! i = Some p → sink_restart (pr_sink p) k → keeps_primaries x (restart i p k x).
Proof.
  intros Hi Hr r d Hup Hd. destruct (decide (r = i)) as [->|Hri].
  - destruct (view_Some _ _ _ Hd) as (sub & Hi' & _). rewrite Hi' in Hi. injection Hi as <-. rewrite restart_self.
    destruct k as [s'|]; [|done]. cbn in Hr. subst s'. by eexists.
  - destruct (decide (up i = Some r)) as [Hui|Hui]; [|exists d; by rewrite restart_other].
    rewrite (restart_parent x i p k r d Hui Hd). eexists. split; [done|]. by destruct (pr_sub p).
Qed.

Lemma steps_alive x x' i : rtc tr_step x x' → is_Some (x !! i) → is_Some (x' !! i).
Proof.
  induction 1 as [|x y z Hxy _ IH]; [done|]. intros Hi. apply IH.
  destruct Hxy as [i' x c ? ? ? ? ? ? ? ?|i' x c c' ? ?|i' x p k ? ?].
  - rewrite lookup_put. destruct Hi as [q ->]. by eexists.
  - rewrite lookup_put. destruct Hi as [q ->]. by eexists.
  - unfold restart. rewrite lookup_insert. case_decide; [by eauto|]. destruct (up i') as [m|], (pr_sub p) as [c|]; try done.
    by rewrite lookup_alter_is_Some.
Qed.

(** Steps of a cluster are steps of the tree. *)
Lemma serve_lift x i c c' :
  tr_inv x → view i x = Some c → rtc (cl_serve st0 (hapi i) (user i) (pass i) fits) c c' →
  ∃ x', rtc tr_step x x' ∧ view i x' = Some c' ∧ keeps_primaries x x'.
Proof.
  intros Hinv Hv Hs. revert x Hinv Hv. induction Hs as [c|c c1 c' Hc1 _ IH]; intros x Hinv Hv; [by exists x|].
  destruct (ti_views _ Hinv _ _ Hv) as [ops Hc]. destruct (cl_serve_frame _ _ _ _ _ (authn_reads i) _ _ _ Hc Hc1) as [Hdb Hn].
  pose proof (tr_serve _ _ _ _ Hv Hc1) as Hstep.
  destruct (IH (put i c1 x)) as (x' & Hs' & Hv' & Hk); [by eapply tr_step_inv|by eapply put_self|].
  exists x'. split_and!; [by eapply rtc_l|done|]. etrans; [by eapply put_keeps|done].
Qed.

Section CatchUp.
Context {PG : SinkProgress (SL := LG) st0}.
Context (restart_ready : ∀ g : G, ∃ g', sink_restart g g' ∧ sink_ready (SL := LG) st0 g').
#[local] Instance tree_progress : SinkProgress (F := logdb + G) (EF := tx_env * EG) (SL := tree_laws) st0 :=
  either_progress (SK1 := sql_sink) (SK2 := SG) st0 (SL1 := sql_sink_laws st0) (SL2 := LG)
    (SP1 := sql_sink_progress st0) (SP2 := PG).

Lemma ready_restart (f : logdb + G) : ∃ f', sink_restart f f' ∧ sink_ready st0 f'.
Proof.
  destruct f as [s|g]; [by exists (inl (Wrap (ld_db s)))|]. destruct (restart_ready g) as (g' & Hr & Hg). by exists (inr g').
Qed.

(** A process starts over and catches up with the datastore that it follows. *)
Lemma hop x i j p d ops :
  tr_inv x → x !! i = Some p → up i = Some j → view j x = Some d → cl_inv st0 fits ops d → (Z.of_nat (length ops) + 1 < 2 ^ 63)%Z →
  (∀ s, ld_db s = ld_db (cl_src d) → log_reader (hapi j) (user j) (pass j) s) →
  ∃ x' p' fops, rtc tr_step x x' ∧ keeps_primaries x x' ∧ x' !! i = Some p' ∧ sink_rep fops (pr_sink p') ∧ Forall2 op_eqv ops fops.
Proof.
  intros Hinv Hi Hup Hd Hops Hb Hauth. destruct (ready_restart (pr_sink p)) as (k & Hr & Hk).
  pose proof (restart_inv _ _ _ _ Hinv Hi Hr) as Hinv1. pose proof (restart_parent x i p k j d Hup Hd) as Hd1.
  pose proof (node_restart_inv ops d i p k Hops (view_child _ _ _ _ _ Hd Hi Hup) Hr) as Hops1.
  set (d1 := match pr_sub p with Some c => _ | None => _ end) in *.
  assert (Hi1 : cl_nodes d1 !! i = Some (Node k None)) by (unfold d1; destruct (pr_sub p); apply lookup_insert_eq).
  assert (Hdb1 : ld_db (cl_src d1) = ld_db (cl_src d)) by (unfold d1; by destruct (pr_sub p)).
  destruct (catch_up_detached st0 (hapi j) (user j) (pass j) fits (authn_reads j) ops i d1 k Hops1 Hi1 Hk Hb (Hauth _ Hdb1))
    as (d' & Hs & _ & _ & n & fops & Hn & Hrep & Hall).
  destruct (serve_lift _ _ _ _ Hinv1 Hd1 Hs) as (x' & Hs' & Hd' & Hkeep).
  destruct (view_Some _ _ _ Hd') as (_ & _ & Hch). rewrite Hch in Hn. apply lookup_child in Hn as (_ & p' & Hp' & ->).
  exists x', p', fops. split_and!; [|etrans; [by apply restart_keeps|done]|done..]. eapply rtc_l; [by apply tr_restart|done].
Qed.

(** Along the tree. *)
Lemma tree_catch_up i r x p c ops :
  tr_inv x → follows i r → up r = None → x !! i = Some p → view r x = Some c → cl_inv st0 fits ops c →
  (Z.of_nat (length ops) + 1 < 2 ^ 63)%Z →
  (∀ j s, follows i j → cabs (ld_db s) = cabs (ld_db (cl_src c)) → log_reader (hapi j) (user j) (pass j) s) →
  ∃ x' p' fops, rtc tr_step x x' ∧ keeps_primaries x x' ∧ x' !! i = Some p' ∧ sink_rep fops (pr_sink p') ∧ Forall2 op_eqv ops fops.
Proof.
  intros Hinv Hf Hroot Hi Hr Hops Hb Hauth. revert p Hi. induction Hf as [i|i j r Hup Hf IH]; intros p Hi.
  { destruct (view_Some _ _ _ Hr) as (sub & Hi' & _). rewrite Hi' in Hi. injection Hi as <-. eexists x, _, ops.
    split_and!; [done|done|exact Hi'|split; apply Hops|done]. }
  destruct (ti_up _ Hinv _ _ _ Hi Hup) as [d0 Hd0]. destruct (view_Some _ _ _ Hd0) as (sub0 & Hj0 & _).
  destruct (IH Hroot Hr (λ j s Hj, Hauth j s (rtc_l _ _ _ _ Hup Hj)) _ Hj0) as (x1 & pj & fj & Hs1 & Hk1 & Hj1 & Hrepj & Hallj).
  pose proof (tr_steps_inv _ _ Hinv Hs1) as Hinv1. destruct (steps_alive _ _ i Hs1 ltac:(by eauto)) as [p1 Hi1].
  destruct (ti_up _ Hinv1 _ _ _ Hi1 Hup) as [d Hd]. destruct (view_Some _ _ _ Hd) as (sub & Hj & _).
  rewrite Hj in Hj1. injection Hj1 as <-. destruct Hrepj as [Hlj _]. cbn [pr_sink] in Hlj.
  destruct (ti_views _ Hinv1 _ _ Hd) as [opsj Hopsj].
  assert (Heq : Forall2 op_eqv ops opsj).
  { etrans; [exact Hallj|]. eapply log_inv_history; [exact Hlj|apply Hopsj|by eapply eqv_wire; [|apply Hops]|apply Hopsj]. }
  destruct (hop x1 i j p1 d opsj Hinv1 Hi1 Hup Hd Hopsj) as (x' & p' & fops & Hs & Hk & Hi' & Hrep & Hall).
  - by rewrite <- (Forall2_length _ _ _ Heq).
  - intros s Hs. apply Hauth; [by eapply rtc_l; [|apply rtc_refl]|]. rewrite Hs.
    pose proof (li_data _ _ _ Hlj) as E1. rewrite (spec_replay_eqv _ _ _ Hallj), (li_data _ _ _ (ci_log _ _ _ _ Hops)) in E1. congruence.
  - exists x', p', fops. split_and!; [by etrans|by etrans|done..|by etrans].
Qed.

End CatchUp.

End Tree.

(** ** Trees of wig *)
Section Wig.
Context `{ErrorTexts} `{WK : WgKeys} {WL : WgKeysLaws} {K : Type} {KN : Kernel K} {KL : KernelLaws}.
Context (ord : list sqlTableAdapter) (fuel : nat).
#[local] Existing Instance model_encoding.
#[local] Instance tree_crud : CRUD := model_crud ord fuel.
#[local] Instance tree_crud_laws : CrudLaws := model_crud_laws ord fuel.
#[local] Instance tree_encoding_laws : EncodingLaws := model_encoding_laws ord fuel.
#[local] Instance tree_gateway_laws : SinkLaws (F := gateway * K) (EF := list Interface) empty_store := gateway_sink_laws ord fuel.

Context (hapi : nat → API logdb) (user pass : nat → string) (fits : json → bool) (up : nat → option nat).

Abbreviation wig_tree := (gmap nat (proc (logdb + gateway * K))).

(** The steps of a deployment in which process [i] follows process [up i]. *)
Definition wig_step : wig_tree → wig_tree → Prop :=
  tr_step (SG := gateway_sink) empty_store hapi user pass fits up.

(** Everything starts empty: process [i] is a datastore or, on a kernel in any
    state, a gateway. *)
Definition wig_start (kinds : gmap nat (option K)) : wig_tree :=
  (λ kind, Proc (match kind with Some k => inr (new_gateway, k) | None => inl (Wrap initial_db) end) None ∅ ∅) <$> kinds.

(** Processes follow datastores, and none follows itself in a circle; the servers
    are those of [wig api]. *)
Record deployment (kinds : gmap nat (option K)) : Prop := {
  dp_order i j : up i = Some j → (j < i)%nat;
  dp_stores i j : up i = Some j → kinds !! j = Some None;
  dp_servers i : ∃ env authType spec, apiCommand_api env authType spec = Ok (hapi i)
}.

Lemma dp_reads kinds : deployment kinds → ∀ i req s, (api_authn (hapi i) req s).2 = s.
Proof. intros Hdp i. destruct (dp_servers _ Hdp i) as (env & authType & spec & Hapi). by eapply api_reads. Qed.

Lemma restart_rep_gw ops (g g' : gateway * K) :
  sink_rep (SinkLaws := tree_gateway_laws) ops g → sink_restart g g' →
  sink_rep (SinkLaws := tree_gateway_laws) ops g' ∨ sink_rep (SinkLaws := tree_gateway_laws) [] g'.
Proof. intros _ Hr. right. destruct Hr as [->|[o ->]]; apply gw_rep_new. Qed.

Lemma wig_start_inv kinds : deployment kinds → tr_inv (SG := gateway_sink) empty_store fits up (wig_start kinds).
Proof.
  intros Hdp. split.
  - intros i j p _ Hup. unfold view, wig_start. rewrite lookup_fmap, (dp_stores _ Hdp _ _ Hup). by eexists.
  - intros i c (sub & Hi & Hch)%view_Some. unfold wig_start in Hi. rewrite lookup_fmap in Hi.
    apply fmap_Some in Hi as ([k|] & _ & [=]). exists []. split; rewrite ?H1, ?H3, ?H4.
    + apply initial_log_inv.
    + apply newPubSub_ok.
    + constructor.
    + constructor.
    + intros pre o post st Heq. by destruct pre.
    + intros h c0 Hc. by rewrite lookup_empty in Hc.
    + intros h h' c0 c' Hc. by rewrite lookup_empty in Hc.
    + intros h pp Hp. by rewrite lookup_empty in Hp.
    + intros j n Hj. rewrite Hch in Hj. apply lookup_child in Hj as (_ & p & Hp & ->). unfold wig_start in Hp.
      apply lookup_fmap_Some in Hp as ([k|] & <- & _); exists []; (split; [|by constructor]).
      * apply gw_rep_new.
      * split; [apply initial_log_inv|apply newPubSub_ok].
    + intros j j' n n' c0 c' Hj _ Hc. rewrite Hch in Hj. apply lookup_child in Hj as (_ & p & Hp & ->). unfold wig_start in Hp.
      by apply lookup_fmap_Some in Hp as (kind & <- & _).
Qed.

(** ** Properties *)



End Wig.

(** ** Schedules

    Steps of a cluster in which nothing fails, as a function. *)
Section Schedule.
Context `{ErrorTexts} `{CR : CRUD} {CL : CrudLaws} `{EN : Encoding} {EL : EncodingLaws}.
Context {F EF : Type} {SK : LogSink F EF} (st0 : cstate) {SL : SinkLaws (F := F) (EF := EF) st0}.
Context (hapi : API logdb) (username password : string) (fits : json → bool).
Context (env : follow_env (list (net_env (EP := tx_env))) EF).

(** Node [i] connects by request [h]; the goroutine of [Notify] and the handler of
    request [h]; the scanner and the loop of [doFollow] of node [i]. *)
Inductive action : Type :=
| ActConnect (i h : nat)
| ActNotify (h : nat)
| ActHandle (h : nat)
| ActScan (i : nat)
| ActSend (i : nat)
| ActReceive (i : nat).

Definition on_client (f : M (client * pipe) unit) (i : nat) (x : cluster F) : option (cluster F) :=
  match cl_nodes x !! i with
  | Some (Node k (Some c)) =>
      match cl_pipes x !! rs_pipe c with
      | Some pp => match f (c, pp) with
                   | (Ok tt, (c', pp')) => Some (Cluster (cl_src x) (cl_handlers x) (<[rs_pipe c := pp']> (cl_pipes x)) (<[i := Node k (Some c')]> (cl_nodes x)))
                   | _ => None
                   end
      | None => None
      end
  | _ => None
  end.

Definition act (a : action) (x : cluster F) : option (cluster F) :=
  match a with
  | ActConnect i h =>
      match cl_nodes x !! i, cl_pipes x !! h with
      | Some (Node k None), None =>
          match node_start hapi username password env (cl_src x, k) with
          | (Ok sub, (s', k')) => Some (Cluster s' (<[h := Notify sub]> (cl_handlers x)) (<[h := new_pipe]> (cl_pipes x))
                                          (<[i := Node k' (Some (remote_Notify h))]> (cl_nodes x)))
          | _ => None
          end
      | _, _ => None
      end
  | ActNotify h =>
      match cl_handlers x !! h with
      | Some c => match on_pubsub (notify_step c) (cl_src x) with
                  | (Ok c', s') => Some (Cluster s' (<[h := c']> (cl_handlers x)) (cl_pipes x) (cl_nodes x))
                  | _ => None
                  end
      | None => None
      end
  | ActHandle h =>
      match cl_handlers x !! h, cl_pipes x !! h with
      | Some c, Some pp => match handle_iter true c pp with
                           | (Ok (Some c'), pp') => Some (Cluster (cl_src x) (<[h := c']> (cl_handlers x)) (<[h := pp']> (cl_pipes x)) (cl_nodes x))
                           | _ => None
                           end
      | _, _ => None
      end
  | ActScan i => on_client (scan_line fits) i x
  | ActSend i => on_client send_op i x
  | ActReceive i =>
      match cl_nodes x !! i with
      | Some (Node k (Some (Client h sc hand (o :: rest) cl))) =>
          match follow_iter (fe_apply env) (EvOp o) k with
          | (Ok true, k') => Some (Cluster (cl_src x) (cl_handlers x) (cl_pipes x) (<[i := Node k' (Some (Client h sc hand rest cl))]> (cl_nodes x)))
          | _ => None
          end
      | _ => None
      end
  end.

Context (Hup : sink_up (fe_latest env)) (Hsub : env_commits (fe_subscribe env)) (Hap : sink_commits (fe_apply env)).

Lemma on_client_sound f i x x' :
  f = scan_line fits ∨ f = send_op → on_client f i x = Some x' → cl_serve st0 hapi username password fits x x'.
Proof.
  unfold on_client. intros Hf Hx. destruct x as [s hs ps ns]. cbn [cl_src cl_handlers cl_pipes cl_nodes] in *.
  destruct (ns !! i) as [[k [c|]]|] eqn:Hi; [|done..]. destruct (ps !! rs_pipe c) as [pp|] eqn:Hpp; [|done].
  destruct (f (c, pp)) as [[[]| | |] [c' pp']] eqn:E; [|done..]. injection Hx as <-.
  eapply cl_client; [done|done|]. destruct Hf as [-> | ->]; [by left|by right; left].
Qed.

Lemma act_sound a x x' : act a x = Some x' → cl_serve st0 hapi username password fits x x'.
Proof.
  destruct a as [i h|h|h|i|i|i]; cbn [act]; [| | |by apply on_client_sound; auto..|]; destruct x as [s hs ps ns];
    cbn [cl_src cl_handlers cl_pipes cl_nodes]; intros Hx.
  - destruct (ns !! i) as [[k [|]]|] eqn:Hi; [done| |done]. destruct (ps !! h) eqn:Hh; [done|].
    destruct (node_start _ _ _ _ _) as [[sub| | |] [s' k']] eqn:E; [|done..]. injection Hx as <-. by eapply cl_connect.
  - destruct (hs !! h) as [c|] eqn:Hc; [|done]. destruct (on_pubsub _ s) as [[c'| | |] s'] eqn:E; [|done..].
    injection Hx as <-. by eapply cl_notify.
  - destruct (hs !! h) as [c|] eqn:Hc; [|done]. destruct (ps !! h) as [pp|] eqn:Hpp; [|done].
    destruct (handle_iter true c pp) as [[[c'|]| | |] pp'] eqn:E; [|done..]. injection Hx as <-. by eapply cl_handle.
  - destruct (ns !! i) as [[k [[h sc hand [|o rest] cl]|]]|] eqn:Hi; [done| |done..].
    destruct (follow_iter _ _ k) as [[[]| | |] k'] eqn:E; [|done..]. injection Hx as <-. by eapply (cl_receive _ _ _ _ _ _ _ _ _ i k (Client h sc hand (o :: rest) cl)).
Qed.

End Schedule.

(** *** A gateway behind a datastore behind the primary *)
#[local] Existing Instance quiet_texts.
#[local] Existing Instance model_encoding.
#[local] Instance demo_crud : CRUD := model_crud sample_ord 1.

Abbreviation demo_tree := (gmap nat (proc (logdb + gateway * gmap string device))).

Definition demo_api (_ : nat) : API logdb := mkAPI NilAuthn NilAuthz.
Definition demo_up (i : nat) : option nat := match i with 1 => Some 0 | 2 => Some 1 | _ => None end%nat.
Definition demo_kinds : gmap nat (option (gmap string device)) := {[0 := None; 1 := None; 2 := Some ∅]}%nat.
Definition nobody (_ : nat) : string := "".
Abbreviation demo_step := (wig_step sample_ord 1 demo_api nobody nobody (λ _, true) demo_up).

(** The primary stores an interface. *)
Definition demo_write : op := newOp 7 OpCreate (OInterface gw_wg0).
Definition demo_s1 : logdb := (crudLogSink_Apply tx_ok demo_write false (Wrap initial_db)).2.
Definition demo_x1 : demo_tree := put 0 (Cluster demo_s1 ∅ ∅ (children demo_up 0 (wig_start demo_kinds))) (wig_start demo_kinds).

(** It passes all stages on its way to the second datastore, and from there to
    the gateway. *)
Definition demo_env : follow_env (list net_env) (tx_env * list Interface) :=
  FollowEnv (tx_ok, []) [NetUp tx_ok] [NetUp tx_ok] (tx_ok, []) [NetUp tx_ok] (tx_ok, []).

Definition demo_hop (i j : nat) : list (nat * action) :=
  pair j <$> [ActConnect i 0; ActNotify 0; ActNotify 0; ActHandle 0; ActScan i; ActSend i; ActReceive i].

Definition demo_act (x : demo_tree) (ja : nat * action) : demo_tree :=
  default x (c ← view demo_up ja.1 x; c' ← act (SK := wig_ops sample_ord 1) (demo_api ja.1) "" "" (λ _, true) demo_env ja.2 c; Some (put ja.1 c' x)).

Definition demo_x : demo_tree := foldl demo_act demo_x1 (app (demo_hop 1 0) (demo_hop 2 1)).

Lemma demo_deployment : deployment demo_api demo_up demo_kinds.
Proof.
  split.
  - intros [|[|[|]]] j Hup; cbn in Hup; simplify_eq; lia.
  - intros [|[|[|]]] j Hup; cbn in Hup; simplify_eq; done.
  - intros i. by exists tx_ok, "none", "".
Qed.

Lemma demo_first : demo_step (wig_start demo_kinds) demo_x1.
Proof.
  apply (tr_write _ _ _ _ _ _ 0 (wig_start demo_kinds) (Cluster (Wrap initial_db) ∅ ∅ (children demo_up 0 (wig_start demo_kinds))) tx_ok OpCreate (OInterface gw_wg0) 7 (Ok tt));
    [done|done|done|vm_compute; reflexivity|vm_compute; reflexivity| |done|vm_compute; reflexivity|done].
  split; [done|]. apply (gw_takes_interface sample_ord 1 _ _ gw_wg0); [done|done|vm_compute; reflexivity|by right].
Qed.

Lemma demo_act_step x ja : rtc demo_step x (demo_act x ja).
Proof.
  unfold demo_act. destruct (view demo_up ja.1 x) as [c|] eqn:Hc; [|done]. cbn.
  destruct (act _ _ _ _ _ _ _) as [c'|] eqn:Ha; [|done]. cbn. apply rtc_once. apply (tr_serve _ _ _ _ _ _ _ _ c c' Hc).
  eapply (act_sound (CL := model_crud_laws sample_ord 1) (EL := model_encoding_laws sample_ord 1) (SK := wig_ops sample_ord 1) empty_store (SL := wig_laws sample_ord 1)); [..|exact Ha]; [done|by repeat constructor|done].
Qed.

Lemma demo_steps : rtc demo_step (wig_start demo_kinds) demo_x.
Proof.
  eapply rtc_l; [exact demo_first|]. unfold demo_x. generalize (app (demo_hop 1 0) (demo_hop 2 1)). intros acts. generalize demo_x1.
  induction acts as [|ja acts IH]; intros x; [done|]. cbn. etrans; [apply demo_act_step|apply IH].
Qed.

(** The gateway's sink in the end, and its device. *)
Definition demo_gw : gateway * gmap string device :=
  match demo_x !! 2%nat with Some (Proc (inr g) _ _ _) => g | _ => (new_gateway, ∅) end.

Definition demo_sub : option client := from_option pr_sub None (demo_x !! 2%nat).
Definition demo_root : cluster (logdb + gateway * gmap string device) := default (Cluster (Wrap initial_db) ∅ ∅ ∅) (view demo_up 0 demo_x).

Lemma demo_follows i : (i ≤ 2)%nat → follows demo_up i 0.
Proof.
  intros Hi. assert (H1 : follows demo_up 1 0) by (by apply rtc_once).
  destruct i as [|[|[|]]]; [apply rtc_refl|done|by eapply rtc_l|lia].
Qed.


