(* ===== verification/Process.v ===== *)
(** * The life of a server process

    [wig api] and [wig gateway] run their tasks in an [errgroup] (vendored in
    [golang.org/x/sync]) under a context that a signal cancels: the follower of
    a log, and an HTTP server with a goroutine that shuts it down
    ([main.go], [api.go], [gw.go]).  A step relation has the interleavings of
    these goroutines with the requests that the server handles, from the start
    to the exit status. *)

From S2P Require Import Prelude GoStrings Sql Sqlite Crud CrudLog Follow Http Api.
Local Open Scope string_scope.

(** ** errgroup *)
Record Group : Type := mkGroup {
  g_err : option err;
  g_cancelled : bool;
  g_running : nat }.

Definition WithContext : Group := mkGroup None false 0.

(** [Go] starts a goroutine; at its end the first error is kept, which cancels
    the context of the group. *)
Definition Go (g : Group) : Group := mkGroup (g_err g) (g_cancelled g) (S (g_running g)).

Definition task_ends (r : option err) (g : Group) : Group :=
  match r, g_err g with
  | Some e, None => mkGroup (Some e) true (g_running g - 1)
  | _, _ => mkGroup (g_err g) (g_cancelled g) (g_running g - 1)
  end.

(** [Wait] returns when nothing is running. *)
Definition Wait (g : Group) : option (option err) := if bool_decide (g_running g = 0%nat) then Some (g_err g) else None.

(** ** The process *)

(** The server's goroutine: setting up, in [ListenAndServe], about to return
    from it because the server was shut down, returned. *)
Inductive server_at : Type := Starting | Serving | ShutDown | Returned.

(** The goroutine of [runHTTPServerWithContext]: not started, waiting for the
    end of the context, in [Shutdown], finished. *)
Inductive closer_at : Type := NoCloser | Watching | Draining | Closed.

Record process : Type := mkProcess {
  pr_interrupted : bool;      (* the context of [withInterruptibleContext] *)
  pr_group : Group;
  pr_follow : bool;           (* the follower is running *)
  pr_server : server_at;
  pr_closer : closer_at;
  pr_active : nat;            (* requests that are being handled *)
  pr_logClosed : bool;        (* [logSourceHTTPHandler.Close] *)
  pr_exit : option Z }.

(** The tasks are started: a follower or not, and the server. *)
Definition start_process (follows : bool) : process :=
  let g := if follows then Go WithContext else WithContext in
  mkProcess false (Go g) follows Starting NoCloser 0 false None.

(** The context of the tasks. *)
Definition ctx_done (p : process) : bool := pr_interrupted p || g_cancelled (pr_group p).

Definition ErrServerClosed : err := EMsg "http: Server closed".
Definition Canceled : err := EMsg "context canceled".

(** The server's goroutine returns; the deferred [logH.Close()] is run if the
    handler was created. *)
Definition server_returns (e : err) (p : process) : process :=
  mkProcess (pr_interrupted p) (task_ends (Some e) (pr_group p)) (pr_follow p) Returned (pr_closer p) (pr_active p)
    (match pr_server p with Starting => pr_logClosed p | _ => true end) (pr_exit p).

(** [fatalErr] of what [Wait] returned. *)
Definition exit_status (r : option err) : Z := match r with Some _ => ExitFailure | None => ExitSuccess end.

Inductive p_step : process → process → Prop :=
| p_signal p :                                   (* SIGTERM or SIGINT *)
    pr_exit p = None → pr_interrupted p = false →
    p_step p (mkProcess true (pr_group p) (pr_follow p) (pr_server p) (pr_closer p) (pr_active p) (pr_logClosed p) None)
| p_follow_ends p e :                            (* [Follow] returns, with [Canceled] or another error *)
    pr_exit p = None → pr_follow p = true → (e = Canceled → ctx_done p = true) →
    p_step p (mkProcess (pr_interrupted p) (task_ends (Some e) (pr_group p)) false (pr_server p) (pr_closer p) (pr_active p) (pr_logClosed p) None)
| p_setup_fails p e :                            (* certificates, authentication, sessions *)
    pr_exit p = None → pr_server p = Starting → p_step p (server_returns e p)
| p_listen p :
    pr_exit p = None → pr_server p = Starting →
    p_step p (mkProcess (pr_interrupted p) (pr_group p) (pr_follow p) Serving Watching (pr_active p) (pr_logClosed p) None)
| p_listen_fails p e :                           (* the address is in use *)
    pr_exit p = None → pr_server p = Serving → p_step p (server_returns e p)
| p_request p :
    pr_exit p = None → pr_server p = Serving →
    p_step p (mkProcess (pr_interrupted p) (pr_group p) (pr_follow p) Serving (pr_closer p) (S (pr_active p)) (pr_logClosed p) None)
| p_reply p n :
    pr_exit p = None → pr_active p = S n →
    p_step p (mkProcess (pr_interrupted p) (pr_group p) (pr_follow p) (pr_server p) (pr_closer p) n (pr_logClosed p) None)
| p_shutdown p :                                 (* [<-ctx.Done()], then [server.Shutdown] closes the listener *)
    pr_exit p = None → ctx_done p = true → pr_closer p = Watching →
    p_step p (mkProcess (pr_interrupted p) (pr_group p) (pr_follow p)
                (match pr_server p with Serving => ShutDown | s => s end) Draining (pr_active p) (pr_logClosed p) None)
| p_served p :                                   (* [ListenAndServe] returns at once *)
    pr_exit p = None → pr_server p = ShutDown → p_step p (server_returns ErrServerClosed p)
| p_drained p :
    pr_exit p = None → pr_closer p = Draining → pr_active p = 0%nat →
    p_step p (mkProcess (pr_interrupted p) (pr_group p) (pr_follow p) (pr_server p) Closed 0 (pr_logClosed p) None)
| p_timeout p :                                  (* five seconds, then [server.Close] *)
    pr_exit p = None → pr_closer p = Draining →
    p_step p (mkProcess (pr_interrupted p) (pr_group p) (pr_follow p) (pr_server p) Closed 0 (pr_logClosed p) None)
| p_exit p r :                                   (* [Wait] returns, [main] exits *)
    pr_exit p = None → Wait (pr_group p) = Some r →
    p_step p (mkProcess (pr_interrupted p) (pr_group p) (pr_follow p) (pr_server p) (pr_closer p) (pr_active p) (pr_logClosed p) (Some (exit_status r))).

(** ** The invariant: the group counts its tasks, and a task that has ended left
    an error behind. *)
Definition b2n (b : bool) : nat := if b then 1%nat else 0%nat.
Definition server_runs (s : server_at) : bool := match s with Returned => false | _ => true end.

Record p_inv (follows : bool) (p : process) : Prop := {
  pi_running : g_running (pr_group p) = (b2n (pr_follow p) + b2n (server_runs (pr_server p)))%nat;
  pi_ended : (pr_follow p = follows ∧ pr_server p ≠ Returned) ∨ is_Some (g_err (pr_group p));
  pi_err : is_Some (g_err (pr_group p)) ↔ g_cancelled (pr_group p) = true;
  pi_exit : ∀ z, pr_exit p = Some z → z = ExitFailure ∧ pr_follow p = false ∧ pr_server p = Returned }.

Lemma start_inv follows : p_inv follows (start_process follows).
Proof. destruct follows; split; cbn; try done; first [by left|by split; intros []]. Qed.

Lemma task_ends_err e g : is_Some (g_err (task_ends (Some e) g)).
Proof. unfold task_ends. destruct (g_err g) eqn:E; cbn; rewrite ?E; by eexists. Qed.

Lemma task_ends_running r g : g_running (task_ends r g) = (g_running g - 1)%nat.
Proof. unfold task_ends. by destruct r, (g_err g). Qed.

Lemma task_ends_cancelled e g : (is_Some (g_err g) ↔ g_cancelled g = true) → g_cancelled (task_ends (Some e) g) = true.
Proof. unfold task_ends. intros Hi. destruct (g_err g); [|done]. by apply Hi. Qed.

(** The group after a task with an error. *)
Lemma task_ends_inv e g :
  (is_Some (g_err g) ↔ g_cancelled g = true) →
  is_Some (g_err (task_ends (Some e) g)) ∧ g_cancelled (task_ends (Some e) g) = true.
Proof. intros Hi. split; [apply task_ends_err|by apply task_ends_cancelled]. Qed.

Lemma server_returns_inv follows e p :
  p_inv follows p → pr_exit p = None → pr_server p ≠ Returned → p_inv follows (server_returns e p).
Proof.
  intros [Hr He Hc Hx] Hn Hs. destruct (task_ends_inv e (pr_group p) Hc) as [He' Hc'].
  split; cbn [pr_group pr_follow pr_server pr_exit server_returns server_runs b2n].
  - rewrite task_ends_running, Hr. destruct (pr_server p); cbn; try done; lia.
  - by right.
  - by rewrite Hc'.
  - intros z Hz. congruence.
Qed.

Lemma p_step_inv follows p p' : p_inv follows p → p_step p p' → p_inv follows p'.
Proof.
  intros Hinv Hs. pose proof Hinv as [Hr He Hc Hx].
  destruct Hs as [p Hn Hi|p e Hn Hf Hcan|p e Hn Hs|p Hn Hs|p e Hn Hs|p Hn Hs|p n Hn Ha|p Hn Hd Hcl|p Hn Hs|p Hn Hcl Ha|p Hn Hcl|p r Hn Hw];
    try (by apply server_returns_inv; [done..|rewrite Hs]);
    split; cbn [pr_group pr_follow pr_server pr_exit]; try done.
  - rewrite task_ends_running, Hr, Hf. cbn. lia.
  - right. apply task_ends_err.
  - destruct (task_ends_inv e (pr_group p) Hc) as [He' Hc']. by rewrite Hc'.
  - by rewrite Hr, Hs.
  - destruct He as [[Hf _]|He]; [by left|by right].
  - by rewrite Hr, Hs.
  - destruct He as [[Hf _]|He]; [by left|by right].
  - rewrite Hr. by destruct (pr_server p).
  - destruct He as [[Hf He]|He]; [left; split; [done|by destruct (pr_server p)]|by right].
  - intros z [= <-]. unfold Wait in Hw. case_bool_decide as H0; [|done]. injection Hw as <-. rewrite Hr in H0.
    destruct (pr_follow p); [done|]. destruct (pr_server p) eqn:Es; try done. destruct He as [[_ He]|[e He]]; [done|]. by rewrite He.
Qed.

Lemma p_steps_inv follows p p' : p_inv follows p → rtc p_step p p' → p_inv follows p'.
Proof. intros Hi Hs. induction Hs; [done|]. eauto using p_step_inv. Qed.

(** [Follow] has no other end than an error: the loop goes on after a round
    without one. *)
Lemma Follow_not_ok {P EP F EF} `{LogSource P EP} `{LogSink F EF} rounds s : (Follow (P := P) (F := F) rounds s).1 ≠ Ok tt.
Proof.
  revert s. induction rounds as [|[env evs] rounds IH]; intros s; [done|]. cbn [Follow]. m_unfold.
  destruct (doFollow env evs s) as [[[]|e|p|] s']; [apply IH|done..].
Qed.

(** ** Winding down *)
Definition wound (p : process) : bool := match pr_server p with ShutDown | Returned => true | _ => false end.

(** What is still to be done. *)
Definition to_do (p : process) : nat :=
  ((match pr_exit p with None => 1 | Some _ => 0 end) + b2n (negb (pr_interrupted p)) + b2n (pr_follow p) +
   (match pr_server p with ShutDown => 1 | _ => 0 end) +
   (match pr_closer p with Watching => 2 | Draining => 1 | _ => 0 end) + pr_active p)%nat.

Lemma wound_step p p' : wound p = true → p_step p p' → wound p' = true ∧ (to_do p' < to_do p)%nat.
Proof.
  intros Hw Hs.
  destruct Hs as [p Hn Hi|p e Hn Hf Hcan|p e Hn Hs|p Hn Hs|p e Hn Hs|p Hn Hs|p n Hn Ha|p Hn Hd Hcl|p Hn Hs|p Hn Hcl Ha|p Hn Hcl|p r Hn Hr];
    unfold wound in Hw; try (by rewrite Hs in Hw).
  - split; [done|]. unfold to_do. cbn. rewrite Hn, Hi. cbn. lia.
  - split; [done|]. unfold to_do. cbn. rewrite Hn, Hf. cbn. lia.
  - split; [done|]. unfold to_do. cbn. rewrite Hn, Ha. lia.
  - split; [by unfold wound; cbn; destruct (pr_server p)|]. unfold to_do. cbn. rewrite Hn, Hcl. destruct (pr_server p); done || lia.
  - split; [done|]. unfold to_do, server_returns. cbn. rewrite Hn, Hs. lia.
  - split; [done|]. unfold to_do. cbn. rewrite Hn, Hcl, Ha. lia.
  - split; [done|]. unfold to_do. cbn. rewrite Hn, Hcl. lia.
  - split; [done|]. unfold to_do. cbn. rewrite Hn. lia.
Qed.

Lemma wound_steps n p p' : wound p = true → nsteps p_step n p p' → wound p' = true ∧ (n + to_do p' ≤ to_do p)%nat.
Proof.
  intros Hw Hs. revert Hw. induction Hs as [p|n p p1 p' Hs _ IH]; intros Hw; [split; [done|lia]|].
  destruct (wound_step p p1 Hw Hs) as [Hw1 Hlt]. destruct (IH Hw1) as [Hw' Hle]. split; [done|lia].
Qed.

(** Nothing waits for ever. *)
Lemma wound_progress follows p : p_inv follows p → wound p = true → pr_exit p = None → ∃ p', p_step p p'.
Proof.
  intros [Hr He Hc _] Hw Hn. unfold wound in Hw. destruct (pr_server p) eqn:Hs; try done.
  - eexists. by apply p_served.
  - destruct He as [[_ He]|He]; [done|]. destruct (pr_follow p) eqn:Hf.
    + eexists. apply (p_follow_ends p Canceled); [done..|]. intros _. unfold ctx_done. apply orb_true_iff. right. by apply Hc.
    + eexists. apply (p_exit p (g_err (pr_group p))); [done|]. unfold Wait. by rewrite Hr.
Qed.

(** ** Properties *)


(** A request is being handled when the signal arrives. *)
Definition handling (n : nat) (follows : bool) : process :=
  mkProcess false (pr_group (start_process follows)) follows Serving Watching n false None.

Lemma handling_reachable n follows : rtc p_step (start_process follows) (handling n follows).
Proof.
  induction n as [|n IH].
  - apply rtc_once. by apply (p_listen (start_process follows)).
  - eapply rtc_r; [exact IH|]. by apply (p_request (handling n follows)).
Qed.

(** C38: no server process ends well, and none ends gracefully.  Every reachable
    exit has the status of a failure, because [ListenAndServe] returns an error
    also when it was asked to end; and with any number of requests being handled
    a signal can end the process before any of them is answered and before the
    five seconds are over: the command waits for [ListenAndServe], which returns
    at once, not for [Shutdown]. *)
Theorem exit_is_failure follows :
  (∀ p z, rtc p_step (start_process follows) p → pr_exit p = Some z → z = ExitFailure) ∧
  ∀ n, ∃ p, rtc p_step (handling n follows) p ∧ pr_interrupted p = true ∧ pr_exit p = Some ExitFailure ∧
    pr_active p = n ∧ pr_closer p = Draining ∧ pr_logClosed p = true.
Proof.
  split.
  - intros p z Hs Hz. pose proof (p_steps_inv follows _ _ (start_inv follows) Hs) as Hinv. by apply (pi_exit _ _ Hinv).
  - intros n. assert (Hdown : ∃ p, rtc p_step (handling n follows) p ∧ ctx_done p = true ∧ pr_interrupted p = true ∧ pr_exit p = None ∧
      pr_active p = n ∧ pr_closer p = Draining ∧ pr_logClosed p = true ∧ pr_follow p = follows ∧
      pr_group p = mkGroup (Some ErrServerClosed) true (b2n follows)).
    { eexists. split; [eapply rtc_l; [by apply p_signal|]; eapply rtc_l; [by apply p_shutdown|]; by apply rtc_once, p_served|].
      by destruct follows. }
    destruct Hdown as (p & Hs & Hd & Hi & Hn & Ha & Hcl & Hlog & Hf & Hg). destruct follows.
    + eexists. split; [etrans; [exact Hs|]; eapply rtc_l; [by apply (p_follow_ends _ Canceled)|];
        apply rtc_once, (p_exit _ (Some ErrServerClosed)); [done|by cbn; rewrite Hg]|]. by cbn.
    + eexists. split; [etrans; [exact Hs|]; apply rtc_once, (p_exit _ (Some ErrServerClosed)); [done|by rewrite Hg]|]. by cbn.
Qed.


Lemma exit_is_failure_witness :
  ∃ p, rtc p_step (handling 3 false) p ∧ pr_interrupted p = true ∧ pr_exit p = Some 1%Z ∧ pr_active p = 3%nat ∧ pr_closer p = Draining.
Proof.
  destruct (proj2 (exit_is_failure false) 3%nat) as (p & Hs & Hi & Hx & Ha & Hc & _). exists p.
  exact (conj Hs (conj Hi (conj Hx (conj Ha Hc)))).
Defined.
