(* ===== verification/FlagSet.v ===== *)
(** * Flags on the command line

    The part of Go's package [flag] that the commands use: sets of flags with
    the variables that they are stored in, and the parser of arguments.  A
    pointer to a field of a command is a function that changes the field. *)

From Stdlib Require Import Ascii.
From S2P Require Import Prelude GoStrings.
Local Open Scope string_scope.

(** ** Flag sets *)
Abbreviation ptr C A := ((A → A) → C → C) (only parsing).

(** [flag.FlagSet.formal]: what setting a flag does to the variables. *)
Abbreviation FlagSet C := (gmap string (string → C → res C)) (only parsing).

Definition ErrHelp : err := EMsg "flag: help requested".

Section Definitions.
Context {C : Type}.

(** A name that does not fit, or that is taken, is an error of the program. *)
Definition Var (name : string) (set : string → C → res C) : M (C * FlagSet C) unit :=
  if has_prefix "-" name then panic ("flag " ++ name ++ " begins with -")
  else if contains "=" name then panic ("flag " ++ name ++ " contains =")
  else
    formal ← gets snd;
    match (formal : FlagSet C) !! name with
    | Some _ => panic ("flag redefined: " ++ name)
    | None => modify (λ s, (s.1, <[name := set]> formal))
    end.

Definition StringVar (p : ptr C string) (name value : string) : M (C * FlagSet C) unit :=
  _ ← modify (λ s, (p (λ _, value) s.1, s.2));
  Var name (λ s c, Ok (p (λ _, s) c)).

(** Nanoseconds, read by [time.ParseDuration]. *)
Definition DurationVar (ParseDuration : string → res Z) (p : ptr C Z) (name : string) (value : Z) : M (C * FlagSet C) unit :=
  _ ← modify (λ s, (p (λ _, value) s.1, s.2));
  Var name (λ s c, d ← ParseDuration s; mret (p (λ _, d) c)).

(** ** Parsing *)

(** How an argument reads. *)
Inductive flag_arg : Type :=
  | ANone
  | ATerminator
  | ABad
  | AFlag (name : string) (value : option string).

Definition read_flag (name : string) : flag_arg :=
  if bool_decide (name = "") || has_prefix "-" name || has_prefix "=" name then ABad
  else match cut "=" name with
       | Some (name, value) => AFlag name (Some value)
       | None => AFlag name None
       end.

Definition read_arg (s : string) : flag_arg :=
  match s with
  | String "-" EmptyString | EmptyString => ANone
  | String "-" (String "-" EmptyString) => ATerminator
  | String "-" (String "-" name) => read_flag name
  | String "-" name => read_flag name
  | _ => ANone
  end.

(** The variables, and the arguments behind the flags. *)
Fixpoint Parse (formal : FlagSet C) (args : list string) (c : C) : res (C * list string) :=
  match args with
  | [] => Ok (c, [])
  | s :: rest =>
      match read_arg s with
      | ANone => Ok (c, args)
      | ATerminator => Ok (c, rest)
      | ABad => Err (EMsg ("bad flag syntax: " ++ s))
      | AFlag name value =>
          match formal !! name with
          | None => Err (if bool_decide (name = "help" ∨ name = "h") then ErrHelp
                         else EMsg ("flag provided but not defined: -" ++ name))
          | Some set =>
              match value, rest with
              | Some v, rest => c' ← set v c; Parse formal rest c'
              | None, v :: rest => c' ← set v c; Parse formal rest c'
              | None, [] => Err (EMsg ("flag needs an argument: -" ++ name))
              end
          end
      end
  end.

(** ** Command lines *)

(** A flag is written with one dash or two, its value behind a sign or as the
    next argument. *)
Record setting : Type := Setting { st_dashes : bool; st_joined : bool; st_name : string; st_value : string }.

Definition spell (x : setting) : list string :=
  let name := (if st_dashes x then "--" else "-") ++ st_name x in
  if st_joined x then [name ++ "=" ++ st_value x] else [name; st_value x].

(** The other arguments are told apart by the first of them or by a separator. *)
Definition spell_args (separated : bool) (args : list string) : list string := if separated then "--" :: args else args.

Definition no_flag (args : list string) : bool :=
  match args with [] => true | s :: _ => match read_arg s with ANone => true | _ => false end end.

Fixpoint set_all (formal : FlagSet C) (l : list setting) (c : C) : res C :=
  match l with
  | [] => Ok c
  | x :: l => match formal !! st_name x with
              | Some set => c' ← set (st_value x) c; set_all formal l c'
              | None => Err (EMsg ("flag provided but not defined: -" ++ st_name x))
              end
  end.

Definition name_fits (name : string) : bool :=
  negb (bool_decide (name = "")) && negb (has_prefix "-" name) && negb (contains "=" name).

Lemma read_flag_name name : name_fits name = true → read_flag name = AFlag name None.
Proof.
  unfold name_fits, read_flag. rewrite !andb_true_iff, !negb_true_iff. intros [[Hn Hd] He]. rewrite Hn, Hd, cut_None by done.
  destruct name as [|c name]; [done|]. cbn in He |- *. apply orb_false_iff in He as [He _]. by rewrite He.
Qed.

Lemma read_flag_value name v : name_fits name = true → read_flag (name ++ "=" ++ v) = AFlag name (Some v).
Proof.
  unfold name_fits, read_flag. rewrite !andb_true_iff, !negb_true_iff. intros [[Hn Hd] He].
  change ("=" ++ v) with (String "=" v). rewrite cut_app by done.
  destruct name as [|c name]; [done|]. cbn in Hd, He |- *. apply orb_false_iff in He as [He _]. by rewrite He, Hd.
Qed.

Lemma read_arg_dashes (two : bool) name :
  name ≠ "" → has_prefix "-" name = false → read_arg ((if two then "--" else "-") ++ name) = read_flag name.
Proof.
  intros Hn Hd. destruct name as [|c name]; [done|]. destruct two; [done|]. cbn in Hd. rewrite andb_true_r in Hd.
  destruct c as [[] [] [] [] [] [] [] []]; cbn in Hd |- *; done.
Qed.

(** Reading a command line sets its flags, the last one of those that are
    repeated. *)
Lemma Parse_settings formal l separated args c :
  Forall (λ x, name_fits (st_name x) = true ∧ is_Some (formal !! st_name x)) l → separated || no_flag args = true →
  Parse formal (app (concat (spell <$> l)) (spell_args separated args)) c = (c' ← set_all formal l c; mret (c', args)).
Proof.
  intros Hl Hargs.
  revert c. induction l as [|x l IH]; intros c.
  - cbn [fmap list_fmap concat app set_all mbind res_bind]. unfold spell_args. destruct separated; [done|].
    destruct args as [|a args]; [done|]. cbn in Hargs |- *. by destruct (read_arg a).
  - apply Forall_cons in Hl as [[Hx [set Hset]] Hl].
    assert (Hne : st_name x ≠ "" ∧ has_prefix "-" (st_name x) = false).
    { unfold name_fits in Hx. rewrite !andb_true_iff, !negb_true_iff, bool_decide_eq_false in Hx. tauto. }
    destruct Hne as [Hne Hd]. cbn [fmap list_fmap concat set_all]. unfold spell at 1.
    rewrite Hset. destruct (st_joined x); cbn [app Parse].
    + rewrite str_app_assoc, read_arg_dashes by (by destruct (st_name x)). rewrite read_flag_value, Hset by done.
      destruct (set (st_value x) c) as [c'|e|p|]; [|done..]. cbn [mbind res_bind]. by apply IH.
    + rewrite read_arg_dashes, read_flag_name, Hset by done.
      destruct (set (st_value x) c) as [c'|e|p|]; [|done..]. cbn [mbind res_bind]. by apply IH.
Qed.

(** *** Defining flags *)
Definition defines (m : M (C * FlagSet C) unit) (c : C) (f : FlagSet C) (c' : C) (f' : FlagSet C) : Prop := m (c, f) = (Ok tt, (c', f')).

Lemma defines_bind m k c f c1 f1 c2 f2 : defines m c f c1 f1 → defines k c1 f1 c2 f2 → defines (_ ← m; k) c f c2 f2.
Proof. intros Hm Hk. unfold defines in *. m_unfold. by rewrite Hm. Qed.

Lemma defines_modify (g : C → C) c f : defines (modify (λ s, (g s.1, s.2))) c f (g c) f.
Proof. done. Qed.

Lemma defines_mret c f : defines (mret tt) c f c f.
Proof. done. Qed.

Lemma defines_StringVar p name v c f :
  name_fits name = true → f !! name = None →
  defines (StringVar p name v) c f (p (λ _, v) c) (<[name := λ s c, Ok (p (λ _, s) c)]> f).
Proof.
  unfold name_fits. rewrite !andb_true_iff, !negb_true_iff. intros [[_ Hd] He] Hf. unfold defines, StringVar, Var. rewrite Hd, He.
  m_unfold. cbn [fst snd]. by rewrite Hf.
Qed.

End Definitions.

(** Flags with concrete names. *)
Ltac flag_fresh := repeat (rewrite lookup_insert_ne by discriminate); apply lookup_empty.
Ltac define_flags :=
  repeat lazymatch goal with
    | |- defines (StringVar _ _ _) _ _ _ _ => eapply defines_StringVar; [reflexivity|flag_fresh]
    | |- defines (modify _) _ _ _ _ => eapply defines_modify
    | |- defines (mret _) _ _ _ _ => eapply defines_mret
    | |- defines (_ ≫= _) _ _ _ _ => eapply defines_bind
    end.
Ltac flag_found := repeat (rewrite lookup_insert_ne by discriminate); apply lookup_insert_eq.
