(* ===== verification/Flags.v ===== *)
(** * Flags

    [util/flags.go]: default values of flags from a configuration file.
    [util/client_subcommands.go] and [util/tls_subcommands.go]: what the flags
    of clients and servers give.  Certificates are those of [crypto/tls] and
    [crypto/x509]. *)

From Stdlib Require Import Ascii.
From S2P Require Import Prelude GoStrings SqlText Sql Http FlagSet.
Local Open Scope string_scope.

Definition newline : ascii := "010".
Definition carriage_return : ascii := "013".

(** ** Lines: [bufio.Scanner] *)
Fixpoint drop_last (s : string) : string :=
  match s with
  | String c (String _ _ as s') => String c (drop_last s')
  | _ => ""
  end.

Definition dropCR (line : string) : string := if has_suffix carriage_return line then drop_last line else line.

(** The scanner stops at a line that does not fit its buffer. *)
Definition MaxScanTokenSize : Z := 64 * 1024.

Fixpoint fitting (lines : list string) : list string :=
  match lines with
  | [] => []
  | l :: lines => if bool_decide (Z.of_nat (String.length l) < MaxScanTokenSize)%Z then l :: fitting lines else []
  end.

(** What follows the last newline is a line unless it is empty. *)
Fixpoint unterminated (pieces : list string) : list string :=
  match pieces with
  | [] => []
  | [s] => if bool_decide (s = "") then [] else [s]
  | s :: pieces => s :: unterminated pieces
  end.

Definition scan_lines (content : string) : list string := dropCR <$> fitting (unterminated (split newline content)).

(** ** Configuration files *)
Section Config.

(** What reading a file gives. *)
Context (fs : string → res string).

Definition flag_line (path : string) (lineNum : nat) (line : string) (out : gmap string string) : res (gmap string string) :=
  let line := trim_space (before "#" line) in
  if bool_decide (line = "") then Ok out
  else match cut " " line with
       | Some (key, value) => Ok (<[key := value]> out)
       | None => Err (EMsg ("syntax error (" ++ path ++ ":" ++ format_dec (Z.of_nat lineNum) ++ "): not in 'flag value' format"))
       end.

Fixpoint flag_lines (path : string) (lineNum : nat) (lines : list string) (out : gmap string string) : res (gmap string string) :=
  match lines with
  | [] => Ok out
  | line :: lines => out ← flag_line path (S lineNum) line out; flag_lines path (S lineNum) lines out
  end.

Definition flagsFromFile (path : string) : res (gmap string string) :=
  content ← fs path; flag_lines path 0 (scan_lines content) ∅.

(** [home] is the variable HOME. *)
Definition defaultFlagConfigFiles (home : string) : list string :=
  "/etc/wig.conf" :: (if bool_decide (home ≠ "") then [path_Join home ".wig.conf"] else []).

(** The first default file that can be read counts; the state is the variable
    [flagsFromConfig]. *)
Fixpoint load_default (paths : list string) : M (gmap string string) unit :=
  match paths with
  | [] => mret tt
  | path :: paths => match flagsFromFile path with Ok values => put values | _ => load_default paths end
  end.

Definition LoadFlagsFromConfig (home overridePath : string) : M (gmap string string) unit :=
  if bool_decide (overridePath ≠ "") then values ← lift_res (flagsFromFile overridePath); put values
  else load_default (defaultFlagConfigFiles home).

End Config.

Definition FlagDefault (flagsFromConfig : gmap string string) (name dflt : string) : string :=
  default dflt (flagsFromConfig !! name).

(** ** TLS *)
Section TLS.
Context {certificate pool : Type} (fs : string → res string)
  (LoadX509KeyPair : string → string → res certificate) (AppendCertsFromPEM : string → option pool).

Definition loadCA (path : string) : res pool :=
  data ← fs path;
  match AppendCertsFromPEM data with
  | Some cas => Ok cas
  | None => Err (EMsg ("no certificates could be parsed in " ++ path))
  end.

(** The fields that the code sets; [tls_ClientCAs] comes with requiring and
    verifying the certificates of clients. *)
Record tls_Config : Type := mkTLS {
  tls_Certificates : list certificate;
  tls_RootCAs : option pool;
  tls_MinVersion13 : bool;
  tls_ClientCAs : option pool }.

Record TLSFlags : Type := mkTLSFlags { tf_cert : string; tf_key : string; tf_ca : string }.

(** [None] is the nil configuration. *)
Definition TLSClientConfig (c : TLSFlags) : res (option tls_Config) :=
  if bool_decide (tf_cert c = "" ∨ tf_key c = "" ∨ tf_ca c = "") then Ok None
  else
    cert ← LoadX509KeyPair (tf_cert c) (tf_key c);
    cas ← loadCA (tf_ca c);
    mret (Some (mkTLS [cert] (Some cas) false None)).

Definition TLSServerConfig (c : TLSFlags) : res (option tls_Config) :=
  if bool_decide (tf_cert c = "" ∨ tf_key c = "") then Ok None
  else
    cert ← LoadX509KeyPair (tf_cert c) (tf_key c);
    if bool_decide (tf_ca c ≠ "") then
      cas ← loadCA (tf_ca c); mret (Some (mkTLS [cert] None true (Some cas)))
    else mret (Some (mkTLS [cert] None true None)).

(** The zero value, and pointers to its fields. *)
Definition no_TLSFlags : TLSFlags := mkTLSFlags "" "" "".
Definition at_cert : ptr TLSFlags string := λ f c, mkTLSFlags (f (tf_cert c)) (tf_key c) (tf_ca c).
Definition at_key : ptr TLSFlags string := λ f c, mkTLSFlags (tf_cert c) (f (tf_key c)) (tf_ca c).
Definition at_ca : ptr TLSFlags string := λ f c, mkTLSFlags (tf_cert c) (tf_key c) (f (tf_ca c)).

Definition ClientTLSFlags_SetFlags {C} (conf : gmap string string) (p : ptr C TLSFlags) : M (C * FlagSet C) unit :=
  _ ← StringVar (λ f, p (at_cert f)) "ssl-client-cert" (FlagDefault conf "ssl-client-cert" "");
  _ ← StringVar (λ f, p (at_key f)) "ssl-client-key" (FlagDefault conf "ssl-client-key" "");
  StringVar (λ f, p (at_ca f)) "ssl-client-ca" (FlagDefault conf "ssl-client-ca" "").

Definition ServerTLSFlags_SetFlags {C} (p : ptr C TLSFlags) : M (C * FlagSet C) unit :=
  _ ← StringVar (λ f, p (at_cert f)) "ssl-cert" "";
  _ ← StringVar (λ f, p (at_key f)) "ssl-key" "";
  StringVar (λ f, p (at_ca f)) "ssl-ca" "".

(** *** ClientCommand *)
Record ClientCommand : Type := mkClientCommand { cc_tls : TLSFlags; cc_authToken : string; cc_authSecret : string }.

Definition no_ClientCommand : ClientCommand := mkClientCommand no_TLSFlags "" "".
Definition at_tls : ptr ClientCommand TLSFlags := λ f c, mkClientCommand (f (cc_tls c)) (cc_authToken c) (cc_authSecret c).
Definition at_authToken : ptr ClientCommand string := λ f c, mkClientCommand (cc_tls c) (f (cc_authToken c)) (cc_authSecret c).
Definition at_authSecret : ptr ClientCommand string := λ f c, mkClientCommand (cc_tls c) (cc_authToken c) (f (cc_authSecret c)).

Definition ClientCommand_SetFlags {C} (conf : gmap string string) (p : ptr C ClientCommand) : M (C * FlagSet C) unit :=
  _ ← StringVar (λ f, p (at_authToken f)) "auth-token" (FlagDefault conf "auth-token" "");
  _ ← StringVar (λ f, p (at_authSecret f)) "auth-secret" (FlagDefault conf "auth-secret" "");
  ClientTLSFlags_SetFlags conf (λ f, p (at_tls f)).

(** A client: what it adds to a request that it sends over [net]. *)
Definition NewClient {S} (tlsConf : option tls_Config) (username password : string) (net : option tls_Config → request → M S response)
  : request → M S response := RoundTrip username password (net tlsConf).

Definition HTTPClient {S} (c : ClientCommand) (net : option tls_Config → request → M S response) : res (request → M S response) :=
  tlsConf ← TLSClientConfig (cc_tls c);
  mret (NewClient tlsConf (cc_authToken c) (cc_authSecret c) net).

End TLS.
Arguments mkTLS {certificate pool} _ _ _ _.
Arguments tls_Config : clear implicits.

(** ** What a configuration file gives *)

(** A line of a configuration file: a flag with its value and possibly a remark
    behind it, or only a remark; an empty line is one without text. *)
Inductive conf_line : Type :=
  | CEntry (key value : string) (remark : option string)
  | CRemark (remark : option string).

Definition print_remark (r : option string) : string := match r with Some r => "#" ++ r | None => "" end.

Definition print_line (l : conf_line) : string :=
  match l with
  | CEntry k v r => (k ++ " " ++ v) ++ print_remark r
  | CRemark r => print_remark r
  end.

Definition print_conf (ls : list conf_line) : string := foldr (λ l rest, print_line l ++ String newline rest) "" ls.

(** Keys without spaces, texts that trimming leaves alone, no remark sign, no
    line break, lines that fit the buffer. *)
Definition conf_line_ok (l : conf_line) : bool :=
  negb (contains newline (print_line l)) && negb (has_suffix carriage_return (print_line l)) &&
  bool_decide (Z.of_nat (String.length (print_line l)) < MaxScanTokenSize)%Z &&
  match l with
  | CEntry k v _ => negb (contains " " k) && negb (contains "#" (k ++ " " ++ v)) && bool_decide (trim_space (k ++ " " ++ v) = k ++ " " ++ v)
  | CRemark _ => true
  end.

Definition conf_values (ls : list conf_line) : gmap string string :=
  foldl (λ m l, match l with CEntry k v _ => <[k := v]> m | CRemark _ => m end) ∅ ls.

Lemma split_print_conf ls :
  Forall (λ l, contains newline (print_line l) = false) ls → split newline (print_conf ls) = app (print_line <$> ls) [""].
Proof. induction 1 as [|l ls Hl _ IH]; [done|]. cbn [print_conf foldr fmap list_fmap app]. by rewrite split_app_sep, <- IH. Qed.

Lemma unterminated_snoc ls : unterminated (app ls [""]) = ls.
Proof. induction ls as [|l ls IH]; [done|]. cbn. rewrite IH. by destruct ls. Qed.

Lemma scan_print_conf ls : Forall (λ l, conf_line_ok l = true) ls → scan_lines (print_conf ls) = print_line <$> ls.
Proof.
  intros Hok. unfold scan_lines. rewrite split_print_conf, unterminated_snoc.
  - induction Hok as [|l ls Hl _ IH]; [done|]. unfold conf_line_ok in Hl. rewrite !andb_true_iff, !negb_true_iff in Hl.
    destruct Hl as [[[_ Hcr] Hlen] _]. cbn [fmap list_fmap fitting]. rewrite Hlen. cbn [fmap list_fmap]. rewrite IH. f_equal.
    unfold dropCR. by rewrite Hcr.
  - eapply Forall_impl; [exact Hok|]. intros l Hl. unfold conf_line_ok in Hl. rewrite !andb_true_iff, !negb_true_iff in Hl.
    by destruct Hl as [[[Hl _] _] _].
Qed.

Lemma before_remark s r : contains "#" s = false → before "#" (s ++ print_remark r) = s.
Proof.
  intros Hs. unfold before, print_remark. destruct r as [r|].
  - change ("#" ++ r) with (String "#" r). by rewrite cut_app.
  - by rewrite str_app_nil_r, cut_None.
Qed.

Lemma flag_print_lines path n ls m :
  Forall (λ l, conf_line_ok l = true) ls →
  flag_lines path n (print_line <$> ls) m = Ok (foldl (λ m l, match l with CEntry k v _ => <[k := v]> m | CRemark _ => m end) m ls).
Proof.
  intros Hok. revert n m. induction Hok as [|l ls Hl _ IH]; intros n m; [done|]. cbn [fmap list_fmap flag_lines foldl].
  unfold conf_line_ok in Hl. rewrite !andb_true_iff, !negb_true_iff in Hl. destruct Hl as [_ Hl]. unfold flag_line.
  destruct l as [k v r|r]; cbn [print_line].
  - rewrite !andb_true_iff, !negb_true_iff, bool_decide_eq_true in Hl. destruct Hl as [[Hk Hh] Ht].
    rewrite before_remark, Ht by done. change (" " ++ v) with (String " " v). rewrite bool_decide_eq_false_2 by (by destruct k).
    rewrite cut_app by done. apply IH.
  - pose proof (before_remark "" r eq_refl) as Hb. change ("" ++ print_remark r) with (print_remark r) in Hb.
    rewrite Hb. apply IH.
Qed.

(** ** Property *)

(** Configuration files are read as they are written: the flags of a file
    of flags, values, remarks and empty lines are its values, the last one of a
    flag that has several; naming the file makes them the defaults of the
    flags. *)
Theorem config_roundtrip fs home path ls m name dflt :
  path ≠ "" → fs path = Ok (print_conf ls) → Forall (λ l, conf_line_ok l = true) ls →
  ∃ m', LoadFlagsFromConfig fs home path m = (Ok tt, m') ∧
    FlagDefault m' name dflt = default dflt (conf_values ls !! name).
Proof.
  intros Hp Hfs Hok. exists (conf_values ls). split; [|done].
  unfold LoadFlagsFromConfig, flagsFromFile. rewrite bool_decide_eq_true_2, Hfs by done. cbn [mbind res_bind].
  rewrite scan_print_conf, (flag_print_lines path 0 ls ∅) by done. reflexivity.
Qed.

Lemma config_roundtrip_witness :
  let ls := [CEntry "url" "http://localhost:5005" None; CRemark (Some " credentials"); CEntry "auth-token" "me" (Some "!")] in
  ∃ m', LoadFlagsFromConfig (λ _, Ok (print_conf ls)) "" "/etc/wig.conf" ∅ = (Ok tt, m') ∧ FlagDefault m' "auth-token" "" = "me".
Proof.
  apply (config_roundtrip _ "" "/etc/wig.conf" [CEntry "url" "http://localhost:5005" None; CRemark (Some " credentials");
    CEntry "auth-token" "me" (Some "!")] ∅ "auth-token" "").
  - discriminate.
  - reflexivity.
  - repeat constructor; vm_compute; reflexivity.
Defined.
