(* ===== verification/Cmd.v ===== *)
(** * The commands

    [cmd/wig]: creating the first administrator ([init.go]), running a
    datastore server ([api.go]) and a gateway ([gw.go]).  A command is its
    [Execute]; starting a server gives the node that serves requests, and the
    tasks beside it. *)

From Stdlib Require Import Ascii.
From S2P Require Import Prelude GoStrings Sql SqlText Sqlite Net Model Crud CrudSpec CrudLog CrudLogSpec Follow Gateway Sessions Registration Effects Http Api RemoteLog Server FlagSet Flags.
Local Open Scope string_scope.
Local Open Scope Z_scope.

(** ** Random strings *)

(** The bytes that the system's generator gives, [None] for a failure; at the
    end of the list it gives no more. *)
Abbreviation random := (list (option Z)) (only parsing).

Definition alphabet : string := "abcdefghijklmnopqrstuvwxyzABCDEFGHIJKLMNOPQRSTUVWXYZ0123456789".
Definition secretLen : nat := 32.

Fixpoint randomInt_loop (n : Z) (src : random) : res Z * random :=
  match src with
  | [] => (Hang, [])
  | None :: src => (Panic "rand.Read", src)
  | Some b :: src => if bool_decide (b < n) then (Ok b, src) else randomInt_loop n src
  end.

Definition randomInt (n : Z) : M random Z := randomInt_loop n.

(** [alphabet[i]] *)
Definition alphabet_at (i : Z) : M random ascii :=
  match String.get (Z.to_nat i) alphabet with
  | Some c => mret c
  | None => panic "index out of range"
  end.

Fixpoint random_chars (len : nat) : M random string :=
  match len with
  | O => mret ""
  | S len =>
      i ← randomInt (Z.of_nat (String.length alphabet));
      c ← alphabet_at i;
      s ← random_chars len;
      mret (String c s)
  end.

Definition generateRandomString : M random string := random_chars secretLen.

(** ** wig init *)
Definition open_db (env : tx_env) : M db unit := λ file,
  match OpenDB env Migrations file with
  | Ok d => (Ok tt, d)
  | Err e => (Err e, file)
  | Panic p => (Panic p, file)
  | Hang => (Hang, file)
  end.

(** Both are generated when the identifier is empty. *)
Definition token_choice (id secret : string) : M random (string * string) :=
  if bool_decide (id = "") then
    id ← generateRandomString; secret ← generateRandomString; mret (id, secret)
  else mret (id, secret).

(** [INSERT INTO tokens (id, secret, roles) VALUES (?, ?, 'admin')] *)
Definition insert_admin (id secret : string) : M db unit :=
  insert_into "tokens" [("id", SText id); ("secret", SText secret); ("roles", SText "admin")].

(** The result is what is printed. *)
Definition init_run (oenv env : tx_env) (id secret : string) : M (db * random) (string * string) :=
  _ ← on_fst (open_db oenv);
  out ← on_snd (token_choice id secret);
  _ ← WithTx env (on_fst (insert_admin out.1 out.2));
  mret out.

Record initCommand : Type := mkInitCommand { ic_dburi : string }.

Definition initCommand_SetFlags : M (initCommand * FlagSet initCommand) unit :=
  StringVar (λ f c, mkInitCommand (f (ic_dburi c))) "db" "".

(** [syntaxErr] of [main.go]. *)
Definition main_syntaxErr {S} : M S Z := mret ExitUsageError.

Definition init_Execute (oenv env : tx_env) (c : initCommand) (args : list string) : M (db * random) Z :=
  if bool_decide (ic_dburi c = "") then main_syntaxErr
  else match args with
       | [] => fatalErr (_ ← init_run oenv env "" ""; mret tt)
       | [id; secret] => fatalErr (_ ← init_run oenv env id secret; mret tt)
       | _ => main_syntaxErr
       end.

(** ** HTTP servers *)
Section HTTPServer.
Context {S : Type} {certificate pool : Type}.

Record http_Server : Type := mkHTTPServer {
  srv_Addr : string;
  srv_Handler : handler S;
  srv_ReadHeaderTimeout : Z;
  srv_IdleTimeout : Z;
  srv_TLSConfig : option (tls_Config certificate pool) }.

(** Seconds. *)
Definition makeHTTPServer (h : handler S) (addr : string) (tlsConf : option (tls_Config certificate pool)) : http_Server :=
  mkHTTPServer addr h 10 900 tlsConf.

(** [http.Server.ListenAndServe] accepts plain connections, whatever the TLS
    configuration: a request that arrives on one has no TLS state. *)
Definition plain (req : request) : request :=
  mkRequest (rq_method req) (rq_path req) (rq_query req) (rq_auth req) None (rq_body req).

Definition runHTTPServer (srv : http_Server) (req : request) : M S response := serve (srv_Handler srv) (plain req).

End HTTPServer.
Arguments http_Server : clear implicits.

(** ** wig api *)
Record apiCommand : Type := mkApiCommand {
  ac_serverTLS : TLSFlags;
  ac_client : ClientCommand;
  ac_addr : string;
  ac_dburi : string;
  ac_maxLogAge : Z;
  ac_logURL : string;
  ac_authType : string;
  ac_authTLSRoleSpec : string }.

Definition no_apiCommand : apiCommand := mkApiCommand no_TLSFlags no_ClientCommand "" "" 0 "" "" "".

Definition nanosecond : Z := 1.
Definition hour : Z := 3600 * 1000000000 * nanosecond.

Definition apiCommand_SetFlags (ParseDuration : string → res Z) (conf : gmap string string) : M (apiCommand * FlagSet apiCommand) unit :=
  _ ← StringVar (λ f c, mkApiCommand (ac_serverTLS c) (ac_client c) (f (ac_addr c)) (ac_dburi c) (ac_maxLogAge c) (ac_logURL c) (ac_authType c)
    (ac_authTLSRoleSpec c)) "addr" ":5005";
  _ ← StringVar (λ f c, mkApiCommand (ac_serverTLS c) (ac_client c) (ac_addr c) (f (ac_dburi c)) (ac_maxLogAge c) (ac_logURL c) (ac_authType c)
    (ac_authTLSRoleSpec c)) "db" "";
  _ ← DurationVar ParseDuration (λ f c, mkApiCommand (ac_serverTLS c) (ac_client c) (ac_addr c) (ac_dburi c) (f (ac_maxLogAge c)) (ac_logURL c)
    (ac_authType c) (ac_authTLSRoleSpec c)) "max-log-age" (120 * 24 * hour);
  _ ← StringVar (λ f c, mkApiCommand (ac_serverTLS c) (ac_client c) (ac_addr c) (ac_dburi c) (ac_maxLogAge c) (f (ac_logURL c)) (ac_authType c)
    (ac_authTLSRoleSpec c)) "log-url" "";
  _ ← StringVar (λ f c, mkApiCommand (ac_serverTLS c) (ac_client c) (ac_addr c) (ac_dburi c) (ac_maxLogAge c) (ac_logURL c) (f (ac_authType c))
    (ac_authTLSRoleSpec c)) "auth" "bearer";
  _ ← StringVar (λ f c, mkApiCommand (ac_serverTLS c) (ac_client c) (ac_addr c) (ac_dburi c) (ac_maxLogAge c) (ac_logURL c) (ac_authType c)
    (f (ac_authTLSRoleSpec c))) "tls-roles" "";
  _ ← ServerTLSFlags_SetFlags (λ f c, mkApiCommand (f (ac_serverTLS c)) (ac_client c) (ac_addr c) (ac_dburi c) (ac_maxLogAge c) (ac_logURL c)
    (ac_authType c) (ac_authTLSRoleSpec c));
  ClientCommand_SetFlags conf (λ f c, mkApiCommand (ac_serverTLS c) (f (ac_client c)) (ac_addr c) (ac_dburi c) (ac_maxLogAge c) (ac_logURL c)
    (ac_authType c) (ac_authTLSRoleSpec c)).

Section ApiCommand.
Context `{ErrorTexts} `{RG : Ranger} `{CR : CRUD} `{EN : Encoding}.
Context {certificate pool : Type} (fs : string → res string)
  (LoadX509KeyPair : string → string → res certificate) (AppendCertsFromPEM : string → option pool).
Context (geo_fs : string → option (res (IP → res geo_record))).

(** A node: its state, the interval of its expiration task (in seconds) on a
    primary, the client of its replication on a follower, its server. *)
Record api_node : Type := mkNode {
  an_state : logdb * finder;
  an_expire : option Z;
  an_follow : option ((request → M (logdb * finder) response) → request → M (logdb * finder) response);
  an_server : http_Server (logdb * finder) certificate pool }.

(** [qord] and [ord] are the orders of iteration over query maps and over the
    types. *)
Definition apiCommand_run (c : apiCommand) (env : tx_env) (now : time)
    (qord : gmap string string → list (string * string)) (ord : list sqlTableAdapter) (file : db) : res api_node :=
  d ← OpenDB env Migrations file;
  let primary := bool_decide (ac_logURL c = "") in
  follow ← (if primary then mret None else
              _ ← TLSClientConfig fs LoadX509KeyPair AppendCertsFromPEM (cc_tls (ac_client c));
              mret (Some (RoundTrip (cc_authToken (ac_client c)) (cc_authSecret (ac_client c)))));
  tlsConf ← TLSServerConfig fs LoadX509KeyPair AppendCertsFromPEM (ac_serverTLS c);
  hapi ← apiCommand_api env (ac_authType c) (ac_authTLSRoleSpec c);
  stats ← (if primary then NewSessionManager geo_fs env d else mret ([], mkFinder None None));
  mret (mkNode (Wrap d, stats.2) (if primary then Some (30 * 60) else None) follow
          (makeHTTPServer (server_handler stats.1 hapi (ac_logURL c) env now qord ord) (ac_addr c) tlsConf)).

End ApiCommand.

(** ** wig gateway *)
Record gwCommand : Type := mkGwCommand {
  gc_client : ClientCommand;
  gc_logURL : string;
  gc_statusURL : string;
  gc_httpAddr : string }.

Definition no_gwCommand : gwCommand := mkGwCommand no_ClientCommand "" "" "".

Definition gwCommand_SetFlags (conf : gmap string string) : M (gwCommand * FlagSet gwCommand) unit :=
  _ ← StringVar (λ f c, mkGwCommand (gc_client c) (f (gc_logURL c)) (gc_statusURL c) (gc_httpAddr c)) "log-url" "";
  _ ← StringVar (λ f c, mkGwCommand (gc_client c) (gc_logURL c) (f (gc_statusURL c)) (gc_httpAddr c)) "status-url" "";
  _ ← StringVar (λ f c, mkGwCommand (gc_client c) (gc_logURL c) (gc_statusURL c) (f (gc_httpAddr c))) "metrics-addr" ":4007";
  ClientCommand_SetFlags conf (λ f c, mkGwCommand (f (gc_client c)) (gc_logURL c) (gc_statusURL c) (gc_httpAddr c)).

Section GwCommand.
Context `{ErrorTexts} {P EP : Type} `{SRC : LogSource P EP} {K : Type} `{KN : Kernel K}.
Context {certificate pool : Type} (fs : string → res string)
  (LoadX509KeyPair : string → string → res certificate) (AppendCertsFromPEM : string → option pool).

(** The gateway follows the remote log until that fails, then stops its
    interfaces: [hapi] guards the server, [ctrl] is what opening the WireGuard
    control interface gives, [ord] the order in which the interfaces are
    stopped.  The state is the server's and the gateway's. *)
Definition gwCommand_run (c : gwCommand) (hapi : API P) (ctrl : res unit) (uri : string)
    (rounds : list (follow_env (list (net_env (EP := EP))) (list Interface) * list follow_event)) (ord : list Interface)
  : M (P * (gateway * K)) unit :=
  _ ← lift_res (TLSClientConfig fs LoadX509KeyPair AppendCertsFromPEM (cc_tls (gc_client c)));
  _ ← lift_res ctrl;
  _ ← modify (λ s, (s.1, (new_gateway, s.2.2)));
  deferred (on_snd (gateway_Close ord))
    (Follow (H := remote_source hapi (cc_authToken (gc_client c)) (cc_authSecret (gc_client c)) uri) rounds).

End GwCommand.

(** ** Lemmas: random strings *)
Definition usable (src : list Z) : list Z := filter (λ b, b < 62) src.

Definition text_of (bs : list Z) : string :=
  foldr (λ b s, String (default "000"%char (String.get (Z.to_nat b) alphabet)) s) "" bs.

Lemma randomInt_run src :
  match usable src with
  | [] => randomInt 62 (Some <$> src) = (Hang, [])
  | b :: bs => ∃ rest, randomInt 62 (Some <$> src) = (Ok b, Some <$> rest) ∧ usable rest = bs ∧ rest ⊆ src ∧ b ∈ src ∧ b < 62
  end.
Proof.
  unfold randomInt, usable. induction src as [|b src IH]; [done|]. rewrite filter_cons. cbn [fmap list_fmap randomInt_loop].
  case_decide as Hb.
  - exists src. rewrite bool_decide_eq_true_2 by done. split_and!; [done..|set_solver|set_solver|done].
  - rewrite bool_decide_eq_false_2 by done. destruct (filter _ src) as [|b' bs]; [done|].
    destruct IH as (rest & Hr & Hu & Hsub & Hin & Hlt). exists rest. split_and!; [done..|set_solver|set_solver|done].
Qed.

(** The alphabet's positions and characters (checked on all of them). *)
Lemma alphabet_get b : 0 ≤ b < 62 → ∃ c, String.get (Z.to_nat b) alphabet = Some c ∧ contains c alphabet = true.
Proof.
  intros Hb. assert (Hall : forallb (λ n, match String.get n alphabet with Some c => contains c alphabet | None => false end) (seq 0 62) = true)
    by (vm_compute; reflexivity).
  rewrite forallb_forall in Hall. specialize (Hall (Z.to_nat b) ltac:(apply in_seq; lia)).
  destruct (String.get (Z.to_nat b) alphabet) as [c|]; [by exists c|done].
Qed.

Lemma alphabet_distinct b b' :
  0 ≤ b < 62 → 0 ≤ b' < 62 → String.get (Z.to_nat b) alphabet = String.get (Z.to_nat b') alphabet → b = b'.
Proof.
  intros Hb Hb' E. assert (Hall : forallb (λ n, forallb (λ m, bool_decide (String.get n alphabet = String.get m alphabet → n = m)) (seq 0 62)) (seq 0 62) = true)
    by (vm_compute; reflexivity).
  rewrite forallb_forall in Hall. specialize (Hall (Z.to_nat b) ltac:(apply in_seq; lia)).
  rewrite forallb_forall in Hall. specialize (Hall (Z.to_nat b') ltac:(apply in_seq; lia)).
  apply bool_decide_eq_true in Hall. specialize (Hall E). lia.
Qed.

Lemma random_chars_run len src :
  Forall (λ b, 0 ≤ b) src →
  if decide (len ≤ length (usable src))%nat
  then ∃ rest, random_chars len (Some <$> src) = (Ok (text_of (take len (usable src))), Some <$> rest) ∧ usable rest = drop len (usable src)
  else random_chars len (Some <$> src) = (Hang, []).
Proof.
  revert src. induction len as [|len IH]; intros src Hpos.
  - case_decide; [|lia]. exists src. split; [done|]. by rewrite drop_0.
  - cbn [random_chars]. change (Z.of_nat (String.length alphabet)) with 62. pose proof (randomInt_run src) as Hr.
    destruct (usable src) as [|b bs]; cbn [length].
    + case_decide; [lia|]. by apply bind_Hang.
    + destruct Hr as (rest & Hr & Hu & Hsub & Hin & Hlt). rewrite (bind_Ok _ _ _ _ _ Hr). rewrite Forall_forall in Hpos.
      destruct (alphabet_get b) as (c & Hc & _); [split; [by apply Hpos|done]|].
      unfold alphabet_at. rewrite Hc. cbn [mbind M_bind mret M_ret].
      specialize (IH rest). rewrite Hu in IH. assert (Hp : Forall (λ b, 0 ≤ b) rest) by (apply Forall_forall; auto).
      specialize (IH Hp). unfold mbind, M_bind, mret, M_ret.
      destruct (decide (len ≤ length bs)%nat) as [Hl|Hl]; (case_decide; [try lia|try lia]).
      * destruct IH as (rest' & Hrun & Hu'). exists rest'. rewrite Hrun. split; [|done].
        change (text_of (take (S len) (b :: bs))) with
          (String (default "000"%char (String.get (Z.to_nat b) alphabet)) (text_of (take len bs))). by rewrite Hc.
      * by rewrite IH.
Qed.

Lemma text_of_length bs : String.length (text_of bs) = length bs.
Proof.
  induction bs as [|b bs IH]; [done|]. change (String.length (text_of (b :: bs))) with (S (String.length (text_of bs))). by rewrite IH.
Qed.

Lemma text_of_chars bs : Forall (λ b, 0 ≤ b < 62) bs → all_chars (λ c, contains c alphabet) (text_of bs) = true.
Proof.
  induction 1 as [|b bs Hb _ IH]; [done|]. destruct (alphabet_get b Hb) as (c & Hc & Hin).
  change (text_of (b :: bs)) with (String (default "000"%char (String.get (Z.to_nat b) alphabet)) (text_of bs)). rewrite Hc.
  change (contains c alphabet && all_chars (λ c, contains c alphabet) (text_of bs) = true). by rewrite Hin, IH.
Qed.

(** ** Properties *)

(** C36: generated identifiers and secrets: with enough usable bytes from the
    system's generator (32 below 62) the result is a string of exactly 32
    characters of the alphabet, made of the first 32 usable bytes in order, and
    indexing the alphabet never fails; with fewer the loop is still waiting.
    Each character stands for exactly one byte value, so that bytes that are
    uniformly distributed give characters that are. *)
Theorem generateRandomString_bounds src :
  Forall (λ b, 0 ≤ b < 256) src →
  let good := filter (λ b, b < 62) src in
  ((32 ≤ length good)%nat → ∃ s rest, generateRandomString (Some <$> src) = (Ok s, rest) ∧
     s = text_of (take 32 good) ∧ String.length s = 32%nat ∧ all_chars (λ c, contains c alphabet) s = true) ∧
  ((length good < 32)%nat → (generateRandomString (Some <$> src)).1 = Hang) ∧
  (∀ b b', 0 ≤ b < 62 → 0 ≤ b' < 62 → text_of [b] = text_of [b'] → b = b').
Proof.
  intros Hsrc. cbv zeta. fold (usable src). assert (Hpos : Forall (λ b, 0 ≤ b) src) by (eapply Forall_impl; [exact Hsrc|intros b; cbn; lia]).
  pose proof (random_chars_run secretLen src Hpos) as Hr. change (random_chars secretLen) with generateRandomString in Hr.
  change secretLen with 32%nat in Hr. split_and!.
  - intros Hlen. case_decide; [|done]. destruct Hr as (rest & Hr & _). eexists _, _. split; [exact Hr|]. split; [done|].
    rewrite text_of_length, length_take. split; [lia|]. apply text_of_chars.
    apply Forall_take. unfold usable. apply Forall_forall. intros b Hb. apply list_elem_of_filter in Hb as [Hlt Hin].
    rewrite Forall_forall in Hpos. split; [by apply Hpos|done].
  - intros Hlen. case_decide; [lia|]. by rewrite Hr.
  - intros b b' Hb Hb' E. destruct (alphabet_get b Hb) as (c & Hc & _), (alphabet_get b' Hb') as (c' & Hc' & _).
    apply alphabet_distinct; [done..|]. unfold text_of in E. cbn [foldr] in E. rewrite Hc, Hc' in E |- *. cbn in E. congruence.
Qed.

Lemma generateRandomString_bounds_witness :
  let src := app (replicate 5 200) (Z.of_nat <$> seq 0 40) in
  ∃ s rest, generateRandomString (Some <$> src) = (Ok s, rest) ∧ String.length s = 32%nat.
Proof.
  destruct (proj1 (generateRandomString_bounds (app (replicate 5 200) (Z.of_nat <$> seq 0 40))
    ltac:(apply (bool_decide_unpack _); vm_compute; exact I)) ltac:(vm_compute; lia)) as (s & rest & Hr & _ & Hl & _).
  by exists s, rest.
Defined.

(** *** The first administrator *)

(** A token with the identifier exists. *)
Definition token_taken (id : string) (d : db) : bool :=
  match tables d !! "tokens" with
  | Some tb => existsb (λ r, bool_decide (row_get r "id" = SText id)) (t_rows tb)
  | None => false
  end.

Definition admin_row (id secret : string) : row :=
  full_row tokens_schema [("id", SText id); ("secret", SText secret); ("roles", SText "admin")].

Lemma admin_row_get id secret :
  row_get (admin_row id secret) "id" = SText id ∧ row_get (admin_row id secret) "secret" = SText secret ∧
  row_get (admin_row id secret) "roles" = SText "admin".
Proof. done. Qed.

Lemma insert_admin_run id secret d tb :
  tables d !! "tokens" = Some tb → t_schema tb = tokens_schema →
  insert_admin id secret d =
    if token_taken id d then (Err (ESql SqlUnique), d)
    else (Ok tt, set_rows "tokens" (app (t_rows tb) [admin_row id secret]) d).
Proof.
  intros Htb Hsc. unfold insert_admin, insert_into, get_table, guard_sql. m_unfold. rewrite Htb, Hsc.
  fold (admin_row id secret). unfold token_taken. rewrite Htb.
  change (cols_known _ _) with true. change (notnull_ok tokens_schema (admin_row id secret)) with true.
  change (fks_ok d tokens_schema (admin_row id secret)) with true. cbv iota beta.
  assert (Hf : pk_fresh tokens_schema (t_rows tb) (admin_row id secret) =
    negb (existsb (λ r, bool_decide (row_get r "id" = SText id)) (t_rows tb))).
  { change (bool_decide (SText id ∉ (λ r, row_get r "id") <$> t_rows tb) =
      negb (existsb (λ r, bool_decide (row_get r "id" = SText id)) (t_rows tb))).
    apply eq_true_iff_eq. rewrite bool_decide_eq_true, negb_true_iff, <- not_true_iff_false, existsb_exists, list_elem_of_fmap.
    setoid_rewrite bool_decide_eq_true. setoid_rewrite <- list_elem_of_In. naive_solver. }
  rewrite Hf. by destruct (existsb _ (t_rows tb)).
Qed.

(** The token is found again. *)
Lemma find_admin id secret d tb :
  tables d !! "tokens" = Some tb → t_schema tb = tokens_schema → token_taken id d = false →
  let d' := set_rows "tokens" (app (t_rows tb) [admin_row id secret]) d in
  find_token id d' = (Ok ("admin", secret), d').
Proof.
  intros Htb Hsc Hfree d'. unfold token_taken in Hfree. rewrite Htb in Hfree.
  assert (Htb' : tables d' !! "tokens" = Some (Table tokens_schema (app (t_rows tb) [admin_row id secret]))).
  { unfold d', set_rows. cbn. by rewrite lookup_alter_eq, Htb; cbn; rewrite Hsc. }
  unfold find_token, Queryx, select_where, get_table, guard_sql. m_unfold. cbn [bind_pos]. m_unfold. rewrite Htb'.
  change (cols_known _ _) with true. cbv iota beta. cbn [t_rows t_schema].
  rewrite filter_app, (filter_none _ (t_rows tb)).
  - rewrite filter_cons_True; [reflexivity|].
    change (bool_decide (id = id) && true = true). by rewrite bool_decide_eq_true_2.
  - apply Forall_forall. intros r Hr Hm. apply not_true_iff_false in Hfree. apply Hfree. apply existsb_exists. exists r.
    split; [by apply list_elem_of_In|]. apply bool_decide_eq_true.
    change (matches tokens_schema _ r) with (sql_eq AText (row_get r "id") (SText id) && true) in Hm.
    destruct (row_get r "id"); cbn in Hm; try done. rewrite andb_true_r in Hm. by apply bool_decide_eq_true in Hm as ->.
Qed.

(** C21: [wig init] makes an administrator: on a consistent datastore it adds
    the chosen or generated token unless its identifier is taken, which is an
    error that changes nothing; afterwards a request with that identifier and
    secret is authenticated as an administrator and has every permission of the
    rules.  The token does not go through the log: the log table and the
    sequence number are those of before, so that followers are not told. *)
Theorem init_grants_admin file d rnd id secret rnd' id' secret' :
  OpenDB tx_ok Migrations file = Ok d → db_ok d → schemas d = datastore_schemas →
  token_choice id secret rnd = (Ok (id', secret'), rnd') →
  if token_taken id' d then init_run tx_ok tx_ok id secret (file, rnd) = (Err (ESql SqlUnique), (d, rnd'))
  else ∃ d', init_run tx_ok tx_ok id secret (file, rnd) = (Ok (id', secret'), (d', rnd')) ∧
    db_ok d' ∧ tables d' !! "log" = tables d !! "log" ∧ GetSequence d' = GetSequence d ∧
    ∀ req, rq_auth req = Some (id', secret') →
      bearer_CredentialsFromRequest tx_ok req d' = (Ok (Some (mkCreds id' ["admin"])), d') ∧
      ∀ role target, target ∈ targetsForRole rbacRules role → HasPermission rbacRules (Some (mkCreds id' ["admin"])) target = true.
Proof.
  intros Hopen Hok Hsc Hch. destruct (lookup_schemas d "tokens" tokens_schema) as (tb & Htb & Htsc); [by rewrite Hsc|].
  pose proof (insert_admin_run id' secret' d tb Htb Htsc) as Hins.
  unfold init_run, open_db, on_fst, on_snd. m_unfold. cbn [fst snd]. rewrite Hopen. cbn [fst snd]. rewrite Hch. cbn [fst snd].
  unfold WithTx. cbn [begin_err commit_err tx_ok fst snd the_db set_db]. rewrite Hins.
  destruct (token_taken id' d) eqn:Hfree; [done|]. eexists. split; [reflexivity|]. split_and!.
  - by eapply insert_into_db_ok.
  - unfold set_rows. cbn. by rewrite lookup_alter_ne.
  - unfold GetSequence, set_rows. cbn. by rewrite lookup_alter_ne.
  - intros req Hreq. split.
    + unfold bearer_CredentialsFromRequest. rewrite Hreq. unfold WithTx, on_db. m_unfold.
      cbn [begin_err commit_err tx_ok the_db set_db db_has_db]. rewrite (find_admin id' secret' d tb) by done. cbn [fst snd].
      by rewrite bool_decide_eq_false_2 by tauto.
    + intros role target Hin. apply admin_has_all, existsb_target in Hin.
      cbn [HasPermission cr_Roles existsb]. by rewrite Hin.
Qed.

Lemma init_grants_admin_witness :
  ∃ d', init_run tx_ok tx_ok "root" "s3cret" (empty_file, []) = (Ok ("root", "s3cret"), (d', [])) ∧
    bearer_CredentialsFromRequest tx_ok (mkRequest "GET" "/" ∅ (Some ("root", "s3cret")) None None) d' =
      (Ok (Some (mkCreds "root" ["admin"])), d').
Proof.
  pose proof (init_grants_admin empty_file initial_db [] "root" "s3cret" [] "root" "s3cret") as Hi.
  replace (token_taken "root" initial_db) with false in Hi by (vm_compute; reflexivity).
  destruct Hi as (d' & Hrun & _ & _ & _ & Hauth).
  - vm_compute. reflexivity.
  - apply initial_db_ok.
  - apply initial_db_schemas.
  - reflexivity.
  - exists d'. split; [exact Hrun|]. by apply Hauth.
Defined.

(** *** Certificates over plain connections *)
Section Refusal.
Context `{ErrorTexts} {S : Type}.

(** A handler that turns every plain request away and changes nothing. *)
Definition refuses (h : handler S) : Prop :=
  ∀ req s, rq_tls req = None →
    ∃ w status, h req (s, new_rwriter) = (Ok tt, (s, w)) ∧ rs_status (finish w) = status ∧ status ∈ [301; 401; 404].

Lemma refuses_mux (m : list (string * handler S)) : Forall (λ p, refuses p.2) m → refuses (mux_handler m).
Proof.
  intros Hm req s Hreq. unfold mux_handler. cbv zeta. destruct (_ || _); [eexists _, 301; by split_and!; [done|done|left]|].
  destruct (mux_lookup m _) as [h|] eqn:E.
  - apply mux_lookup_elem in E as (p & Hp & <-). rewrite Forall_forall in Hm. by apply Hm.
  - eexists _, 404. split_and!; [done|done|]. set_solver.
Qed.

Lemma refuses_WithAuth (hapi : API S) m target h :
  api_authn hapi = tls_CredentialsFromRequest m → refuses (WithAuth hapi target h).
Proof.
  intros Ha req s Hreq. unfold WithAuth, guard_auth, try, on_fst. m_unfold. rewrite Ha. unfold tls_CredentialsFromRequest. rewrite Hreq.
  eexists _, 401. split_and!; [done|done|]. set_solver.
Qed.

End Refusal.

Lemma refuses_routes `{ErrorTexts} `{RG : Ranger} `{CR : CRUD} `{EN : Encoding} dbs (hapi : API (logdb * finder)) m
    logURL env now qord ord :
  api_authn hapi = tls_CredentialsFromRequest m →
  Forall (λ p, refuses p.2) (server_routes dbs hapi logURL env now qord ord).
Proof.
  intros Ha. unfold server_routes. repeat rewrite Forall_app. repeat split.
  - unfold Model_API. apply Forall_fmap, Forall_forall. intros t _. apply refuses_mux.
    repeat (apply Forall_cons_2; [by eapply refuses_WithAuth|]). apply Forall_nil_2.
  - repeat (apply Forall_cons_2; [by eapply refuses_WithAuth|]). apply Forall_nil_2.
  - destruct (bool_decide _); [|apply Forall_nil_2].
    repeat (apply Forall_cons_2; [by eapply refuses_WithAuth|]). apply Forall_nil_2.
Qed.

(** Authentication by certificates locks everybody out: a server that was
    started for it, with whatever certificates, accepts plain connections only,
    so that no request has a certificate; every request is answered as not
    found, moved or unauthenticated, and nothing changes. *)
Theorem mtls_locks_out `{ErrorTexts} `{RG : Ranger} `{CR : CRUD} `{EN : Encoding} {certificate pool} fs keypair pem geo_fs c env now
    qord ord file (node : api_node (certificate := certificate) (pool := pool)) req :
  apiCommand_run fs keypair pem geo_fs c env now qord ord file = Ok node → ac_authType c = "mtls" ∨ ac_authType c = "tls" →
  ∃ resp, runHTTPServer (an_server node) req (an_state node) = (Ok resp, an_state node) ∧ rs_status resp ∈ [301; 401; 404].
Proof.
  intros Hrun Hty. unfold apiCommand_run in Hrun. destruct (OpenDB env Migrations file) as [d| | |]; [|done..]. cbn [mbind res_bind] in Hrun.
  destruct (if bool_decide (ac_logURL c = "") then mret None else _) as [follow| | |]; [|done..]. cbn [mbind res_bind] in Hrun.
  destruct (TLSServerConfig _ _ _ _) as [tlsConf| | |]; [|done..]. cbn [mbind res_bind] in Hrun.
  destruct (apiCommand_api env (ac_authType c) (ac_authTLSRoleSpec c)) as [hapi| | |] eqn:Hapi; [|done..]. cbn [mbind res_bind] in Hrun.
  destruct (if bool_decide (ac_logURL c = "") then NewSessionManager geo_fs env d else _) as [stats| | |]; [|done..]. injection Hrun as <-.
  cbn [an_server an_state]. unfold runHTTPServer, makeHTTPServer. cbn [srv_Handler].
  assert (Hauthn : ∃ m, api_authn hapi = tls_CredentialsFromRequest m).
  { assert (ac_authType c ≠ "none" ∧ ac_authType c ≠ "bearer") as [Hn Hb] by (destruct Hty as [E|E]; by rewrite E).
    unfold apiCommand_api in Hapi. rewrite (bool_decide_eq_false_2 _ Hn), (bool_decide_eq_false_2 _ Hb) in Hapi.
    rewrite (bool_decide_eq_true_2 _ Hty) in Hapi. case_bool_decide; [done|].
    destruct (NewTLSAuthn _) as [m| | |]; [|done..]. injection Hapi as <-. by exists m. }
  destruct Hauthn as [m Ha].
  destruct (refuses_mux _ (refuses_routes stats.1 hapi m (ac_logURL c) env now qord ord Ha) (plain req) (Wrap d, stats.2) eq_refl)
    as (w & status & Hh & Hst & Hin).
  unfold serve, server_handler. rewrite Hh. eexists. split; [reflexivity|]. by rewrite Hst.
Qed.

#[local] Existing Instances quiet_texts model_encoding list_ranger.

Lemma mtls_locks_out_witness :
  let c := mkApiCommand (mkTLSFlags "cert" "key" "ca") no_ClientCommand ":5005" "wig.db" 0 "" "mtls" "alice=admin" in
  ∃ node resp,
    apiCommand_run (CR := model_crud sample_ord 1) (λ _, Ok "") (λ _ _, Ok tt) (λ _, Some tt) (λ _, None) c tx_ok 7 map_to_list sample_ord empty_file = Ok node ∧
    runHTTPServer (an_server node) (mkRequest "POST" "/api/v1/peer/create" ∅ None (Some ["alice"]) None) (an_state node) =
      (Ok resp, an_state node) ∧ rs_status resp ∈ [301; 401; 404].
Proof.
  cbn zeta. set (c := mkApiCommand _ _ _ _ _ _ _ _).
  set (run := apiCommand_run _ _ _ _ c _ _ _ _ _). assert (Hok : is_ok run = true) by (vm_compute; reflexivity).
  destruct run as [node| | |] eqn:E; [|discriminate Hok..].
  destruct (mtls_locks_out (CR := model_crud sample_ord 1) (λ _, Ok "") (λ _ _, Ok tt) (λ _, Some tt) (λ _, None) c tx_ok 7 map_to_list
    sample_ord empty_file node (mkRequest "POST" "/api/v1/peer/create" ∅ None (Some ["alice"]) None)) as (resp & Hr & Hin).
  - exact E.
  - left. reflexivity.
  - by exists node, resp.
Defined.
