(* ===== verification/GatewayRun.v ===== *)
(** * The devices of a gateway

    What a run of [wig gateway] does to the devices of its host, from the start
    to the end: [gwCommand.run] with every change and snapshot that [Follow]
    brings, whatever fails on the way, and the deferred [Gateway.Close]. *)

From S2P Require Import Prelude GoStrings Sql Sqlite Net Model Crud CrudLog Follow Gateway GatewaySpec GatewaySync GatewaySink Http RemoteLog FlagSet Flags Cmd.
Local Open Scope string_scope.

Section Devices.
Context `{WK : WgKeys} {WL : WgKeysLaws} {K : Type} {KN : Kernel K} {KL : KernelLaws}.

(** Names of devices that the gateway may touch. *)
Context (N : string → Prop).

(** ** Calls that stay within the names *)
Definition named (g : gateway) : Prop := ∀ n i, gw_intfs g !! n = Some i → N n ∧ i_Name i = n.

Definition untouched (k k' : K) : Prop := ∀ n, ¬ N n → kview k' !! n = kview k !! n.

Definition keeps {A} (m : M (gateway * K) A) (s : gateway * K) : Prop :=
  named s.1 → named (m s).2.1 ∧ untouched s.2 (m s).2.2.

Lemma keeps_bind {A B} (m : M (gateway * K) A) (f : A → M (gateway * K) B) s :
  keeps m s → (∀ a s1, m s = (Ok a, s1) → named s1.1 → keeps (f a) s1) → keeps (m ≫= f) s.
Proof.
  intros Hm Hf Hn. destruct (Hm Hn) as [Hn1 Hu1]. m_unfold. destruct (m s) as [[a|e|p|] s1] eqn:E; cbn [fst snd] in *; try done.
  destruct (Hf a s1 eq_refl Hn1 Hn1) as [Hn2 Hu2]. split; [done|]. intros n HN. by rewrite Hu2, Hu1.
Qed.

Lemma keeps_pure {A} (m : M (gateway * K) A) s : (m s).2 = s → keeps m s.
Proof. intros E Hn. by rewrite E. Qed.

Lemma keeps_gateway {A} (m : M (gateway * K) A) s : (named s.1 → named (m s).2.1) → (m s).2.2 = s.2 → keeps m s.
Proof. intros Hg Hk Hn. split; [by apply Hg|]. by rewrite Hk. Qed.

Lemma keeps_kernel {A} n (m : M K A) s : N n → frames n m → keeps (on_snd m) s.
Proof.
  intros HN Hm Hn. destruct s as [g k]. rewrite on_snd_run. cbn [fst snd] in *. specialize (Hm k). destruct (m k) as [r k']. cbn in *.
  split; [done|]. intros n' Hn'. apply Hm. by intros ->.
Qed.

Lemma keeps_try {A} (m : M (gateway * K) A) s : keeps m s → keeps (try m) s.
Proof. intros Hm Hn. specialize (Hm Hn). unfold try. by destruct (m s) as [[] ?]. Qed.

Lemma keeps_ignore (m : M (gateway * K) unit) s : keeps m s → keeps (ignore_err m) s.
Proof. intros Hm. apply keeps_bind; [by apply keeps_try|]. intros r s1 _ _. by apply keeps_pure. Qed.

Lemma keeps_set_intf n i s : N n → i_Name i = n → keeps (set_intf n i) s.
Proof.
  intros HN Hi. apply keeps_gateway; [|done]. intros Hn n' i' Hl. cbn in Hl. apply lookup_insert_Some in Hl as [[<- <-]|[_ Hl]]; [done|].
  by apply Hn.
Qed.

Lemma keeps_del_intf n s : keeps (del_intf n) s.
Proof. apply keeps_gateway; [|done]. intros Hn n' i' Hl. cbn in Hl. apply lookup_delete_Some in Hl as [_ Hl]. by apply Hn. Qed.

(** ** Operations of an interface *)
Lemma frames_delete_link n : frames n (delete_link n).
Proof.
  destruct (frames_calls n (mkIPNet [] []) (mkConfig None None None false []) 0) as (H1 & H2 & _).
  apply frames_bind; [by apply frames_wrap|]. intros _. by apply frames_wrap.
Qed.

Lemma frames_stopInterface i : frames (i_Name i) (stopInterface i).
Proof.
  apply frames_bind; [apply frames_try, frames_link_by_name|]. intros [?|?]; [apply frames_delete_link|apply frames_mret].
Qed.

Lemma frames_configure n c : frames n (ConfigureDevice n c).
Proof. by destruct (frames_calls n (mkIPNet [] []) c 0) as (_ & _ & _ & _ & _ & ?). Qed.

Lemma frames_initialize i : frames (i_Name i) (initialize i).
Proof. apply frames_bind; [apply frames_lift|]. intros key. apply frames_configure. Qed.

Lemma frames_startInterface i : frames (i_Name i) (startInterface i).
Proof.
  pose proof (λ a, frames_calls (i_Name i) a (mkConfig None None None false []) 1420) as Hc.
  destruct (Hc (mkIPNet [] [])) as (_ & _ & H3 & H4 & _).
  assert (Ha : ∀ c, frames (i_Name i) (add_addr (i_Name i) c)).
  { intros [c|]; [|apply frames_mret]. apply frames_wrap. by apply (Hc (c_IPNet c)). }
  apply frames_bind; [apply frames_try, frames_link_by_name|]. intros r.
  apply frames_bind; [destruct r; [apply frames_delete_link|apply frames_mret]|]. intros _.
  apply frames_bind; [by apply frames_wrap|]. intros _. apply frames_bind; [done|]. intros _. by apply frames_bind.
Qed.

Lemma keeps_configure i c s : (∀ j, i = Some j → N (i_Name j)) → keeps (configureWGDevice i c) s.
Proof. intros Hi. destruct i as [j|]; [|by apply keeps_pure]. apply (keeps_kernel (i_Name j)); [by apply Hi|apply frames_configure]. Qed.

(** What a lookup gives. *)
Lemma lookup_named n s i s1 : lookup_intf (K := K) n s = (Ok i, s1) → named s1.1 → s1 = s ∧ ∀ j, i = Some j → N (i_Name j) ∧ i_Name j = n ∧ N n.
Proof. intros [= <- <-] Hn. split; [done|]. intros j Hj. destruct (Hn n j Hj) as [HN ->]. done. Qed.

Lemma keeps_applyInterface typ i s : N (i_Name i) → keeps (applyInterface typ i) s.
Proof.
  intros HN. unfold applyInterface. repeat case_bool_decide; [..|by apply keeps_pure];
    (apply keeps_bind; [by apply keeps_pure|]; intros cur s1 Hl Hn; apply lookup_named in Hl as [-> Hl]; [|done]).
  - destruct cur as [?|]; [by apply keeps_pure|]. apply keeps_bind; [by apply (keeps_kernel (i_Name i)); [|apply frames_newInterface]|].
    intros ? ? _ _. by apply keeps_set_intf.
  - destruct cur as [old|]; [|by apply keeps_pure]. destruct (Hl old eq_refl) as (HNo & Hno & _). unfold reconfigure.
    apply keeps_bind; [by apply (keeps_kernel (i_Name old)); [|apply frames_stopInterface]|]. intros ? ? _ _.
    apply keeps_bind; [by apply keeps_set_intf|]. intros ? ? _ _.
    apply keeps_bind; [by apply (keeps_kernel (i_Name i)); [|apply frames_initialize]|]. intros ? ? _ _.
    by apply (keeps_kernel (i_Name i)); [|apply frames_startInterface].
  - destruct cur as [old|]; [|by apply keeps_pure]. destruct (Hl old eq_refl) as (HNo & _).
    apply keeps_bind; [by apply keeps_ignore, (keeps_kernel (i_Name old)); [|apply frames_stopInterface]|]. intros ? ? _ _. apply keeps_del_intf.
Qed.

Lemma keeps_applyPeer typ p s : keeps (applyPeer typ p) s.
Proof.
  unfold applyPeer, leave_old_interface. repeat case_bool_decide; [..|by apply keeps_pure].
  - apply keeps_bind; [by apply keeps_pure|]. intros cur s1 Hl Hn. apply lookup_named in Hl as [-> Hl]; [|done].
    destruct cur as [i|]; [|by apply keeps_pure]. apply keeps_bind; [by apply keeps_gateway|]. intros ? ? _ _.
    apply keeps_bind; [by apply keeps_pure|]. intros cfg ? _ _. apply keeps_configure. intros j Hj. by apply Hl.
  - apply keeps_bind; [by apply keeps_pure|]. intros cur s1 Hl Hn. apply lookup_named in Hl as [-> Hl]; [|done].
    destruct cur as [i|]; [|by apply keeps_pure]. apply keeps_bind.
    { apply keeps_bind; [by apply keeps_pure|]. intros old s1 _ Hn1. destruct (_ && _); [|by apply keeps_pure].
      apply keeps_bind; [by apply keeps_pure|]. intros j s2 Hj Hn2. apply lookup_named in Hj as [-> Hj]; [|done].
      apply keeps_ignore, keeps_configure. intros j' Hj'. by apply Hj. }
    intros ? ? _ _. apply keeps_bind; [by apply keeps_gateway|]. intros ? ? _ _.
    apply keeps_bind; [by apply keeps_pure|]. intros cfg ? _ _. apply keeps_configure. intros j Hj. by apply Hl.
  - apply keeps_bind; [by apply keeps_pure|]. intros i s1 Hi Hn. injection Hi as <- <-.
    apply keeps_bind; [by apply keeps_pure|]. intros cfg s1 _ _. apply keeps_configure. intros j Hj. destruct (Hn _ _ Hj) as [HN ->]. done.
Qed.

(** ** Changes and snapshots *)
Definition obj_named (o : obj) : Prop := match o with OInterface i => N (i_Name i) | _ => True end.

Lemma keeps_Apply o b s : obj_named (op_value o) → keeps (gateway_Apply o b) s.
Proof.
  intros Ho. unfold gateway_Apply. apply keeps_bind.
  - destruct (op_value o); [apply keeps_applyPeer|by apply keeps_applyInterface|by apply keeps_pure..].
  - intros ? ? _ _. by apply keeps_gateway.
Qed.

Lemma keeps_closeAll ord s : Forall (λ i, N (i_Name i)) ord → keeps (closeAllInterfaces ord) s.
Proof.
  intros Hord. unfold closeAllInterfaces. revert s. induction Hord as [|i ord Hi _ IH]; intros s; [by apply keeps_pure|]. cbn [each].
  apply keeps_bind; [by apply keeps_ignore, (keeps_kernel (i_Name i)); [|apply frames_stopInterface]|]. intros ? s1 _ _. apply IH.
Qed.

Definition map_named (m : gmap string Interface) : Prop := ∀ n i, m !! n = Some i → N n ∧ i_Name i = n.

Lemma load_named peers intfs acc k :
  Forall (λ i, N (i_Name i)) intfs → map_named acc.1 →
  untouched k (load_interfaces (K := K) peers intfs acc k).2 ∧
  ∀ r, (load_interfaces (K := K) peers intfs acc k).1 = Ok r → map_named r.1.
Proof.
  intros Hi. revert acc k. induction Hi as [|i intfs Hi _ IH]; intros acc k Hacc; [split; [done|by intros r [= <-]]|]. cbn [load_interfaces].
  assert (Hfr : frames (i_Name i) (load_interface (K := K) peers i acc)).
  { apply frames_bind; [apply frames_newInterface|]. intros _. apply frames_bind; [apply frames_lift|]. intros cfgs.
    apply frames_bind; [apply frames_configure|]. intros _. apply frames_mret. }
  assert (Hu : untouched k (load_interface peers i acc k).2) by (intros n Hn; apply Hfr; by intros ->).
  assert (Hr : ∀ r, (load_interface peers i acc k).1 = Ok r → map_named r.1).
  { intros r. unfold load_interface. m_unfold. repeat case_match; intros; simplify_eq/=; try done.
    intros n j Hl. cbn in Hl. apply lookup_insert_Some in Hl as [[<- <-]|[_ Hl]]; [done|by apply Hacc]. }
  m_unfold. destruct (load_interface peers i acc k) as [[acc'|e|p|] k1]; cbn [fst snd] in *; try (split; [done|]; by intros).
  destruct (IH acc' k1 (Hr acc' eq_refl)) as [Hu2 Hr2]. split; [|done]. intros n Hn. by rewrite Hu2, Hu.
Qed.

Lemma keeps_LoadSnapshot ord snap s :
  Forall (λ i, N (i_Name i)) ord → (∀ sn, snap = Some sn → Forall obj_named (Items sn)) → keeps (gateway_LoadSnapshot ord snap) s.
Proof.
  intros Hord Hs. unfold gateway_LoadSnapshot. destruct snap as [sn|]; [|by apply keeps_pure]. specialize (Hs sn eq_refl).
  destruct (splitSnapshot_spec sn) as [Hi _]. destruct (splitSnapshot sn) as [intfs peers]. cbn [fst snd] in Hi. subst intfs.
  assert (Hin : Forall (λ i, N (i_Name i)) (snap_intfs sn)).
  { rewrite Forall_forall in Hs. apply Forall_forall. intros i Hi. unfold snap_intfs in Hi. apply list_elem_of_omap in Hi as (o & Ho & Hoi).
    specialize (Hs o Ho). destruct o; cbn in Hoi; simplify_eq. done. }
  apply keeps_bind; [by apply keeps_closeAll|]. intros ? s1 _ Hn1 _. destruct s1 as [g k].
  destruct (load_named peers (snap_intfs sn) (∅, ∅) k Hin) as [Hu Hr]; [done|].
  m_unfold. rewrite on_snd_run. cbn [fst snd]. destruct (load_interfaces peers (snap_intfs sn) (∅, ∅) k) as [[r|e|p|] k1]; cbn [fst snd] in *; try done.
  split; [|done]. by apply Hr.
Qed.

(** ** Stopping *)
Lemma stop_gone i k : kernel_reliable (K := K) → kview (stopInterface i k).2 !! i_Name i = None.
Proof.
  intros KR. assert (Hok : (stopInterface i k).1 = Ok tt).
  { unfold stopInterface, try. m_unfold. destruct (LinkByName (i_Name i) k) as [r k1] eqn:E. apply link_by_name in E as [-> Hl].
    destruct r as [|e| |]; try done. by destruct (delete_link_progress KR (i_Name i) k Hl) as [k' ->]. }
  destruct (stopInterface i k) as [r k'] eqn:E. cbn in Hok. subst r. apply stopInterface_Ok in E. cbn. by rewrite E, lookup_delete_eq.
Qed.

Lemma ignore_stop i (g : gateway) k : ignore_err (on_snd (stopInterface i)) (g, k) = (Ok tt, (g, (stopInterface i k).2)).
Proof.
  unfold ignore_err, try. m_unfold. rewrite on_snd_run. pose proof (stopInterface_returns i k) as Hret.
  by destruct (stopInterface i k) as [[[]|e|p|] k1].
Qed.

Lemma close_cons i ord g k :
  closeAllInterfaces (i :: ord) (g, k) = closeAllInterfaces (K := K) ord (g, (stopInterface i k).2).
Proof. unfold closeAllInterfaces. cbn [each]. by rewrite (bind_Ok _ _ _ _ _ (ignore_stop i g k)). Qed.

Lemma close_gone ord g k i :
  kernel_reliable (K := K) → i ∈ ord ∨ kview k !! i_Name i = None → kview (closeAllInterfaces ord (g, k)).2.2 !! i_Name i = None.
Proof.
  intros KR. revert k. induction ord as [|j ord IH]; intros k Hi; [by destruct Hi as [Hi|]; [apply elem_of_nil in Hi|]|].
  rewrite close_cons. apply IH. destruct (decide (i_Name i = i_Name j)) as [E|Hne]; [right; rewrite E; by apply stop_gone|].
  destruct Hi as [Hi|Hi]; [|right; by rewrite stop_frame]. left. apply elem_of_cons in Hi as [->|Hi]; [done|done].
Qed.

(** ** Following *)
Section Following.
Context {P EP : Type} `{SRC : LogSource P EP}.

Definition moves {A} (m : M (P * (gateway * K)) A) (x : P * (gateway * K)) : Prop :=
  named x.2.1 → named (m x).2.2.1 ∧ untouched x.2.2 (m x).2.2.2.

Lemma moves_bind {A B} (m : M (P * (gateway * K)) A) (f : A → M (P * (gateway * K)) B) x :
  moves m x → (∀ a x1, m x = (Ok a, x1) → moves (f a) x1) → moves (m ≫= f) x.
Proof.
  intros Hm Hf Hn. destruct (Hm Hn) as [Hn1 Hu1]. m_unfold. destruct (m x) as [[a|e|p|] x1] eqn:E; cbn [fst snd] in *; try done.
  destruct (Hf a x1 eq_refl Hn1) as [Hn2 Hu2]. split; [done|]. intros n HN. by rewrite Hu2, Hu1.
Qed.

Lemma moves_still {A} (m : M (P * (gateway * K)) A) x : (m x).2.2 = x.2 → moves m x.
Proof. intros E Hn. by rewrite E. Qed.

Lemma moves_source {A} (m : M P A) x : moves (on_fst m) x.
Proof. apply moves_still. unfold on_fst. by destruct (m x.1). Qed.

Lemma moves_sink {A} (m : M (gateway * K) A) x : keeps m x.2 → moves (on_snd m) x.
Proof. intros Hm Hn. specialize (Hm Hn). unfold on_snd. by destruct (m x.2). Qed.

Lemma moves_try {A} (m : M (P * (gateway * K)) A) x : moves m x → moves (try m) x.
Proof. intros Hm Hn. specialize (Hm Hn). unfold try. by destruct (m x) as [[] ?]. Qed.

Lemma moves_wrap {A} msg (m : M (P * (gateway * K)) A) x : moves m x → moves (wrap_err msg m) x.
Proof. intros Hm Hn. specialize (Hm Hn). unfold wrap_err. by destruct (m x) as [[] ?]. Qed.

Lemma moves_deferred {A} c (m : M (P * (gateway * K)) A) x : (∀ x, moves c x) → moves m x → moves (deferred c m) x.
Proof.
  intros Hc Hm Hn. destruct (Hm Hn) as [Hn1 Hu1]. unfold deferred. destruct (m x) as [r x1]. cbn [fst snd] in *.
  destruct (Hc x1 Hn1) as [Hn2 Hu2].
  destruct r as [a|e|p|]; [| | |done]; destruct (c x1) as [[u|e'|p'|] x2]; cbn [fst snd] in *; (split; [done|]; intros n HN; by rewrite Hu2, Hu1).
Qed.

(** The snapshots of the source, and what a round brings, name only such
    devices. *)
Definition source_named : Prop :=
  ∀ env p snap p', src_Snapshot env p = (Ok (Some snap), p') → Forall obj_named (Items snap).

Definition event_named (ev : follow_event) : Prop := match ev with EvOp o => obj_named (op_value o) | _ => True end.

Definition round_named (round : follow_env EP (list Interface) * list follow_event) : Prop :=
  Forall (λ i, N (i_Name i)) (fe_load round.1) ∧ Forall event_named round.2.

Lemma moves_start env x : source_named → Forall (λ i, N (i_Name i)) (fe_load env) → moves (follow_start (F := gateway * K) env) x.
Proof.
  intros Hsrc Hload. unfold follow_start. apply moves_bind; [by apply moves_sink, keeps_pure|]. intros start x1 _.
  apply moves_bind; [apply moves_try, moves_source|]. intros r x2 _. destruct r as [sub|e]; [by apply moves_still|].
  destruct (errors_Is e ErrHorizon); [|by apply moves_still].
  apply moves_bind; [apply moves_wrap, moves_source|]. intros snap x3 Hsnap.
  assert (Hsn : ∀ sn, snap = Some sn → Forall obj_named (Items sn)).
  { intros sn ->. unfold wrap_err, on_fst in Hsnap. destruct (src_Snapshot (fe_snapshot env) x2.1) as [[]] eqn:E; simplify_eq. by eapply Hsrc. }
  apply moves_bind; [by apply moves_wrap, moves_sink, keeps_LoadSnapshot|]. intros ? x4 _.
  destruct snap; [apply moves_wrap, moves_source|by apply moves_still].
Qed.

Lemma keeps_loop env evs s : Forall event_named evs → keeps (follow_loop (F := gateway * K) (EF := list Interface) env evs) s.
Proof.
  intros Hevs. revert s. induction Hevs as [|ev evs Hev _ IH]; intros s; [by apply keeps_pure|]. cbn [follow_loop].
  apply keeps_bind.
  - destruct ev as [o| |e]; [|by apply keeps_pure..]. apply keeps_bind; [|intros ? ? _ _; by apply keeps_pure].
    intros Hn. pose proof (keeps_Apply o true s Hev Hn) as Hk. cbn [sink_Apply gateway_sink]. unfold wrap_err. by destruct (gateway_Apply o true s) as [[] ?].
  - intros [] s1 _ _; [apply IH|by apply keeps_pure].
Qed.

Lemma moves_Follow rounds x : source_named → Forall round_named rounds → moves (Follow (F := gateway * K) rounds) x.
Proof.
  intros Hsrc Hr. revert x. induction Hr as [|[env evs] rounds [Hload Hevs] _ IH]; intros x; [by apply moves_still|]. cbn [Follow fst snd] in *.
  apply moves_bind; [|intros ? x1 _; apply IH]. unfold doFollow. apply moves_bind; [by apply moves_start|]. intros sub x1 _.
  apply moves_deferred; [intros x2; apply moves_source|]. by apply moves_sink, keeps_loop.
Qed.

End Following.
End Devices.

(** ** Property *)

(** C23: a gateway leaves the other devices of its host alone, and its own ones
    behind itself: whatever the log, the network and the kernel do during a run
    of [wig gateway], a device whose name is not that of an interface that the
    gateway received is at the end what it was at the start; and when the run
    ends on a kernel that does what it is asked, no device of an interface that
    the gateway had is left. *)
Theorem gateway_run_devices `{ErrorTexts} `{WK : WgKeys} {WL : WgKeysLaws} {P EP K certificate pool : Type} `{SRC : LogSource P EP} {KN : Kernel K}
    {KL : KernelLaws} fs keypair (pem : string → option pool) (N : string → Prop) c hapi ctrl uri rounds ord s k r s' g' k' :
  gwCommand_run (certificate := certificate) fs keypair pem c hapi ctrl uri rounds ord (s, (new_gateway, k)) = (r, (s', (g', k'))) →
  source_named (SRC := remote_source hapi (cc_authToken (gc_client c)) (cc_authSecret (gc_client c)) uri) N →
  Forall (round_named N) rounds → Forall (λ i, N (i_Name i)) ord →
  (∀ n, ¬ N n → kview k' !! n = kview k !! n) ∧
  (kernel_reliable (K := K) → intf_order g' ord → returned r = true → ∀ n, is_Some (gw_intfs g' !! n) → kview k' !! n = None).
Proof.
  intros Hrun Hsrc Hr Hord. unfold gwCommand_run in Hrun. m_unfold.
  destruct (TLSClientConfig _ _ _ _) as [tls| | |]; [|inv_run; split; [done|]; by intros _ _ _ n [i Hi]..].
  destruct ctrl as [u| | |]; [|inv_run; split; [done|]; by intros _ _ _ n [i Hi]..]. cbn [fst snd] in Hrun.
  assert (Hnew : named N new_gateway) by done.
  pose proof (moves_Follow (SRC := remote_source hapi (cc_authToken (gc_client c)) (cc_authSecret (gc_client c)) uri) N rounds (s, (new_gateway, k)) Hsrc Hr Hnew) as Hm.
  unfold deferred in Hrun. destruct (Follow rounds (s, (new_gateway, k))) as [r1 [p1 [g1 k1]]]. cbn [fst snd] in Hm. destruct Hm as [Hn1 Hu1].
  pose proof (keeps_closeAll N ord (g1, k1) Hord Hn1) as [_ Hu2]. cbn [fst snd] in Hu2.
  rewrite on_snd_run in Hrun. unfold gateway_Close in Hrun. pose proof (close_gone ord g1 k1) as Hgone.
  destruct (closeAllInterfaces ord (g1, k1)) as [r2 [g2 k2]] eqn:Hcl. cbn [fst snd] in *.
  destruct (closeAll_gateway _ _ _ _ _ Hcl) as [Hg Hret]. cbn in Hg. subst g2.
  assert (Hclosed : r1 = Hang ∧ (r, (s', (g', k'))) = (Hang, (p1, (g1, k1))) ∨ (r, (s', (g', k'))) = (r1, (p1, (g1, k2)))).
  { destruct r1 as [[]|e|p|]; [right|right|right|left]; [destruct r2; done..|done]. }
  destruct Hclosed as [[_ [= -> -> -> ->]]|[= -> -> -> ->]]; (split; [intros n HN|intros KR Hio Hr' n [i Hi]]); [by apply Hu1|done|by rewrite Hu2, Hu1|].
  destruct (Hn1 n i Hi) as [_ Hname]. rewrite <- Hname. apply (Hgone i KR). left. unfold intf_order in Hio. rewrite Hio.
  apply (list_elem_of_fmap_2 snd _ (n, i)). by apply elem_of_map_to_list.
Qed.

(** An interface whose key cannot be read, which the datastore accepts, is
    refused by the gateway, but its device stays behind, up, after the end of
    the run. *)
Theorem bad_key_leaves_device `{WK : WgKeys} {WL : WgKeysLaws} {K : Type} {KN : Kernel K} {KL : KernelLaws} o b i e ord g k :
  kernel_reliable (K := K) → op_typ o = OpCreate → op_value o = OInterface i → ParseKey (i_PrivateKey i) = Err e → NoDup (intf_addrs i) →
  gw_intfs g !! i_Name i = None → map_named (λ _, True) (gw_intfs g) → intf_order g ord →
  ∃ k1 k2, gateway_Apply o b (g, k) = (Err e, (g, k1)) ∧ gateway_Close ord (g, k1) = (Ok tt, (g, k2)) ∧
    ∃ d, kview k2 !! i_Name i = Some d ∧ d_up d = true.
Proof.
  intros KR Ht Hv Hkey Hnd Hnone Hmap Hord. destruct (startInterface_progress KR i k Hnd) as [k1 Hst].
  exists k1, (closeAllInterfaces ord (g, k1)).2.2.
  assert (Hclose : ∀ ord k, closeAllInterfaces (K := K) ord (g, k) = (Ok tt, (g, (closeAllInterfaces ord (g, k)).2.2))).
  { clear -WL KL. induction ord as [|j ord IH]; intros k; [done|]. by rewrite close_cons. }
  split_and!; [|apply Hclose|].
  - unfold gateway_Apply. rewrite Hv, Ht. unfold applyInterface, lookup_intf. change (bool_decide (OpCreate = OpCreate)) with true. m_unfold.
    cbn [fst snd]. rewrite Hnone, on_snd_run. unfold newInterface, initialize. m_unfold. cbn [fst snd]. by rewrite Hst, Hkey.
  - assert (Hne : map_named (λ n, n ≠ i_Name i) (gw_intfs g)).
    { intros n j Hj. split; [intros ->; congruence|]. by destruct (Hmap n j Hj). }
    assert (Ho : Forall (λ j, i_Name j ≠ i_Name i) ord).
    { apply Forall_forall. intros j Hj. unfold intf_order in Hord. rewrite Hord in Hj. apply list_elem_of_fmap in Hj as ([n j'] & -> & Hj).
      apply elem_of_map_to_list in Hj. cbn. destruct (Hne n j' Hj) as [Hn ->]. done. }
    pose proof (proj2 (keeps_closeAll (λ n, n ≠ i_Name i) ord (g, k1) Ho Hne) (i_Name i) ltac:(tauto)) as Hk. cbn [fst snd] in Hk.
    rewrite Hk, (startInterface_Ok _ _ _ _ Hst), lookup_insert_eq. by eexists.
Qed.

(** *** Witness: a host with a device of its own *)
#[local] Existing Instance quiet_texts.

(** A source without changes or snapshots. *)
Definition idle_source : LogSource unit unit :=
  {| src_sub := unit; src_Snapshot _ := fail ErrUnknownType; src_Subscribe _ _ := mret tt; src_Close _ := mret tt |}.

Definition host : gmap string device := {["eth0" := mkDevice true [] None None None ∅]}.
Definition host_events : list follow_event := [EvOp (mkOp 1 OpCreate 0 (OInterface gw_wg0)); EvDone (EMsg "context canceled")].
Definition host_env : follow_env (list (net_env (EP := unit))) (list Interface) := FollowEnv [] [NetUp tt] [NetUp tt] [] [NetUp tt] [].

Definition host_run : res unit * (unit * (gateway * gmap string device)) :=
  gwCommand_run (SRC := idle_source) (K := gmap string device) (λ _, Ok "") (λ _ _, Ok tt) (λ _, Some tt) no_gwCommand (mkAPI NilAuthn NilAuthz)
    (Ok tt) "" [(host_env, host_events)] [gw_wg0] (tt, (new_gateway, host)).

Lemma host_source : source_named (SRC := remote_source (SRC := idle_source) (mkAPI NilAuthn NilAuthz) "" "" "") (λ n, n = "wg0").
Proof.
  intros envs [] snap [] Hs. exfalso. revert Hs. cbn [src_Snapshot remote_source]. unfold remote_Snapshot.
  assert (Hfail : ∀ env, ∃ e, with_temp_error (doSnapshot (SRC := idle_source) (mkAPI NilAuthn NilAuthz) "" "" "" env) tt = (Err (EPermanent e), tt)).
  { intros [e|[]]; eexists; vm_compute; reflexivity. }
  destruct envs as [|env envs]; [done|]. cbn [Retry]. unfold try. m_unfold. destruct (Hfail env) as [e ->]. done.
Qed.

Lemma gateway_run_devices_witness :
  host_run.1 = Err (EMsg "context canceled") ∧ host_run.2.2.2 !! "eth0" = host !! "eth0" ∧ host_run.2.2.2 !! "wg0" = None.
Proof.
  destruct host_run as [r [s' [g' k']]] eqn:E.
  assert (Hr : r = Err (EMsg "context canceled") ∧ gw_intfs g' = {["wg0" := gw_wg0]}).
  { assert (Hc : host_run.1 = Err (EMsg "context canceled") ∧ gw_intfs host_run.2.2.1 = {["wg0" := gw_wg0]}) by (split; vm_compute; reflexivity).
    rewrite E in Hc. exact Hc. }
  destruct Hr as [-> Hg].
  destruct (gateway_run_devices (SRC := idle_source) (K := gmap string device) (λ _, Ok "") (λ _ _, Ok tt) (λ _, Some tt) (λ n, n = "wg0") no_gwCommand
    (mkAPI NilAuthn NilAuthz) (Ok tt) "" [(host_env, host_events)] [gw_wg0] tt host _ s' g' k' E host_source) as [Hother Hown].
  - repeat constructor.
  - repeat constructor.
  - split; [reflexivity|]. split; [apply (Hother "eth0"); discriminate|].
    apply Hown; [exact sim_kernel_reliable|unfold intf_order; rewrite Hg; reflexivity|reflexivity|rewrite Hg; by eexists].
Defined.
