(* ===== verification/Commander.v ===== *)
(** * The command line

    The registry of commands ([vendor/github.com/google/subcommands]), the
    commands of the object types ([crud/command.go]), what package [main]
    registers ([api.go], [gw.go], [init.go], [main.go], [rest.go]), and [main]
    itself: how the arguments of the program become the run of a command. *)

From Stdlib Require Import Ascii.
From S2P Require Import Prelude GoStrings Sql SqlText Sqlite Net Model Crud CrudSpec CrudLog CrudLogSpec Follow Http Api Server FlagSet Flags Cmd.
Local Open Scope string_scope.

(** ** Commands and their registry *)

(** What a command sees of the registry: explaining everything, and explaining
    the command of a name. *)
Definition cmd_registry : Type := (res unit * (string → option (res unit)))%type.

(** [subcommands.Command]: a struct with its zero value, the flags that are
    stored in it (with the defaults of a configuration file), and the run. *)
Record Command (S : Type) : Type := mkCommand {
  cmd_Name : string;
  cmd_Synopsis : string;
  cmd_Usage : string;
  cmd_struct : Type;
  cmd_zero : cmd_struct;
  cmd_SetFlags : gmap string string → M (cmd_struct * FlagSet cmd_struct) unit;
  cmd_Execute : cmd_registry → cmd_struct → list string → M S Z }.
Arguments mkCommand {S} _ _ _ {_} _ _ _.
Arguments cmd_Name {S} _.
Arguments cmd_Synopsis {S} _.
Arguments cmd_Usage {S} _.
Arguments cmd_struct {S} _.
Arguments cmd_zero {S} _.
Arguments cmd_SetFlags {S} _ _ _.
Arguments cmd_Execute {S} _ _ _ _ _.

Section Subcommands.
Context {S : Type}.

Record Commander : Type := mkCommander {
  cdr_commands : list (string * list (Command S));
  cdr_important : list string;
  cdr_topFlags : list string }.

Definition NewCommander (topFlags : list string) : Commander := mkCommander [] [] topFlags.

Fixpoint register_in (cmd : Command S) (group : string) (gs : list (string * list (Command S))) : list (string * list (Command S)) :=
  match gs with
  | [] => [(group, [cmd])]
  | (g, cmds) :: gs => if bool_decide (g = group) then (g, app cmds [cmd]) :: gs else (g, cmds) :: register_in cmd group gs
  end.

Definition cdr_Register (cmd : Command S) (group : string) (cdr : Commander) : Commander :=
  mkCommander (register_in cmd group (cdr_commands cdr)) (cdr_important cdr) (cdr_topFlags cdr).

Definition ImportantFlag (name : string) (cdr : Commander) : Commander :=
  mkCommander (cdr_commands cdr) (app (cdr_important cdr) [name]) (cdr_topFlags cdr).

Definition Alias (alias : string) (cmd : Command S) : Command S :=
  mkCommand alias (cmd_Synopsis cmd) (cmd_Usage cmd) (cmd_zero cmd) (cmd_SetFlags cmd) (cmd_Execute cmd).

Definition all_commands (cdr : Commander) : list (Command S) := concat (snd <$> cdr_commands cdr).

(** The loops over the groups and their commands. *)
Definition find_command (cdr : Commander) (name : string) : option (Command S) :=
  find (λ cmd, bool_decide (cmd_Name cmd = name)) (all_commands cdr).

(** Explaining writes texts; it can fail at an important flag that does not
    exist, or at flags that cannot be defined. *)
Definition Explain (cdr : Commander) : res unit :=
  if forallb (λ name, bool_decide (name ∈ cdr_topFlags cdr)) (cdr_important cdr) then Ok tt
  else Panic "Important flag is not defined".

Definition explain (conf : gmap string string) (cmd : Command S) : res unit := (cmd_SetFlags cmd conf (cmd_zero cmd, ∅)).1.

Definition registry_of (conf : gmap string string) (cdr : Commander) : cmd_registry :=
  (Explain cdr, λ name, explain conf <$> find_command cdr name).

Definition Commander_Execute (cdr : Commander) (conf : gmap string string) (args : list string) : M S Z :=
  match args with
  | [] => _ ← lift_res (Explain cdr); mret ExitUsageError
  | name :: args =>
      match find_command cdr name with
      | None => _ ← lift_res (Explain cdr); mret ExitUsageError
      | Some cmd =>
          match cmd_SetFlags cmd conf (cmd_zero cmd, ∅) with
          | (Ok _, (c, f)) =>
              match Parse f args c with
              | Ok (c, args) => cmd_Execute cmd (registry_of conf cdr) c args
              | Err _ => _ ← lift_res (explain conf cmd); mret ExitUsageError
              | Panic p => panic p
              | Hang => hang
              end
          | (Err e, _) => fail e
          | (Panic p, _) => panic p
          | (Hang, _) => hang
          end
      end
  end.

(** *** help and flags *)
Definition help_Execute (rg : cmd_registry) (args : list string) : M S Z :=
  match args with
  | [] => _ ← lift_res rg.1; mret ExitSuccess
  | [name] => match rg.2 name with
              | Some explained => _ ← lift_res explained; mret ExitSuccess
              | None => mret ExitUsageError
              end
  | _ => mret ExitUsageError
  end.

Definition flags_Execute (rg : cmd_registry) (args : list string) : M S Z :=
  match args with
  | [] => mret ExitSuccess
  | [name] => match rg.2 name with
              | Some explained => _ ← lift_res explained; mret ExitSuccess
              | None => mret ExitFailure
              end
  | _ => mret ExitUsageError
  end.

Definition HelpCommand : Command S :=
  mkCommand "help" "describe subcommands and their syntax"
    "help [<subcommand>]:
	With an argument, prints detailed information on the use of
	the specified subcommand. With no argument, print a list of
	all commands and a brief description of each.
" tt (λ _, mret tt) (λ rg _ args, help_Execute rg args).

Definition FlagsCommand : Command S :=
  mkCommand "flags" "describe all known top-level flags"
    "flags [<subcommand>]:
	With an argument, print all flags of <subcommand>. Else,
	print a description of all known top-level flags.  (The basic
	help information only discusses the most generally important
	top-level flags.)
" tt (λ _, mret tt) (λ rg _ args, flags_Execute rg args).

End Subcommands.
Arguments Commander : clear implicits.

(** ** Object commands *)
Record command : Type := mkRestCommand {
  rc_client : ClientCommand;
  rc_urlFlag : string;
  rc_fieldValues : gmap string string }.

Definition newRestCommand : command := mkRestCommand no_ClientCommand "" ∅.
Definition at_fieldValues : ptr command (gmap string string) := λ f c, mkRestCommand (rc_client c) (rc_urlFlag c) (f (rc_fieldValues c)).

Definition command_Name (t : sqlTableAdapter) (verb : string) : string := verb ++ "-" ++ ty_name t.

(** [strings.Title] of ASCII text. *)
Definition is_lower (c : ascii) : bool := bool_decide (97 ≤ nat_of_ascii c ≤ 122)%nat.
Definition is_word (c : ascii) : bool :=
  let n := nat_of_ascii c in
  is_lower c || bool_decide (65 ≤ n ≤ 90)%nat || bool_decide (48 ≤ n ≤ 57)%nat || Ascii.eqb c "_".
Fixpoint title_from (inside : bool) (s : string) : string :=
  match s with
  | EmptyString => ""
  | String c s => String (if negb inside && is_lower c then ascii_of_nat (nat_of_ascii c - 32) else c) (title_from (is_word c) s)
  end.
Definition Title (s : string) : string := title_from false s.

Definition command_Synopsis (t : sqlTableAdapter) (verb : string) : string := Title verb ++ " a " ++ ty_name t ++ " object".
Definition command_Usage (t : sqlTableAdapter) (verb : string) : string :=
  command_Synopsis t verb ++ "." ++ String newline (String newline "").

Definition command_SetFlags (conf : gmap string string) : M (command * FlagSet command) unit :=
  _ ← StringVar (λ f c, mkRestCommand (rc_client c) (f (rc_urlFlag c)) (rc_fieldValues c)) "url" (FlagDefault conf "url" "");
  ClientCommand_SetFlags conf (λ f c, mkRestCommand (f (rc_client c)) (rc_urlFlag c) (rc_fieldValues c)).

(** [Values.add] puts a new variable into the map. *)
Definition Values_add (k : string) (v : gmap string string) : gmap string string := <[k := ""]> v.

Definition field_flag (field : string) : M (command * FlagSet command) unit :=
  let flagName := replace_char "_" "-" field in
  _ ← modify (λ s, (at_fieldValues (Values_add field) s.1, s.2));
  StringVar (λ f, at_fieldValues (alter f field)) flagName "".

Definition commandWithFlags_SetFlags (t : sqlTableAdapter) (conf : gmap string string) : M (command * FlagSet command) unit :=
  _ ← command_SetFlags conf;
  _ ← modify (λ s, (at_fieldValues (λ _, ∅) s.1, s.2));
  each field_flag (ty_allFields t).

Section Wig.
Context `{WgKeys} {S certificate pool : Type} (fs : string → res string)
  (LoadX509KeyPair : string → string → res certificate) (AppendCertsFromPEM : string → option pool)
  (ParseDuration : string → res Z).

(** The connection of a client, the standard output, and the runs of the other
    commands. *)
Context (dial : option (tls_Config certificate pool) → transport S) (print : obj → M S unit).
Context (api_run : apiCommand → M S unit) (gw_run : gwCommand → M S unit) (init_run : initCommand → list string → M S Z).

Definition rest_client (c : command) : res (transport S) :=
  HTTPClient fs LoadX509KeyPair AppendCertsFromPEM (rc_client c) dial.

Definition newCreateCommand (t : sqlTableAdapter) (url : string) : Command S :=
  mkCommand (command_Name t "create") (command_Synopsis t "create") (command_Usage t "create") newRestCommand
    (commandWithFlags_SetFlags t) (λ _ c _, create_Execute url (rc_urlFlag c) (rest_client c) t (rc_fieldValues c)).

Definition newUpdateCommand (t : sqlTableAdapter) (url : string) : Command S :=
  mkCommand (command_Name t "update") (command_Synopsis t "update") (command_Usage t "update") newRestCommand
    (commandWithFlags_SetFlags t) (λ _ c _, update_Execute url (rc_urlFlag c) (rest_client c) t (rc_fieldValues c)).

Definition newDeleteCommand (t : sqlTableAdapter) (url : string) : Command S :=
  mkCommand (command_Name t "delete") (command_Synopsis t "delete") (command_Usage t "delete") newRestCommand
    command_SetFlags (λ _ c args, delete_Execute url (rc_urlFlag c) (rest_client c) t args).

Definition newGetCommand (t : sqlTableAdapter) (url : string) : Command S :=
  mkCommand (command_Name t "get") (command_Synopsis t "get") (command_Usage t "get") newRestCommand
    command_SetFlags (λ _ c args, get_Execute url print (rc_urlFlag c) (rest_client c) t args).

Definition newFindCommand (t : sqlTableAdapter) (url : string) : Command S :=
  mkCommand (command_Name t "find") (command_Synopsis t "find") (command_Usage t "find") newRestCommand
    command_SetFlags (λ _ c args, find_Execute url print (rc_urlFlag c) (rest_client c) t args).

Definition RegisterCommands (t : sqlTableAdapter) (url : string) (cdr : Commander S) : Commander S :=
  let section := "managing '" ++ ty_name t ++ "' objects" in
  cdr_Register (newFindCommand t url) section
    (cdr_Register (newGetCommand t url) section
      (cdr_Register (newDeleteCommand t url) section
        (cdr_Register (newUpdateCommand t url) section
          (cdr_Register (newCreateCommand t url) section cdr)))).

(** ** The commands of the program *)
Definition apiCommand_Execute (c : apiCommand) : M S Z :=
  if bool_decide (ac_dburi c = "") then main_syntaxErr else fatalErr (api_run c).

Definition api_command : Command S :=
  mkCommand "api" "run the datastore API server" "api
        Run the datastore API server.

" no_apiCommand (apiCommand_SetFlags ParseDuration) (λ _ c _, apiCommand_Execute c).

(** The status API is the log's server unless it is given. *)
Definition gwCommand_Execute (c : gwCommand) : M S Z :=
  if bool_decide (gc_logURL c = "") then main_syntaxErr
  else fatalErr (gw_run (mkGwCommand (gc_client c) (gc_logURL c)
         (if bool_decide (gc_statusURL c = "") then gc_logURL c else gc_statusURL c) (gc_httpAddr c))).

Definition gw_command : Command S :=
  mkCommand "gateway" "run the gateway node" "gw
        Run the VPN gateway node.

" no_gwCommand gwCommand_SetFlags (λ _ c _, gwCommand_Execute c).

Definition init_command : Command S :=
  mkCommand "init" "initialize the database" "init
        Initialize the database.

        Its most important (and only) function is creating the initial
        admin authentication token.

" (mkInitCommand "") (λ _, initCommand_SetFlags) (λ _ c args, init_run c args).

(** The [init] functions, one per file, in the order of the files. *)
Definition init_api (cdr : Commander S) : Commander S := cdr_Register api_command "" cdr.
Definition init_gw (cdr : Commander S) : Commander S := cdr_Register (Alias "gw" gw_command) "" (cdr_Register gw_command "" cdr).
Definition init_init (cdr : Commander S) : Commander S := cdr_Register init_command "" cdr.
Definition init_main (cdr : Commander S) : Commander S :=
  cdr_Register FlagsCommand "documentation" (cdr_Register HelpCommand "documentation" (ImportantFlag "config" cdr)).
Definition init_rest (cdr : Commander S) : Commander S :=
  RegisterCommands TokenType apiURLBase (RegisterCommands InterfaceType apiURLBase (RegisterCommands PeerType apiURLBase cdr)).

Definition wig_commander : Commander S := init_rest (init_main (init_init (init_gw (init_api (NewCommander ["config"]))))).

(** *** main

    [home] is the variable HOME.  Flags that cannot be read end the program, as
    does a configuration file that cannot be read. *)
Definition main (home : string) (osArgs : list string) : M S Z :=
  match StringVar id "config" "" ("", ∅) with
  | (Ok _, (c, f)) =>
      match Parse f osArgs c with
      | Ok (configFilePath, args) =>
          match LoadFlagsFromConfig fs home configFilePath ∅ with
          | (Ok _, flagsFromConfig) => Commander_Execute wig_commander flagsFromConfig args
          | _ => mret 1%Z
          end
      | Err e => _ ← lift_res (Explain wig_commander); mret (if errors_Is e ErrHelp then 0%Z else 2%Z)
      | Panic p => panic p
      | Hang => hang
      end
  | (Err e, _) => fail e
  | (Panic p, _) => panic p
  | (Hang, _) => hang
  end.

(** ** Lemmas *)
Lemma find_named (l : list (Command S)) cmd :
  NoDup (cmd_Name <$> l) → cmd ∈ l → find (λ c, bool_decide (cmd_Name c = cmd_Name cmd)) l = Some cmd.
Proof.
  induction l as [|c l IH]; intros Hnd Hin; [by apply elem_of_nil in Hin|]. apply NoDup_cons in Hnd as [Hc Hnd]. cbn [find].
  apply elem_of_cons in Hin as [->|Hin]; [by rewrite bool_decide_eq_true_2|].
  rewrite bool_decide_eq_false_2; [by apply IH|]. intros E. apply Hc. rewrite E. by apply list_elem_of_fmap_2.
Qed.

(** Every command's flags can be defined, under names that fit. *)
Definition flags_fit (conf : gmap string string) (cmd : Command S) : bool :=
  match cmd_SetFlags cmd conf (cmd_zero cmd, ∅) with
  | (Ok _, (_, f)) => forallb name_fits (map_to_list f).*1
  | _ => false
  end.

Lemma wig_flags_fit conf : forallb (flags_fit conf) (all_commands wig_commander) = true.
Proof. vm_compute. reflexivity. Qed.

Lemma wig_names : NoDup (cmd_Name <$> all_commands wig_commander).
Proof. apply (bool_decide_unpack _). vm_compute. exact I. Qed.

Lemma wig_SetFlags conf cmd :
  cmd ∈ all_commands wig_commander →
  ∃ c f, cmd_SetFlags cmd conf (cmd_zero cmd, ∅) = (Ok tt, (c, f)) ∧ ∀ n, is_Some (f !! n) → name_fits n = true.
Proof.
  intros Hin. pose proof (wig_flags_fit conf) as Hall. rewrite forallb_forall in Hall.
  specialize (Hall cmd (proj1 (list_elem_of_In _ _) Hin)). unfold flags_fit in Hall.
  destruct (cmd_SetFlags cmd conf _) as [[[]| | |] [c f]]; [|done..]. exists c, f. split; [done|]. intros n [set Hn].
  rewrite forallb_forall in Hall. apply Hall, list_elem_of_In. apply (list_elem_of_fmap_2 fst _ (n, set)). by apply elem_of_map_to_list.
Qed.

(** Running a command by its name. *)
Lemma Execute_named conf cmd c f args :
  cmd ∈ all_commands wig_commander → cmd_SetFlags cmd conf (cmd_zero cmd, ∅) = (Ok tt, (c, f)) →
  Commander_Execute wig_commander conf (cmd_Name cmd :: args) =
    match Parse f args c with
    | Ok (c, args) => cmd_Execute cmd (registry_of conf wig_commander) c args
    | Err _ => mret ExitUsageError
    | Panic p => panic p
    | Hang => hang
    end.
Proof.
  intros Hin Hset. unfold Commander_Execute, find_command. rewrite find_named, Hset by (apply wig_names || done).
  destruct (Parse f args c) as [[]| | |]; try done. unfold explain. by rewrite Hset.
Qed.

(** ** Properties *)

(** C24: command lines are read as they are written: every registered command,
    whatever the configuration file says, has flags that can be defined, and is
    run by the arguments that begin with its name: all flags that it has, in any
    order and number, with one dash or two, their values behind a sign or as
    the next argument, are set one after the other, the other arguments are
    those behind them; a value that a flag does not take is a usage error.  A
    name that is not registered is a usage error, too. *)
Theorem command_line conf cmd :
  cmd ∈ all_commands wig_commander →
  ∃ c f, cmd_SetFlags cmd conf (cmd_zero cmd, ∅) = (Ok tt, (c, f)) ∧
    (∀ l separated args s, Forall (λ x, is_Some (f !! st_name x)) l → separated || no_flag args = true →
      Commander_Execute wig_commander conf (cmd_Name cmd :: app (concat (spell <$> l)) (spell_args separated args)) s =
        match set_all f l c with
        | Ok c' => cmd_Execute cmd (registry_of conf wig_commander) c' args s
        | Err _ => (Ok ExitUsageError, s)
        | Panic p => (Panic p, s)
        | Hang => (Hang, s)
        end) ∧
    ∀ name args s, name ∉ cmd_Name <$> all_commands wig_commander →
      Commander_Execute wig_commander conf (name :: args) s = (Ok ExitUsageError, s).
Proof.
  intros Hin. destruct (wig_SetFlags conf cmd Hin) as (c & f & Hset & Hfit). exists c, f. split; [done|]. split.
  - intros l separated args s Hl Hargs. rewrite (Execute_named conf cmd c f) by done. rewrite Parse_settings; [|by eapply Forall_impl; eauto|done].
    by destruct (set_all f l c).
  - intros name args s Hn. unfold Commander_Execute, find_command. destruct (find _ _) as [cmd'|] eqn:Hf; [|done].
    apply find_some in Hf as [Hin' Hname]. apply bool_decide_eq_true in Hname as <-. exfalso. apply Hn.
    apply list_elem_of_fmap_2. by apply list_elem_of_In.
Qed.

End Wig.

(** ** Writing objects from the command line *)
Definition flag (name value : string) : setting := Setting true true name value.
Definition field_setting (fv : string * string) : setting := flag (replace_char "_" "-" fv.1) fv.2.

(** The values of the fields: those given, the last one of each, the others
    empty. *)
Definition values_of (t : sqlTableAdapter) (vs : list (string * string)) : gmap string string :=
  foldl (λ m fv, <[fv.1 := fv.2]> m) (list_to_map ((λ field, (field, "")) <$> ty_allFields t)) vs.

(** The TLS flags without arguments. *)
Definition tls_defaults (conf : gmap string string) : TLSFlags :=
  mkTLSFlags (FlagDefault conf "ssl-client-cert" "") (FlagDefault conf "ssl-client-key" "") (FlagDefault conf "ssl-client-ca" "").

Definition set_field (field v : string) (c : command) : res command := Ok (at_fieldValues (alter (λ _, v) field) c).

(** The flags of a command that writes. *)
Record writes_with (t : sqlTableAdapter) (c : command) (f : FlagSet command) : Prop := {
  ww_url : f !! "url" = Some (λ v c, Ok (mkRestCommand (rc_client c) v (rc_fieldValues c)));
  ww_token : f !! "auth-token" = Some (λ v c, Ok (mkRestCommand (at_authToken (λ _, v) (rc_client c)) (rc_urlFlag c) (rc_fieldValues c)));
  ww_secret : f !! "auth-secret" = Some (λ v c, Ok (mkRestCommand (at_authSecret (λ _, v) (rc_client c)) (rc_urlFlag c) (rc_fieldValues c)));
  ww_fields : Forall (λ field, f !! replace_char "_" "-" field = Some (set_field field)) (ty_allFields t);
  ww_values : rc_fieldValues c = values_of t [] }.

Lemma rest_flags t conf :
  t ∈ [PeerType; InterfaceType; TokenType] →
  ∃ c f, defines (commandWithFlags_SetFlags t conf) newRestCommand ∅ c f ∧ writes_with t c f ∧
    cc_tls (rc_client c) = tls_defaults conf.
Proof.
  assert (Hp : ty_allFields PeerType = ["public_key"; "ip"; "ip6"; "interface"; "expire"]) by reflexivity.
  assert (Hi : ty_allFields InterfaceType = ["name"; "ip"; "ip6"; "fwmark"; "port"; "private_key"; "public_key"]) by reflexivity.
  assert (Ht' : ty_allFields TokenType = ["id"; "secret"; "roles"]) by reflexivity.
  intros Ht. unfold commandWithFlags_SetFlags, command_SetFlags, ClientCommand_SetFlags, ClientTLSFlags_SetFlags.
  repeat (apply elem_of_cons in Ht as [->|Ht]); [..|by apply elem_of_nil in Ht]; rewrite ?Hp, ?Hi, ?Ht'; cbn [each]; unfold field_flag;
    (eexists _, _; split; [define_flags|]; split; [|reflexivity]; split; rewrite ?Hp, ?Hi, ?Ht';
      [flag_found..|repeat constructor; flag_found|reflexivity]).
Qed.

Lemma set_fields t f vs c :
  Forall (λ field, f !! replace_char "_" "-" field = Some (set_field field)) (ty_allFields t) →
  Forall (λ fv, fv.1 ∈ ty_allFields t) vs → (∀ field, field ∈ ty_allFields t → is_Some (rc_fieldValues c !! field)) →
  set_all f (field_setting <$> vs) c = Ok (at_fieldValues (λ m, foldl (λ m fv, <[fv.1 := fv.2]> m) m vs) c).
Proof.
  intros Hf Hvs. revert c. induction Hvs as [|[field v] vs Hin _ IH]; intros c Hc; [by destruct c|].
  rewrite Forall_forall in Hf. cbn [fst] in Hin. cbn [fmap list_fmap set_all field_setting flag st_name st_value fst snd].
  rewrite (Hf field Hin). unfold set_field. cbn [mbind res_bind].
  replace (at_fieldValues (alter (λ _, v) field) c) with (at_fieldValues (λ m, <[field := v]> m) c).
  - rewrite IH; [done|]. intros field' Hf'. cbn. destruct (decide (field = field')) as [->|Hne]; [by rewrite lookup_insert_eq|].
    rewrite lookup_insert_ne by done. by apply Hc.
  - unfold at_fieldValues. f_equal. destruct (Hc field Hin) as [x Hx]. apply map_eq. intros i.
    destruct (decide (field = i)) as [<-|Hne]; [by rewrite lookup_insert_eq, lookup_alter_eq, Hx|].
    by rewrite lookup_insert_ne, lookup_alter_ne.
Qed.

Lemma values_of_fields t field : field ∈ ty_allFields t → is_Some (values_of t [] !! field).
Proof.
  intros Hin. unfold values_of. cbn [foldl]. induction (ty_allFields t) as [|x l IH]; [by apply elem_of_nil in Hin|].
  cbn [fmap list_fmap list_to_map foldr uncurry]. destruct (decide (x = field)) as [->|Hne]; [by rewrite lookup_insert_eq|].
  rewrite lookup_insert_ne by done. apply IH. by apply elem_of_cons in Hin as [->|].
Qed.

Lemma field_names_fit t field :
  t ∈ [PeerType; InterfaceType; TokenType] → field ∈ ty_allFields t → name_fits (replace_char "_" "-" field) = true.
Proof.
  assert (Hall : forallb (λ t, forallb (λ field, name_fits (replace_char "_" "-" field)) (ty_allFields t)) [PeerType; InterfaceType; TokenType] = true)
    by (vm_compute; reflexivity).
  intros Ht Hf. rewrite forallb_forall in Hall. specialize (Hall t (proj1 (list_elem_of_In _ _) Ht)). rewrite forallb_forall in Hall.
  by apply Hall, list_elem_of_In.
Qed.

(** The status that the shell is given for the outcome of a write. *)
Definition exit_of {S} (out : res unit * S) : res Z * S :=
  match out with
  | (Ok _, s) => (Ok ExitSuccess, s)
  | (Hang, s) => (Hang, s)
  | (_, s) => (Ok ExitFailure, s)
  end.

Section WriteLine.
Context `{ErrorTexts} `{WgKeys} {S certificate pool : Type} `{HasDb S} (fs : string → res string)
  (LoadX509KeyPair : string → string → res certificate) (AppendCertsFromPEM : string → option pool)
  (ParseDuration : string → res Z) (print : obj → M S unit)
  (api_run : apiCommand → M S unit) (gw_run : gwCommand → M S unit) (init_run : initCommand → list string → M S Z).
Context (w : Writer S) (renv : tx_env) (qord : gmap string string → list (string * string)) (hapi : API S)
  (ord : list sqlTableAdapter) (base : string).

(** The network has the server under its URL. *)
Definition wig_dial (_ : option (tls_Config certificate pool)) : transport S :=
  at_host base (serve (mux_handler (Model_API w renv qord hapi ord "/api/v1"))).

Context (home : string).

Abbreviation wig_commands := (wig_commander fs LoadX509KeyPair AppendCertsFromPEM ParseDuration wig_dial print api_run gw_run init_run).

Definition wig : list string → M S Z :=
  main fs LoadX509KeyPair AppendCertsFromPEM ParseDuration wig_dial print api_run gw_run init_run home.

(** The values of the configuration file. *)
Definition wig_conf : gmap string string := (LoadFlagsFromConfig fs home "" ∅).2.

Lemma load_default_ok paths m : (load_default fs paths m).1 = Ok tt.
Proof. induction paths as [|p ps IH]; [done|]. cbn [load_default]. by destruct (flagsFromFile fs p). Qed.

Lemma wig_plain args : no_flag args = true → wig args = Commander_Execute wig_commands wig_conf args.
Proof.
  intros Ha. unfold wig, main. set (f := {["config" := λ s (c : string), Ok (id (λ _, s) c)]} : FlagSet string).
  change (StringVar id "config" "" ("", ∅)) with (Ok tt, ("", f)). cbv iota beta.
  assert (Hp : Parse f args "" = Ok ("", args)). { destruct args as [|a args]; [done|]. cbn in Ha |- *. by destruct (read_arg a). }
  rewrite Hp. unfold wig_conf, LoadFlagsFromConfig. change (bool_decide ("" ≠ "")) with false. cbv iota.
  pose proof (load_default_ok (defaultFlagConfigFiles home) ∅) as Hl. by destruct (load_default _ _ _) as [[[]| | |] m].
Qed.

Definition write_command (t : sqlTableAdapter) (k : op_kind) : Command S :=
  match k with
  | DoUpdate => newUpdateCommand fs LoadX509KeyPair AppendCertsFromPEM wig_dial t apiURLBase
  | _ => newCreateCommand fs LoadX509KeyPair AppendCertsFromPEM wig_dial t apiURLBase
  end.

Lemma write_registered t k : t ∈ [PeerType; InterfaceType; TokenType] → write_command t k ∈ all_commands wig_commands.
Proof.
  intros Ht. apply elem_of_cons in Ht as [->|Ht].
  { destruct k; [apply (list_elem_of_lookup_2 _ 6)|apply (list_elem_of_lookup_2 _ 7)|apply (list_elem_of_lookup_2 _ 6)]; reflexivity. }
  apply elem_of_cons in Ht as [->|Ht].
  { destruct k; [apply (list_elem_of_lookup_2 _ 11)|apply (list_elem_of_lookup_2 _ 12)|apply (list_elem_of_lookup_2 _ 11)]; reflexivity. }
  apply list_elem_of_singleton in Ht as ->.
  destruct k; [apply (list_elem_of_lookup_2 _ 16)|apply (list_elem_of_lookup_2 _ 17)|apply (list_elem_of_lookup_2 _ 16)]; reflexivity.
Qed.

Definition write_line (t : sqlTableAdapter) (k : op_kind) (username password : string) (vs : list (string * string)) : list string :=
  command_Name t (verb_of k) ::
    concat (spell <$> flag "url" base :: flag "auth-token" username :: flag "auth-secret" password :: (field_setting <$> vs)).

(** The command line sets what it says. *)
Definition line_command (t : sqlTableAdapter) (username password : string) (vs : list (string * string)) : command :=
  mkRestCommand (mkClientCommand (tls_defaults wig_conf) username password) base (values_of t vs).

Lemma write_line_parsed t k username password vs :
  t ∈ [PeerType; InterfaceType; TokenType] → k ≠ DoDelete → Forall (λ fv, fv.1 ∈ ty_allFields t) vs →
  let c := line_command t username password vs in
  wig (write_line t k username password vs) =
    match k with
    | DoUpdate => update_Execute apiURLBase base (rest_client fs LoadX509KeyPair AppendCertsFromPEM wig_dial c) t (values_of t vs)
    | _ => create_Execute apiURLBase base (rest_client fs LoadX509KeyPair AppendCertsFromPEM wig_dial c) t (values_of t vs)
    end.
Proof.
  intros Ht Hk Hvs c'. destruct (rest_flags t wig_conf Ht) as (c & f & Hdef & Hw & Hcert).
  set (l := flag "url" base :: flag "auth-token" username :: flag "auth-secret" password :: (field_setting <$> vs)).
  assert (Hl : Forall (λ x, name_fits (st_name x) = true ∧ is_Some (f !! st_name x)) l).
  { constructor; [by cbn; rewrite (ww_url _ _ _ Hw)|]. constructor; [by cbn; rewrite (ww_token _ _ _ Hw)|].
    constructor; [by cbn; rewrite (ww_secret _ _ _ Hw)|].
    apply Forall_fmap. eapply Forall_impl; [exact Hvs|]. intros [field v] Hin. cbn [fst] in Hin. cbn. split; [by apply (field_names_fit t)|].
    pose proof (ww_fields _ _ _ Hw) as Hf. rewrite Forall_forall in Hf. by rewrite (Hf field Hin). }
  assert (Hset : set_all f l c = Ok c').
  { unfold l. cbn [set_all flag st_name st_value]. rewrite (ww_url _ _ _ Hw), (ww_token _ _ _ Hw), (ww_secret _ _ _ Hw). cbn [mbind res_bind].
    rewrite (set_fields t); [|apply Hw|done|cbn; rewrite (ww_values _ _ _ Hw); apply values_of_fields].
    unfold c', line_command, at_fieldValues, at_authToken, at_authSecret. cbn. by rewrite Hcert, (ww_values _ _ _ Hw). }
  pose proof (Parse_settings f l false [] c Hl eq_refl) as Hp. cbn [spell_args] in Hp. rewrite app_nil_r, Hset in Hp.
  unfold write_line. fold l. rewrite wig_plain by (by destruct k).
  destruct k; [..|done].
  - pose proof (Execute_named fs LoadX509KeyPair AppendCertsFromPEM ParseDuration wig_dial print api_run gw_run init_run wig_conf
      (write_command t DoCreate) c f (concat (spell <$> l)) (write_registered t DoCreate Ht) Hdef) as He.
    cbn [write_command newCreateCommand newUpdateCommand cmd_struct cmd_Name cmd_Execute] in He. rewrite Hp in He. cbn [verb_of]. by rewrite He.
  - pose proof (Execute_named fs LoadX509KeyPair AppendCertsFromPEM ParseDuration wig_dial print api_run gw_run init_run wig_conf
      (write_command t DoUpdate) c f (concat (spell <$> l)) (write_registered t DoUpdate Ht) Hdef) as He.
    cbn [write_command newCreateCommand newUpdateCommand cmd_struct cmd_Name cmd_Execute] in He. rewrite Hp in He. cbn [verb_of]. by rewrite He.
Qed.

Lemma from_values_type t v o :
  t ∈ [PeerType; InterfaceType; TokenType] → NewInstanceFromValues (ty_new t) v = Ok o → typeOf o = ty_new t.
Proof.
  intros Ht. repeat (apply elem_of_cons in Ht as [->|Ht]); [..|by apply elem_of_nil in Ht];
    cbn [ty_new PeerType InterfaceType TokenType NewSQLTableType NewInstanceFromValues];
    unfold Peer_from_values, Interface_from_values, Token_from_values, mbind, res_bind, mret, res_ret;
    repeat case_match; intros; simplify_eq; done.
Qed.

Lemma rest_client_plain t username password vs :
  FlagDefault wig_conf "ssl-client-cert" "" = "" →
  rest_client fs LoadX509KeyPair AppendCertsFromPEM wig_dial (line_command t username password vs) =
    Ok (api_at w renv qord hapi username password base ord).
Proof.
  intros Hc. unfold rest_client, HTTPClient, TLSClientConfig. cbn [line_command rc_client cc_tls tls_defaults tf_cert].
  by rewrite Hc, bool_decide_eq_true_2 by (by left).
Qed.

(** C20: from the command line to the database: [wig create-T] or
    [wig update-T] with the URL of the server, credentials and any fields of the
    type as flags writes the object of these values: values that make no object
    are a failure without effect; otherwise a client that the server grants the
    target has the server's writer run on an object of the same type with the
    same SQL parameters, and the exit status tells whether that succeeded.
    Fields without a flag are empty, for an update too. *)
Theorem wig_writes t k username password vs s :
  iteration_of model ord → t ∈ ord → k ≠ DoDelete → base ≠ "" → has_suffix "/" base = false →
  FlagDefault wig_conf "ssl-client-cert" "" = "" → Forall (λ fv, fv.1 ∈ ty_allFields t) vs →
  match NewInstanceFromValues (ty_new t) (values_of t vs) with
  | Ok o => obj_wire_ok o = true → may hapi username password ("write-" ++ ty_name t) s →
      ∃ o', typeOf o' = typeOf o ∧ named_args o' = named_args o ∧
        wig (write_line t k username password vs) s = exit_of (w_write w k o' s)
  | Err _ => wig (write_line t k username password vs) s = (Ok ExitFailure, s)
  | _ => True
  end.
Proof.
  intros Hord Ht Hk Hb Hsl Hcert Hvs. pose proof (proj1 (iteration_types ord t Hord) Ht) as Ht3.
  rewrite (write_line_parsed t k username password vs Ht3 Hk Hvs), rest_client_plain by done. cbv zeta.
  destruct (NewInstanceFromValues (ty_new t) (values_of t vs)) as [o|e|p|] eqn:Ho; [|by unfold create_Execute, update_Execute; rewrite Ho; destruct k|done..].
  intros Hw Hmay. destruct (wire_roundtrip o Hw) as (j & o' & Hm & Hu & Hty & Ha & _). exists o'. split_and!; [done..|].
  assert (Hrun : client_write (api_at w renv qord hapi username password base ord) (JoinURL [base; "/api/v1"]) t k o s = over_http (w_write w k o' s)).
  { rewrite client_write_at by done. apply (client_write_run w renv qord hapi username password ord t k o j o'); try done.
    by rewrite <- (from_values_type t _ o Ht3 Ho). }
  destruct k; [..|done]; unfold create_Execute, update_Execute, fatalErr, try; rewrite Ho; m_unfold; rewrite command_client_run by done;
    cbn [client_write tc_client tc_uri tc_t] in Hrun |- *; change apiURLBase with "/api/v1"; rewrite Hrun; by destruct (w_write w _ o' s) as [[] ?].
Qed.

(** The flag for the expiration of a peer has no effect: creating or
    updating a peer with it does what the same command line does without it, so
    that no peer from the command line ever expires. *)
Theorem expire_flag_ignored k username password vs expire :
  k ≠ DoDelete → Forall (λ fv, fv.1 ∈ ty_allFields PeerType) vs →
  wig (write_line PeerType k username password (app vs [("expire", expire)])) = wig (write_line PeerType k username password vs) ∧
  ∀ o, NewInstanceFromValues TPeer (values_of PeerType vs) = Ok o → ∃ p, o = OPeer p ∧ p_Expire p = 0%Z.
Proof.
  intros Hk Hvs. assert (Hin : PeerType ∈ [PeerType; InterfaceType; TokenType]) by left. split.
  - rewrite (write_line_parsed PeerType k username password vs) by done. rewrite write_line_parsed; [|done..|].
    + assert (Hv : NewInstanceFromValues (ty_new PeerType) (values_of PeerType (app vs [("expire", expire)])) =
        NewInstanceFromValues (ty_new PeerType) (values_of PeerType vs)).
      { unfold values_of. rewrite foldl_app. cbn [foldl fst snd ty_new PeerType NewSQLTableType NewInstanceFromValues].
        unfold Peer_from_values, Values_Get. by rewrite !lookup_insert_ne. }
      cbv zeta. unfold create_Execute, update_Execute. by rewrite Hv.
    + apply Forall_app. split; [done|]. by repeat constructor.
  - intros o. cbn [NewInstanceFromValues]. unfold Peer_from_values, mbind, res_bind, mret, res_ret. repeat case_match; intros; simplify_eq; by eexists.
Qed.

End WriteLine.

(** *** Witnesses *)
#[local] Existing Instance quiet_texts.
#[local] Existing Instance model_encoding.
#[local] Instance demo_keys : WgKeys :=
  {| wgkey := string; zero_key := ""; ParseKey s := Ok s; Key_String := id; Key_PublicKey := id |}.

Definition demo_fs : string → res string := λ _, Err (EMsg "no such file").

Lemma command_line_witness :
  let cdr := wig_commander (S := unit) demo_fs (λ _ _, Ok tt) (λ _, Some tt) (λ _, Err (EMsg "no duration")) (λ _ _, fail (ENet "offline"))
    (λ _, mret tt) (λ _, mret tt) (λ _, mret tt) (λ c args, mret (Z.of_nat (String.length (ic_dburi c) + length args))) in
  Commander_Execute cdr ∅ ["init"; "-db"; "wig.db"; "id"; "secret"] tt = (Ok 8%Z, tt).
Proof.
  destruct (command_line (S := unit) demo_fs (λ _ _, Ok tt) (λ _, Some tt) (λ _, Err (EMsg "no duration")) (λ _ _, fail (ENet "offline"))
    (λ _, mret tt) (λ _, mret tt) (λ _, mret tt) (λ c args, mret (Z.of_nat (String.length (ic_dburi c) + length args))) ∅
    (init_command (λ c args, mret (Z.of_nat (String.length (ic_dburi c) + length args)))))
    as (c & f & Hset & Hrun & _).
  - apply (list_elem_of_lookup_2 _ 3). reflexivity.
  - injection Hset as <- <-.
    apply (Hrun [Setting false false "db" "wig.db"] false ["id"; "secret"] tt); [|reflexivity].
    constructor; [by eexists|constructor].
Defined.

Lemma wig_writes_witness :
  let wr := newCrudLogWriter (H := model_crud sample_ord 1) tx_ok 7 in
  ∃ o', typeOf o' = TToken ∧ named_args o' = named_args (OToken (mkToken "bob" "x" (Some ["follower"]))) ∧
    wig demo_fs (λ _ _, Ok tt) (λ _, Some tt) (λ _, Err (EMsg "no duration")) (λ _, mret tt) (λ _, mret tt) (λ _, mret tt) (λ _ _, mret 0%Z)
      wr tx_ok map_to_list (mkAPI NilAuthn NilAuthz) (map_to_list (byName model)).*2 "http://localhost:5005" "/root"
      ["create-token"; "--url=http://localhost:5005"; "--auth-token="; "--auth-secret="; "--id=bob"; "--secret=x"; "--roles=follower"]
      (Wrap initial_db) = exit_of (w_Create wr o' (Wrap initial_db)).
Proof.
  pose proof (wig_writes demo_fs (λ _ _, Ok tt) (λ _, Some tt) (λ _, Err (EMsg "no duration")) (λ _, mret tt) (λ _, mret tt) (λ _, mret tt) (λ _ _, mret 0%Z)
    (newCrudLogWriter (H := model_crud sample_ord 1) tx_ok 7) tx_ok map_to_list (mkAPI NilAuthn NilAuthz) (map_to_list (byName model)).*2
    "http://localhost:5005" "/root" TokenType DoCreate "" "" [("id", "bob"); ("secret", "x"); ("roles", "follower")] (Wrap initial_db)) as Hw.
  apply Hw.
  - apply Permutation_refl.
  - apply iteration_types; [apply Permutation_refl|]. right; right; left.
  - discriminate.
  - discriminate.
  - reflexivity.
  - reflexivity.
  - repeat constructor.
  - reflexivity.
  - intros req _. by exists None.
Defined.

Lemma expire_flag_ignored_witness :
  let run := wig (S := logdb) demo_fs (λ _ _, Ok tt) (λ _, Some tt) (λ _, Err (EMsg "no duration")) (λ _, mret tt) (λ _, mret tt) (λ _, mret tt)
      (λ _ _, mret 0%Z) ReadOnlyWriter tx_ok map_to_list (mkAPI NilAuthn NilAuthz) [] "http://localhost:5005" "/root" in
  run ["create-peer"; "--url=http://localhost:5005"; "--auth-token="; "--auth-secret="; "--interface=wg0"; "--expire=2030-01-01"] =
  run ["create-peer"; "--url=http://localhost:5005"; "--auth-token="; "--auth-secret="; "--interface=wg0"].
Proof.
  apply (proj1 (expire_flag_ignored (S := logdb) demo_fs (λ _ _, Ok tt) (λ _, Some tt) (λ _, Err (EMsg "no duration")) (λ _, mret tt) (λ _, mret tt)
    (λ _, mret tt) (λ _ _, mret 0%Z) ReadOnlyWriter tx_ok map_to_list (mkAPI NilAuthn NilAuthz) [] "http://localhost:5005" "/root"
    DoCreate "" "" [("interface", "wg0")] "2030-01-01" ltac:(discriminate) ltac:(repeat constructor))).
Defined.
